(* ===== verification/_CoqProject ===== *)
-Q . S2P
Prelude.v
Messages.v
Engine.v
Errors.v
Map.v
Session.v
Backup.v
Worker.v
Journal.v
Mutation.v
Rpc.v
Accounts.v
Transactions.v
Query.v
Commodities.v
SessionService.v
Faults.v
Recovery.v
WasApplied.v
Startup.v
Protocol.v
Acknowledged.v
Contract.v
Requests.v
Typing.v
Lifecycle.v
Concurrent.v
Linearizable.v
Readback.v
SiteTypes.v
FailingDisk.v
Signals.v
Mkbook.v
Edits.v
Balanced.v
MemoryEngine.v
MemoryStore.v
MemoryEdits.v
MemorySession.v
Codec.v
Witnesses.v
EngineWitnesses.v
DaemonWitnesses.v
FaultWitnesses.v
EditsWitnesses.v
LifecycleWitnesses.v
ConcurrentWitnesses.v
