(* ===== verification/Prelude.v ===== *)
(** * daichod: verification of the libgnucash engine shim daemon

    daichod serves one GnuCash book over gRPC on a Unix socket. A request
    arrives at an RPC handler, the handler runs on the one engine thread, and
    it reads or edits the book through libgnucash; a sidecar SQLite journal
    records every mutation so that a client may re-send one after a crash
    without its being applied twice. This library models the daemon's own code
    (everything under [src/] but the gRPC wiring) and proves what it promises.

    ** Files, and the code they model

    - [Prelude.v]: this header; results of C++ code, the state, exception and
      abort monad [M] the handlers are written in, the string functions, and
      sequences of steps ([star], [lstar]) with invariants and simulation.
    - [Messages.v]: [proto/shim.proto] and [journal/internal.proto], one record
      per message, one inductive type per enum; [Proto] is the codec.
    - [Engine.v]: the libgnucash entry points the daemon calls, as classes
      [GncValues] (values) and [Gnc] (objects of a book), with the laws
      [GncValuesOk] and [GncTreeOk]; exact sums of engine numbers.
    - [Errors.v]: [rpc/error.h], [rpc/error.cpp]: [ShimError], the split into
      deterministic verdicts and transient refusals, gRPC statuses.
    - [Map.v]: [engine/map.cpp]: messages to engine values and back.
    - [Session.v]: [engine/session.cpp], [util/fail_point.h]: opening and
      closing the book, the stale-lock inference, the startup integrity gate.
    - [Backup.v]: [util/backup.cpp]: the daily snapshot over a file system
      with partial failures.
    - [Worker.v]: [engine/worker.cpp]: the bounded queue as data and its
      threads as a transition system.
    - [Journal.v]: [journal/journal.cpp]: the two tables, every method as its
      SQL statement, a schedule of I/O failures.
    - [Mutation.v]: [rpc/mutation.h], [rpc/mutation.cpp], [util/crash_point.h]:
      [RunMutation], the one path of every mutating RPC.
    - [Rpc.v]: [rpc/rpc_util.h], and the shape of a handler: a preparation that
      refuses without a trace, the pending record, the commit; its [Plan].
    - [Accounts.v], [Transactions.v] with [Query.v], [Commodities.v],
      [SessionService.v]: the services of [rpc/], every RPC. A mutating RPC [R]
      of the code is [R] here; [R_edit] is its callback up to
      [record_pending()], [R_commit] what follows where that is more than a
      commit call, [R_apply] the callback; [R_fn] is the body of a read.
    - [Recovery.v], [WasApplied.v]: [journal/recovery.cpp]: the startup
      reconciliation loop over any verdict, and the verdict.
    - [Startup.v]: [main.cpp]: options, locks, the startup sequence, shutdown.
    - [Protocol.v]: the protocol and the reconciliation put together, with
      crashes and restarts, against an abstract specification; the engine and
      the handlers enter through the interface [EngineContract].
    - [Contract.v]: [EngineContract] for the eight mutating handlers and the
      verdict of [WasApplied.v], from laws on what libgnucash stores and when
      ([GncStore], [GncStoreOk]); the guarantee for the daemon itself.
    - [Faults.v], [Acknowledged.v]: a journal whose statements fail while the
      process lives on: what each failing statement leaves, and what an
      acknowledgement is worth under any of them.
    - [Requests.v]: every RPC as a client issues it ([Command], [perform]), cut
      into the closure that runs on the engine thread ([work]) and what the
      caller's thread makes of its result ([answer]).
    - [Typing.v]: what bytes the journal's rows may hold, kept by every run.
    - [Lifecycle.v]: whole processes one after another on one book and one
      journal ([site], [site_step]): the startup of [Startup.v] or its failure,
      mutations, reads, [OpenBook] and [CloseBook], deaths, shutdown; the
      guarantee from the first start on. What is assumed of a run - what mutations
      find when their turn comes ([any_mutation], [request_fits]) and how the
      journal's statements fail ([any_disk], [sound_disk]) - is an argument of the
      steps, so that each theorem shows what it needs.
    - [Concurrent.v]: any number of gRPC threads in front of the engine thread
      of [Worker.v] ([Server], [server_step]), and an executable scheduler of
      them ([play]); [Linearizable.v]: the same inside the deployment of
      [Lifecycle.v] ([live], [live_step]), reduced to one client at a time;
      [Readback.v]: what the read RPCs show of acknowledged mutations there;
      [SiteTypes.v]: the types of [Typing.v] over whole deployments;
      [FailingDisk.v]: the same with journal statements failing at any moment
      ([rough_live]).
    - [Signals.v]: [Run] of [main.cpp] thread by thread: the masked signals, the
      signal thread, the main thread from the listening server to the exit code,
      the final close on the engine thread ([own], [outside]).
    - [Mkbook.v]: [tools/mkbook/mkbook.cpp], the tool that makes the book.
    - [Edits.v]: what the edits of the handlers leave in the engine, read back
      as the contract shows it, from laws on the engine's setters.
      [Balanced.v]: when the engine's own balance agrees with the plan's, and
      what is stored of a transaction then.
    - [MemoryEngine.v], [MemoryStore.v], [MemoryEdits.v], [MemorySession.v]: an
      executable engine in memory, an instance of every engine class and its
      laws. [Codec.v]: a wire format for every message, SQLite and the gRPC
      runtime, with their laws.
    - [Witnesses.v], [EngineWitnesses.v], [DaemonWitnesses.v],
      [FaultWitnesses.v], [EditsWitnesses.v], [LifecycleWitnesses.v],
      [ConcurrentWitnesses.v]: every theorem with hypotheses at a concrete input;
      among them a deployment whose first process dies after an engine commit and
      whose second answers the client and is shut down, one with two callers that
      send the same mutation at once, and a disk that is full.

    ** Modelling conventions

    Stateful code is [Prog S A], a function from a state to a state and a
    result: a value, a thrown [exn], or [Died] for [std::abort()] and for a
    loop that never ends. A throw keeps the state changes made before it. A
    check that only reads is a sum, an error or a value. The states are:
    [World] (engine, journal, queue, clock, crash point) for a request,
    [Session] for the book session, whose [qof] field is libgnucash's state;
    [Journal], [EngineWorker], [Fs] and [Machine] for their components.
    64-bit numbers are [Z]; where the code narrows an integer ([to_GDateDay],
    [to_GDateYear], [to_pid_t], [to_size_t], [stoi], [stoul]) the wrap-around
    or the range error is written out. A string is the bytes of a
    [std::string]; where it passes through a C string the model applies
    [c_str], which cuts it at the first NUL. [std::map] and the tables are
    [gmap]; where the order of a [std::map] shows, its items are sorted.

    ** The outside, and what is assumed of it

    Code outside the repository is a parameter: libgnucash ([Gnc], [SessionEnv]),
    SQLite ([SqliteEnv]), protobuf ([Proto]), gRPC ([GrpcEnv]), SHA-256, the clock
    and the operating system's answers. What theorems use of it are the law
    classes [GncValuesOk], [GncTreeOk], [SessionEnvOk], [SqliteEnvOk], [ProtoOk],
    [GrpcEnvOk], [GncLookupOk], [GncStoreOk], [GncSessionStoreOk] and
    [GncNewStoreOk]: round trips of GUIDs, dates and messages, exact or failing
    addition, the effect of the account calls on the parents; a lookup by GUID
    finds the object with that GUID; nothing is stored before a commit, what is
    committed is stored as it was - the splits of a transaction in their order
    too, as [TransactionToProto] of [engine/map.cpp] relies on for the response to
    match the book after the commit - and nothing else the contract shows changes;
    opening and closing a session store nothing, and a load without an error shows
    the stored book; a new store that was saved is a book with its root account
    and no splits. [Edits.v] adds the laws of the setters ([GncTransEditsOk],
    [GncAccountEditsOk], [GncPriceEditsOk], [GncCalendarOk]): a setter changes its
    field of its object and, within the engine's units, keeps the number it is
    given. [Balanced.v] adds that the engine's imbalance is zero when the values
    of the splits sum to zero in 64 bits ([GncImbalanceOk]). Every class has a
    concrete instance that satisfies its laws.

    The theorems of [Edits.v] hold where the engine can hold the request: the
    values and quantities of a transaction are whole numbers of the units of its
    currency and accounts, days are in the engine's calendar (years 1400 to
    9999), and a price's source is one the engine knows - it ignores others.

    Signals are those of POSIX: a signal for the process stays pending while every
    thread blocks it, a new thread inherits its maker's mask. The daemon handles no
    others than SIGTERM and SIGINT; the rest, and SIGKILL, are deaths.

    The guarantees that speak of the book ([Contract.v], [Lifecycle.v], the atomic
    service of [Linearizable.v], [Readback.v]) are for runs in which no statement
    on the journal fails ([sound_disk]; [posted_twice] and [edit_left_open] of
    [FaultWitnesses.v] show why) and every mutation fits. They ask of each request
    ([fits]) what the code leaves to libgnucash: that the planned values survive
    the engine's rounding ([engine_balanced]), that an account with splits keeps
    its commodity, and that no price of the same commodity, currency and day is in
    the way; the engine would then store something else than the pending response
    says; the daemon does accept such requests ([thirds_unbalanced_in_cents] of
    [EditsWitnesses.v]). For transactions [Balanced.v] derives it from the
    request: whole numbers of the currency's units, with sums that stay in 64
    bits.

    ** What the theorems show

    - Exactly once (Protocol.v, Contract.v, Lifecycle.v), where mutations fit and
      statements succeed: every sequence of processes on the book, with failed
      starts, deaths at any crash point, openings, closings and shutdowns, is a
      run of a service that applies each mutation atomically and at most once;
      acknowledged mutations took effect exactly once, what is listed as
      indeterminate took none, and what one process leaves never keeps the next
      from serving.
    - Concurrency (Concurrent.v, Linearizable.v): clients that call at once see
      what they would see one after another: each call takes effect at one moment
      between its beginning and its reply, whatever the requests and the disk;
      every call is answered.
    - Read your writes (Readback.v): in any later process too, a read of an
      acknowledged mutation's object shows what its acknowledgement said, until a
      later mutation takes effect there.
    - Shutdown (Signals.v): once masked, SIGTERM and SIGINT never end the process
      but lead, under every schedule, to the end of it; the threads together do
      what the sequential [run_daemon] of [Startup.v] does: every caller has its
      reply, every accepted task has run, the book is closed, the socket is gone.
    - A failing disk (Faults.v, Acknowledged.v, FailingDisk.v): which state each
      failing statement leaves; an acknowledged mutation is never carried out again
      and always answered alike. Exactly-once does need the outcome's record: when it
      fails after the commit, a retry is carried out again.
    - The book (Mkbook.v): what the tool makes is a book the daemon serves.
    - Requests are shown (Edits.v, Balanced.v): what a post, an update, an account
      request or a price answers is the request, field by field, where the engine
      can hold it exactly; a transaction is then stored as it was answered.
    - Types (Typing.v, SiteTypes.v): every run, and every life of a deployment,
      keeps the journal's bytes those of the RPC their mutation belongs to.
    - The protocol (Mutation.v): a re-sent id replays its recorded answer
      without executing; exactly success and deterministic verdicts are
      recorded; under any I/O failures the journal stays well formed.
    - The journal (Journal.v) and reconciliation (Recovery.v, WasApplied.v):
      rows are immutable, the listing of unresolved mutations is exact,
      reconciliation ends, leaves nothing pending and records exactly what the
      verdict finds.
    - The handlers (Accounts.v, Transactions.v, Commodities.v): each implements
      its plan, so everything refusable is refused before an engine object is
      touched; the account tree stays acyclic, a planned transaction is exactly
      balanced, claimed and doomed splits partition the old ones.
    - Reads (Query.v, Commodities.v, SessionService.v): pages are complete,
      disjoint and bounded, the trial balance is exact, reads change nothing.
    - Session and startup (Session.v, Startup.v, Backup.v): a live lock is
      never broken, closing always tears down, the gate passes exactly the
      balanced books, a second daemon on the same lock is refused, snapshots are
      whole or absent, the exit code is that of the final close.
    - The queue (Worker.v): bounded, in order, no lost wake-up, drains end.
    - Values (Map.v, Errors.v): exact conversions, statuses that carry their
      error.

    ** Fuel

    Two loops of the code are not structural. The walk to the root in
    [CheckNoCycle] runs on the depth of the new parent, and is shown to need no
    more on an acyclic tree. [follow_pages], the client's loop over page tokens,
    runs on the number of matching splits, and is shown to finish within it.

    ** Not modelled

    The gRPC server object (whether it gets its socket is an answer of the
    machine; of its shutdown [Signals.v] takes what gRPC documents: no calls after
    [Shutdown], and [Wait] returns once the handlers have), its transport and
    generated stubs, messages on stderr of the daemon, [Session::GlobalInit] and [GlobalShutdown], which only
    call library setup, links and [".."] in backup paths, and the rendering and
    arithmetic inside libgnucash. What a book looks like after a journal statement
    failed with an edit open is left to libgnucash too: [FailingDisk.v] speaks of
    answers, [Linearizable.v] of the order of the calls; what [Lifecycle.v],
    [Linearizable.v] and [Readback.v] say of the book assumes that no statement
    fails. *)
From stdpp Require Export gmap strings list fin_maps sorting pretty.
From Stdlib Require Export Ascii.

(** ** Results of C++ code: a value, a thrown exception, or process death

    [Died] is [std::abort()] at a crash point: nothing after it runs and no
    handler catches it. *)
Inductive res (X A : Type) : Type :=
| Ret (a : A)
| Throw (e : X)
| Died.
Arguments Ret {X A} a.
Arguments Throw {X A} e.
Arguments Died {X A}.

(** ** The state, exception and abort monad

    Stateful code is explicit state passing: a computation reads a state and
    returns the state it leaves behind together with its result. A throw keeps
    the state changes made before it, as C++ does. *)
Definition M (X S A : Type) : Type := S -> S * res X A.

Definition ret {X S A} (a : A) : M X S A := fun s => (s, Ret a).
Definition throw {X S A} (e : X) : M X S A := fun s => (s, Throw e).
Definition die {X S A} : M X S A := fun s => (s, Died).
Definition bind {X S A B} (m : M X S A) (k : A -> M X S B) : M X S B :=
  fun s =>
    match m s with
    | (s', Ret a) => k a s'
    | (s', Throw e) => (s', Throw e)
    | (s', Died) => (s', Died)
    end.
(** [try { m } catch (e) { h(e) }]. *)
Definition catch {X S A} (m : M X S A) (h : X -> M X S A) : M X S A :=
  fun s =>
    match m s with
    | (s', Throw e) => h e s'
    | r => r
    end.
Definition gets {X S A} (f : S -> A) : M X S A := fun s => (s, Ret (f s)).
Definition modify {X S} (f : S -> S) : M X S unit := fun s => (f s, Ret tt).
(** Runs a computation over a component of a larger state. *)
Definition zoom {X S T A} (get : T -> S) (put : S -> T -> T) (m : M X S A) :
  M X T A :=
  fun t => let '(s', r) := m (get t) in (put s' t, r).

(** [for (x : l) f(x);] *)
Fixpoint for_each {X S A} (l : list A) (f : A -> M X S unit) : M X S unit :=
  match l with
  | [] => ret tt
  | a :: l' => bind (f a) (fun _ => for_each l' f)
  end.

Declare Scope prog_scope.
Delimit Scope prog_scope with prog.
Notation "x <~ m ;; k" := (bind m (fun x => k))
  (at level 100, m at next level, right associativity) : prog_scope.
Notation "m ;;; k" := (bind m (fun _ => k))
  (at level 100, right associativity) : prog_scope.

(** Code that only reads and can fail is a sum: an error or a value. *)
Definition sbind {X A B} (m : X + A) (k : A -> X + B) : X + B :=
  match m with inl e => inl e | inr a => k a end.
Notation "x <-? m ;; k" := (sbind m (fun x => k))
  (at level 100, m at next level, right associativity) : prog_scope.
Notation "m ?;; k" := (sbind m (fun _ => k))
  (at level 100, right associativity) : prog_scope.

Lemma sbind_inr {X A B} (m : X + A) (k : A -> X + B) b :
  sbind m k = inr b -> exists a, m = inr a /\ k a = inr b.
Proof. destruct m as [e|a]; cbn; [done|eauto]. Qed.

Lemma sbind_inl {X A B} (m : X + A) (k : A -> X + B) e :
  sbind m k = inl e -> m = inl e \/ exists a, m = inr a /\ k a = inl e.
Proof. destruct m as [e'|a]; cbn; [intros [= ->]; by left|eauto]. Qed.

(** *** Symbolic execution of [bind] and [catch] *)
Section monad.
Context {X S A B : Type}.
Implicit Types (m : M X S A) (k : A -> M X S B) (s : S).

Lemma bind_ret_eq m k s s' a :
  m s = (s', Ret a) -> bind m k s = k a s'.
Proof. by intros H; unfold bind; rewrite H. Qed.

Lemma bind_throw_eq m k s s' e :
  m s = (s', Throw e) -> bind m k s = (s', Throw e).
Proof. by intros H; unfold bind; rewrite H. Qed.

Lemma bind_died_eq m k s s' :
  m s = (s', Died) -> bind m k s = (s', Died).
Proof. by intros H; unfold bind; rewrite H. Qed.

Lemma bind_inv_ret m k s s' b :
  bind m k s = (s', Ret b) ->
  exists a s1, m s = (s1, Ret a) /\ k a s1 = (s', Ret b).
Proof. unfold bind. destruct (m s) as [s1 [a| |]]; naive_solver. Qed.

(** A step either goes on into the continuation or ends the computation. *)
Lemma bind_cases m k s s' r :
  bind m k s = (s', r) ->
  (exists a s1, m s = (s1, Ret a) /\ k a s1 = (s', r)) \/
  (exists e, m s = (s', Throw e) /\ r = Throw e) \/
  (m s = (s', Died) /\ r = Died).
Proof. unfold bind. destruct (m s) as [s1 [a| |]]; naive_solver. Qed.

Lemma bind_assoc {C} m k (h : B -> M X S C) s :
  bind (bind m k) h s = bind m (fun a => bind (k a) h) s.
Proof. unfold bind. by destruct (m s) as [s1 [a| |]]. Qed.

Lemma catch_ret_eq m (h : X -> M X S A) s s' a :
  m s = (s', Ret a) -> catch m h s = (s', Ret a).
Proof. by intros H; unfold catch; rewrite H. Qed.

Lemma catch_throw_eq m (h : X -> M X S A) s s' e :
  m s = (s', Throw e) -> catch m h s = h e s'.
Proof. by intros H; unfold catch; rewrite H. Qed.

Lemma catch_died_eq m (h : X -> M X S A) s s' :
  m s = (s', Died) -> catch m h s = (s', Died).
Proof. by intros H; unfold catch; rewrite H. Qed.
End monad.

(** *** Relational invariants

    [preserves R m]: whatever [m] does, and however it ends, the state it
    leaves is related to the state it started from. With a preorder this is
    compositional, so one [preserving] covers a whole handler. *)
Definition preserves {X S A} (R : S -> S -> Prop) (m : M X S A) : Prop :=
  forall s s' r, m s = (s', r) -> R s s'.

Create HintDb preserves.

Section preserves.
Context {X S : Type} (R : S -> S -> Prop) `{!PreOrder R}.

Lemma preserves_ret {A} (a : A) : preserves R (@ret X S A a).
Proof. intros s s' r [= <- _]. reflexivity. Qed.

Lemma preserves_throw {A} (e : X) : preserves R (@throw X S A e).
Proof. intros s s' r [= <- _]. reflexivity. Qed.

Lemma preserves_die {A} : preserves R (@die X S A).
Proof. intros s s' r [= <- _]. reflexivity. Qed.

Lemma preserves_gets {A} (f : S -> A) : preserves R (@gets X S A f).
Proof. intros s s' r [= <- _]. reflexivity. Qed.

Lemma preserves_bind {A B} (m : M X S A) (k : A -> M X S B) :
  preserves R m -> (forall a, preserves R (k a)) -> preserves R (bind m k).
Proof.
  intros Hm Hk s s' r H.
  destruct (bind_cases _ _ _ _ _ H) as [(a & s1 & H1 & H2)|[(e & H1 & _)|[H1 _]]].
  - transitivity s1; [eapply Hm | eapply Hk]; eauto.
  - eapply Hm; eauto.
  - eapply Hm; eauto.
Qed.

Lemma preserves_catch {A} (m : M X S A) (h : X -> M X S A) :
  preserves R m -> (forall e, preserves R (h e)) -> preserves R (catch m h).
Proof.
  intros Hm Hh s s' r. unfold catch.
  destruct (m s) as [s1 [a|e|]] eqn:E; intros H.
  - injection H as <- <-. eapply Hm; eauto.
  - transitivity s1; [eapply Hm | eapply Hh]; eauto.
  - injection H as <- <-. eapply Hm; eauto.
Qed.
End preserves.

#[export] Hint Resolve preserves_ret preserves_throw preserves_die preserves_gets
  : preserves.

(** Through the control flow of a computation, to the calls it makes; those the
    hint database [preserves] does not know are left. *)
Ltac preserving :=
  repeat
    lazymatch goal with
    | |- preserves _ (bind _ _) => apply preserves_bind; [typeclasses eauto| |intros ?]
    | |- preserves _ (catch _ _) => apply preserves_catch; [typeclasses eauto| |intros ?]
    | |- preserves _ (match ?x with _ => _ end) => destruct x
    end;
  try solve
    [ apply preserves_ret; typeclasses eauto | apply preserves_throw; typeclasses eauto
    | apply preserves_gets; typeclasses eauto | eauto with preserves ].

(** ** Strings

    [std::string] is a sequence of bytes, modelled as [string]; a position is a
    [nat] and [npos] is [None]. *)
(** Appending computes on a constructor; stdpp blocks it by default. *)
#[global] Arguments String.append !_ _ / : simpl nomatch.

(** [s.substr(n)]: the characters from position [n] on. *)
Fixpoint sdrop (n : nat) (s : string) : string :=
  match n, s with
  | S n', String _ s' => sdrop n' s'
  | _, _ => s
  end.

(** [s.substr(0, n)]. *)
Fixpoint stake (n : nat) (s : string) : string :=
  match n, s with
  | S n', String c s' => String c (stake n' s')
  | _, _ => ""
  end.

(** Position of the first occurrence of [pat]. *)
Fixpoint find0 (pat s : string) : option nat :=
  if String.prefix pat s then Some 0
  else match s with
       | "" => None
       | String _ s' => S <$> find0 pat s'
       end.

(** [s.find(pat, pos)]. *)
Definition str_find (pat : string) (pos : nat) (s : string) : option nat :=
  Nat.add pos <$> find0 pat (sdrop pos s).

(** [s.rfind(pat, 0) == 0]: the C++ idiom for "starts with". *)
Definition starts_with (pat s : string) : bool := String.prefix pat s.

(** Every character satisfies the predicate. *)
Fixpoint str_forallb (f : ascii -> bool) (s : string) : bool :=
  match s with
  | "" => true
  | String c s' => f c && str_forallb f s'
  end.

(** The character does not occur. *)
Definition str_free (c : ascii) (s : string) : bool :=
  str_forallb (fun d => negb (Ascii.eqb d c)) s.

Definition NUL : ascii := "000"%char.

(** A C string read back through a [const char*]: it ends at the first NUL. *)
Fixpoint c_str (s : string) : string :=
  match s with
  | "" => ""
  | String c s' => if Ascii.eqb c NUL then "" else String c (c_str s')
  end.

Lemma append_nil_r s : s +:+ "" = s.
Proof. induction s as [|c s IH]; cbn; [done|by rewrite IH]. Qed.

Lemma append_assoc a b c : (a +:+ b) +:+ c = a +:+ (b +:+ c).
Proof. induction a as [|x a IH]; cbn; [done|by rewrite IH]. Qed.

Lemma append_cons a x b : (a +:+ String x "") +:+ b = a +:+ String x b.
Proof. by rewrite append_assoc. Qed.

Lemma length_append a b :
  String.length (a +:+ b) = String.length a + String.length b.
Proof. induction a as [|x a IH]; cbn; [done|by rewrite IH]. Qed.

Lemma append_inj_l a b b' : a +:+ b = a +:+ b' -> b = b'.
Proof. induction a as [|x a IH]; cbn; [done|intros [= H]; auto]. Qed.

Lemma sdrop_append a b : sdrop (String.length a) (a +:+ b) = b.
Proof. by induction a. Qed.

Lemma sdrop_append_plus a b n :
  sdrop (String.length a + n) (a +:+ b) = sdrop n b.
Proof. by induction a. Qed.

Lemma stake_append a b : stake (String.length a) (a +:+ b) = a.
Proof. induction a as [|x a IH]; cbn; [by destruct b|by rewrite IH]. Qed.

Lemma stake_append_plus a b n :
  stake (String.length a + n) (a +:+ b) = a +:+ stake n b.
Proof. induction a as [|x a IH]; cbn; [done|by rewrite IH]. Qed.

Lemma prefix_append a b : String.prefix a (a +:+ b) = true.
Proof.
  induction a as [|x a IH]; cbn; [by destruct b|].
  destruct (ascii_dec x x); congruence.
Qed.

Lemma prefix_inv a s : String.prefix a s = true -> exists b, s = a +:+ b.
Proof.
  revert s. induction a as [|x a IH]; intros [|y s]; cbn; try done; eauto.
  destruct (ascii_dec x y) as [<-|]; [|done].
  intros [b ->]%IH. by exists b.
Qed.

(** The first [c] of [a ++ c ...] is right after [a] when [a] has none. *)
Lemma find0_first c pat a b :
  str_free c a = true ->
  find0 (String c pat) (a +:+ String c (pat +:+ b)) = Some (String.length a).
Proof.
  intros Ha. induction a as [|x a IH]; cbn in *.
  - destruct (ascii_dec c c) as [_|]; [|done]. by rewrite prefix_append.
  - unfold str_free in *. cbn in Ha.
    apply andb_true_iff in Ha as [Hx Ha].
    destruct (ascii_dec c x) as [->|_].
    + by rewrite Ascii.eqb_refl in Hx.
    + by rewrite IH.
Qed.

Lemma str_find_first c pat pre a b :
  str_free c a = true ->
  str_find (String c pat) (String.length pre)
    (pre +:+ a +:+ String c (pat +:+ b)) =
  Some (String.length pre + String.length a).
Proof. intros Ha. unfold str_find. by rewrite sdrop_append, find0_first. Qed.

Lemma find0_absent c pat s :
  str_free c s = true -> find0 (String c pat) s = None.
Proof.
  unfold str_free. induction s as [|x s IH]; cbn; [done|].
  intros [Hx Hs]%andb_true_iff.
  destruct (ascii_dec c x) as [->|_]; [by rewrite Ascii.eqb_refl in Hx|].
  by rewrite IH.
Qed.

Lemma str_forallb_append f a b :
  str_forallb f (a +:+ b) = str_forallb f a && str_forallb f b.
Proof. induction a as [|x a IH]; cbn; [done|by rewrite IH, andb_assoc]. Qed.

Lemma str_free_append c a b :
  str_free c (a +:+ b) = str_free c a && str_free c b.
Proof. apply str_forallb_append. Qed.

Lemma str_forallb_impl (f g : ascii -> bool) s :
  (forall c, f c = true -> g c = true) ->
  str_forallb f s = true -> str_forallb g s = true.
Proof.
  intros Hfg. induction s as [|x s IH]; cbn; [done|].
  intros [Hx Hs]%andb_true_iff. apply andb_true_iff. auto.
Qed.

(** A string without NUL survives the trip through a C string. *)
Lemma c_str_id s : str_free NUL s = true -> c_str s = s.
Proof.
  unfold str_free. induction s as [|x s IH]; cbn; [done|].
  intros [Hx Hs]%andb_true_iff.
  destruct (Ascii.eqb x NUL); [done|]. by rewrite IH.
Qed.

Lemma starts_with_append a b : starts_with a (a +:+ b) = true.
Proof. apply prefix_append. Qed.

Create Rewrite HintDb strings.
#[export] Hint Rewrite append_nil_r append_assoc length_append sdrop_append
  stake_append prefix_append c_str_id : strings.

(** ** Lists *)
Lemma StronglySorted_fmap {A B} (R : A -> A -> Prop) (R' : B -> B -> Prop)
    (f : A -> B) l :
  (forall a b, R a b -> R' (f a) (f b)) ->
  StronglySorted R l -> StronglySorted R' (f <$> l).
Proof.
  intros Hf. induction 1 as [|a l Hl IH Ha]; cbn; constructor; [done|].
  apply Forall_fmap. eapply Forall_impl; [done|]. intros b. apply Hf.
Qed.

Lemma filter_all {A} (P : A -> Prop) `{forall x, Decision (P x)} (l : list A) :
  (forall x, x ∈ l -> P x) -> filter P l = l.
Proof.
  induction l as [|x l IH]; intros HP; [done|].
  rewrite filter_cons_True by (apply HP, list_elem_of_here). f_equal. apply IH.
  intros y Hy. apply HP. by apply list_elem_of_further.
Qed.

Lemma filter_none {A} (P : A -> Prop) `{forall x, Decision (P x)} (l : list A) :
  (forall x, x ∈ l -> ~ P x) -> filter P l = [].
Proof.
  induction l as [|x l IH]; intros HP; [done|].
  rewrite filter_cons_False by (apply HP, list_elem_of_here). apply IH.
  intros y Hy. apply HP. by apply list_elem_of_further.
Qed.

Lemma Forall2_impl_elem {A B} (P Q : A -> B -> Prop) l k :
  Forall2 P l k -> (forall x y, x ∈ l -> P x y -> Q x y) -> Forall2 Q l k.
Proof.
  induction 1 as [|x y l k Hxy Hall IH]; intros HQ; constructor.
  - apply HQ; [apply list_elem_of_here|done].
  - apply IH. intros x' y' Hin. apply HQ. by apply list_elem_of_further.
Qed.

(** ** Transition sequences *)
Section star.
Context {A : Type} (R : A -> A -> Prop).

Inductive star : A -> A -> Prop :=
| star_refl a : star a a
| star_step a b c : R a b -> star b c -> star a c.

Lemma star_one a b : R a b -> star a b.
Proof. intros H. eapply star_step; [exact H|apply star_refl]. Qed.

Lemma star_trans a b c : star a b -> star b c -> star a c.
Proof. induction 1; [done|]. intros. eapply star_step; eauto. Qed.

Lemma star_snoc a b c : star a b -> R b c -> star a c.
Proof. intros Hab Hbc. by eapply star_trans, star_one. Qed.

Lemma star_last a b : star a b -> a = b \/ exists c, R c b.
Proof.
  induction 1 as [a|a b c Hab _ [->|IH]]; [by left|right; eauto|by right].
Qed.

(** A property kept by every step is kept by every sequence. *)
Lemma star_invariant (P : A -> Prop) a b :
  (forall x y, R x y -> P x -> P y) -> star a b -> P a -> P b.
Proof. intros HR. induction 1; eauto. Qed.

(** A measure that some step decreases until [Q] holds reaches [Q]. *)
Lemma star_measure (P Q : A -> Prop) (m : A -> nat) :
  (forall x, P x -> Q x \/ exists y, R x y /\ P y /\ m y < m x) ->
  forall a, P a -> exists b, star a b /\ P b /\ Q b.
Proof.
  intros Hstep a. remember (m a) as n eqn:En. revert a En.
  induction n as [n IH] using lt_wf_ind. intros a -> Ha.
  destruct (Hstep a Ha) as [HQ|(b & HR & Hb & Hlt)].
  - exists a. split; [apply star_refl|done].
  - destruct (IH (m b) Hlt b eq_refl Hb) as (c & Hs & Hc & HQ).
    exists c. split; [by eapply star_step|done].
Qed.

(** What decreases a measure, under an invariant, cannot go on for ever. *)
Lemma measured_Acc (P : A -> Prop) (m : A -> nat) :
  (forall x y, R x y -> P x -> P y /\ m y < m x) ->
  forall a, P a -> Acc (fun y x => R x y) a.
Proof.
  intros HR a. remember (m a) as n eqn:En. revert a En.
  induction n as [n IH] using lt_wf_ind. intros a -> Ha. constructor.
  intros b Hb. destruct (HR _ _ Hb Ha) as [HPb Hlt]. by eapply IH.
Qed.
End star.

Lemma preserves_zoom {X S T A} (R : S -> S -> Prop) (get : T -> S)
    (put : S -> T -> T) (m : M X S A) :
  (forall s t, get (put s t) = s) ->
  preserves R m -> preserves (fun t t' => R (get t) (get t')) (zoom get put m).
Proof.
  intros Hgp Hm t t' r. unfold zoom. destruct (m (get t)) as [s r'] eqn:E.
  intros [= <- <-]. rewrite Hgp. eapply Hm; eauto.
Qed.

(** A preorder on a component is a preorder on the whole. *)
#[export] Instance on_component_preorder {S T} (R : S -> S -> Prop) (get : T -> S)
    `{!PreOrder R} : PreOrder (fun t t' => R (get t) (get t')).
Proof. split; [intros t; reflexivity|intros t1 t2 t3; apply transitivity]. Qed.

(** *** Splitting a string *)
Lemma stake_sdrop n s : stake n s +:+ sdrop n s = s.
Proof.
  revert s. induction n as [|n IH]; intros [|c s]; cbn; try done.
  by rewrite IH.
Qed.

Lemma length_stake n s :
  n <= String.length s -> String.length (stake n s) = n.
Proof.
  revert s. induction n as [|n IH]; intros [|c s]; cbn; try done.
  - lia.
  - intros Hn. rewrite IH; [done|lia].
Qed.

Lemma length_sdrop n s : String.length (sdrop n s) = String.length s - n.
Proof.
  revert s. induction n as [|n IH]; intros [|c s]; cbn; by try apply IH.
Qed.

(** ** Labelled transition sequences and simulation *)
Section lstar.
Context {A L : Type} (R : A -> L -> A -> Prop).

Inductive lstar : A -> list L -> A -> Prop :=
| lstar_nil a : lstar a [] a
| lstar_cons a l b ls c : R a l b -> lstar b ls c -> lstar a (l :: ls) c.

Lemma lstar_invariant (P : A -> Prop) a ls b :
  (forall x l y, R x l y -> P x -> P y) -> lstar a ls b -> P a -> P b.
Proof. intros HR. induction 1; eauto. Qed.
End lstar.

Lemma lstar_impl {A L} (R R' : A -> L -> A -> Prop) :
  (forall a l b, R a l b -> R' a l b) ->
  forall a ls b, lstar R a ls b -> lstar R' a ls b.
Proof. intros HR a ls b. induction 1; econstructor; eauto. Qed.

(** A step-by-step simulation carries over to sequences. *)
Lemma lstar_simulation {A B L} (R : A -> L -> A -> Prop) (T : B -> L -> B -> Prop)
    (Rel : A -> B -> Prop) :
  (forall a l a' b, R a l a' -> Rel a b -> exists b', T b l b' /\ Rel a' b') ->
  forall a ls a' b,
    lstar R a ls a' -> Rel a b -> exists b', lstar T b ls b' /\ Rel a' b'.
Proof.
  intros Hsim a ls a' b Hs. revert b.
  induction Hs as [a|a l a1 ls a' H1 _ IH]; intros b Hrel.
  - exists b. split; [constructor|done].
  - destruct (Hsim _ _ _ _ H1 Hrel) as (b1 & HT & Hrel1).
    destruct (IH _ Hrel1) as (b2 & HT2 & Hrel2).
    exists b2. split; [by econstructor|done].
Qed.

Lemma lstar_app {A L} (R : A -> L -> A -> Prop) a ls b ls' c :
  lstar R a ls b -> lstar R b ls' c -> lstar R a (ls ++ ls') c.
Proof. induction 1; [done|]. intros Hb. econstructor; eauto. Qed.

(** The same when the specification makes any number of steps, with the labels
    [view] shows of the step it follows. *)
Lemma lstar_weak_simulation {A B L K} (R : A -> L -> A -> Prop)
    (T : B -> K -> B -> Prop) (view : L -> list K) (Rel : A -> B -> Prop) :
  (forall a l a' b, R a l a' -> Rel a b ->
     exists b', lstar T b (view l) b' /\ Rel a' b') ->
  forall a ls a' b, lstar R a ls a' -> Rel a b ->
    exists b', lstar T b (concat (view <$> ls)) b' /\ Rel a' b'.
Proof.
  intros Hsim a ls a' b Hs. revert b.
  induction Hs as [a|a l a1 ls a' H1 _ IH]; intros b Hrel; cbn.
  - exists b. split; [constructor|done].
  - destruct (Hsim _ _ _ _ H1 Hrel) as (b1 & HT & Hrel1).
    destruct (IH _ Hrel1) as (b2 & HT2 & Hrel2).
    exists b2. split; [by eapply lstar_app|done].
Qed.

(** ** Ordered maps

    [std::map] is a finite map whose iteration is in key order. *)
Definition string_le (a b : string) : Prop := String.leb a b = true.
#[export] Instance string_le_dec : RelDecision string_le.
Proof. intros a b. unfold string_le. apply _. Defined.

Lemma string_le_cons c a d b :
  string_le (String c a) (String d b) <->
  (N_of_ascii c < N_of_ascii d)%N \/ c = d /\ string_le a b.
Proof.
  unfold string_le, String.leb. cbn. unfold Ascii.compare.
  destruct (N.compare_spec (N_of_ascii c) (N_of_ascii d)) as [E|E|E].
  - assert (c = d) as ->.
    { rewrite <- (ascii_N_embedding c), <- (ascii_N_embedding d). by f_equal. }
    split; [by right|]. intros [?|[_ ?]]; [lia|done].
  - split; [by left|done].
  - split; [done|]. intros [?|[-> _]]; lia.
Qed.

#[export] Instance string_le_total : Total string_le.
Proof. intros a b. apply String.leb_total. Qed.
#[export] Instance string_le_antisymm : AntiSymm (=) string_le.
Proof. intros a b. apply String.leb_antisym. Qed.
#[export] Instance string_le_trans : Transitive string_le.
Proof.
  intros a. induction a as [|c a IH]; intros [|d b] [|e s]; try done.
  rewrite !string_le_cons. intros [?|[-> ?]] [?|[-> ?]]; try (left; lia).
  right. split; [done|]. by eapply IH.
Qed.

(** [std::pair] compares by its first component, then by its second. *)
Definition pair_le (a b : string * string) : Prop :=
  if decide (a.1 = b.1) then string_le a.2 b.2 else string_le a.1 b.1.
#[export] Instance pair_le_dec : RelDecision pair_le.
Proof. intros a b. unfold pair_le. destruct (decide (a.1 = b.1)); apply _. Defined.

Section std_map.
Context {K V : Type} `{Countable K} (le : K -> K -> Prop) `{!RelDecision le}.

Definition key_le (a b : K * V) : Prop := le a.1 b.1.
#[export] Instance key_le_dec : RelDecision key_le.
Proof. intros a b. unfold key_le. apply _. Defined.

(** The pairs of the map in iteration order. *)
Definition map_items (m : gmap K V) : list (K * V) :=
  merge_sort key_le (map_to_list m).

Lemma elem_of_map_items m k v : (k, v) ∈ map_items m <-> m !! k = Some v.
Proof. unfold map_items. by rewrite merge_sort_Permutation, elem_of_map_to_list. Qed.

Lemma map_items_NoDup m : NoDup (map_items m).*1.
Proof.
  unfold map_items. rewrite merge_sort_Permutation. apply NoDup_fst_map_to_list.
Qed.
End std_map.
