(* ===== verification/Messages.v ===== *)
(** * The protobuf messages of [proto/shim.proto] and [journal/internal.proto]

    One record per message with the contract's field names, one inductive type
    per enum. A message-typed field has presence and is an [option]; a scalar
    field is its value (the daemon reads scalars through accessors that give
    the default for an unset field). [int64] and [int32] fields are [Z].

    protobuf itself is outside the repository: [Proto] is the pair of codec
    functions the daemon calls, [ProtoOk] the documented round trip. *)
From S2P Require Import Prelude.

(** ** Codec interface *)
Class Proto (A : Type) := {
  SerializeAsString : A -> string;
  ParseFromString : string -> option A;
}.

Class ProtoOk (A : Type) `{!Proto A} : Prop :=
  parse_serialize : forall m : A, ParseFromString (SerializeAsString m) = Some m.

(** Serialization loses nothing, so equal bytes are equal messages. *)
Lemma serialize_inj `{ProtoOk A} (m m' : A) :
  SerializeAsString m = SerializeAsString m' -> m = m'.
Proof.
  intros E. apply (f_equal ParseFromString) in E.
  rewrite !parse_serialize in E. by injection E.
Qed.

(** ** Primitives *)
Record Numeric := MkNumeric { Numeric_num : Z; Numeric_denom : Z }.
Record Date := MkDate { Date_year : Z; Date_month : Z; Date_day : Z }.
Record CommodityId := MkCommodityId {
  CommodityId_space : string;
  CommodityId_mnemonic : string;
}.

(** protobuf enums are open: a peer may send a number with no enumerator, kept
    by the [_unrecognized] constructor. *)
Inductive ErrorCode :=
| ERROR_CODE_UNSPECIFIED
| ERROR_CODE_UNBALANCED_TRANSACTION
| ERROR_CODE_ACCOUNT_NOT_FOUND
| ERROR_CODE_TXN_NOT_FOUND
| ERROR_CODE_COMMODITY_NOT_FOUND
| ERROR_CODE_CURRENCY_MISMATCH
| ERROR_CODE_ACCOUNT_NOT_EMPTY
| ERROR_CODE_READ_ONLY_BOOK
| ERROR_CODE_BOOK_LOCKED
| ERROR_CODE_BOOK_NOT_OPEN
| ERROR_CODE_INVALID_ARGUMENT
| ERROR_CODE_INDETERMINATE_MUTATION
| ERROR_CODE_ENGINE_ERROR
| ERROR_CODE_unrecognized (n : Z).

Record ErrorDetail := MkErrorDetail {
  ErrorDetail_code : ErrorCode;
  ErrorDetail_engine_message : string;
  ErrorDetail_context : string;
}.

Definition ErrorDetail_default : ErrorDetail :=
  MkErrorDetail ERROR_CODE_UNSPECIFIED "" "".

(** ** Entities *)
Inductive AccountType :=
| ACCOUNT_TYPE_UNSPECIFIED
| ACCOUNT_TYPE_ASSET
| ACCOUNT_TYPE_BANK
| ACCOUNT_TYPE_CASH
| ACCOUNT_TYPE_CREDIT
| ACCOUNT_TYPE_LIABILITY
| ACCOUNT_TYPE_EQUITY
| ACCOUNT_TYPE_INCOME
| ACCOUNT_TYPE_EXPENSE
| ACCOUNT_TYPE_STOCK
| ACCOUNT_TYPE_MUTUAL
| ACCOUNT_TYPE_RECEIVABLE
| ACCOUNT_TYPE_PAYABLE
| ACCOUNT_TYPE_TRADING
| ACCOUNT_TYPE_ROOT
| ACCOUNT_TYPE_unrecognized (n : Z).

Record Account := MkAccount {
  Account_guid : string;
  Account_parent_guid : string;
  Account_name : string;
  Account_type : AccountType;
  Account_commodity : option CommodityId;
  Account_code : string;
  Account_description : string;
  Account_placeholder : bool;
  Account_hidden : bool;
}.

Inductive ReconcileState :=
| RECONCILE_STATE_UNSPECIFIED
| RECONCILE_STATE_NOT_RECONCILED
| RECONCILE_STATE_CLEARED
| RECONCILE_STATE_RECONCILED
| RECONCILE_STATE_FROZEN
| RECONCILE_STATE_VOIDED
| RECONCILE_STATE_unrecognized (n : Z).

Record Split := MkSplit {
  Split_guid : string;
  Split_account_guid : string;
  Split_value : option Numeric;
  Split_quantity : option Numeric;
  Split_memo : string;
  Split_action : string;
  Split_reconcile_state : ReconcileState;
}.

Record Transaction := MkTransaction {
  Transaction_guid : string;
  Transaction_currency : option CommodityId;
  Transaction_post_date : option Date;
  Transaction_enter_time_utc : Z;
  Transaction_num : string;
  Transaction_description : string;
  Transaction_splits : list Split;
}.

Record Price := MkPrice {
  Price_guid : string;
  Price_commodity : option CommodityId;
  Price_currency : option CommodityId;
  Price_date : option Date;
  Price_value : option Numeric;
  Price_source : string;
}.

(** ** Requests and responses of the mutating RPCs *)
Record MutationMeta := MkMutationMeta { MutationMeta_mutation_id : string }.

Record ReconcileInfo := MkReconcileInfo {
  ReconcileInfo_account_guid : string;
  ReconcileInfo_last_date : option Date;
  ReconcileInfo_reconciled_balance : option Numeric;
}.

Record SetReconcileInfoRequest := MkSetReconcileInfoRequest {
  SetReconcileInfoRequest_meta : option MutationMeta;
  SetReconcileInfoRequest_account_guid : string;
  SetReconcileInfoRequest_last_date : option Date;
}.

Record CreateAccountRequest := MkCreateAccountRequest {
  CreateAccountRequest_meta : option MutationMeta;
  CreateAccountRequest_account : option Account;
}.

Record UpdateAccountRequest := MkUpdateAccountRequest {
  UpdateAccountRequest_meta : option MutationMeta;
  UpdateAccountRequest_account : option Account;
}.

Record DeleteAccountRequest := MkDeleteAccountRequest {
  DeleteAccountRequest_meta : option MutationMeta;
  DeleteAccountRequest_guid : string;
}.

Record PostTransactionRequest := MkPostTransactionRequest {
  PostTransactionRequest_meta : option MutationMeta;
  PostTransactionRequest_transaction : option Transaction;
}.

Record UpdateTransactionRequest := MkUpdateTransactionRequest {
  UpdateTransactionRequest_meta : option MutationMeta;
  UpdateTransactionRequest_transaction : option Transaction;
}.

Record DeleteTransactionRequest := MkDeleteTransactionRequest {
  DeleteTransactionRequest_meta : option MutationMeta;
  DeleteTransactionRequest_guid : string;
}.

Record AddPriceRequest := MkAddPriceRequest {
  AddPriceRequest_meta : option MutationMeta;
  AddPriceRequest_price : option Price;
}.

Inductive Empty := MkEmpty.

(** ** Queries *)
Record QuerySplitsRequest := MkQuerySplitsRequest {
  QuerySplitsRequest_account_guids : list string;
  QuerySplitsRequest_date_from : option Date;
  QuerySplitsRequest_date_to : option Date;
  QuerySplitsRequest_description_contains : string;
  QuerySplitsRequest_memo_contains : string;
  QuerySplitsRequest_value_min : option Numeric;
  QuerySplitsRequest_value_max : option Numeric;
  QuerySplitsRequest_states : list ReconcileState;
  QuerySplitsRequest_page_size : Z;
  QuerySplitsRequest_page_token : string;
}.

Record SplitWithContext := MkSplitWithContext {
  SplitWithContext_split : Split;
  SplitWithContext_transaction_guid : string;
  SplitWithContext_post_date : option Date;
  SplitWithContext_description : string;
  SplitWithContext_txn_currency : option CommodityId;
}.

Record QuerySplitsResponse := MkQuerySplitsResponse {
  QuerySplitsResponse_splits : list SplitWithContext;
  QuerySplitsResponse_next_page_token : string;
}.

Record Commodity := MkCommodity {
  Commodity_id : option CommodityId;
  Commodity_fullname : string;
  Commodity_fraction : Z;
  Commodity_is_currency : bool;
}.

Record GetPricesRequest := MkGetPricesRequest {
  GetPricesRequest_commodity : option CommodityId;
  GetPricesRequest_currency : option CommodityId;
  GetPricesRequest_date_from : option Date;
  GetPricesRequest_date_to : option Date;
}.

Record GetBalanceRequest := MkGetBalanceRequest {
  GetBalanceRequest_account_guid : string;
  GetBalanceRequest_as_of : option Date;
  GetBalanceRequest_include_children : bool;
  GetBalanceRequest_convert_to : option CommodityId;
}.

Record Balance := MkBalance {
  Balance_amount : option Numeric;
  Balance_commodity : option CommodityId;
  Balance_as_of : option Date;
}.

(** [TrialBalance.Entry]. *)
Record TrialBalanceEntry := MkTrialBalanceEntry {
  TrialBalanceEntry_currency : option CommodityId;
  TrialBalanceEntry_sum : option Numeric;
}.

Record BookInfo := MkBookInfo {
  BookInfo_root_account_guid : string;
  BookInfo_default_currency : option CommodityId;
  BookInfo_backend_uri : string;
  BookInfo_engine_version : string;
  BookInfo_shim_version : string;
  BookInfo_read_only : bool;
}.

Record PingResponse := MkPingResponse {
  PingResponse_queue_depth : Z;
  PingResponse_uptime_seconds : Z;
  PingResponse_book_open : bool;
}.

(** [IndeterminateMutations.Entry]. *)
Record IndeterminateMutation := MkIndeterminateMutation {
  IndeterminateMutation_mutation_id : string;
  IndeterminateMutation_rpc_name : string;
  IndeterminateMutation_payload_sha256 : string;
  IndeterminateMutation_journaled_at_utc : Z;
}.

(** ** Journal records ([internal.proto]) *)
Record Outcome := MkOutcome {
  Outcome_rpc_name : string;
  Outcome_ok : bool;
  Outcome_response : string;
  Outcome_error : option ErrorDetail;
}.

(** [recorded->error()]: an unset submessage reads as its default. *)
Definition Outcome_error_or_default (o : Outcome) : ErrorDetail :=
  default ErrorDetail_default (Outcome_error o).

(** ** Decidable equality *)
#[export] Instance Numeric_eq_dec : EqDecision Numeric.
Proof. solve_decision. Defined.
#[export] Instance Date_eq_dec : EqDecision Date.
Proof. solve_decision. Defined.
#[export] Instance CommodityId_eq_dec : EqDecision CommodityId.
Proof. solve_decision. Defined.
#[export] Instance ErrorCode_eq_dec : EqDecision ErrorCode.
Proof. solve_decision. Defined.
#[export] Instance ErrorDetail_eq_dec : EqDecision ErrorDetail.
Proof. solve_decision. Defined.
#[export] Instance AccountType_eq_dec : EqDecision AccountType.
Proof. solve_decision. Defined.
#[export] Instance ReconcileState_eq_dec : EqDecision ReconcileState.
Proof. solve_decision. Defined.
#[export] Instance Split_eq_dec : EqDecision Split.
Proof. solve_decision. Defined.
