(* ===== verification/Engine.v ===== *)
(** * libgnucash as the daemon calls it

    The engine is a library outside the repository: [Gnc] lists the types and
    entry points the daemon uses, with the arguments it passes, over a [Book] -
    the engine's objects in memory together with the backend store of the
    session. A C pointer to an engine object is an element of an abstract type
    with decidable equality, a pointer that may be null an [option]. The law
    classes below state the documented behaviour the theorems rely on. *)
From S2P Require Import Prelude.
From S2P Require Import Messages.
From Stdlib Require Import QArith.
Local Open Scope Z_scope.

(** [gnc_numeric] is a plain struct of two [gint64]. *)
Record gnc_numeric := gnc_numeric_create { num : Z; denom : Z }.

#[export] Instance gnc_numeric_eq_dec : EqDecision gnc_numeric.
Proof. solve_decision. Defined.

(** Calendar dates, times and numbers: values, not objects of the book. *)
Class GncValues := {
  GncGUID : Type;
  GncGUID_eq_dec :: EqDecision GncGUID;
  string_to_guid : string -> option GncGUID;
  guid_to_string : GncGUID -> string;

  GDate : Type;
  g_date_valid_dmy : Z -> Z -> Z -> bool;
  g_date_set_dmy : Z -> Z -> Z -> GDate;
  g_date_valid : GDate -> bool;
  g_date_get_day : GDate -> Z;
  g_date_get_month : GDate -> Z;
  g_date_get_year : GDate -> Z;
  time64_to_gdate : Z -> GDate;
  gnc_dmy2time64 : Z -> Z -> Z -> Z;
  gnc_dmy2time64_end : Z -> Z -> Z -> Z;
  gnc_dmy2time64_neutral : Z -> Z -> Z -> Z;

  (** [gnc_numeric_add(a, b, GNC_DENOM_AUTO, GNC_HOW_DENOM_LCD)]. *)
  gnc_numeric_add : gnc_numeric -> gnc_numeric -> gnc_numeric;
  gnc_numeric_zero : gnc_numeric;
  (** [gnc_numeric_check(n) == GNC_ERROR_OK]. *)
  gnc_numeric_ok : gnc_numeric -> bool;
  gnc_numeric_zero_p : gnc_numeric -> bool;
  gnc_numeric_compare : gnc_numeric -> gnc_numeric -> Z;
  gnc_numeric_to_string : gnc_numeric -> string;

  GNCAccountType : Type;
  GNCAccountType_eq_dec :: EqDecision GNCAccountType;
  ACCT_TYPE_ASSET : GNCAccountType;
  ACCT_TYPE_BANK : GNCAccountType;
  ACCT_TYPE_CASH : GNCAccountType;
  ACCT_TYPE_CREDIT : GNCAccountType;
  ACCT_TYPE_LIABILITY : GNCAccountType;
  ACCT_TYPE_EQUITY : GNCAccountType;
  ACCT_TYPE_INCOME : GNCAccountType;
  ACCT_TYPE_EXPENSE : GNCAccountType;
  ACCT_TYPE_STOCK : GNCAccountType;
  ACCT_TYPE_MUTUAL : GNCAccountType;
  ACCT_TYPE_RECEIVABLE : GNCAccountType;
  ACCT_TYPE_PAYABLE : GNCAccountType;
  ACCT_TYPE_TRADING : GNCAccountType;
  ACCT_TYPE_ROOT : GNCAccountType;

  NREC : ascii;
  CREC : ascii;
  YREC : ascii;
  FREC : ascii;
  VREC : ascii;

  CLEARED_NO : Z;
  CLEARED_CLEARED : Z;
  CLEARED_RECONCILED : Z;
  CLEARED_FROZEN : Z;
  CLEARED_VOIDED : Z;
}.

(** The rational a number stands for; a negative denominator is a factor. *)
Definition gnc_value (n : gnc_numeric) : Q :=
  match denom n with
  | Zpos d => num n # d
  | Zneg d => num n * Zpos d # 1
  | Z0 => 0
  end.

Lemma gnc_value_pos n : 0 < denom n -> gnc_value n = (num n # Z.to_pos (denom n)).
Proof. unfold gnc_value. by destruct (denom n). Qed.

(** The documented behaviour of the value types: a GUID's text reads back; a
    positive denominator is a well-formed number; addition over the least
    common denominator is exact, and a failed operation yields an error value
    that every later operation propagates and no predicate accepts. *)
Class GncValuesOk `{!GncValues} : Prop := {
  string_to_guid_to_string : forall g, string_to_guid (guid_to_string g) = Some g;
  guid_to_string_length : forall g, String.length (guid_to_string g) = 32%nat;
  string_to_guid_c_str : forall s, string_to_guid (c_str s) = string_to_guid s;
  numeric_ok_pos : forall n d, 0 < d -> gnc_numeric_ok (gnc_numeric_create n d) = true;
  numeric_zero_ok : gnc_numeric_ok gnc_numeric_zero = true;
  numeric_zero_value : (gnc_value gnc_numeric_zero == 0)%Q;
  numeric_add_exact : forall a b,
    gnc_numeric_ok a = true -> gnc_numeric_ok b = true ->
    gnc_numeric_ok (gnc_numeric_add a b) = true ->
    (gnc_value (gnc_numeric_add a b) == gnc_value a + gnc_value b)%Q;
  numeric_add_error : forall a b,
    gnc_numeric_ok (gnc_numeric_add a b) = true ->
    gnc_numeric_ok a = true /\ gnc_numeric_ok b = true;
  numeric_zero_p_iff : forall a,
    gnc_numeric_zero_p a = true <->
    gnc_numeric_ok a = true /\ (gnc_value a == 0)%Q;
  date_roundtrip : forall d m y,
    g_date_valid_dmy d m y = true ->
    1 <= d <= 31 -> 1 <= m <= 12 -> 1 <= y <= 65535 ->
    let g := g_date_set_dmy d m y in
    g_date_valid g = true /\ g_date_get_day g = d /\ g_date_get_month g = m /\
    g_date_get_year g = y;
  account_types_NoDup :
    NoDup [ACCT_TYPE_ASSET; ACCT_TYPE_BANK; ACCT_TYPE_CASH; ACCT_TYPE_CREDIT;
           ACCT_TYPE_LIABILITY; ACCT_TYPE_EQUITY; ACCT_TYPE_INCOME;
           ACCT_TYPE_EXPENSE; ACCT_TYPE_STOCK; ACCT_TYPE_MUTUAL;
           ACCT_TYPE_RECEIVABLE; ACCT_TYPE_PAYABLE; ACCT_TYPE_TRADING;
           ACCT_TYPE_ROOT];
  reconcile_flags_NoDup : NoDup [NREC; CREC; YREC; FREC; VREC];
}.

(** The criteria of a split query, as the daemon composes them. *)
Record SplitQuery (AccountPtr : Type) := MkSplitQuery {
  q_accounts : list AccountPtr;  (** empty: no account term *)
  q_date : option (bool * Z * bool * Z);
  q_description : option string;
  q_memo : option string;
  q_cleared : option Z;
}.
Arguments MkSplitQuery {AccountPtr}.
Arguments q_accounts {AccountPtr}.
Arguments q_date {AccountPtr}.
Arguments q_description {AccountPtr}.
Arguments q_memo {AccountPtr}.
Arguments q_cleared {AccountPtr}.

(** The objects of a book and the calls on them. *)
Class Gnc `{!GncValues} := {
  Book : Type;
  AccountPtr : Type;
  AccountPtr_eq_dec :: EqDecision AccountPtr;
  SplitPtr : Type;
  SplitPtr_eq_dec :: EqDecision SplitPtr;
  TransactionPtr : Type;
  TransactionPtr_eq_dec :: EqDecision TransactionPtr;
  CommodityPtr : Type;
  CommodityPtr_eq_dec :: EqDecision CommodityPtr;
  PricePtr : Type;

  (** The store behind the session: what a new process finds. *)
  Store : Type;
  book_store : Book -> Store;
  book_load : Store -> Book;

  (** Commodities. *)
  gnc_commodity_table_lookup : Book -> string -> string -> option CommodityPtr;
  gnc_commodity_table_get_namespaces : Book -> list string;
  gnc_commodity_table_get_commodities : Book -> string -> list CommodityPtr;
  gnc_commodity_get_namespace : Book -> CommodityPtr -> string;
  gnc_commodity_get_mnemonic : Book -> CommodityPtr -> string;
  gnc_commodity_get_fullname : Book -> CommodityPtr -> option string;
  gnc_commodity_get_fraction : Book -> CommodityPtr -> Z;
  gnc_commodity_is_currency : Book -> CommodityPtr -> bool;

  (** Accounts. *)
  account_guid : Book -> AccountPtr -> GncGUID;
  xaccAccountLookup : Book -> GncGUID -> option AccountPtr;
  gnc_book_get_root_account : Book -> AccountPtr;
  gnc_account_get_parent : Book -> AccountPtr -> option AccountPtr;
  gnc_account_get_descendants_sorted : Book -> AccountPtr -> list AccountPtr;
  gnc_account_get_current_depth : Book -> AccountPtr -> nat;
  gnc_account_n_children : Book -> AccountPtr -> Z;
  xaccAccountGetName : Book -> AccountPtr -> option string;
  xaccAccountGetType : Book -> AccountPtr -> GNCAccountType;
  xaccAccountGetCommodity : Book -> AccountPtr -> option CommodityPtr;
  xaccAccountGetCode : Book -> AccountPtr -> option string;
  xaccAccountGetDescription : Book -> AccountPtr -> option string;
  xaccAccountGetPlaceholder : Book -> AccountPtr -> bool;
  xaccAccountGetHidden : Book -> AccountPtr -> bool;
  xaccAccountGetSplitList : Book -> AccountPtr -> list SplitPtr;
  xaccAccountGetReconcileLastDate : Book -> AccountPtr -> option Z;
  xaccAccountGetReconciledBalance : Book -> AccountPtr -> gnc_numeric;
  xaccAccountGetBalanceAsOfDateInCurrency :
    Book -> AccountPtr -> Z -> CommodityPtr -> bool -> gnc_numeric;
  xaccMallocAccount : Book -> AccountPtr * Book;
  xaccAccountBeginEdit : AccountPtr -> Book -> Book;
  xaccAccountCommitEdit : AccountPtr -> Book -> Book;
  xaccAccountDestroy : AccountPtr -> Book -> Book;
  xaccAccountSetName : AccountPtr -> string -> Book -> Book;
  xaccAccountSetType : AccountPtr -> GNCAccountType -> Book -> Book;
  xaccAccountSetCommodity : AccountPtr -> CommodityPtr -> Book -> Book;
  xaccAccountSetCode : AccountPtr -> string -> Book -> Book;
  xaccAccountSetDescription : AccountPtr -> string -> Book -> Book;
  xaccAccountSetPlaceholder : AccountPtr -> bool -> Book -> Book;
  xaccAccountSetHidden : AccountPtr -> bool -> Book -> Book;
  xaccAccountSetReconcileLastDate : AccountPtr -> Z -> Book -> Book;
  gnc_account_append_child : AccountPtr -> AccountPtr -> Book -> Book;

  (** Splits. *)
  split_guid : Book -> SplitPtr -> GncGUID;
  xaccSplitGetAccount : Book -> SplitPtr -> AccountPtr;
  xaccSplitGetParent : Book -> SplitPtr -> TransactionPtr;
  xaccSplitGetValue : Book -> SplitPtr -> gnc_numeric;
  xaccSplitGetAmount : Book -> SplitPtr -> gnc_numeric;
  xaccSplitGetMemo : Book -> SplitPtr -> option string;
  xaccSplitGetAction : Book -> SplitPtr -> option string;
  xaccSplitGetReconcile : Book -> SplitPtr -> ascii;
  split_destroying : Book -> SplitPtr -> bool;
  xaccMallocSplit : Book -> SplitPtr * Book;
  xaccSplitDestroy : SplitPtr -> Book -> Book;
  xaccSplitSetParent : SplitPtr -> TransactionPtr -> Book -> Book;
  xaccSplitSetAccount : SplitPtr -> AccountPtr -> Book -> Book;
  xaccSplitSetValue : SplitPtr -> gnc_numeric -> Book -> Book;
  xaccSplitSetAmount : SplitPtr -> gnc_numeric -> Book -> Book;
  xaccSplitSetMemo : SplitPtr -> string -> Book -> Book;
  xaccSplitSetAction : SplitPtr -> string -> Book -> Book;
  xaccSplitSetReconcile : SplitPtr -> ascii -> Book -> Book;
  (** [qof_query_run] of a split query set on this book. *)
  qof_query_run : Book -> SplitQuery AccountPtr -> list SplitPtr;

  (** Transactions. *)
  transaction_guid : Book -> TransactionPtr -> GncGUID;
  xaccTransLookup : Book -> GncGUID -> option TransactionPtr;
  xaccTransGetCurrency : Book -> TransactionPtr -> option CommodityPtr;
  xaccTransGetDatePostedGDate : Book -> TransactionPtr -> GDate;
  xaccTransGetDateEntered : Book -> TransactionPtr -> Z;
  xaccTransGetNum : Book -> TransactionPtr -> option string;
  xaccTransGetDescription : Book -> TransactionPtr -> option string;
  xaccTransGetSplitList : Book -> TransactionPtr -> list SplitPtr;
  xaccTransGetImbalanceValue : Book -> TransactionPtr -> gnc_numeric;
  xaccMallocTransaction : Book -> TransactionPtr * Book;
  xaccTransBeginEdit : TransactionPtr -> Book -> Book;
  xaccTransCommitEdit : TransactionPtr -> Book -> Book;
  xaccTransDestroy : TransactionPtr -> Book -> Book;
  xaccTransSetCurrency : TransactionPtr -> CommodityPtr -> Book -> Book;
  xaccTransSetDatePostedGDate : TransactionPtr -> GDate -> Book -> Book;
  xaccTransSetDateEnteredSecs : TransactionPtr -> Z -> Book -> Book;
  xaccTransSetNum : TransactionPtr -> string -> Book -> Book;
  xaccTransSetDescription : TransactionPtr -> string -> Book -> Book;

  (** Prices. *)
  gnc_price_get_guid : Book -> PricePtr -> GncGUID;
  gnc_price_lookup : Book -> GncGUID -> option PricePtr;
  gnc_price_get_commodity : Book -> PricePtr -> CommodityPtr;
  gnc_price_get_currency : Book -> PricePtr -> CommodityPtr;
  gnc_price_get_time64 : Book -> PricePtr -> Z;
  gnc_price_get_value : Book -> PricePtr -> gnc_numeric;
  gnc_price_get_source_string : Book -> PricePtr -> option string;
  gnc_pricedb_get_prices :
    Book -> CommodityPtr -> option CommodityPtr -> list PricePtr;
  gnc_price_create : Book -> PricePtr * Book;
  gnc_price_begin_edit : PricePtr -> Book -> Book;
  gnc_price_commit_edit : PricePtr -> Book -> Book;
  gnc_price_set_commodity : PricePtr -> CommodityPtr -> Book -> Book;
  gnc_price_set_currency : PricePtr -> CommodityPtr -> Book -> Book;
  gnc_price_set_time64 : PricePtr -> Z -> Book -> Book;
  gnc_price_set_value : PricePtr -> gnc_numeric -> Book -> Book;
  gnc_price_set_source_string : PricePtr -> string -> Book -> Book;
  gnc_pricedb_add_price : PricePtr -> Book -> Book;
  gnc_price_unref : PricePtr -> Book -> Book;
}.

(** A lookup by GUID finds an object with that GUID. *)
Class GncLookupOk `{Gnc} : Prop := {
  account_lookup_guid : forall b g a,
    xaccAccountLookup b g = Some a -> account_guid b a = g;
  trans_lookup_guid : forall b g t,
    xaccTransLookup b g = Some t -> transaction_guid b t = g;
}.

(** ** The account tree *)
Section tree.
Context `{Gnc}.

Definition parent_of (b : Book) (p a : AccountPtr) : Prop :=
  gnc_account_get_parent b a = Some p.

(** No chain of parents goes on for ever. *)
Definition acyclic (b : Book) : Prop := forall a, Acc (parent_of b) a.

(** [gnc_account_get_current_depth] counts the parents of an account. *)
Definition depth_counts (b : Book) : Prop :=
  forall a p, parent_of b p a ->
    (gnc_account_get_current_depth b p < gnc_account_get_current_depth b a)%nat.

Lemma depth_counts_acyclic b : depth_counts b -> acyclic b.
Proof.
  intros Hd a. remember (gnc_account_get_current_depth b a) as n eqn:En.
  revert a En. induction n as [n IH] using lt_wf_ind. intros a ->.
  constructor. intros p Hp. eapply IH; [by apply Hd|done].
Qed.
End tree.

Section tree_edits.
Context `{Gnc}.

(** [y] is the parent of [x]. *)
Definition up (b : Book) (x y : AccountPtr) : Prop :=
  gnc_account_get_parent b x = Some y.

(** The account calls that move nothing in the tree. *)
Inductive account_edit : (Book -> Book) -> Prop :=
| edit_begin a : account_edit (xaccAccountBeginEdit a)
| edit_commit a : account_edit (xaccAccountCommitEdit a)
| edit_name a n : account_edit (xaccAccountSetName a n)
| edit_type a t : account_edit (xaccAccountSetType a t)
| edit_commodity a c : account_edit (xaccAccountSetCommodity a c)
| edit_code a c : account_edit (xaccAccountSetCode a c)
| edit_description a d : account_edit (xaccAccountSetDescription a d)
| edit_placeholder a p : account_edit (xaccAccountSetPlaceholder a p)
| edit_hidden a h : account_edit (xaccAccountSetHidden a h).

Lemma acyclic_mono b b' :
  (forall x p, up b' x p -> up b x p) -> acyclic b -> acyclic b'.
Proof.
  intros Hup Hb a. induction (Hb a) as [a _ IH]. constructor.
  intros p Hp. apply IH. by apply Hup.
Qed.

(** Moving [a] under [p] closes no cycle when [a] is not [p] or above it. *)
Lemma acyclic_append a p b b' :
  (forall x, gnc_account_get_parent b' x =
     if decide (x = a) then Some p else gnc_account_get_parent b x) ->
  ~ star (up b) p a -> acyclic b -> acyclic b'.
Proof.
  intros Hup Hp Hb.
  assert (forall y, ~ star (up b) y a -> Acc (parent_of b') y) as Hfree.
  { intros y. induction (Hb y) as [y _ IH]. intros Hy. constructor.
    intros q Hq. unfold parent_of in Hq. rewrite Hup in Hq.
    destruct (decide (y = a)) as [->|Hne]; [destruct Hy; apply star_refl|].
    apply IH; [done|]. intros Hqa. apply Hy. by eapply star_step. }
  assert (Acc (parent_of b') a) as Ha.
  { constructor. intros q Hq. unfold parent_of in Hq. rewrite Hup, decide_True in Hq by done.
    injection Hq as <-. by apply Hfree. }
  intros x. induction (Hb x) as [x _ IH].
  destruct (decide (x = a)) as [->|Hne]; [done|]. constructor.
  intros q Hq. apply IH. unfold parent_of in *. by rewrite Hup, decide_False in Hq.
Qed.
End tree_edits.

(** How the documented account calls act on the tree: field edits leave it,
    [gnc_account_append_child] gives the child its new parent and moves no
    other account, a fresh account is under nothing and above nothing, and
    destroying an account gives nobody a new parent. *)
Class GncTreeOk `{Gnc} : Prop := {
  account_edit_parent : forall f b x, account_edit f ->
    gnc_account_get_parent (f b) x = gnc_account_get_parent b x;
  append_child_parent : forall p a x b,
    gnc_account_get_parent (gnc_account_append_child p a b) x =
      if decide (x = a) then Some p else gnc_account_get_parent b x;
  malloc_account_parent : forall b a b', xaccMallocAccount b = (a, b') ->
    (forall x, gnc_account_get_parent b' x =
       if decide (x = a) then None else gnc_account_get_parent b x) /\
    (forall x, gnc_account_get_parent b x <> Some a) /\
    (forall g, xaccAccountLookup b g <> Some a);
  destroy_parent : forall a b x p,
    gnc_account_get_parent (xaccAccountDestroy a b) x = Some p ->
    gnc_account_get_parent b x = Some p;
}.

(** ** Sums by key

    The two trial-balance loops accumulate values by currency in a [std::map]
    with engine addition. *)
Section sums.
Context `{GncValues} {K : Type} `{Countable K}.

(** [try_emplace(key, zero)] followed by [it->second = add(it->second, v)]. *)
Definition add_to {K} `{Countable K} (key : K) (v : gnc_numeric)
    (m : gmap K gnc_numeric) : gmap K gnc_numeric :=
  <[key := gnc_numeric_add (default gnc_numeric_zero (m !! key)) v]> m.

Definition add_all (entries : list (K * gnc_numeric)) (m : gmap K gnc_numeric) :
    gmap K gnc_numeric :=
  foldl (fun m e => add_to e.1 e.2 m) m entries.

(** The exact sum of the values entered under [k]. *)
Fixpoint exact_sum (k : K) (entries : list (K * gnc_numeric)) : Q :=
  match entries with
  | [] => 0
  | e :: entries' =>
      if decide (e.1 = k) then gnc_value e.2 + exact_sum k entries'
      else exact_sum k entries'
  end%Q.

Lemma add_all_cons e entries m :
  add_all (e :: entries) m = add_all entries (add_to e.1 e.2 m).
Proof. done. Qed.

Lemma add_all_lookup_is_Some entries m k :
  is_Some (add_all entries m !! k) <-> is_Some (m !! k) \/ k ∈ entries.*1.
Proof.
  revert m. induction entries as [|[k' v] entries IH]; intros m.
  - cbn. rewrite elem_of_nil. tauto.
  - rewrite add_all_cons, IH. cbn. rewrite elem_of_cons. unfold add_to. rewrite lookup_insert.
    case_decide as Hk.
    + subst k'. split; [by right; left|]. eauto.
    + split; [intros [?|?]; auto|]. intros [?|[?|?]]; [auto|congruence|auto].
Qed.

Lemma exact_sum_absent k entries : k ∉ entries.*1 -> exact_sum k entries = 0%Q.
Proof.
  induction entries as [|e entries IH]; cbn; [done|].
  intros [Hne Hn]%not_elem_of_cons. rewrite decide_False by congruence. auto.
Qed.
End sums.

Section sums_exact.
Context `{GncValuesOk} {K : Type} `{Countable K}.

(** If no addition failed, the accumulated value is the exact sum; and an
    addition that fails is never forgotten. *)
Lemma add_all_exact entries m k s :
  add_all (K := K) entries m !! k = Some s -> gnc_numeric_ok s = true ->
  gnc_numeric_ok (default gnc_numeric_zero (m !! k)) = true /\
  (gnc_value s ==
   gnc_value (default gnc_numeric_zero (m !! k)) + exact_sum k entries)%Q.
Proof.
  revert m. induction entries as [|[k' v] entries IH]; intros m.
  - cbn. intros -> Hok. cbn. split; [done|ring].
  - rewrite add_all_cons. intros Hs Hok.
    destruct (IH _ Hs Hok) as [Hok1 Hv]. clear IH.
    unfold add_to in Hok1, Hv. cbn in *. revert Hok1 Hv. rewrite lookup_insert.
    case_decide as Hk; cbn; [subst k'|done]. intros Hok1 Hv.
    destruct (numeric_add_error _ _ Hok1) as [Hm Hvok]. split; [done|].
    rewrite Hv, numeric_add_exact by done. ring.
Qed.

Lemma add_all_exact_empty entries k s :
  add_all (K := K) entries ∅ !! k = Some s -> gnc_numeric_ok s = true ->
  (gnc_value s == exact_sum k entries)%Q.
Proof.
  intros Hs Hok. destruct (add_all_exact _ _ _ _ Hs Hok) as [_ ->].
  rewrite lookup_empty. cbn. rewrite numeric_zero_value. ring.
Qed.
End sums_exact.
