(* ===== verification/Errors.v ===== *)
(** * Typed errors: [rpc/error.h], [rpc/error.cpp]

    The one error currency of the daemon, its classification for the journal
    and its rendering as a gRPC status. *)
From S2P Require Import Prelude.
From S2P Require Import Messages.

(** ** [ShimError] and the other exceptions of the daemon *)
Record ShimError := MkShimError {
  code_ : ErrorCode;
  engine_message_ : string;
  context_ : string;
}.

(** [ShimError(const ErrorDetail&)]. *)
Definition ShimError_of_detail (detail : ErrorDetail) : ShimError :=
  MkShimError (ErrorDetail_code detail) (ErrorDetail_engine_message detail)
    (ErrorDetail_context detail).

Definition ToDetail (e : ShimError) : ErrorDetail :=
  MkErrorDetail (code_ e) (engine_message_ e) (context_ e).

#[export] Instance ShimError_eq_dec : EqDecision ShimError.
Proof. solve_decision. Defined.

(** What can be thrown: the two errors of the engine queue
    ([engine/worker.h]), a [ShimError], or any other [std::exception]. *)
Inductive exn :=
| ShimErr (e : ShimError)
| QueueFullError
| WorkerStoppedError
| StdException (what : string).

(** [e.what()]. *)
Definition what (e : exn) : string :=
  match e with
  | ShimErr e => c_str (engine_message_ e)
  | QueueFullError => "engine queue full"
  | WorkerStoppedError => "engine worker is draining"
  | StdException w => c_str w
  end.

(** Programs of the daemon over a state [S]. *)
Abbreviation Prog := (M exn).

Definition throw_shim {S A} (code : ErrorCode) (message context : string) :
  Prog S A := throw (ShimErr (MkShimError code message context)).

(** [catch (const ShimError& e)]: other exceptions pass through. *)
Definition catch_shim {S A} (m : Prog S A) (h : ShimError -> Prog S A) :
  Prog S A :=
  catch m (fun e => match e with ShimErr se => h se | _ => throw e end).

(** ** gRPC statuses *)
Inductive StatusCode :=
| OK | INVALID_ARGUMENT | NOT_FOUND | RESOURCE_EXHAUSTED
| FAILED_PRECONDITION | INTERNAL | UNAVAILABLE.

Record Status := MkStatus {
  status_code : StatusCode;
  status_message : string;
  status_details : string;
}.

Definition Status_OK : Status := MkStatus OK "" "".

Definition GrpcCodeFor (code : ErrorCode) : StatusCode :=
  match code with
  | ERROR_CODE_ACCOUNT_NOT_FOUND
  | ERROR_CODE_TXN_NOT_FOUND
  | ERROR_CODE_COMMODITY_NOT_FOUND => NOT_FOUND
  | ERROR_CODE_UNBALANCED_TRANSACTION
  | ERROR_CODE_CURRENCY_MISMATCH
  | ERROR_CODE_ACCOUNT_NOT_EMPTY
  | ERROR_CODE_READ_ONLY_BOOK
  | ERROR_CODE_INDETERMINATE_MUTATION => FAILED_PRECONDITION
  | ERROR_CODE_BOOK_LOCKED
  | ERROR_CODE_BOOK_NOT_OPEN => UNAVAILABLE
  | ERROR_CODE_INVALID_ARGUMENT => INVALID_ARGUMENT
  | _ => INTERNAL
  end.

Definition IsDeterministicVerdict (code : ErrorCode) : bool :=
  match code with
  | ERROR_CODE_UNBALANCED_TRANSACTION
  | ERROR_CODE_ACCOUNT_NOT_FOUND
  | ERROR_CODE_TXN_NOT_FOUND
  | ERROR_CODE_COMMODITY_NOT_FOUND
  | ERROR_CODE_CURRENCY_MISMATCH
  | ERROR_CODE_ACCOUNT_NOT_EMPTY
  | ERROR_CODE_INVALID_ARGUMENT => true
  | _ => false
  end.

(** ** Rendering

    [google.rpc.Status] and its [Any] details are protobuf's: [any_pack] is
    [Any::PackFrom], [grpc_int] the integer value of a status code. *)
Record Any := MkAny { Any_type_url : string; Any_value : string }.
Record RpcStatus := MkRpcStatus {
  RpcStatus_code : Z;
  RpcStatus_message : string;
  RpcStatus_details : list Any;
}.

Class GrpcEnv := {
  grpc_int : StatusCode -> Z;
  any_pack : ErrorDetail -> option Any;
  any_unpack : Any -> option ErrorDetail;
  #[global] RpcStatus_proto :: Proto RpcStatus;
}.

(** The documented behaviour of the runtime: a packed message unpacks to
    itself, and a serialized status parses back. *)
Class GrpcEnvOk `{!GrpcEnv} : Prop := {
  any_unpack_pack : forall d a, any_pack d = Some a -> any_unpack a = Some d;
  #[global] RpcStatus_ok :: ProtoOk RpcStatus;
}.

Section status.
Context `{GrpcEnv}.

Definition PackStatus (grpc_code : StatusCode) (code : ErrorCode)
    (message context : string) : Status :=
  let detail := MkErrorDetail code message context in
  let details := match any_pack detail with Some a => [a] | None => [] end in
  let rpc_status := MkRpcStatus (grpc_int grpc_code) message details in
  MkStatus grpc_code message (SerializeAsString rpc_status).

Definition ToStatus (e : ShimError) : Status :=
  PackStatus (GrpcCodeFor (code_ e)) (code_ e) (engine_message_ e)
    (context_ e).

Definition StatusFromException (e : exn) : Status :=
  match e with
  | ShimErr shim_error => ToStatus shim_error
  | QueueFullError =>
      PackStatus RESOURCE_EXHAUSTED ERROR_CODE_UNSPECIFIED (what e) ""
  | WorkerStoppedError =>
      PackStatus UNAVAILABLE ERROR_CODE_UNSPECIFIED (what e) ""
  | StdException _ =>
      ToStatus (MkShimError ERROR_CODE_ENGINE_ERROR (what e) "")
  end.

(** What a client reads back from [grpc-status-details-bin]. *)
Definition client_detail (s : Status) : option ErrorDetail :=
  rpc ← ParseFromString (A := RpcStatus) (status_details s);
  a ← head (RpcStatus_details rpc);
  any_unpack a.
End status.

(** ** Lemmas *)
Lemma ShimError_of_to_detail e : ShimError_of_detail (ToDetail e) = e.
Proof. by destruct e. Qed.

Lemma ToDetail_of_detail d : ToDetail (ShimError_of_detail d) = d.
Proof. by destruct d. Qed.

Section statuses.
Context `{GrpcEnv}.

Lemma GrpcCodeFor_not_OK code : GrpcCodeFor code <> OK.
Proof. by destruct code. Qed.

Lemma StatusFromException_code e : status_code (StatusFromException e) <> OK.
Proof. destruct e; cbn; try done; apply GrpcCodeFor_not_OK. Qed.

Lemma StatusFromException_not_OK e : StatusFromException e <> Status_OK.
Proof.
  destruct e; cbn; unfold ToStatus, PackStatus, Status_OK; intros [= E _];
    by apply GrpcCodeFor_not_OK in E.
Qed.

(** C39: No error is lost on its way to the client: whatever is thrown, the status
    is not OK, and when the detail could be packed the client reads back from
    the trailer exactly the code, the engine's message and the context of the
    error; a saturated queue and a draining worker have statuses of their own,
    distinct from every typed error's. *)
Theorem status_carries_error `{!GrpcEnvOk} e :
  StatusFromException e <> Status_OK /\
  (forall se, e = ShimErr se ->
     status_code (StatusFromException e) = GrpcCodeFor (code_ se) /\
     (is_Some (any_pack (ToDetail se)) ->
      client_detail (StatusFromException e) = Some (ToDetail se))) /\
  (status_code (StatusFromException e) = RESOURCE_EXHAUSTED <-> e = QueueFullError) /\
  (e = WorkerStoppedError -> status_code (StatusFromException e) = UNAVAILABLE).
Proof.
  split_and!.
  - apply StatusFromException_not_OK.
  - intros se ->. split; [done|]. intros [a Ha].
    unfold client_detail. cbn. unfold ToDetail in Ha. rewrite Ha. cbn.
    rewrite parse_serialize. cbn. by apply any_unpack_pack.
  - destruct e as [[c m x]| | |w]; cbn; split; try done. by destruct c.
  - by intros ->.
Qed.
End statuses.
