(* ===== verification/Map.v ===== *)
(** * Contract messages to engine values and back: [engine/map.h], [engine/map.cpp]

    The conversions are executable over the engine's entry points; what can be
    refused returns an error or a value. *)
From S2P Require Import Prelude.
From S2P Require Import Messages.
From S2P Require Import Engine.
From S2P Require Import Errors.
Local Open Scope Z_scope.
Local Open Scope prog_scope.

Definition refuse {A} (code : ErrorCode) (message context : string) :
    ShimError + A :=
  inl (MkShimError code message context).

(** The default instances that accessors of an unset submessage return. *)
Definition Numeric_default : Numeric := MkNumeric 0 0.
Definition Date_default : Date := MkDate 0 0 0.
Definition CommodityId_default : CommodityId := MkCommodityId "" "".

(** ** Credentials in a URI *)
Definition RedactUri (uri : string) : string :=
  match str_find "://" 0 uri with
  | None => uri
  | Some scheme_end =>
      match str_find "@" (scheme_end + 3) uri with
      | None => uri
      | Some at_ =>
          match str_find ":" (scheme_end + 3) uri with
          | None => uri
          | Some colon =>
              if (at_ <? colon)%nat then uri
              else stake (colon + 1) uri +:+ "***" +:+ sdrop at_ uri
          end
      end
  end.

Section values.
Context `{GncValues}.

Definition GuidToString (guid : GncGUID) : string := guid_to_string guid.

Definition StringToGuid (text context : string) : ShimError + GncGUID :=
  match string_to_guid (c_str text) with
  | Some guid => inr guid
  | None =>
      refuse ERROR_CODE_INVALID_ARGUMENT ("malformed GUID: " +:+ text) context
  end.

Definition NumericFromProto (numeric : Numeric) (context : string) :
    ShimError + gnc_numeric :=
  if Numeric_denom numeric <=? 0 then
    refuse ERROR_CODE_INVALID_ARGUMENT "Numeric.denom must be > 0" context
  else inr (gnc_numeric_create (Numeric_num numeric) (Numeric_denom numeric)).

Definition NumericToProto (value : gnc_numeric) : Numeric :=
  MkNumeric (num value) (denom value).

(** [GDateDay] is a [guint8] and [GDateYear] a [guint16]: a cast keeps the low
    bits. [GDateMonth] is an enumeration as wide as an [int]. *)
Definition to_GDateDay (day : Z) : Z := Z.land day 255.
Definition to_GDateYear (year : Z) : Z := Z.land year 65535.

Definition invalid_date (date : Date) (context : string) : ShimError :=
  MkShimError ERROR_CODE_INVALID_ARGUMENT
    ("invalid calendar date " +:+ pretty (Date_year date) +:+ "-" +:+
     pretty (Date_month date) +:+ "-" +:+ pretty (Date_day date)) context.

Definition DateFromProto (date : Date) (context : string) : ShimError + GDate :=
  if (Date_year date <? 1) || (65535 <? Date_year date) ||
     (Date_month date <? 1) || (12 <? Date_month date) ||
     (Date_day date <? 1) || (31 <? Date_day date)
  then inl (invalid_date date context)
  else
    let day := to_GDateDay (Date_day date) in
    let month := Date_month date in
    let year := to_GDateYear (Date_year date) in
    if negb (g_date_valid_dmy day month year) then
      inl (invalid_date date context)
    else inr (g_date_set_dmy day month year).

Definition DateToProto (date : GDate) : Date :=
  MkDate (g_date_get_year date) (g_date_get_month date) (g_date_get_day date).

Definition AccountTypeFromProto (type : AccountType) (context : string) :
    ShimError + GNCAccountType :=
  match type with
  | ACCOUNT_TYPE_ASSET => inr ACCT_TYPE_ASSET
  | ACCOUNT_TYPE_BANK => inr ACCT_TYPE_BANK
  | ACCOUNT_TYPE_CASH => inr ACCT_TYPE_CASH
  | ACCOUNT_TYPE_CREDIT => inr ACCT_TYPE_CREDIT
  | ACCOUNT_TYPE_LIABILITY => inr ACCT_TYPE_LIABILITY
  | ACCOUNT_TYPE_EQUITY => inr ACCT_TYPE_EQUITY
  | ACCOUNT_TYPE_INCOME => inr ACCT_TYPE_INCOME
  | ACCOUNT_TYPE_EXPENSE => inr ACCT_TYPE_EXPENSE
  | ACCOUNT_TYPE_STOCK => inr ACCT_TYPE_STOCK
  | ACCOUNT_TYPE_MUTUAL => inr ACCT_TYPE_MUTUAL
  | ACCOUNT_TYPE_RECEIVABLE => inr ACCT_TYPE_RECEIVABLE
  | ACCOUNT_TYPE_PAYABLE => inr ACCT_TYPE_PAYABLE
  | ACCOUNT_TYPE_TRADING => inr ACCT_TYPE_TRADING
  | ACCOUNT_TYPE_ROOT =>
      refuse ERROR_CODE_INVALID_ARGUMENT "ROOT is not a settable account type"
        context
  | _ =>
      refuse ERROR_CODE_INVALID_ARGUMENT "unspecified account type" context
  end.

(** The cases of the switch, in its order. *)
Definition account_type_cases : list (GNCAccountType * AccountType) :=
  [(ACCT_TYPE_ASSET, ACCOUNT_TYPE_ASSET); (ACCT_TYPE_BANK, ACCOUNT_TYPE_BANK);
   (ACCT_TYPE_CASH, ACCOUNT_TYPE_CASH); (ACCT_TYPE_CREDIT, ACCOUNT_TYPE_CREDIT);
   (ACCT_TYPE_LIABILITY, ACCOUNT_TYPE_LIABILITY);
   (ACCT_TYPE_EQUITY, ACCOUNT_TYPE_EQUITY);
   (ACCT_TYPE_INCOME, ACCOUNT_TYPE_INCOME);
   (ACCT_TYPE_EXPENSE, ACCOUNT_TYPE_EXPENSE);
   (ACCT_TYPE_STOCK, ACCOUNT_TYPE_STOCK);
   (ACCT_TYPE_MUTUAL, ACCOUNT_TYPE_MUTUAL);
   (ACCT_TYPE_RECEIVABLE, ACCOUNT_TYPE_RECEIVABLE);
   (ACCT_TYPE_PAYABLE, ACCOUNT_TYPE_PAYABLE);
   (ACCT_TYPE_TRADING, ACCOUNT_TYPE_TRADING);
   (ACCT_TYPE_ROOT, ACCOUNT_TYPE_ROOT)].

(** A [switch] over cases [c], with its default. *)
Fixpoint switch {A B} `{EqDecision A} (c : list (A * B)) (default : B) (x : A) : B :=
  match c with
  | [] => default
  | (a, b) :: c' => if decide (x = a) then b else switch c' default x
  end.

Definition AccountTypeToProto (type : GNCAccountType) : AccountType :=
  switch account_type_cases ACCOUNT_TYPE_UNSPECIFIED type.

Definition ReconcileStateFromProto (state : ReconcileState) (context : string) :
    ShimError + ascii :=
  match state with
  | RECONCILE_STATE_NOT_RECONCILED => inr NREC
  | RECONCILE_STATE_CLEARED => inr CREC
  | RECONCILE_STATE_RECONCILED => inr YREC
  | RECONCILE_STATE_FROZEN => inr FREC
  | RECONCILE_STATE_VOIDED => inr VREC
  | _ => refuse ERROR_CODE_INVALID_ARGUMENT "unspecified reconcile state" context
  end.

Definition reconcile_cases : list (ascii * ReconcileState) :=
  [(NREC, RECONCILE_STATE_NOT_RECONCILED); (CREC, RECONCILE_STATE_CLEARED);
   (YREC, RECONCILE_STATE_RECONCILED); (FREC, RECONCILE_STATE_FROZEN);
   (VREC, RECONCILE_STATE_VOIDED)].

Definition ReconcileStateToProto (flag : ascii) : ReconcileState :=
  switch reconcile_cases RECONCILE_STATE_UNSPECIFIED flag.
End values.

(** [safe]: a null string reads as the empty one. *)
Definition safe (s : option string) : string := default "" s.

Section objects.
Context `{Gnc}.

Definition FindCommodity (book : Book) (id : CommodityId) (context : string) :
    ShimError + CommodityPtr :=
  match gnc_commodity_table_lookup book (c_str (CommodityId_space id))
          (c_str (CommodityId_mnemonic id)) with
  | Some commodity => inr commodity
  | None =>
      refuse ERROR_CODE_COMMODITY_NOT_FOUND
        ("no commodity {" +:+ CommodityId_space id +:+ ", " +:+
         CommodityId_mnemonic id +:+ "}") context
  end.

Definition CommodityIdToProto (book : Book) (commodity : CommodityPtr) :
    CommodityId :=
  MkCommodityId (gnc_commodity_get_namespace book commodity)
    (gnc_commodity_get_mnemonic book commodity).

Definition FindAccount (book : Book) (guid context : string) :
    ShimError + AccountPtr :=
  parsed <-? StringToGuid guid context ;;
  match xaccAccountLookup book parsed with
  | Some account => inr account
  | None => refuse ERROR_CODE_ACCOUNT_NOT_FOUND ("no account " +:+ guid) context
  end.

Definition FindTransaction (book : Book) (guid context : string) :
    ShimError + TransactionPtr :=
  parsed <-? StringToGuid guid context ;;
  match xaccTransLookup book parsed with
  | Some transaction => inr transaction
  | None => refuse ERROR_CODE_TXN_NOT_FOUND ("no transaction " +:+ guid) context
  end.

Definition ReconcileInfoToProto (book : Book) (account : AccountPtr) :
    ReconcileInfo :=
  MkReconcileInfo (GuidToString (account_guid book account))
    (DateToProto ∘ time64_to_gdate <$> xaccAccountGetReconcileLastDate book account)
    (Some (NumericToProto (xaccAccountGetReconciledBalance book account))).

Definition SplitToProto (book : Book) (split : SplitPtr) : Split :=
  MkSplit (GuidToString (split_guid book split))
    (GuidToString (account_guid book (xaccSplitGetAccount book split)))
    (Some (NumericToProto (xaccSplitGetValue book split)))
    (Some (NumericToProto (xaccSplitGetAmount book split)))
    (safe (xaccSplitGetMemo book split))
    (safe (xaccSplitGetAction book split))
    (ReconcileStateToProto (xaccSplitGetReconcile book split)).

(** A date is set only when the engine's date is valid. *)
Definition date_field (date : GDate) : option Date :=
  if g_date_valid date then Some (DateToProto date) else None.

Definition TransactionToProto (book : Book) (transaction : TransactionPtr) :
    Transaction :=
  MkTransaction (GuidToString (transaction_guid book transaction))
    (CommodityIdToProto book <$> xaccTransGetCurrency book transaction)
    (date_field (xaccTransGetDatePostedGDate book transaction))
    (xaccTransGetDateEntered book transaction)
    (safe (xaccTransGetNum book transaction))
    (safe (xaccTransGetDescription book transaction))
    (SplitToProto book <$>
       filter (fun split => split_destroying book split = false)
         (xaccTransGetSplitList book transaction)).

Definition AccountToProto (book : Book) (account : AccountPtr) : Account :=
  MkAccount (GuidToString (account_guid book account))
    (match gnc_account_get_parent book account with
     | Some parent => GuidToString (account_guid book parent)
     | None => ""
     end)
    (safe (xaccAccountGetName book account))
    (AccountTypeToProto (xaccAccountGetType book account))
    (CommodityIdToProto book <$> xaccAccountGetCommodity book account)
    (safe (xaccAccountGetCode book account))
    (safe (xaccAccountGetDescription book account))
    (xaccAccountGetPlaceholder book account)
    (xaccAccountGetHidden book account).
End objects.

(** ** What the conversions refuse with

    Every refusal is a verdict on the request. *)
Definition verdicts {A} (r : ShimError + A) : Prop :=
  forall e, r = inl e -> IsDeterministicVerdict (code_ e) = true.

Section verdicts.
Context `{Gnc}.

Lemma verdicts_sbind {A B} (m : ShimError + A) (k : A -> ShimError + B) :
  verdicts m -> (forall a, verdicts (k a)) -> verdicts (sbind m k).
Proof. intros Hm Hk e [->|(a & _ & He)]%sbind_inl; [by apply Hm|by eapply Hk]. Qed.

Lemma verdicts_inr {A} (a : A) : verdicts (inr a).
Proof. done. Qed.

Lemma verdicts_refuse {A} code message context :
  IsDeterministicVerdict code = true ->
  verdicts (refuse (A := A) code message context).
Proof. by intros Hc e [= <-]. Qed.

Lemma StringToGuid_verdicts text context : verdicts (StringToGuid text context).
Proof. intros e. unfold StringToGuid. destruct (string_to_guid _); by intros [= <-]. Qed.

Lemma NumericFromProto_verdicts n context : verdicts (NumericFromProto n context).
Proof. intros e. unfold NumericFromProto. destruct (_ <=? _); by intros [= <-]. Qed.

Lemma DateFromProto_verdicts d context : verdicts (DateFromProto d context).
Proof.
  intros e. unfold DateFromProto. destruct (_ || _); [by intros [= <-]|].
  destruct (negb _); by intros [= <-].
Qed.

Lemma AccountTypeFromProto_verdicts t context : verdicts (AccountTypeFromProto t context).
Proof. intros e. destruct t; by intros [= <-]. Qed.

Lemma ReconcileStateFromProto_verdicts t context :
  verdicts (ReconcileStateFromProto t context).
Proof. intros e. destruct t; by intros [= <-]. Qed.

Lemma FindCommodity_verdicts b id context : verdicts (FindCommodity b id context).
Proof. intros e. unfold FindCommodity. case_match; by intros [= <-]. Qed.

Lemma FindAccount_verdicts b guid context : verdicts (FindAccount b guid context).
Proof.
  apply verdicts_sbind; [apply StringToGuid_verdicts|]. intros g e.
  case_match; by intros [= <-].
Qed.

Lemma FindTransaction_verdicts b guid context :
  verdicts (FindTransaction b guid context).
Proof.
  apply verdicts_sbind; [apply StringToGuid_verdicts|]. intros g e.
  case_match; by intros [= <-].
Qed.
End verdicts.

(** ** Properties *)
Section properties.
Context `{GncValuesOk}.

Lemma switch_NoDup {A B} `{EqDecision A} (c : list (A * B)) d a b :
  NoDup c.*1 -> (a, b) ∈ c -> switch c d a = b.
Proof.
  induction c as [|[a' b'] c IH]; cbn; [by intros _ ?%not_elem_of_nil|].
  intros [Hnew Hnd]%NoDup_cons [[= -> ->]|Hin]%elem_of_cons.
  - by rewrite decide_True.
  - rewrite decide_False; [by apply IH|]. intros ->. apply Hnew.
    by apply (list_elem_of_fmap_2 fst _ (a', b)).
Qed.

(** Numbers: exactly those with a positive denominator are accepted, and an
    accepted number is the same pair of integers, well formed for the engine,
    and reads back unchanged. *)
Theorem numeric_from_proto_exact n context :
  (Numeric_denom n <= 0 ->
     NumericFromProto n context =
       refuse ERROR_CODE_INVALID_ARGUMENT "Numeric.denom must be > 0" context) /\
  (0 < Numeric_denom n ->
     exists v, NumericFromProto n context = inr v /\ NumericToProto v = n /\
               gnc_numeric_ok v = true) /\
  (forall v, NumericFromProto n context = inr v -> 0 < denom v).
Proof.
  unfold NumericFromProto. destruct (Z.leb_spec (Numeric_denom n) 0) as [Hd|Hd].
  - split_and!; [done|lia|done].
  - split_and!; [lia| |by intros v [= <-]]. intros _. eexists.
    split_and!; [done|by destruct n|]. by apply numeric_ok_pos.
Qed.

Lemma to_GDateDay_id d : 1 <= d <= 31 -> to_GDateDay d = d.
Proof.
  intros. unfold to_GDateDay. change 255 with (Z.ones 8).
  rewrite Z.land_ones by lia. apply Z.mod_small. lia.
Qed.

Lemma to_GDateYear_id y : 1 <= y <= 65535 -> to_GDateYear y = y.
Proof.
  intros. unfold to_GDateYear. change 65535 with (Z.ones 16).
  rewrite Z.land_ones by lia. apply Z.mod_small. lia.
Qed.

Definition date_in_range (d : Date) : Prop :=
  1 <= Date_year d <= 65535 /\ 1 <= Date_month d <= 12 /\ 1 <= Date_day d <= 31.

Lemma DateFromProto_inr d context g :
  DateFromProto d context = inr g ->
  g_date_valid g = true /\ date_field g = Some d /\ g_date_get_year g = Date_year d.
Proof.
  unfold DateFromProto. destruct (_ || _) eqn:Hr; [done|].
  rewrite !orb_false_iff, !Z.ltb_ge in Hr.
  rewrite to_GDateDay_id, to_GDateYear_id by lia.
  destruct (g_date_valid_dmy _ _ _) eqn:Hv; [|done]. intros [= <-].
  destruct (date_roundtrip _ _ _ Hv) as (Hg & Hd & Hm & Hy); [lia..|].
  unfold date_field, DateToProto. rewrite Hg, Hd, Hm, Hy. by destruct d.
Qed.

(** C40: Dates: a date is accepted exactly when its fields are in range and GLib
    calls them a calendar date; the narrowing casts never change an accepted
    field, and the engine's date reads back as the date that was sent. *)
Theorem date_from_proto_exact d context :
  (date_in_range d /\ g_date_valid_dmy (Date_day d) (Date_month d) (Date_year d) = true ->
     exists g, DateFromProto d context = inr g /\ date_field g = Some d) /\
  (~ (date_in_range d /\
      g_date_valid_dmy (Date_day d) (Date_month d) (Date_year d) = true) ->
     DateFromProto d context = inl (invalid_date d context)).
Proof.
  unfold DateFromProto, date_in_range. destruct (_ || _) eqn:Hr.
  - rewrite !orb_true_iff, !Z.ltb_lt in Hr. split; [lia|done].
  - rewrite !orb_false_iff, !Z.ltb_ge in Hr.
    rewrite to_GDateDay_id, to_GDateYear_id by lia.
    destruct (g_date_valid_dmy _ _ _) eqn:Hv; cbn.
    + split; [|intros Hn; destruct Hn; split; [lia|done]]. intros _.
      eexists. split; [done|].
      destruct (date_roundtrip _ _ _ Hv) as (Hg & Hd & Hm & Hy); [lia..|].
      unfold date_field, DateToProto. rewrite Hg, Hd, Hm, Hy. by destruct d.
    + split; [by intros []|done].
Qed.

(** Account types: every type of the contract but the root maps to its own
    engine type and back; the root, the unset type and any number outside the
    contract are refused. *)
Theorem account_type_roundtrip t context :
  match AccountTypeFromProto t context with
  | inr g => AccountTypeToProto g = t /\ t <> ACCOUNT_TYPE_ROOT
  | inl e => code_ e = ERROR_CODE_INVALID_ARGUMENT /\
             (t = ACCOUNT_TYPE_ROOT \/ t = ACCOUNT_TYPE_UNSPECIFIED \/
              exists n, t = ACCOUNT_TYPE_unrecognized n)
  end.
Proof.
  assert (forall g t, (g, t) ∈ account_type_cases -> AccountTypeToProto g = t)
    as Hto.
  { intros g t'. apply switch_NoDup. apply account_types_NoDup. }
  destruct t; cbn; eauto; (split; [|done]); apply Hto;
    unfold account_type_cases; rewrite !elem_of_cons; auto 20.
Qed.

(** Reconcile states: the five states map to the engine's flags and back;
    everything else is refused. *)
Theorem reconcile_state_roundtrip s context :
  match ReconcileStateFromProto s context with
  | inr flag => ReconcileStateToProto flag = s
  | inl e => code_ e = ERROR_CODE_INVALID_ARGUMENT /\
             (s = RECONCILE_STATE_UNSPECIFIED \/
              exists n, s = RECONCILE_STATE_unrecognized n)
  end.
Proof.
  assert (forall f s, (f, s) ∈ reconcile_cases -> ReconcileStateToProto f = s)
    as Hto.
  { intros f s'. apply switch_NoDup. apply reconcile_flags_NoDup. }
  destruct s; cbn; eauto; apply Hto; unfold reconcile_cases;
    rewrite !elem_of_cons; auto 20.
Qed.
End properties.

(** ** Redaction *)
Definition uri_with_password (scheme user password rest : string) : string :=
  scheme +:+ "://" +:+ user +:+ ":" +:+ password +:+ "@" +:+ rest.

Lemma find0_scheme scheme rest :
  str_free ":" scheme = true ->
  str_find "://" 0 (scheme +:+ "://" +:+ rest) = Some (String.length scheme).
Proof. intros Hs. by apply (str_find_first ":" "//" "" scheme rest). Qed.

Lemma RedactUri_at scheme user password rest :
  str_free ":" scheme = true -> str_free ":" user = true ->
  str_free "@" user = true -> str_free "@" password = true ->
  RedactUri (uri_with_password scheme user password rest) =
    scheme +:+ "://" +:+ user +:+ ":***@" +:+ rest.
Proof.
  intros Hs Huc Hua Hpa. unfold RedactUri, uri_with_password.
  rewrite find0_scheme by done.
  pose (pre := scheme +:+ "://").
  assert (String.length scheme + 3 = String.length pre)%nat as ->.
  { unfold pre. by rewrite length_append. }
  assert (scheme +:+ "://" +:+ user +:+ ":" +:+ password +:+ "@" +:+ rest =
          pre +:+ (user +:+ ":" +:+ password) +:+ String "@" ("" +:+ rest)) as Eat.
  { unfold pre. by rewrite !append_assoc. }
  assert (scheme +:+ "://" +:+ user +:+ ":" +:+ password +:+ "@" +:+ rest =
          pre +:+ user +:+ String ":" ("" +:+ (password +:+ "@" +:+ rest))) as Ecol.
  { unfold pre. by rewrite !append_assoc. }
  rewrite Eat at 1. rewrite str_find_first.
  2:{ rewrite !str_free_append, Hua, Hpa. done. }
  rewrite Ecol at 1. rewrite str_find_first by done.
  rewrite (proj2 (Nat.ltb_ge _ _)) by (rewrite !length_append; lia).
  rewrite Ecol at 1. rewrite Eat.
  replace (String.length pre + String.length user + 1)%nat
    with (String.length (pre +:+ user +:+ ":")) by (rewrite !length_append; cbn; lia).
  replace (pre +:+ user +:+ String ":" ("" +:+ (password +:+ "@" +:+ rest)))
    with ((pre +:+ user +:+ ":") +:+ (password +:+ "@" +:+ rest))
    by (by rewrite !append_assoc).
  rewrite stake_append, sdrop_append_plus, sdrop_append.
  unfold pre. by rewrite !append_assoc.
Qed.

(** Redaction hides the password: what comes out does not depend on the
    password at all, as long as the password holds no ['@']; the rest of the
    URI is kept, and a URI without a scheme or without ['@'] is unchanged. *)
Theorem redact_uri_hides_password scheme user rest :
  str_free ":" scheme = true -> str_free ":" user = true ->
  str_free "@" user = true ->
  (forall password, str_free "@" password = true ->
     RedactUri (uri_with_password scheme user password rest) =
       scheme +:+ "://" +:+ user +:+ ":***@" +:+ rest) /\
  (forall uri, str_free ":" uri = true \/ str_free "@" uri = true ->
     RedactUri uri = uri).
Proof.
  intros Hs Huc Hua. split; [intros password Hp; by apply RedactUri_at|].
  intros uri Hu. unfold RedactUri.
  destruct (str_find "://" 0 uri) as [scheme_end|] eqn:Hf; [|done].
  destruct Hu as [Hu|Hu].
  - unfold str_find in Hf. cbn [sdrop] in Hf. by rewrite find0_absent in Hf.
  - unfold str_find. rewrite (find0_absent "@"); [done|].
    rewrite <- (stake_sdrop (scheme_end + 3) uri) in Hu.
    rewrite str_free_append in Hu. by apply andb_true_iff in Hu as [_ Hu].
Qed.

(** A password with an ['@'] is not hidden: its tail is echoed. *)
Example redact_uri_leaks_after_at :
  RedactUri "postgres://books:hunter@2@db.local/daicho" =
  "postgres://books:***@2@db.local/daicho".
Proof. reflexivity. Qed.
