(* ===== verification/Session.v ===== *)
(** * The book session: [engine/session.h], [engine/session.cpp], [util/fail_point.h]

    [Session] wraps one [QofSession]: open with the stale-lock inference,
    close with guaranteed teardown, and the startup integrity gate. *)
From S2P Require Import Prelude.
From S2P Require Import Messages.
From S2P Require Import Engine.
From S2P Require Import Errors.
From S2P Require Import Map.
From Stdlib Require Import QArith.
Local Close Scope Q_scope.
Local Open Scope prog_scope.

(** The daemon only opens existing books; [mkbook] makes new ones. *)
Inductive SessionOpenMode :=
| SESSION_NORMAL_OPEN
| SESSION_NEW_STORE
| SESSION_READ_ONLY
| SESSION_BREAK_LOCK.

(** What reading the [gnclock] table of a book file gives: it cannot be opened
    or queried, or its rows (hostname, PID) up to the end of the table or to an
    I/O error. *)
Inductive LockTable :=
| Unreadable
| LockRows (rows : list (option string * Z)) (reached_end : bool).

(** The session functions of libgnucash, and what [session.cpp] asks of the
    operating system. *)
Class SessionEnv `{Gnc} := {
  QofSessionPtr : Type;
  QofBackendError : Type;
  QofBackendError_eq_dec :: EqDecision QofBackendError;
  QofBackendError_int : QofBackendError -> Z;
  ERR_BACKEND_NO_ERR : QofBackendError;
  ERR_BACKEND_LOCKED : QofBackendError;
  ERR_BACKEND_READONLY : QofBackendError;
  ERR_BACKEND_PERM : QofBackendError;
  qof_session_new : Book -> QofSessionPtr * Book;
  qof_session_begin : QofSessionPtr -> string -> SessionOpenMode -> Book -> Book;
  qof_session_load : QofSessionPtr -> Book -> Book;
  qof_session_save : QofSessionPtr -> Book -> Book;
  qof_session_end : QofSessionPtr -> Book -> Book;
  qof_session_destroy : QofSessionPtr -> Book -> Book;
  qof_session_get_error : QofSessionPtr -> Book -> QofBackendError;
  qof_session_get_error_message : QofSessionPtr -> Book -> option string;
  qof_book_is_readonly : Book -> bool;
  (** [SELECT Hostname, PID FROM gnclock] on the file at a path. *)
  read_gnclock : string -> LockTable;
  g_get_host_name : string;
  (** [kill(pid, 0)] fails with [ESRCH]. *)
  no_such_process : Z -> bool;
}.

(** The error values are different enumerators. *)
Class SessionEnvOk `{SessionEnv} : Prop := {
  backend_errors_NoDup :
    NoDup [ERR_BACKEND_NO_ERR; ERR_BACKEND_LOCKED; ERR_BACKEND_READONLY;
           ERR_BACKEND_PERM];
}.

Section session.
Context `{SessionEnv}.

Record Config := MkConfig { book_uri : string; read_only : bool }.

(** [qof] is libgnucash's own state, which outlives a closed session. *)
Record Session := MkSession {
  config_ : Config;
  session_ : option QofSessionPtr;
  open_ : bool;
  qof : Book;
}.

Definition set_qof (b : Book) (s : Session) : Session :=
  MkSession (config_ s) (session_ s) (open_ s) b.
Definition set_session (p : option QofSessionPtr) (s : Session) : Session :=
  MkSession (config_ s) p (open_ s) (qof s).
Definition set_open (o : bool) (s : Session) : Session :=
  MkSession (config_ s) (session_ s) o (qof s).

(** A call into libgnucash: for its effect, or for its result. *)
Definition call (f : Book -> Book) : Prog Session unit :=
  modify (fun s => set_qof (f (qof s)) s).
Definition ask {A} (f : Book -> A) : Prog Session A := gets (fun s => f (qof s)).
Definition make {A} (f : Book -> A * Book) : Prog Session A :=
  fun s => let '(a, b) := f (qof s) in (set_qof b s, Ret a).

(** [Session::Session(Config)]. *)
Definition new_Session (config : Config) (b : Book) : Session :=
  MkSession config None false b.

Definition HasSupportedScheme (uri : string) : bool :=
  starts_with "sqlite3://" uri || starts_with "postgres://" uri.

Definition Sqlite3Path (uri : string) : string :=
  if starts_with "sqlite3://" uri then sdrop 10 uri else "".

Definition BackendError (error : QofBackendError) (engine_message : option string)
    (uri : string) : ShimError :=
  let message :=
    match engine_message with
    | Some m => if decide (m = "") then "backend error " +:+ pretty (QofBackendError_int error)
                else m
    | None => "backend error " +:+ pretty (QofBackendError_int error)
    end in
  MkShimError
    (if decide (error = ERR_BACKEND_LOCKED) then ERROR_CODE_BOOK_LOCKED
     else if decide (error = ERR_BACKEND_READONLY \/ error = ERR_BACKEND_PERM)
     then ERROR_CODE_READ_ONLY_BOOK
     else ERROR_CODE_ENGINE_ERROR)
    message uri.

Definition ThrowOnSessionError (session : QofSessionPtr) (uri : string) :
    Prog Session unit :=
  error <~ ask (qof_session_get_error session) ;;
  if decide (error = ERR_BACKEND_NO_ERR) then ret tt
  else
    message <~ ask (qof_session_get_error_message session) ;;
    throw (ShimErr (BackendError error message uri)).

(** [static_cast<pid_t>] of a 64-bit column: 32-bit two's complement. *)
Definition to_pid_t (n : Z) : Z :=
  ((n + 2 ^ 31) mod 2 ^ 32 - 2 ^ 31)%Z.

(** The scan of the rows; it stops at the first that is not provably dead. *)
Fixpoint scan_lock_rows (rows : list (option string * Z)) (reached_end : bool) :
    bool :=
  match rows with
  | [] => reached_end
  | (row_host, pid) :: rows' =>
      let same_host := bool_decide (row_host = Some g_get_host_name) in
      let dead := no_such_process (to_pid_t pid) in
      if negb (same_host && dead) then false
      else scan_lock_rows rows' reached_end
  end.

Definition GncLockIsProvablyStale (uri : string) : bool :=
  let path := Sqlite3Path uri in
  if decide (path = "") then false
  else match read_gnclock (c_str path) with
       | Unreadable => false
       | LockRows rows reached_end => scan_lock_rows rows reached_end
       end.

(** ** [Session::Open] *)
Definition Open : Prog Session unit :=
  s <~ gets id ;;
  match session_ s with
  | Some _ => ret tt
  | None =>
      let uri := book_uri (config_ s) in
      if negb (HasSupportedScheme uri) then
        throw_shim ERROR_CODE_INVALID_ARGUMENT
          "unsupported book URI scheme; only sqlite3:// and postgres:// books are crash-safe"
          uri
      else
        session <~ make qof_session_new ;;
        call (qof_session_begin session (c_str uri)
                (if read_only (config_ s) then SESSION_READ_ONLY
                 else SESSION_NORMAL_OPEN)) ;;;
        error <~ ask (qof_session_get_error session) ;;
        error <~
          (if decide (error = ERR_BACKEND_LOCKED) then
             if read_only (config_ s) then ret error
             else
               let is_sqlite3 := starts_with "sqlite3://" uri in
               if negb is_sqlite3 || GncLockIsProvablyStale uri then
                 call (qof_session_begin session (c_str uri) SESSION_BREAK_LOCK) ;;;
                 ask (qof_session_get_error session)
               else ret error
           else ret error) ;;
        if negb (bool_decide (error = ERR_BACKEND_NO_ERR)) then
          message <~ ask (qof_session_get_error_message session) ;;
          call (qof_session_destroy session) ;;;
          throw (ShimErr (BackendError error message uri))
        else
          call (qof_session_load session) ;;;
          error <~ ask (qof_session_get_error session) ;;
          if negb (bool_decide (error = ERR_BACKEND_NO_ERR)) then
            message <~ ask (qof_session_get_error_message session) ;;
            call (qof_session_end session) ;;;
            call (qof_session_destroy session) ;;;
            throw (ShimErr (BackendError error message uri))
          else
            modify (set_session (Some session)) ;;;
            modify (set_open true)
  end.

(** [FailPointMaybe], with the value of [DAICHOD_FAIL_AT]. *)
Definition FailPointMaybe {S} (fail_at : option string) (name : string) :
    Prog S unit :=
  if decide (fail_at = Some name) then
    throw_shim ERROR_CODE_ENGINE_ERROR "injected failure at fail point" name
  else ret tt.

(** ** [Session::Close] *)
Definition Close (fail_at : option string) : Prog Session unit :=
  s <~ gets id ;;
  match session_ s with
  | None => ret tt
  | Some session =>
      modify (set_open false) ;;;
      save_error <~
        (if read_only (config_ s) then ret None
         else
           catch
             (FailPointMaybe fail_at "session_close_save" ;;;
              call (qof_session_save session) ;;;
              ThrowOnSessionError session (book_uri (config_ s)) ;;;
              ret None)
             (fun e => ret (Some e))) ;;
      call (qof_session_end session) ;;;
      call (qof_session_destroy session) ;;;
      modify (set_session None) ;;;
      match save_error with Some e => throw e | None => ret tt end
  end.

(** [Session::~Session]: the last resort, which reports and swallows. *)
Definition Session_destructor (fail_at : option string) : Prog Session unit :=
  s <~ gets id ;;
  match session_ s with
  | None => ret tt
  | Some _ => catch (Close fail_at) (fun _ => ret tt)
  end.

(** [Session::book]: the check before any use of the book. *)
Definition book : Prog Session unit :=
  s <~ gets id ;;
  match session_ s with
  | None => throw_shim ERROR_CODE_BOOK_NOT_OPEN "no book is open" ""
  | Some _ => ret tt
  end.

Definition root_account : Prog Session AccountPtr :=
  book ;;; ask gnc_book_get_root_account.

(** ** [Session::RunStartupChecks] *)

(** [qof_query_create_for(GNC_ID_SPLIT)] with no term: every split. *)
Definition all_splits : SplitQuery AccountPtr := MkSplitQuery [] None None None None.

(** What the loop over the splits accumulates. *)
Record StartupScan := MkStartupScan {
  imbalanced_txn : string;
  sums : gmap string gnc_numeric;
}.

Definition currency_key (b : Book) (currency : CommodityPtr) : string :=
  gnc_commodity_get_namespace b currency +:+ ":" +:+
  gnc_commodity_get_mnemonic b currency.

Definition scan_split (b : Book) (scan : StartupScan) (split : SplitPtr) :
    StartupScan :=
  let transaction := xaccSplitGetParent b split in
  let imbalanced :=
    if decide (imbalanced_txn scan = "") then
      if negb (gnc_numeric_zero_p (xaccTransGetImbalanceValue b transaction))
      then GuidToString (transaction_guid b transaction)
      else imbalanced_txn scan
    else imbalanced_txn scan in
  match xaccTransGetCurrency b transaction with
  | None => MkStartupScan imbalanced (sums scan)
  | Some currency =>
      MkStartupScan imbalanced
        (add_to (currency_key b currency) (xaccSplitGetValue b split) (sums scan))
  end.

Definition startup_scan (b : Book) : StartupScan :=
  foldl (scan_split b) (MkStartupScan "" ∅) (qof_query_run b all_splits).

(** The loop over [sums]: the first currency with a nonzero sum is reported. *)
Fixpoint check_sums {S} (items : list (string * gnc_numeric)) : Prog S unit :=
  match items with
  | [] => ret tt
  | (currency, sum) :: items' =>
      if negb (gnc_numeric_zero_p sum) then
        throw_shim ERROR_CODE_ENGINE_ERROR
          "startup check failed: trial balance is nonzero" currency
      else check_sums items'
  end.

Definition RunStartupChecks : Prog Session unit :=
  book ;;;
  scan <~ ask startup_scan ;;
  if decide (imbalanced_txn scan <> "") then
    throw_shim ERROR_CODE_ENGINE_ERROR
      "startup check failed: imbalanced transaction" (imbalanced_txn scan)
  else check_sums (map_items string_le (sums scan)).

(** A fresh process serving a book: construct, open, check. *)
Definition start (config : Config) : Prog Session unit := Open ;;; RunStartupChecks.
End session.

(** ** Properties *)
Section properties.
Context `{SessionEnv}.
Implicit Types (s : Session).

(** A flag that other threads read: open exactly while a session exists. *)
Definition session_inv s : Prop := open_ s = bool_decide (is_Some (session_ s)).

Definition open_mode s : SessionOpenMode :=
  if read_only (config_ s) then SESSION_READ_ONLY else SESSION_NORMAL_OPEN.

Lemma open_mode_existing s : open_mode s <> SESSION_NEW_STORE.
Proof. unfold open_mode. by destruct (read_only _). Qed.

Definition first_begin s (p : QofSessionPtr) (b0 : Book) : Book :=
  qof_session_begin p (c_str (book_uri (config_ s))) (open_mode s) b0.

(** The engine after the attempts to begin: one, or a second that breaks the
    lock. *)
Definition begun s (p : QofSessionPtr) (b0 : Book) : Book :=
  let uri := book_uri (config_ s) in
  let b1 := first_begin s p b0 in
  if bool_decide (qof_session_get_error p b1 = ERR_BACKEND_LOCKED) &&
     negb (read_only (config_ s)) &&
     (negb (starts_with "sqlite3://" uri) || GncLockIsProvablyStale uri)
  then qof_session_begin p (c_str uri) SESSION_BREAK_LOCK b1 else b1.

Definition open_failure s (p : QofSessionPtr) (b : Book) : exn :=
  ShimErr (BackendError (qof_session_get_error p b)
             (qof_session_get_error_message p b) (book_uri (config_ s))).

Lemma Open_closed s p b0 :
  session_ s = None -> HasSupportedScheme (book_uri (config_ s)) = true ->
  qof_session_new (qof s) = (p, b0) ->
  let b2 := begun s p b0 in
  let b3 := qof_session_load p b2 in
  Open s =
    if bool_decide (qof_session_get_error p b2 = ERR_BACKEND_NO_ERR) then
      if bool_decide (qof_session_get_error p b3 = ERR_BACKEND_NO_ERR)
      then (MkSession (config_ s) (Some p) true b3, Ret tt)
      else (set_qof (qof_session_destroy p (qof_session_end p b3)) s,
            Throw (open_failure s p b3))
    else (set_qof (qof_session_destroy p b2) s, Throw (open_failure s p b2)).
Proof.
  intros Hs Hu Hnew. cbv zeta.
  unfold Open, gets, bind, id, make, call, ask, modify. rewrite Hs, Hu. cbn.
  rewrite Hnew. cbn. unfold begun, first_begin, open_mode, open_failure.
  destruct s as [[uri ro] sp op b]; cbn in *. subst sp.
  set (b1 := qof_session_begin p (c_str uri) _ b0).
  destruct (decide (qof_session_get_error p b1 = ERR_BACKEND_LOCKED)) as [Hl|Hl].
  - rewrite (bool_decide_eq_true_2 _ Hl). cbn. destruct ro; cbn.
    + destruct (bool_decide _); cbn; [|done]. by destruct (bool_decide _).
    + destruct (negb _ || _); cbn; destruct (bool_decide _); cbn; try done;
        by destruct (bool_decide _).
  - rewrite (bool_decide_eq_false_2 _ Hl). cbn.
    destruct (bool_decide _); cbn; [|done]. by destruct (bool_decide _).
Qed.

Lemma Open_open s p : session_ s = Some p -> Open s = (s, Ret tt).
Proof. intros Hs. unfold Open, bind, gets, id. by rewrite Hs. Qed.

Lemma Open_result s :
  session_inv s ->
  match Open s with
  | (s', Ret _) =>
      session_inv s' /\ open_ s' = true /\ config_ s' = config_ s /\
      (session_ s <> None -> s' = s) /\
      (session_ s = None -> exists p, session_ s' = Some p /\
         qof_session_get_error p (qof s') = ERR_BACKEND_NO_ERR)
  | (s', Throw e) =>
      session_inv s' /\ session_ s = None /\ session_ s' = None /\
      config_ s' = config_ s /\
      exists se, e = ShimErr se /\ context_ se = book_uri (config_ s)
  | (_, Died) => False
  end.
Proof.
  unfold session_inv. intros Hi. destruct (session_ s) as [p|] eqn:Hs.
  { rewrite (Open_open _ p) by done. rewrite Hs. by split_and!. }
  destruct (HasSupportedScheme (book_uri (config_ s))) eqn:Hu.
  2:{ unfold Open, bind, gets, id. rewrite Hs, Hu. cbn. rewrite Hs.
      split_and!; eauto. }
  destruct (qof_session_new (qof s)) as [p b0] eqn:Hnew.
  rewrite (Open_closed s p b0) by done. cbv zeta.
  rewrite bool_decide_eq_false_2 in Hi by (by intros []).
  generalize (begun s p b0). intros b2.
  destruct (bool_decide (qof_session_get_error p b2 = ERR_BACKEND_NO_ERR)).
  - destruct (bool_decide (_ = ERR_BACKEND_NO_ERR)) eqn:Hok; cbn.
    + apply bool_decide_eq_true in Hok. split_and!; try done; eauto.
    + rewrite Hs, Hi. split_and!; try done; eauto.
  - cbn. rewrite Hs, Hi. split_and!; try done; eauto.
Qed.

(** Opening: an open session is left alone; otherwise a refusal leaves the
    session closed and names the book, and success leaves it open with no
    backend error. Whatever happens the flag other threads read is right. *)
Theorem open_book_result s :
  session_inv s ->
  match Open s with
  | (s', Ret _) =>
      session_inv s' /\ open_ s' = true /\ config_ s' = config_ s /\
      (session_ s <> None -> s' = s) /\
      (session_ s = None -> exists p, session_ s' = Some p /\
         qof_session_get_error p (qof s') = ERR_BACKEND_NO_ERR)
  | (s', Throw e) =>
      session_inv s' /\ session_ s = None /\ session_ s' = None /\
      config_ s' = config_ s /\
      exists se, e = ShimErr se /\ context_ se = book_uri (config_ s)
  | (_, Died) => False
  end.
Proof. apply Open_result. Qed.

(** Closing, whatever the save does. *)
Definition saved_by_close (fail_at : option string) s (p : QofSessionPtr) : Book :=
  if read_only (config_ s) || bool_decide (fail_at = Some "session_close_save")
  then qof s else qof_session_save p (qof s).

Lemma Close_open fail_at s p :
  session_ s = Some p ->
  exists r,
    Close fail_at s =
      (MkSession (config_ s) None false
         (qof_session_destroy p (qof_session_end p (saved_by_close fail_at s p))), r) /\
    r <> Died.
Proof.
  intros Hs. destruct s as [[uri ro] sp op b]. cbn in *. subst sp.
  unfold Close, bind, gets, id, modify, catch, FailPointMaybe, call, ask,
    ThrowOnSessionError, saved_by_close. cbn.
  destruct ro; cbn; [by eexists|].
  destruct (decide (fail_at = _)) as [Hf|Hf]; cbn.
  { rewrite (bool_decide_eq_true_2 _ Hf). cbn. by eexists. }
  rewrite (bool_decide_eq_false_2 _ Hf). cbn. unfold bind, ask, gets; cbn.
  destruct (decide (_ = ERR_BACKEND_NO_ERR)) as [He|He]; cbn; by eexists.
Qed.

(** C32: Closing always tears the session down: even when the save fails the
    session is ended, destroyed and forgotten before the error is rethrown, so
    the next [Open] really opens. A read-only book is never saved. *)
Theorem close_always_tears_down fail_at s p :
  session_ s = Some p ->
  let ro := read_only (config_ s) in
  let injected := bool_decide (fail_at = Some "session_close_save") in
  let saved := if ro || injected then qof s else qof_session_save p (qof s) in
  exists r,
    Close fail_at s =
      (MkSession (config_ s) None false
         (qof_session_destroy p (qof_session_end p saved)), r) /\
    session_inv (Close fail_at s).1 /\
    (r = Ret tt <->
       ro = true \/ injected = false /\
       qof_session_get_error p saved = ERR_BACKEND_NO_ERR) /\
    (r <> Ret tt -> exists se, r = Throw (ShimErr se)).
Proof.
  intros Hs. destruct s as [[uri ro] sp op b]. cbn in *. subst sp.
  unfold Close, bind, gets, id, modify, catch, FailPointMaybe, call, ask,
    ThrowOnSessionError. cbn.
  destruct ro; cbn.
  { eexists. split_and!; [done..| |done]. tauto. }
  destruct (decide (fail_at = _)) as [Hf|Hf]; cbn.
  { rewrite (bool_decide_eq_true_2 _ Hf). cbn. eexists.
    split_and!; [done..| |]; [split; [done|by intros [|[]]]|eauto]. }
  rewrite (bool_decide_eq_false_2 _ Hf). cbn. unfold bind, ask, gets; cbn.
  destruct (decide (_ = ERR_BACKEND_NO_ERR)) as [He|He]; cbn.
  { eexists. split_and!; [done..| |done]. split; [by right|done]. }
  eexists. split_and!; [done..| |]; [split; [done|by intros [|[]]]|eauto].
Qed.

(** Destruction never throws, always leaves no session, and does nothing to one
    that was closed. *)
Lemma destructor_closes fail_at s :
  (session_ s = None -> Session_destructor fail_at s = (s, Ret tt)) /\
  exists s', Session_destructor fail_at s = (s', Ret tt) /\ session_ s' = None.
Proof.
  unfold Session_destructor, bind, gets, id, catch, ret.
  split; [by intros ->|]. destruct (session_ s) as [p|] eqn:Hs; [|by exists s].
  destruct (Close_open fail_at s p Hs) as ([[]|e|] & -> & Hnd); [| |done];
    eexists; (split; [done|]); done.
Qed.

(** *** The lock inference *)
Definition provably_dead (row : option string * Z) : Prop :=
  row.1 = Some g_get_host_name /\ no_such_process (to_pid_t row.2) = true.

Lemma scan_lock_rows_iff rows reached_end :
  scan_lock_rows rows reached_end = true <->
  reached_end = true /\ Forall provably_dead rows.
Proof.
  induction rows as [|[h n] rows IH]; cbn.
  - split; [by split|by intros []].
  - rewrite Forall_cons. unfold provably_dead at 1; cbn.
    case_bool_decide; cbn; [|split; [done|by intros (_ & [] & _)]].
    destruct (no_such_process _); cbn; [|split; [done|by intros (_ & [] & _)]].
    rewrite IH. tauto.
Qed.

(** A lock is taken for stale exactly when the book is an SQLite file whose
    lock table could be read to its end and every row names this host and a
    process that does not exist. *)
Theorem lock_stale_iff uri :
  GncLockIsProvablyStale uri = true <->
  exists path rows, uri = "sqlite3://" +:+ path /\ path <> "" /\
    read_gnclock (c_str path) = LockRows rows true /\ Forall provably_dead rows.
Proof.
  unfold GncLockIsProvablyStale, Sqlite3Path, starts_with.
  destruct (String.prefix "sqlite3://" uri) eqn:Hp.
  - destruct (prefix_inv _ _ Hp) as [path ->].
    change 10%nat with (String.length "sqlite3://"). rewrite sdrop_append.
    destruct (decide (path = "")) as [->|Hne].
    + split; [done|]. by intros (path & rows & <-%append_inj_l & [] & _).
    + split.
      * destruct (read_gnclock _) as [|rows reached] eqn:Hr; [done|].
        intros [-> Hd]%scan_lock_rows_iff. by exists path, rows.
      * intros (path' & rows & <-%append_inj_l & _ & -> & Hd).
        by apply scan_lock_rows_iff.
  - split; [done|]. intros (path & rows & -> & _). by rewrite prefix_append in Hp.
Qed.

(** C31: A live writer's lock is never broken: when the backend reports the book
    locked and the lock of the SQLite file is not provably dead, [Open] makes
    no second attempt, destroys the session it made and refuses with
    BOOK_LOCKED. *)
Theorem open_never_breaks_live_lock `{!SessionEnvOk} s p b0 :
  session_ s = None -> starts_with "sqlite3://" (book_uri (config_ s)) = true ->
  qof_session_new (qof s) = (p, b0) ->
  let b1 := first_begin s p b0 in
  qof_session_get_error p b1 = ERR_BACKEND_LOCKED ->
  read_only (config_ s) = true \/
  GncLockIsProvablyStale (book_uri (config_ s)) = false ->
  exists e,
    Open s = (set_qof (qof_session_destroy p b1) s, Throw (ShimErr e)) /\
    code_ e = ERROR_CODE_BOOK_LOCKED.
Proof.
  intros Hs Hsq Hnew b1 Hl Hlive.
  assert (HasSupportedScheme (book_uri (config_ s)) = true) as Hu.
  { unfold HasSupportedScheme. by rewrite Hsq. }
  assert (begun s p b0 = b1) as Hb.
  { unfold begun. fold b1. rewrite Hsq, bool_decide_eq_true_2 by done.
    destruct Hlive as [-> | ->]; cbn; [done|]. by rewrite andb_false_r. }
  rewrite (Open_closed s p b0) by done. cbv zeta. rewrite Hb.
  pose proof backend_errors_NoDup as Hnd.
  rewrite bool_decide_eq_false_2.
  - eexists. split; [done|]. unfold BackendError. cbn. by rewrite decide_True.
  - rewrite Hl. intros E. rewrite E in Hnd. apply NoDup_cons in Hnd as [[] _].
    apply list_elem_of_here.
Qed.

(** *** The startup gate *)
Definition split_entry (b : Book) (split : SplitPtr) :
    option (string * gnc_numeric) :=
  currency ← xaccTransGetCurrency b (xaccSplitGetParent b split);
  Some (currency_key b currency, xaccSplitGetValue b split).

Lemma startup_sums b splits scan :
  sums (foldl (scan_split b) scan splits) =
    add_all (omap (split_entry b) splits) (sums scan).
Proof.
  revert scan. induction splits as [|split splits IH]; intros scan; [done|].
  cbn [foldl]. rewrite IH. unfold scan_split, split_entry. cbn.
  by destruct (xaccTransGetCurrency _ _).
Qed.

Lemma startup_imbalance `{!GncValuesOk} b splits scan :
  imbalanced_txn (foldl (scan_split b) scan splits) = "" <->
  imbalanced_txn scan = "" /\
  forall split, split ∈ splits ->
    gnc_numeric_zero_p
      (xaccTransGetImbalanceValue b (xaccSplitGetParent b split)) = true.
Proof.
  revert scan. induction splits as [|split splits IH]; intros scan.
  { cbn. split; [|by intros []]. intros ->. split; [done|].
    by intros ? ?%not_elem_of_nil. }
  cbn [foldl]. rewrite IH.
  assert (imbalanced_txn (scan_split b scan split) = "" <->
          imbalanced_txn scan = "" /\
          gnc_numeric_zero_p
            (xaccTransGetImbalanceValue b (xaccSplitGetParent b split)) = true) as ->.
  { transitivity (imbalanced_txn (MkStartupScan
      (if decide (imbalanced_txn scan = "") then
         if negb (gnc_numeric_zero_p
             (xaccTransGetImbalanceValue b (xaccSplitGetParent b split)))
         then GuidToString (transaction_guid b (xaccSplitGetParent b split))
         else imbalanced_txn scan
       else imbalanced_txn scan) ∅) = "").
    - unfold scan_split. by destruct (xaccTransGetCurrency _ _).
    - cbn. destruct (decide (imbalanced_txn scan = "")); [|tauto].
      destruct (gnc_numeric_zero_p _); cbn; [tauto|].
      pose proof (guid_to_string_length
        (transaction_guid b (xaccSplitGetParent b split))) as Hl.
      unfold GuidToString. split; [|by intros []].
      intros E. by rewrite E in Hl. }
  split.
  - intros [[Ha Hz] Hr]. split; [done|]. intros s' [->|Hin]%elem_of_cons; auto.
  - intros [Ha Hr]. split_and!; [done| |]; intros; apply Hr;
      [apply list_elem_of_here|by apply list_elem_of_further].
Qed.

Lemma check_sums_eq {S} items (s : S) :
  (exists r, check_sums items s = (s, r) /\ r <> Died) /\
  (check_sums items s = (s, Ret tt) <->
     forall kv, kv ∈ items -> gnc_numeric_zero_p kv.2 = true).
Proof.
  induction items as [|[k v] items [IHr IHiff]]; cbn.
  - split; [by eexists|]. split; [by intros _ ? ?%not_elem_of_nil|done].
  - destruct (gnc_numeric_zero_p v) eqn:Hz; cbn.
    + split; [done|]. rewrite IHiff. split.
      * intros Hall kv [->|?]%elem_of_cons; auto.
      * intros Hall kv ?. apply Hall. by apply list_elem_of_further.
    + split; [by eexists|]. split; [done|].
      intros Hall. pose proof (Hall (k, v) (list_elem_of_here _ _)) as Hk.
      cbn in Hk. congruence.
Qed.

(** The gate only reads. *)
Lemma RunStartupChecks_reads s : exists r, RunStartupChecks s = (s, r) /\ r <> Died.
Proof.
  unfold RunStartupChecks, book, ask, bind, gets, id.
  destruct (session_ s); cbn; [|by eexists].
  destruct (decide _); [by eexists|].
  by destruct (check_sums_eq (map_items string_le (sums (startup_scan (qof s)))) s).
Qed.

(** Every split's currency and value, as the gate sums them. *)
Definition startup_entries (b : Book) : list (string * gnc_numeric) :=
  omap (split_entry b) (qof_query_run b all_splits).

Lemma exact_sum_zero `{!GncValuesOk} (entries : list (string * gnc_numeric)) :
  (forall k v, add_all entries ∅ !! k = Some v -> gnc_numeric_zero_p v = true) ->
  forall k, (exact_sum k entries == 0)%Q.
Proof.
  intros Hz k. destruct (add_all entries ∅ !! k) as [v|] eqn:Hv.
  - apply Hz in Hv as Hzv. apply numeric_zero_p_iff in Hzv as [Hok Hv0].
    by rewrite <- (add_all_exact_empty entries k v).
  - rewrite exact_sum_absent; [done|]. intros Hin.
    assert (is_Some (add_all entries ∅ !! k)) as [v' Hv'];
      [apply add_all_lookup_is_Some; by right|congruence].
Qed.

(** C30: The startup gate only reads. It passes exactly when a book is open, every
    transaction that has a split is balanced and the engine's sum of every
    currency is zero; and when it passes, the exact rational sum of the split
    values of every currency is zero, even if an addition could have
    overflowed. *)
Theorem startup_checks_exact `{!GncValuesOk} s :
  let b := qof s in
  (exists r, RunStartupChecks s = (s, r) /\ r <> Died) /\
  (RunStartupChecks s = (s, Ret tt) <->
     session_ s <> None /\
     (forall split, split ∈ qof_query_run b all_splits ->
        gnc_numeric_zero_p
          (xaccTransGetImbalanceValue b (xaccSplitGetParent b split)) = true) /\
     (forall k v, add_all (startup_entries b) ∅ !! k = Some v ->
        gnc_numeric_zero_p v = true)) /\
  (RunStartupChecks s = (s, Ret tt) ->
     forall k, (exact_sum k (startup_entries b) == 0)%Q).
Proof.
  intros b.
  assert ((exists r, RunStartupChecks s = (s, r) /\ r <> Died) /\
    (RunStartupChecks s = (s, Ret tt) <->
     session_ s <> None /\
     (forall split, split ∈ qof_query_run b all_splits ->
        gnc_numeric_zero_p
          (xaccTransGetImbalanceValue b (xaccSplitGetParent b split)) = true) /\
     (forall k v, add_all (startup_entries b) ∅ !! k = Some v ->
        gnc_numeric_zero_p v = true))) as [Hr Hiff];
    [|split; [done|]; split; [done|]; intros (_ & _ & Hz)%Hiff;
      by apply exact_sum_zero].
  unfold RunStartupChecks, book, ask, bind, gets, id.
  destruct (session_ s) eqn:Hs; cbn.
  2:{ split; [by eexists|]. split; [done|by intros [[] _]]. }
  fold b. pose proof (startup_imbalance b (qof_query_run b all_splits)
    (MkStartupScan "" ∅)) as Himb.
  pose proof (startup_sums b (qof_query_run b all_splits) (MkStartupScan "" ∅))
    as Hsums. fold (startup_scan b) in Himb, Hsums. cbn in Himb, Hsums.
  destruct (decide (imbalanced_txn (startup_scan b) <> "")) as [Hne|Heq].
  - split; [by eexists|]. split; [done|]. intros (_ & Hz & _).
    destruct Hne. by apply Himb.
  - apply dec_stable in Heq.
    destruct (check_sums_eq (map_items string_le (sums (startup_scan b))) s)
      as [Hr Hiff]. split; [done|]. rewrite Hiff, Hsums.
    apply Himb in Heq as [_ Hz]. split.
    + intros Hall. split_and!; [done|done|]. intros k v Hkv.
      by apply (Hall (k, v)), elem_of_map_items.
    + intros (_ & _ & Hall) [k v] Hkv%elem_of_map_items. by apply (Hall k v).
Qed.
End properties.
