(* ===== verification/Backup.v ===== *)
(** * Daily snapshots: [util/backup.h], [util/backup.cpp]

    The file system as [std::filesystem] shows it to [SnapshotBeforeOpen]: a
    path is its list of components, a node a file with its content or a
    directory. Paths name nodes one to one: no links, no [".."]. Each call that
    can fail consults a schedule of faults. *)
From S2P Require Import Prelude.
From S2P Require Import Messages.
From S2P Require Import Errors.
Local Open Scope prog_scope.

Abbreviation path := (list string).

Inductive Node := File (content : string) | Dir.
#[export] Instance Node_eq_dec : EqDecision Node.
Proof. solve_decision. Defined.

Record Fs := MkFs {
  nodes : gmap path Node;
  (** For each next call that can fail: whether it does, and what it leaves
      half-written. *)
  fs_faults : list (option string);
}.

Definition set_nodes (m : gmap path Node) (f : Fs) : Fs := MkFs m (fs_faults f).

(** [fs::path(text)]: the components; empty ones are dropped, but for the
    leading one of an absolute path. *)
Fixpoint split_slash (acc s : string) : list string :=
  match s with
  | "" => [acc]
  | String c s =>
      if Ascii.eqb c "/" then acc :: split_slash "" s
      else split_slash (acc +:+ String c "") s
  end.
Definition path_of (text : string) : path :=
  match split_slash "" text with
  | [] => []
  | first :: rest => first :: filter (fun c => c <> "") rest
  end.

(** [path.filename()]. *)
Definition filename (p : path) : string := default "" (last p).

(** ** [std::filesystem] *)
Section filesystem.

(** Consumes the next fault. *)
Definition faulty : Prog Fs (option string) :=
  fun f => match fs_faults f with
           | [] => (f, Ret None)
           | b :: rest => (MkFs (nodes f) rest, Ret b)
           end.

Definition filesystem_error {A} (what : string) : Prog Fs A :=
  throw (StdException what).

(** [fs::exists(p, ec)]. *)
Definition exists_ (p : path) : Prog Fs bool :=
  gets (fun f => bool_decide (is_Some (nodes f !! p))).

Definition is_directory (p : path) (f : Fs) : bool :=
  bool_decide (nodes f !! p = Some Dir).

(** [fs::remove_all(p, ec)]: on an error, here, nothing is removed. *)
Definition under (p q : path) : bool := bool_decide (p `prefix_of` q).
Definition remove_tree (p : path) (m : gmap path Node) : gmap path Node :=
  filter (fun kv : path * Node => under p kv.1 = false) m.
Definition remove_all (p : path) : Prog Fs unit :=
  bad <~ faulty ;;
  match bad with
  | Some _ => ret tt
  | None => modify (fun f => set_nodes (remove_tree p (nodes f)) f)
  end.

(** [fs::create_directories(p)]: every missing ancestor, then [p]; it can fail
    after it made some, here all. *)
Fixpoint make_dirs (done_ : path) (todo : list string) (m : gmap path Node) :
    option (gmap path Node) :=
  match todo with
  | [] => Some m
  | c :: todo' =>
      let p := done_ ++ [c] in
      match m !! p with
      | Some (File _) => None
      | Some Dir => make_dirs p todo' m
      | None => make_dirs p todo' (<[p := Dir]> m)
      end
  end.
Definition create_directories (p : path) : Prog Fs unit :=
  bad <~ faulty ;;
  f <~ gets nodes ;;
  match make_dirs [] p f with
  | Some m =>
      modify (set_nodes m) ;;;
      match bad with
      | Some _ => filesystem_error "cannot create directories"
      | None => ret tt
      end
  | None => filesystem_error "cannot create directories"
  end.

(** [fs::copy_file(from, to)]: the destination must not exist; a copy that
    fails midway leaves part of the file. *)
Definition copy_file (from to : path) : Prog Fs unit :=
  bad <~ faulty ;;
  m <~ gets nodes ;;
  match m !! from, m !! to with
  | Some (File content), None =>
      match bad with
      | Some part =>
          modify (set_nodes (<[to := File part]> m)) ;;;
          filesystem_error "cannot copy file"
      | None => modify (set_nodes (<[to := File content]> m))
      end
  | _, _ => filesystem_error "cannot copy file"
  end.

(** [fs::rename(from, to)] of a directory to a name that is free. *)
Definition rename_tree (from to : path) (m : gmap path Node) : gmap path Node :=
  list_to_map
    ((fun kv : path * Node => (to ++ drop (length from) kv.1, kv.2)) <$>
       map_to_list (filter (fun kv : path * Node => under from kv.1 = true) m)) ∪
  remove_tree from m.
Definition rename (from to : path) : Prog Fs unit :=
  bad <~ faulty ;;
  m <~ gets nodes ;;
  if bool_decide (is_Some bad) || bool_decide (is_Some (m !! to)) then filesystem_error "cannot rename"
  else modify (set_nodes (rename_tree from to m)).

(** [fs::directory_iterator(root, ec)]: the names in a directory. *)
Definition names_in (root : path) (f : Fs) : list string :=
  (fun kv => filename kv.1) <$>
    filter (fun kv : path * Node =>
              under root kv.1 && (length kv.1 =? S (length root))%nat = true)
      (map_to_list (nodes f)).
End filesystem.

(** ** The snapshot *)

(** [std::snprintf("%04d-%02d-%02d")] of the local date. *)
Fixpoint zeros (n : nat) : string :=
  match n with O => "" | S n => String "0" (zeros n) end.
Definition pad (width : nat) (n : Z) : string :=
  let digits := pretty n in zeros (width - String.length digits) +:+ digits.
Definition TodayStamp (year month day : Z) : string :=
  pad 4 year +:+ "-" +:+ pad 2 month +:+ "-" +:+ pad 2 day.

Definition LooksLikeStamp (name : string) : bool :=
  (String.length name =? 10)%nat &&
  bool_decide (String.get 4 name = Some "-"%char) &&
  bool_decide (String.get 7 name = Some "-"%char).

Definition kSuffixes : list string := [""; "-wal"; "-shm"; "-journal"].

Definition CopyWithSidecars (path_ : string) (dest_dir : path) : Prog Fs unit :=
  for_each kSuffixes (fun suffix =>
    let source := path_of (path_ +:+ suffix) in
    there <~ exists_ source ;;
    if there : bool then copy_file source (dest_dir ++ [filename source]) else ret tt).

(** The pruning loop; the stamps are sorted. *)
Fixpoint prune (root : path) (keep : Z) (stamps : list string) : Prog Fs unit :=
  match stamps with
  | [] => ret tt
  | oldest :: stamps' =>
      if (keep <? Z.of_nat (length stamps))%Z then
        remove_all (root ++ [oldest]) ;;; prune root keep stamps'
      else ret tt
  end.

Definition stamps_in (root : path) (f : Fs) : list string :=
  merge_sort string_le
    (filter (fun name => is_directory (root ++ [name]) f && LooksLikeStamp name = true)
       (names_in root f)).

(** [static_cast<size_t>(keep_days)]. *)
Definition to_size_t (n : Z) : Z := (n mod 2 ^ 64)%Z.

Definition SnapshotBeforeOpen (today : Z * Z * Z) (book_path journal_path backup_dir : string)
    (keep_days : Z) : Prog Fs bool :=
  let root := path_of backup_dir in
  let stamp := TodayStamp today.1.1 today.1.2 today.2 in
  there <~ exists_ (root ++ [stamp]) ;;
  if there : bool then ret false
  else
    let tmp := root ++ [stamp +:+ ".tmp"] in
    remove_all tmp ;;;
    catch
      (create_directories tmp ;;;
       CopyWithSidecars book_path tmp ;;;
       CopyWithSidecars journal_path tmp ;;;
       rename tmp (root ++ [stamp]))
      (fun e => throw_shim ERROR_CODE_ENGINE_ERROR
                  ("backup snapshot failed: " +:+ what e) backup_dir) ;;;
    stamps <~ gets (stamps_in root) ;;
    prune root (to_size_t keep_days) stamps ;;;
    ret true.

(** ** Examples *)
Example path_of_absolute : path_of "/var//daicho/" = [""; "var"; "daicho"].
Proof. reflexivity. Qed.

Example stamp_of_a_day : TodayStamp 2024 2 9 = "2024-02-09".
Proof. reflexivity. Qed.

(** ** Lemmas *)
Section lemmas.
Implicit Types (f : Fs) (p q : path) (m : gmap path Node).

Lemma under_true p q : under p q = true <-> p `prefix_of` q.
Proof. unfold under. apply bool_decide_eq_true. Qed.

Lemma under_false p q : under p q = false <-> ~ p `prefix_of` q.
Proof. unfold under. apply bool_decide_eq_false. Qed.

Lemma remove_tree_lookup p m q :
  remove_tree p m !! q = if under p q then None else m !! q.
Proof.
  unfold remove_tree. destruct (under p q) eqn:E.
  - apply map_lookup_filter_None. right. intros x _. cbn. congruence.
  - destruct (m !! q) as [x|] eqn:Hx.
    + by apply map_lookup_filter_Some.
    + apply map_lookup_filter_None. by left.
Qed.

(** Only nodes directly in [dest] appear; nothing else changes. *)
Definition grows (dest : path) f f' : Prop :=
  forall p, nodes f' !! p = nodes f !! p \/
            nodes f !! p = None /\ exists n, p = dest ++ [n].

Lemma grows_refl dest f : grows dest f f.
Proof. intros p. by left. Qed.

Lemma grows_trans dest f1 f2 f3 : grows dest f1 f2 -> grows dest f2 f3 -> grows dest f1 f3.
Proof.
  intros H12 H23 p. destruct (H12 p) as [E|E], (H23 p) as [E'|[Hn E']]; auto; try congruence.
  - left. congruence.
  - right. rewrite <- E. auto.
Qed.

Lemma grows_keeps dest f f' p x : grows dest f f' -> nodes f !! p = Some x ->
  nodes f' !! p = Some x.
Proof. intros Hg Hp. destruct (Hg p) as [->|[Hn _]]; congruence. Qed.

Lemma faulty_spec f :
  exists f0 bad, faulty f = (f0, Ret bad) /\ nodes f0 = nodes f.
Proof. unfold faulty. destruct (fs_faults f); eexists _, _; by split. Qed.

Lemma copy_file_spec from (dest : path) n f f' r :
  copy_file from (dest ++ [n]) f = (f', r) ->
  grows dest f f' /\ r <> Died /\
  (r = Ret tt -> is_Some (nodes f !! from) /\ nodes f' !! (dest ++ [n]) = nodes f !! from).
Proof.
  destruct (faulty_spec f) as (f0 & bad & E & Hn).
  unfold copy_file, bind, gets. rewrite E, Hn. intros Hrun.
  assert (forall c, nodes f !! (dest ++ [n]) = None ->
    grows dest f (set_nodes (<[dest ++ [n] := File c]> (nodes f)) f0)) as Hins.
  { intros c Hfree p. cbn. rewrite lookup_insert. case_decide; [subst; right; eauto|by left]. }
  assert (grows dest f f0) as Hsame by (intros p; rewrite Hn; by left).
  destruct (nodes f !! from) as [[c|]|] eqn:Hf;
    [|injection Hrun as <- <-; by split_and!..].
  destruct (nodes f !! (dest ++ [n])) eqn:Hd; [injection Hrun as <- <-; by split_and!|].
  destruct bad as [part|]; unfold modify in Hrun; cbn in Hrun; injection Hrun as <- <-; split_and!; try done; auto.
  intros _. cbn. rewrite lookup_insert_eq. by eauto.
Qed.

Lemma copies_spec path_ (dest : path) suffixes f f' r :
  for_each suffixes (fun suffix =>
    let source := path_of (path_ +:+ suffix) in
    there <~ exists_ source ;;
    if there : bool then copy_file source (dest ++ [filename source]) else ret tt) f =
    (f', r) ->
  grows dest f f' /\ r <> Died /\
  (r = Ret tt -> forall suffix x, suffix ∈ suffixes ->
     nodes f !! path_of (path_ +:+ suffix) = Some x ->
     nodes f' !! (dest ++ [filename (path_of (path_ +:+ suffix))]) = Some x).
Proof.
  revert f. induction suffixes as [|suffix suffixes IH]; intros f.
  - intros [= <- <-]. split_and!; [apply grows_refl|done|].
    by intros _ ? ? ?%not_elem_of_nil.
  - cbn [for_each]. set (source := path_of (path_ +:+ suffix)).
    intros [(u & f1 & Hstep & Hrun)|[(e & Hstep & ->)|[Hstep ->]]]%bind_cases.
    + assert (grows dest f f1 /\ (forall x, nodes f !! source = Some x ->
        nodes f1 !! (dest ++ [filename source]) = Some x)) as [Hg1 Hc1].
      { unfold bind, exists_, gets in Hstep. case_bool_decide as Hs.
        - apply copy_file_spec in Hstep as (Hg & _ & Hc). split; [done|].
          intros x Hx. destruct u. by rewrite (proj2 (Hc eq_refl)).
        - injection Hstep as <-. split; [apply grows_refl|]. intros x Hx. destruct Hs. eauto. }
      apply IH in Hrun as (Hg2 & Hd & Hc2). split; [by eapply grows_trans|].
      split; [done|]. intros Hr suffix' x [->|Hin]%elem_of_cons Hx.
      * eapply grows_keeps; [exact Hg2|]. by apply Hc1.
      * eapply Hc2; [done..|]. by eapply grows_keeps.
    + unfold bind, exists_, gets in Hstep. case_bool_decide; [|done].
      apply copy_file_spec in Hstep as (Hg & _ & _). by split_and!.
    + unfold bind, exists_, gets in Hstep. case_bool_decide; [|done].
      by apply copy_file_spec in Hstep as (_ & Hd & _).
Qed.
Lemma make_dirs_spec done_ todo m m' :
  make_dirs done_ todo m = Some m' ->
  (forall p, m' !! p = m !! p \/
     m !! p = None /\ exists pre, pre `prefix_of` todo /\ p = done_ ++ pre) /\
  (todo <> [] -> m' !! (done_ ++ todo) = Some Dir).
Proof.
  revert done_ m. induction todo as [|c todo IH]; intros done_ m; cbn [make_dirs].
  { intros [= <-]. split; [by left|done]. }
  assert (forall m1, m1 !! (done_ ++ [c]) = Some Dir ->
    (forall p, m1 !! p = m !! p \/ m !! p = None /\ p = done_ ++ [c]) ->
    make_dirs (done_ ++ [c]) todo m1 = Some m' ->
    (forall p, m' !! p = m !! p \/
       m !! p = None /\ exists pre, pre `prefix_of` c :: todo /\ p = done_ ++ pre) /\
    (c :: todo <> [] -> m' !! (done_ ++ c :: todo) = Some Dir)) as Hgo.
  { intros m1 Hm1 H1 Hrun. destruct (IH _ _ Hrun) as [Hsame Hlast]. split.
    - intros p. destruct (Hsame p) as [->|(Hn & pre & Hpre & ->)].
      + destruct (H1 p) as [->|[Hn ->]]; [by left|]. right. split; [done|].
        exists [c]. split; [by apply prefix_cons, prefix_nil|done].
      + destruct (H1 ((done_ ++ [c]) ++ pre)) as [<-|[Hn' E]].
        * right. split; [done|]. exists (c :: pre).
          split; [by apply prefix_cons|by rewrite <- app_assoc].
        * rewrite E in Hn. congruence.
    - intros _. destruct todo as [|c' todo].
      + destruct (Hsame (done_ ++ [c])) as [->|[Hn _]]; [done|congruence].
      + rewrite <- Hlast by done. by rewrite <- app_assoc. }
  destruct (m !! (done_ ++ [c])) as [[x|]|] eqn:Hc; [done| |].
  - apply Hgo; [done|by left].
  - apply Hgo; [by rewrite lookup_insert_eq|]. intros p.
    rewrite lookup_insert. case_decide; [subst; by right|by left].
Qed.

Lemma create_directories_spec p f f' r :
  create_directories p f = (f', r) ->
  (forall q, nodes f' !! q = nodes f !! q \/ nodes f !! q = None /\ q `prefix_of` p) /\
  r <> Died.
Proof.
  destruct (faulty_spec f) as (f0 & bad & E & Hn).
  unfold create_directories, bind, gets. rewrite E, Hn. intros Hrun.
  destruct (make_dirs [] p (nodes f)) as [m|] eqn:Hm.
  - apply make_dirs_spec in Hm as [Hsame _].
    assert (forall q, m !! q = nodes f !! q \/ nodes f !! q = None /\ q `prefix_of` p)
      as Hq.
    { intros q. destruct (Hsame q) as [->|(Hq & pre & Hpre & ->)]; [by left|by right]. }
    destruct bad; injection Hrun as <- <-; by split.
  - injection Hrun as <- <-. split; [|done]. intros q. rewrite Hn. by left.
Qed.

(** *** Renaming *)
Lemma rename_tree_moved from to m q x :
  m !! (from ++ q) = Some x -> rename_tree from to m !! (to ++ q) = Some x.
Proof.
  intros Hx. unfold rename_tree. apply lookup_union_Some_l.
  apply elem_of_list_to_map.
  - rewrite <- list_fmap_compose. apply NoDup_fmap_2_strong; [|apply NoDup_map_to_list].
    intros [k1 x1] [k2 x2] H1 H2 E.
    apply elem_of_map_to_list, map_lookup_filter_Some in H1 as [H1 Hu1].
    cbn in H1, Hu1. apply under_true in Hu1 as [q1 ->].
    apply elem_of_map_to_list, map_lookup_filter_Some in H2 as [H2 Hu2].
    cbn in H2, Hu2. apply under_true in Hu2 as [q2 ->].
    cbn in E. rewrite !drop_app_length in E. apply app_inv_head in E as ->.
    congruence.
  - apply list_elem_of_fmap. exists (from ++ q, x). cbn. rewrite drop_app_length.
    split; [done|]. apply elem_of_map_to_list, map_lookup_filter_Some.
    split; [done|]. apply under_true. by apply prefix_app_r.
Qed.

Lemma rename_tree_other from to m p :
  ~ from `prefix_of` p -> ~ to `prefix_of` p -> rename_tree from to m !! p = m !! p.
Proof.
  intros Hf Ht. unfold rename_tree.
  rewrite lookup_union_r.
  - rewrite remove_tree_lookup. by rewrite (proj2 (under_false _ _) Hf).
  - apply not_elem_of_list_to_map. intros (kv & Hk & Hin)%list_elem_of_fmap.
    apply list_elem_of_fmap in Hin as (kv' & -> & _). cbn in Hk. subst p.
    apply Ht. by apply prefix_app_r.
Qed.

Lemma rename_spec from to f f' r :
  rename from to f = (f', r) ->
  r <> Died /\
  (r <> Ret tt -> nodes f' = nodes f) /\
  (r = Ret tt -> nodes f !! to = None /\ nodes f' = rename_tree from to (nodes f)).
Proof.
  destruct (faulty_spec f) as (f0 & bad & E & Hn).
  unfold rename, bind, gets. rewrite E, Hn. intros Hrun.
  destruct (bool_decide (is_Some bad)); cbn in Hrun;
    [injection Hrun as <- <-; by split_and!|].
  case_bool_decide as Hto; injection Hrun as <- <-; split_and!; try done.
  intros _. split; [by apply eq_None_not_Some|done].
Qed.

(** *** Pruning *)
Lemma remove_all_spec p f :
  exists f', remove_all p f = (f', Ret tt) /\
    (nodes f' = nodes f \/ nodes f' = remove_tree p (nodes f)).
Proof.
  destruct (faulty_spec f) as (f0 & bad & E & Hn).
  unfold remove_all, bind. rewrite E.
  destruct bad; eexists; (split; [done|]); cbn; rewrite Hn; auto.
Qed.

(** Pruning drops trees of the oldest stamps, all but [keep] of them. *)
Lemma prune_spec root keep stamps f :
  exists f', prune root keep stamps f = (f', Ret tt) /\
    forall p, nodes f' !! p = nodes f !! p \/
      nodes f' !! p = None /\ exists x,
        x ∈ take (length stamps - Z.to_nat keep) stamps /\ root ++ [x] `prefix_of` p.
Proof.
  revert f. induction stamps as [|x stamps IH]; intros f; cbn [prune].
  { eexists. split; [done|]. by left. }
  destruct (Z.ltb_spec keep (Z.of_nat (length (x :: stamps)))) as [Hk|Hk].
  2:{ eexists. split; [done|]. by left. }
  destruct (remove_all_spec (root ++ [x]) f) as (f1 & Hr & Hn).
  destruct (IH f1) as (f2 & Hp & Hn2). exists f2.
  split; [by rewrite (bind_ret_eq _ _ _ _ _ Hr)|]. intros p. cbn [length] in Hk |- *.
  replace (S (length stamps) - Z.to_nat keep) with
    (S (length stamps - Z.to_nat keep)) by lia. cbn [take].
  destruct (Hn2 p) as [->|(Hp0 & y & Hy & Hpre)].
  - destruct Hn as [->| ->]; [by left|]. rewrite remove_tree_lookup.
    destruct (under (root ++ [x]) p) eqn:E; [|by left]. right. split; [done|].
    exists x. split; [apply list_elem_of_here|by apply under_true].
  - right. split; [done|]. exists y. split; [by apply list_elem_of_further|done].
Qed.
End lemmas.

(** ** Properties *)
Section snapshot.
Context (today : Z * Z * Z) (book_path journal_path backup_dir : string).
Implicit Types (f : Fs) (p : path).

Definition stamp_of : string := TodayStamp today.1.1 today.1.2 today.2.
Definition root_of : path := path_of backup_dir.
Definition today_dir : path := root_of ++ [stamp_of].
Definition tmp_dir : path := root_of ++ [stamp_of +:+ ".tmp"].

(** The files a snapshot is made of. *)
Definition all_sources : list path :=
  (path_of ∘ String.append book_path <$> kSuffixes) ++
  (path_of ∘ String.append journal_path <$> kSuffixes).

Lemma tmp_not_today : tmp_dir <> today_dir.
Proof.
  unfold tmp_dir, today_dir. intros [= E]%app_inv_head.
  apply (f_equal String.length) in E. rewrite length_append in E. cbn in E. lia.
Qed.

Lemma under_root_inv name p : (root_of ++ [name]) `prefix_of` p -> root_of `prefix_of` p.
Proof. intros [q ->]. rewrite <- app_assoc. by apply prefix_app_r. Qed.

Lemma today_not_under_tmp p : tmp_dir `prefix_of` p -> ~ today_dir `prefix_of` p.
Proof.
  unfold tmp_dir, today_dir. intros [q ->] [q' E]. rewrite <- !app_assoc in E.
  apply app_inv_head in E. injection E as E _. apply (f_equal String.length) in E.
  rewrite length_append in E. cbn in E. lia.
Qed.

Definition make_snapshot : Prog Fs unit :=
  create_directories tmp_dir ;;;
  CopyWithSidecars book_path tmp_dir ;;;
  CopyWithSidecars journal_path tmp_dir ;;;
  rename tmp_dir today_dir.

Lemma grows_frame f f' p :
  grows tmp_dir f f' -> ~ tmp_dir `prefix_of` p -> nodes f' !! p = nodes f !! p.
Proof.
  intros Hg Hp. destruct (Hg p) as [E|(_ & n & ->)]; [done|].
  destruct Hp. by apply prefix_app_r.
Qed.

(** The copies: beside the temporary directory and those above it nothing
    changes, and when they all succeed every source is in it. *)
Lemma gather_spec f f' r :
  (create_directories tmp_dir ;;; CopyWithSidecars book_path tmp_dir ;;;
   CopyWithSidecars journal_path tmp_dir)%prog f = (f', r) ->
  r <> Died /\
  (forall p, ~ tmp_dir `prefix_of` p -> ~ p `prefix_of` tmp_dir ->
     nodes f' !! p = nodes f !! p) /\
  (r = Ret tt -> forall p x, p ∈ all_sources ->
     nodes f !! p = Some x -> nodes f' !! (tmp_dir ++ [filename p]) = Some x).
Proof.
  intros [([] & f1 & H1 & Hrun)|[(e & H1 & ->)|[H1 ->]]]%bind_cases;
    pose proof (create_directories_spec _ _ _ _ H1) as [Hq1 Hd1]; [| |done].
  2:{ split_and!; [done| |done]. intros p _ Hp. by destruct (Hq1 p) as [|[_ ?]]. }
  assert (forall p, ~ p `prefix_of` tmp_dir -> nodes f1 !! p = nodes f !! p) as Hf1.
  { intros p Hp. by destruct (Hq1 p) as [|[_ ?]]. }
  assert (forall p x, nodes f !! p = Some x -> nodes f1 !! p = Some x) as Hk1.
  { intros p x Hx. destruct (Hq1 p) as [->|[Hn _]]; congruence. }
  apply bind_cases in Hrun as [([] & f2 & H2 & Hrun)|[(e & H2 & ->)|[H2 ->]]];
    pose proof (copies_spec _ _ _ _ _ _ H2) as (Hg2 & Hd2 & Hc2); [| |done].
  2:{ split_and!; [done| |done]. intros p Hp Hp'.
      rewrite (grows_frame _ _ _ Hg2) by done. by apply Hf1. }
  destruct (copies_spec _ _ _ _ _ _ Hrun) as (Hg3 & Hd3 & Hc3).
  split_and!; [done|..].
  - intros p Hp Hp'. rewrite (grows_frame _ _ _ Hg3), (grows_frame _ _ _ Hg2) by done.
    by apply Hf1.
  - intros Hr p x Hp Hx. unfold all_sources in Hp.
    apply elem_of_app in Hp as [Hp|Hp]; apply list_elem_of_fmap in Hp as (suffix & -> & Hs).
    + eapply grows_keeps; [exact Hg3|]. apply Hc2; [done..|]. by apply Hk1.
    + apply Hc3; [done..|]. eapply grows_keeps; [exact Hg2|]. by apply Hk1.
Qed.

(** The attempt: only the temporary directory and, when it succeeds, the
    snapshot change; a failed attempt leaves no snapshot. *)
Lemma make_snapshot_spec f f' r :
  make_snapshot f = (f', r) ->
  r <> Died /\
  (forall p, ~ tmp_dir `prefix_of` p -> ~ today_dir `prefix_of` p ->
     ~ p `prefix_of` tmp_dir -> nodes f' !! p = nodes f !! p) /\
  (r <> Ret tt -> nodes f' !! today_dir = nodes f !! today_dir) /\
  (r = Ret tt -> forall p x, p ∈ all_sources ->
     nodes f !! p = Some x -> nodes f' !! (today_dir ++ [filename p]) = Some x).
Proof.
  assert (~ tmp_dir `prefix_of` today_dir) as Htt.
  { intros Hp. by apply (today_not_under_tmp today_dir). }
  assert (~ today_dir `prefix_of` tmp_dir) as Htt'.
  { intros Hp. by apply (today_not_under_tmp tmp_dir). }
  assert (make_snapshot f = ((create_directories tmp_dir ;;;
    CopyWithSidecars book_path tmp_dir ;;; CopyWithSidecars journal_path tmp_dir) ;;;
    rename tmp_dir today_dir)%prog f) as ->.
  { unfold make_snapshot, bind. destruct (create_directories tmp_dir f) as [f1 []]; [|done..].
    by destruct (CopyWithSidecars book_path tmp_dir f1) as [f2 []]. }
  intros [([] & f3 & H3 & Hrun)|[(e & H3 & ->)|[H3 ->]]]%bind_cases;
    destruct (gather_spec _ _ _ H3) as (Hd3 & Hf3 & Hc3); [| |done].
  2:{ split_and!; [done|intros p Hp _ Hp'; by apply Hf3|intros _; by apply Hf3|done]. }
  pose proof (rename_spec _ _ _ _ _ Hrun) as (Hd4 & Hbad & Hok).
  split_and!; [done|..].
  - intros p Hp Hp1 Hp'. destruct r as [[]|e|]; [| |done].
    + destruct (Hok eq_refl) as [_ ->]. rewrite rename_tree_other by done. by apply Hf3.
    + rewrite Hbad by done. by apply Hf3.
  - intros Hr. rewrite Hbad by done. by apply Hf3.
  - intros Hr p x Hp Hx. destruct (Hok Hr) as [_ ->]. by apply rename_tree_moved, Hc3.
Qed.
End snapshot.

(** ** What [SnapshotBeforeOpen] leaves *)
Section properties.
Context (today : Z * Z * Z) (book_path journal_path backup_dir : string).
Context (keep_days : Z).
Implicit Types (f : Fs) (p : path).
Abbreviation snapshot := (SnapshotBeforeOpen today book_path journal_path backup_dir keep_days).
Abbreviation root := (root_of backup_dir).
Abbreviation today_dir := (today_dir today backup_dir).
Abbreviation tmp_dir := (tmp_dir today backup_dir).
Abbreviation stamp := (stamp_of today).

(** The three ways it ends: the day has its snapshot already, the attempt
    failed, or it succeeded and the oldest snapshots were pruned. *)
Lemma snapshot_cases f f' r :
  snapshot f = (f', r) ->
  is_Some (nodes f !! today_dir) /\ f' = f /\ r = Ret false \/
  nodes f !! today_dir = None /\ exists f1 f2 r2,
    (nodes f1 = nodes f \/ nodes f1 = remove_tree tmp_dir (nodes f)) /\
    make_snapshot today book_path journal_path backup_dir f1 = (f2, r2) /\
    (f' = f2 /\ (exists e, r2 = Throw e /\
       r = Throw (ShimErr (MkShimError ERROR_CODE_ENGINE_ERROR
                   ("backup snapshot failed: " +:+ what e) backup_dir))) \/
     r2 = Ret tt /\ r = Ret true /\
     prune root (to_size_t keep_days) (stamps_in root f2) f2 = (f', Ret tt)).
Proof.
  unfold SnapshotBeforeOpen. cbv zeta.
  fold stamp root. fold today_dir tmp_dir.
  unfold bind at 1, exists_, gets at 1.
  case_bool_decide as Ht; [intros [= <- <-]; by left|].
  apply eq_None_not_Some in Ht. intros Hrun. right. split; [done|].
  destruct (remove_all_spec tmp_dir f) as (f1 & Hr1 & Hn1).
  rewrite (bind_ret_eq _ _ _ _ _ Hr1) in Hrun.
  change (create_directories tmp_dir ;;; CopyWithSidecars book_path tmp_dir ;;;
          CopyWithSidecars journal_path tmp_dir ;;; rename tmp_dir today_dir)
    with (make_snapshot today book_path journal_path backup_dir) in Hrun.
  destruct (make_snapshot today book_path journal_path backup_dir f1) as [f2 r2] eqn:Hm.
  exists f1, f2, r2. split; [done|]. split; [done|].
  destruct (make_snapshot_spec _ _ _ _ _ _ _ Hm) as (Hd & _).
  unfold bind at 1, catch in Hrun. rewrite Hm in Hrun.
  destruct r2 as [[]|e|]; [| |done].
  - right. unfold bind, gets in Hrun.
    destruct (prune_spec root (to_size_t keep_days) (stamps_in root f2) f2)
      as (f3 & Hp & _).
    rewrite Hp in Hrun. injection Hrun as <- <-. by split_and!.
  - left. injection Hrun as <- <-. split; [done|]. by exists e.
Qed.

(** C37: All or nothing: when the day's directory is there nothing happens; when the
    attempt fails at any file it is reported as an engine error naming the
    backup directory and the day still has no snapshot, so the next start tries
    again. Whatever fails, nothing outside the backup directory changes, the
    book and the journal included, but for the directories above it, which it may
    have to make. *)
Theorem snapshot_all_or_nothing f f' r :
  snapshot f = (f', r) ->
  r <> Died /\
  (r = Ret false <-> is_Some (nodes f !! today_dir)) /\ (r = Ret false -> f' = f) /\
  (forall e, r = Throw e -> nodes f' !! today_dir = None /\
     exists message, e = ShimErr (MkShimError ERROR_CODE_ENGINE_ERROR message backup_dir)) /\
  (forall p, ~ root `prefix_of` p -> ~ p `prefix_of` root ->
     nodes f' !! p = nodes f !! p).
Proof.
  intros [(Ht & -> & ->)|(Ht & f1 & f2 & r2 & Hn1 & Hm & Hend)]%snapshot_cases.
  { by split_and!. }
  destruct (make_snapshot_spec _ _ _ _ _ _ _ Hm) as (Hd & Hframe & Hfail & _).
  assert (~ tmp_dir `prefix_of` today_dir) as Htt.
  { intros Hp. by apply (today_not_under_tmp today backup_dir today_dir). }
  assert (nodes f1 !! today_dir = None) as Ht1.
  { destruct Hn1 as [->| ->]; [done|]. rewrite remove_tree_lookup. by destruct (under _ _). }
  assert (forall p, ~ root `prefix_of` p -> ~ p `prefix_of` root ->
            nodes f2 !! p = nodes f !! p) as Hf2.
  { intros p Hp Hp'. rewrite Hframe.
    - destruct Hn1 as [->| ->]; [done|]. rewrite remove_tree_lookup.
      rewrite (proj2 (under_false _ _)); [done|]. by intros ?%under_root_inv.
    - by intros ?%under_root_inv.
    - by intros ?%under_root_inv.
    - intros Hpt. destruct (prefix_weak_total root p tmp_dir); [|done..].
      by apply prefix_app_r. }
  destruct Hend as [(-> & e & -> & ->)|(-> & -> & Hp)].
  - split_and!; try done.
    + split; [done|]. rewrite Ht. by intros [].
    + intros e' [= <-]. split; [by rewrite Hfail|by eexists].
  - destruct (prune_spec root (to_size_t keep_days) (stamps_in root f2) f2)
      as (f3 & Hp3 & Hn3).
    rewrite Hp in Hp3. injection Hp3 as <-. split_and!; try done.
    + split; [done|]. rewrite Ht. by intros [].
    + intros p Hroot Hroot'. destruct (Hn3 p) as [->|(_ & x & _ & Hx)]; [by apply Hf2|].
      by apply under_root_inv in Hx.
Qed.
(** *** What is pruned *)
Lemma zeros_length n : String.length (zeros n) = n.
Proof. induction n; cbn; congruence. Qed.

Lemma pad_length width n : width <= String.length (pad width n).
Proof. unfold pad. rewrite length_append, zeros_length. lia. Qed.

Lemma tmp_no_stamp : LooksLikeStamp (stamp +:+ ".tmp") = false.
Proof.
  unfold LooksLikeStamp. rewrite length_append. unfold stamp_of, TodayStamp.
  rewrite !length_append.
  pose proof (pad_length 4 today.1.1). pose proof (pad_length 2 today.1.2).
  pose proof (pad_length 2 today.2).
  destruct (Nat.eqb_spec (String.length (pad 4 today.1.1) +
    (String.length "-" + (String.length (pad 2 today.1.2) +
     (String.length "-" + String.length (pad 2 today.2)))) + String.length ".tmp") 10);
    [cbn in *; lia|done].
Qed.

Lemma elem_of_stamps name f :
  name ∈ stamps_in root f ->
  nodes f !! (root ++ [name]) = Some Dir /\ LooksLikeStamp name = true.
Proof.
  unfold stamps_in. rewrite merge_sort_Permutation, list_elem_of_filter.
  intros [[Hd Hl]%andb_true_iff _]. unfold is_directory in Hd.
  by apply bool_decide_eq_true in Hd.
Qed.

Lemma stamps_NoDup f : NoDup (stamps_in root f).
Proof.
  unfold stamps_in, names_in. rewrite merge_sort_Permutation. apply NoDup_filter.
  apply NoDup_fmap_2_strong; [|apply NoDup_filter, NoDup_map_to_list].
  intros [k1 x1] [k2 x2] [Hu1 H1]%list_elem_of_filter [Hu2 H2]%list_elem_of_filter.
  cbn in Hu1, Hu2 |- *. apply andb_true_iff in Hu1 as [[q1 ->]%under_true Hl1].
  apply andb_true_iff in Hu2 as [[q2 ->]%under_true Hl2].
  apply Nat.eqb_eq in Hl1, Hl2. rewrite length_app in Hl1, Hl2.
  destruct q1 as [|n1 [|]]; cbn in Hl1; try lia.
  destruct q2 as [|n2 [|]]; cbn in Hl2; try lia.
  unfold filename. rewrite !last_snoc. cbn. intros ->.
  apply elem_of_map_to_list in H1, H2. congruence.
Qed.

(** In a sorted list without duplicates nothing above the rest is dropped while
    one element is kept. *)
Lemma greatest_kept (l : list string) keep s :
  StronglySorted string_le l -> NoDup l -> (forall y, y ∈ l -> string_le y s) ->
  1 <= keep -> ~ s ∈ take (length l - keep) l.
Proof.
  intros Hs Hnd Hmax Hk Hin.
  assert (length l - keep < length l) as Hlt.
  { destruct l; cbn in *; [by apply not_elem_of_nil in Hin|lia]. }
  set (n := length l - keep) in *.
  rewrite <- (take_drop n l) in Hs, Hnd, Hmax.
  destruct (drop n l) as [|z rest] eqn:Hd.
  { apply (f_equal length) in Hd. rewrite length_drop in Hd. cbn in Hd. lia. }
  assert (s = z) as ->.
  { apply (anti_symm string_le); [|apply Hmax, elem_of_app; right; apply list_elem_of_here].
    eapply (StronglySorted_app_1_elem_of string_le);
      [exact Hs|done|apply list_elem_of_here]. }
  apply NoDup_app in Hnd as (_ & Hnd & _). apply (Hnd z Hin), list_elem_of_here.
Qed.

(** C36: A snapshot that was taken is complete and stays: when 1 to 2^31-1 days are to
    be kept, no directory of a later day is in the backup directory, and the book
    and the journal lie outside it, the day's directory holds after the pruning,
    under its name, every file of the book and of the journal that existed - the
    write-ahead log and the other sidecars included - with its content. *)
Theorem snapshot_complete f f' :
  snapshot f = (f', Ret true) -> (1 <= keep_days < 2 ^ 31)%Z ->
  (forall p, p ∈ all_sources book_path journal_path -> ~ root `prefix_of` p) ->
  (forall name, nodes f !! (root ++ [name]) = Some Dir -> LooksLikeStamp name = true ->
     string_le name stamp) ->
  forall p x, p ∈ all_sources book_path journal_path -> nodes f !! p = Some x ->
    nodes f' !! (today_dir ++ [filename p]) = Some x.
Proof.
  intros Hrun Hkeep Hout Hnew p x Hp Hx.
  apply snapshot_cases in Hrun as [(_ & _ & ?)|(_ & f1 & f2 & r2 & Hn1 & Hm & Hend)]; [done|].
  destruct Hend as [(_ & e & _ & ?)|(-> & _ & Hpr)]; [done|].
  destruct (make_snapshot_spec _ _ _ _ _ _ _ Hm) as (_ & Hframe & _ & Hcopied).
  assert (nodes f1 !! p = Some x) as Hx1.
  { destruct Hn1 as [->| ->]; [done|]. rewrite remove_tree_lookup.
    rewrite (proj2 (under_false _ _)); [done|].
    intros ?%under_root_inv. by apply (Hout p). }
  pose proof (Hcopied eq_refl p x Hp Hx1) as Hx2.
  destruct (prune_spec root (to_size_t keep_days) (stamps_in root f2) f2)
    as (f3 & Hp3 & Hn3).
  rewrite Hpr in Hp3. injection Hp3 as <-.
  destruct (Hn3 (today_dir ++ [filename p])) as [->|(_ & y & Hy & Hpre)]; [done|].
  exfalso. assert (y = stamp) as ->.
  { destruct Hpre as [q E]. unfold Backup.today_dir in E. rewrite <- !app_assoc in E.
    apply app_inv_head in E. by injection E. }
  revert Hy. apply greatest_kept.
  - apply (StronglySorted_merge_sort string_le).
  - apply stamps_NoDup.
  - intros name [Hd Hl]%elem_of_stamps. destruct (decide (name = stamp)) as [->|Hne].
    { destruct (string_le_total stamp stamp); done. }
    apply Hnew; [|done].
    assert (~ tmp_dir `prefix_of` (root ++ [name])) as Hnt.
    { intros [q E]. unfold Backup.tmp_dir in E. rewrite <- app_assoc in E.
      apply app_inv_head in E. injection E as -> _. by rewrite tmp_no_stamp in Hl. }
    rewrite <- Hd. rewrite Hframe; [|done| |].
    + destruct Hn1 as [->| ->]; [done|]. rewrite remove_tree_lookup.
      by rewrite (proj2 (under_false _ _)).
    + intros [q E]. unfold Backup.today_dir in E. rewrite <- app_assoc in E.
      apply app_inv_head in E. injection E as E _. done.
    + intros [q E]. unfold Backup.tmp_dir in E. rewrite <- app_assoc in E.
      apply app_inv_head in E. injection E as E _. apply Hnt. unfold Backup.tmp_dir.
      by rewrite E.
  - unfold to_size_t. rewrite Z.mod_small by lia. lia.
Qed.
End properties.

(** Asked to keep no day, a start takes the snapshot and deletes it at once. *)
Example keep_none_prunes_today :
  let f := MkFs (list_to_map [([""], Dir); ([""; "b"], Dir); ([""; "x"], File "book")]) [] in
  (SnapshotBeforeOpen (2024, 2, 9)%Z "/x" "/j" "/b" 0 f).2 = Ret true /\
  nodes (SnapshotBeforeOpen (2024, 2, 9)%Z "/x" "/j" "/b" 0 f).1 = nodes f.
Proof. split; [reflexivity|]. apply (bool_decide_unpack _). by vm_compute. Qed.
