(* ===== verification/Worker.v ===== *)
(** * The engine thread and its bounded queue: [engine/worker.h], [engine/worker.cpp]

    [EngineWorker] is the data under the mutex [mu_]. The threads around it are
    a transition system: callers in [Enqueue] and [Drain], the engine thread in
    [Loop], and the window between releasing [mu_] and [cv_.notify_one()]. *)
From S2P Require Import Prelude.
From S2P Require Import Messages.
From S2P Require Import Errors.

Section worker.
Context {T : Type}.  (** a queued [std::function<void()>] *)

Record EngineWorker := MkEngineWorker {
  queue_ : list T;
  max_depth_ : nat;
  stopping_ : bool;
}.

(** [EngineWorker::EngineWorker(max_queue_depth)]. *)
Definition new_EngineWorker (max_queue_depth : nat) : EngineWorker :=
  MkEngineWorker [] max_queue_depth false.

(** The critical section of [Enqueue]. *)
Definition Enqueue (task : T) (w : EngineWorker) : exn + EngineWorker :=
  if stopping_ w then inl WorkerStoppedError
  else if max_depth_ w <=? length (queue_ w) then inl QueueFullError
  else inr (MkEngineWorker (queue_ w ++ [task]) (max_depth_ w) (stopping_ w)).

Definition queue_depth (w : EngineWorker) : nat := length (queue_ w).

(** The critical section of [Drain]; [None] is its early return. *)
Definition Drain_lock (joinable : bool) (w : EngineWorker) :
    option EngineWorker :=
  if stopping_ w && negb joinable then None
  else Some (MkEngineWorker (queue_ w) (max_depth_ w) true).

(** What the engine thread does with the mutex held once the wait is over,
    or [Sleep] when the wait's predicate is false. *)
Inductive LoopAction := Sleep | Return | RunTask (t : T) (w : EngineWorker).

Definition Loop_lock (w : EngineWorker) : LoopAction :=
  if stopping_ w || negb (bool_decide (queue_ w = [] :> list T)) then
    match queue_ w with
    | [] => Return
    | t :: q => RunTask t (MkEngineWorker q (max_depth_ w) (stopping_ w))
    end
  else Sleep.
End worker.
Arguments EngineWorker T : clear implicits.

(** ** The threads *)
Section threads.
Context {T : Type}.

(** Where the engine thread is: at the top of [Loop] or woken and about to
    re-evaluate the predicate, blocked in [cv_.wait], running a task outside
    the lock, or returned from [Loop]. *)
Inductive loop_pc := AtLock | Asleep | Running (t : T) | Returned.

(** [notifies] counts the callers that have released [mu_] and not yet
    called [notify_one]. [accepted] and [executed] are history: the tasks
    [Enqueue] took and the tasks that have run, in order. *)
Record Sys := MkSys {
  worker : EngineWorker T;
  loop : loop_pc;
  notifies : nat;
  joined : bool;
  accepted : list T;
  executed : list T;
}.

Definition init (depth : nat) : Sys :=
  MkSys (new_EngineWorker depth) AtLock 0 false [] [].

Definition set_loop (pc : loop_pc) (s : Sys) : Sys :=
  MkSys (worker s) pc (notifies s) (joined s) (accepted s) (executed s).

(** A task has been taken into the queue, and its caller has yet to notify. *)
Definition enqueued (t : T) (w : EngineWorker T) (s : Sys) : Sys :=
  MkSys w (loop s) (S (notifies s)) (joined s) (accepted s ++ [t]) (executed s).

(** The task in hand has run. *)
Definition ran (t : T) (s : Sys) : Sys :=
  MkSys (worker s) AtLock (notifies s) (joined s) (accepted s) (executed s ++ [t]).

(** Steps of the engine thread, of the wake-ups it depends on, and of the
    [join] that ends [Drain]. *)
Inductive internal : Sys -> Sys -> Prop :=
| step_sleep s :
    loop s = AtLock -> Loop_lock (worker s) = Sleep ->
    internal s (set_loop Asleep s)
| step_return s :
    loop s = AtLock -> Loop_lock (worker s) = Return ->
    internal s (set_loop Returned s)
| step_pop s t w :
    loop s = AtLock -> Loop_lock (worker s) = RunTask t w ->
    internal s
      (MkSys w (Running t) (notifies s) (joined s) (accepted s) (executed s))
| step_run s t :
    loop s = Running t -> internal s (ran t s)
| step_notify s n :
    notifies s = S n ->
    internal s
      (MkSys (worker s)
         (match loop s with Asleep => AtLock | pc => pc end)
         n (joined s) (accepted s) (executed s))
| step_join s :
    loop s = Returned -> stopping_ (worker s) = true -> joined s = false ->
    internal s
      (MkSys (worker s) (loop s) (notifies s) true (accepted s) (executed s)).

(** Steps of the callers, and the spurious wake-ups a condition variable
    allows. *)
Inductive external : Sys -> Sys -> Prop :=
| step_enqueue s t w :
    Enqueue t (worker s) = inr w -> external s (enqueued t w s)
| step_drain s w :
    Drain_lock (negb (joined s)) (worker s) = Some w ->
    external s
      (MkSys w (loop s) (S (notifies s)) (joined s) (accepted s) (executed s))
| step_spurious s :
    loop s = Asleep -> external s (set_loop AtLock s).

Definition step (s s' : Sys) : Prop := internal s s' \/ external s s'.
Definition reachable (depth : nat) (s : Sys) : Prop := star step (init depth) s.

(** The task in hand. *)
Definition in_hand (s : Sys) : list T :=
  match loop s with Running t => [t] | _ => [] end.

(** ** The invariant *)
Record inv (depth : nat) (s : Sys) : Prop := {
  inv_fifo : accepted s = executed s ++ in_hand s ++ queue_ (worker s);
  inv_max : max_depth_ (worker s) = depth;
  inv_bound : length (queue_ (worker s)) <= depth;
  inv_wake : loop s = Asleep ->
    stopping_ (worker s) = true \/ queue_ (worker s) <> [] -> 0 < notifies s;
  inv_returned : loop s = Returned ->
    stopping_ (worker s) = true /\ queue_ (worker s) = [];
}.

Lemma Loop_lock_cases (w : EngineWorker T) :
  match Loop_lock w with
  | Sleep => stopping_ w = false /\ queue_ w = []
  | Return => stopping_ w = true /\ queue_ w = []
  | RunTask t w' =>
      queue_ w = t :: queue_ w' /\ max_depth_ w' = max_depth_ w /\
      stopping_ w' = stopping_ w
  end.
Proof. unfold Loop_lock. by destruct w as [[|t q] d []]. Qed.

Lemma Enqueue_cases t (w : EngineWorker T) :
  match Enqueue t w with
  | inl e => e = WorkerStoppedError /\ stopping_ w = true \/
             e = QueueFullError /\ stopping_ w = false /\
             max_depth_ w <= length (queue_ w)
  | inr w' => stopping_ w = false /\ length (queue_ w) < max_depth_ w /\
              w' = MkEngineWorker (queue_ w ++ [t]) (max_depth_ w) false
  end.
Proof.
  unfold Enqueue. destruct (stopping_ w); [by left|].
  destruct (Nat.leb_spec (max_depth_ w) (length (queue_ w))); [by right|done].
Qed.

Lemma inv_init depth : inv depth (init depth).
Proof. split; cbn; try done; lia. Qed.

Lemma inv_internal depth s s' : internal s s' -> inv depth s -> inv depth s'.
Proof.
  intros Hs [Hf Hm Hb Hw Hr]; destruct Hs as
    [s Hl Ha|s Hl Ha|s t w Hl Ha|s t Hl|s n Hn|s Hl Hst Hj];
    unfold in_hand in *; rewrite ?Hl in *; cbn in *;
    try (pose proof (Loop_lock_cases (worker s)) as HL; rewrite Ha in HL).
  - split; cbn; try done. intros _ [?|?]; destruct HL; congruence.
  - by split.
  - destruct HL as (Hq & Hm' & Hst). rewrite Hq in *. cbn in *.
    split; cbn; [done|congruence|lia|done..].
  - split; cbn; [by rewrite Hf, <- app_assoc|done..].
  - destruct (loop s); by split.
  - by split.
Qed.

Lemma inv_external depth s s' : external s s' -> inv depth s -> inv depth s'.
Proof.
  intros Hs [Hf Hm Hb Hw Hr]; destruct Hs as [s t w He|s w Hd|s Hl].
  - pose proof (Enqueue_cases t (worker s)) as HE. rewrite He in HE.
    destruct HE as (Hst & Hlt & ->).
    split; cbn; [|done|rewrite length_app; cbn; lia|lia|].
    + unfold in_hand in *; cbn. by rewrite Hf, <- !app_assoc.
    + intros Hl. destruct (Hr Hl). congruence.
  - unfold Drain_lock in Hd. destruct (_ && _); [done|]. injection Hd as <-.
    split; cbn; auto; [lia|]. intros Hl. split; [done|]. by apply Hr.
  - unfold in_hand in *. rewrite Hl in *. by split.
Qed.

Lemma reachable_inv depth s : reachable depth s -> inv depth s.
Proof.
  intros Hs. eapply star_invariant; [|exact Hs|apply inv_init].
  intros x y [H|H]; [by eapply inv_internal|by eapply inv_external].
Qed.

(** ** Progress and termination of a drain *)
Definition pc_weight (pc : loop_pc) : nat :=
  match pc with Running _ => 2 | AtLock | Asleep => 1 | Returned => 0 end.

Definition work_left (s : Sys) : nat :=
  3 * length (queue_ (worker s)) + pc_weight (loop s) + notifies s +
  (if joined s then 0 else 1).

Lemma internal_keeps s s' :
  internal s s' ->
  accepted s' = accepted s /\ stopping_ (worker s') = stopping_ (worker s).
Proof.
  destruct 1 as [| |s t w Hl Ha| | |]; cbn; try done.
  pose proof (Loop_lock_cases (worker s)) as HL. rewrite Ha in HL. tauto.
Qed.

Lemma internal_decreases s s' :
  internal s s' -> stopping_ (worker s) = true -> work_left s' < work_left s.
Proof.
  intros Hs Hst; destruct Hs as
    [s Hl Ha|s Hl Ha|s t w Hl Ha|s t Hl|s n Hn|s Hl _ Hj];
    unfold work_left; cbn; rewrite ?Hl, ?Hn, ?Hj; cbn;
    try (pose proof (Loop_lock_cases (worker s)) as HL; rewrite Ha in HL).
  - destruct HL; congruence.
  - lia.
  - destruct HL as (-> & _). cbn. lia.
  - lia.
  - destruct (loop s); cbn; lia.
  - lia.
Qed.

(** With work queued or a drain requested the engine thread is never stuck. *)
Lemma inv_progress depth s :
  inv depth s ->
  stopping_ (worker s) = true \/ queue_ (worker s) <> [] ->
  (exists s', internal s s') \/
  (loop s = Returned /\ joined s = true /\ queue_ (worker s) = []).
Proof.
  intros Hinv Hwork. destruct (loop s) as [| |t|] eqn:Hl.
  - left. pose proof (Loop_lock_cases (worker s)) as HL.
    destruct (Loop_lock (worker s)) as [| |t w] eqn:Ha.
    + destruct HL, Hwork; congruence.
    + eexists. by apply step_return.
    + eexists. by eapply step_pop.
  - left. pose proof (inv_wake _ _ Hinv Hl Hwork).
    destruct (notifies s) as [|n] eqn:Hn; [lia|].
    eexists. by eapply step_notify.
  - left. eexists. by eapply step_run.
  - destruct (inv_returned _ _ Hinv Hl) as [Hst Hq].
    destruct (joined s) eqn:Hj; [by right|].
    left. eexists. by apply step_join.
Qed.

Lemma star_internal_keeps s s' :
  star internal s s' ->
  accepted s' = accepted s /\ stopping_ (worker s') = stopping_ (worker s).
Proof.
  induction 1 as [|a b c Hab _ [IH1 IH2]]; [done|].
  destruct (internal_keeps _ _ Hab). split; congruence.
Qed.

Lemma star_internal_inv depth s s' :
  star internal s s' -> inv depth s -> inv depth s'.
Proof. intros Hs. eapply star_invariant; [|done]. by apply inv_internal. Qed.

(** ** Properties *)

(** Tasks run in the order [Enqueue] accepted them: at any moment the accepted
    tasks are those already executed, the one in hand and the queue, in that
    order; and the queue never exceeds the configured depth. *)
Theorem worker_fifo_bounded depth s :
  reachable depth s ->
  accepted s = executed s ++ in_hand s ++ queue_ (worker s) /\
  queue_depth (worker s) <= depth.
Proof. intros []%reachable_inv. by split. Qed.

(** No lost wake-up: while a task is queued or a drain is requested, the engine
    thread can take a step (or a pending notification wakes it), unless the
    worker has drained and executed everything it accepted. *)
Theorem worker_no_lost_wakeup depth s :
  reachable depth s ->
  stopping_ (worker s) = true \/ queue_ (worker s) <> [] ->
  (exists s', internal s s') \/
  (joined s = true /\ executed s = accepted s).
Proof.
  intros Hinv%reachable_inv Hwork.
  destruct (inv_progress _ _ Hinv Hwork) as [?|(Hl & Hj & Hq)]; [by left|].
  right. split; [done|]. rewrite (inv_fifo _ _ Hinv), Hq.
  unfold in_hand. by rewrite Hl, !app_nil_r.
Qed.

(** Draining terminates under every schedule: once [stopping_] is set, every
    sequence of internal steps is finite, it can only end with the thread
    joined and every accepted task executed, and nothing more is accepted. *)
Theorem worker_drain_terminates depth s :
  reachable depth s -> stopping_ (worker s) = true ->
  Acc (fun y x => internal x y) s /\
  (forall s', star internal s s' -> ~ (exists s'', internal s' s'') ->
     joined s' = true /\ executed s' = accepted s) /\
  (forall t, Enqueue t (worker s) = inl WorkerStoppedError).
Proof.
  intros Hinv%reachable_inv Hst. split; [|split].
  - apply (measured_Acc _ (fun s => stopping_ (worker s) = true) work_left); [|done].
    intros x y Hs Hx. split; [by rewrite (proj2 (internal_keeps _ _ Hs))|].
    by apply internal_decreases.
  - intros s' Hs Hmax. destruct (star_internal_keeps _ _ Hs) as [<- Hst'].
    pose proof (star_internal_inv _ _ _ Hs Hinv) as Hinv'.
    destruct (inv_progress _ _ Hinv') as [?|(Hl & Hj & Hq)];
      [left; congruence|done|].
    split; [done|]. rewrite (inv_fifo _ _ Hinv'), Hq.
    unfold in_hand. by rewrite Hl, !app_nil_r.
  - intros t. unfold Enqueue. by rewrite Hst.
Qed.
End threads.
Arguments Sys T : clear implicits.

(** ** [EngineWorker::Run] from the caller's side

    The caller waits for its task, so [Run] is the admission check followed by
    the task; the queue is FIFO and the task is gone from it when [Run]
    returns. An exception of the task is rethrown by [future.get()]. *)
Definition Run {S A} (worker : EngineWorker unit) (fn : Prog S A) : Prog S A :=
  fun s =>
    match Enqueue tt worker with
    | inl e => (s, Throw e)
    | inr _ => fn s
    end.
