(* ===== verification/Journal.v ===== *)
(** * The sidecar intent journal: [journal/journal.h], [journal/journal.cpp]

    Two SQLite tables keyed by [mutation_id], [intents] and [applied]. Each
    method runs one SQL statement, translated from its text: a table is a map
    from its primary key, [INSERT OR IGNORE] leaves an existing row alone, a
    plain [INSERT] fails on a key conflict or on a foreign key that does not
    resolve, and the [LEFT JOIN ... IS NULL] of the two queries selects the
    intents without an applied row. *)
From S2P Require Import Prelude.
From S2P Require Import Messages.
From S2P Require Import Errors.

(** ** Tables *)

(** A row of [intents] without its key. *)
Record Intent := MkIntent {
  rpc_name : string;
  payload : string;
  payload_sha256 : string;
  journaled_at_utc : Z;
  pending_response : option string;
}.

(** A row of [applied] without its key. *)
Record Applied := MkApplied { outcome : string; applied_at_utc : Z }.

(** What SQLite reports when a statement fails: its message, and what the
    daemon was doing (the SQL text, ["bind"] or ["step"]). *)
Record SqlFault := MkSqlFault { fault_message : string; fault_context : string }.

(** An open journal: the durable tables, the connection's [foreign_keys]
    setting, and the environment's schedule of I/O failures, one entry per
    statement to come ([None], or no entry, is success). *)
Record Journal := MkJournal {
  intents : gmap string Intent;
  applied : gmap string Applied;
  foreign_keys : bool;
  faults : list (option SqlFault);
}.

(** SQLite and GLib as the journal uses them: [ORDER BY journaled_at_utc]
    leaves ties unspecified, the texts of the two constraint errors are
    SQLite's, and SHA-256 is GLib's. *)
Class SqliteEnv := {
  order_by_time : list (string * Intent) -> list (string * Intent);
  unique_message : string;
  foreign_key_message : string;
  g_checksum_sha256 : string -> string;
}.

Class SqliteEnvOk `{!SqliteEnv} : Prop := {
  order_by_time_perm : forall l, order_by_time l ≡ₚ l;
  order_by_time_sorted : forall l,
    StronglySorted (fun a b => journaled_at_utc a.2 <= journaled_at_utc b.2)%Z
      (order_by_time l);
}.

(** ** Statements *)

(** [ThrowSqlite]. *)
Definition ThrowSqlite {S A} (f : SqlFault) : Prog S A :=
  throw_shim ERROR_CODE_ENGINE_ERROR ("journal: " +:+ fault_message f)
    (fault_context f).

Definition set_faults (fs : list (option SqlFault)) (j : Journal) : Journal :=
  MkJournal (intents j) (applied j) (foreign_keys j) fs.
Definition set_intents (t : gmap string Intent) (j : Journal) : Journal :=
  MkJournal t (applied j) (foreign_keys j) (faults j).
Definition set_applied (t : gmap string Applied) (j : Journal) : Journal :=
  MkJournal (intents j) t (foreign_keys j) (faults j).

(** [Stmt] prepared, bound and stepped: the next scheduled failure, if any,
    is thrown before the statement has any effect. *)
Definition Stmt : Prog Journal unit :=
  fun j =>
    match faults j with
    | [] => (j, Ret tt)
    | None :: fs => (set_faults fs j, Ret tt)
    | Some f :: fs => ThrowSqlite f (set_faults fs j)
    end.

Section journal.
Context `{SqliteEnv} `{Proto Outcome}.
Local Open Scope prog_scope.

Definition Sha256 (data : string) : string := g_checksum_sha256 data.

(** [INSERT OR IGNORE INTO intents ... VALUES ...]. *)
Definition RecordIntent (mutation_id rpc payload_ : string) (now_utc : Z) :
    Prog Journal unit :=
  Stmt ;;;
  modify (fun j =>
    match intents j !! mutation_id with
    | Some _ => j
    | None =>
        set_intents
          (<[mutation_id :=
               MkIntent rpc payload_ (Sha256 payload_) now_utc None]>
             (intents j)) j
    end).

(** [SELECT outcome FROM applied WHERE mutation_id = ?]. *)
Definition GetOutcome (mutation_id : string) :
    Prog Journal (option Outcome) :=
  Stmt ;;;
  row <~ gets (fun j => applied j !! mutation_id) ;;
  match row with
  | None => ret None
  | Some r =>
      match ParseFromString (A := Outcome) (outcome r) with
      | Some o => ret (Some o)
      | None =>
          throw_shim ERROR_CODE_ENGINE_ERROR
            "journal: corrupt outcome record" mutation_id
      end
  end.

Definition set_pending (p : option string) (i : Intent) : Intent :=
  MkIntent (rpc_name i) (payload i) (payload_sha256 i) (journaled_at_utc i) p.

(** [UPDATE intents SET pending_response = ? WHERE mutation_id = ?]. *)
Definition RecordPending (mutation_id response_bytes : string) :
    Prog Journal unit :=
  Stmt ;;;
  modify (fun j =>
    set_intents
      (alter (set_pending (Some response_bytes)) mutation_id (intents j)) j).

(** [UPDATE intents SET pending_response = NULL WHERE mutation_id = ?]. *)
Definition ClearPending (mutation_id : string) : Prog Journal unit :=
  Stmt ;;;
  modify (fun j =>
    set_intents (alter (set_pending None) mutation_id (intents j)) j).

(** [INSERT INTO applied ...]: [mutation_id] is the primary key and
    references [intents]. *)
Definition RecordOutcome (mutation_id : string) (o : Outcome) (now_utc : Z) :
    Prog Journal unit :=
  Stmt ;;;
  j <~ gets id ;;
  match applied j !! mutation_id with
  | Some _ => ThrowSqlite (MkSqlFault unique_message "step")
  | None =>
      if foreign_keys j && negb (bool_decide (is_Some (intents j !! mutation_id)))
      then ThrowSqlite (MkSqlFault foreign_key_message "step")
      else
        modify
          (set_applied
             (<[mutation_id := MkApplied (SerializeAsString o) now_utc]>
                (applied j)))
  end.

(** [intents i LEFT JOIN applied a USING (mutation_id) WHERE a.mutation_id IS
    NULL]: the rows of the crash-recovery handshake, in key order. *)
Definition unresolved_rows (j : Journal) : list (string * Intent) :=
  filter (fun row => applied j !! row.1 = None) (map_to_list (intents j)).

Record PendingEntry := MkPendingEntry {
  pe_mutation_id : string;
  pe_rpc_name : string;
  pe_request_payload : string;
  pe_pending_response : string;
}.

Record IndeterminateEntry := MkIndeterminateEntry {
  ie_mutation_id : string;
  ie_rpc_name : string;
  ie_payload_sha256 : string;
  ie_journaled_at_utc : Z;
}.

(** A column of a row, [None] for SQL NULL: text is read as a C string, a blob
    with its length, and both are empty for NULL. *)
Definition ColumnText (text : option string) : string :=
  match text with Some t => c_str t | None => "" end.
Definition ColumnBlob (data : option string) : string :=
  match data with Some d => d | None => "" end.

Definition pending_entry (row : string * Intent) : PendingEntry :=
  MkPendingEntry (ColumnText (Some row.1)) (ColumnText (Some (rpc_name row.2)))
    (ColumnBlob (Some (payload row.2))) (ColumnBlob (pending_response row.2)).

Definition indeterminate_entry (row : string * Intent) : IndeterminateEntry :=
  MkIndeterminateEntry (ColumnText (Some row.1)) (ColumnText (Some (rpc_name row.2)))
    (ColumnBlob (Some (payload_sha256 row.2))) (journaled_at_utc row.2).

Definition ListPendingUnresolved : Prog Journal (list PendingEntry) :=
  Stmt ;;;
  gets (fun j =>
    pending_entry <$>
      order_by_time
        (filter (fun row => is_Some (pending_response row.2))
           (unresolved_rows j))).

Definition ListIndeterminate : Prog Journal (list IndeterminateEntry) :=
  Stmt ;;;
  gets (fun j => indeterminate_entry <$> order_by_time (unresolved_rows j)).
End journal.

(** ** Opening: [Journal::Open] *)

(** The database file before and while it is opened: a table may be missing. *)
Record DbFile := MkDbFile {
  file_intents : option (gmap string Intent);
  file_applied : option (gmap string Applied);
}.

Record Conn := MkConn {
  conn_file : DbFile;
  conn_foreign_keys : bool;
  conn_faults : list (option SqlFault);
}.

(** [Exec(db, sql)]: one statement run for its effect. *)
Definition Exec (sql : string) (effect : Conn -> Conn) : Prog Conn unit :=
  fun c =>
    match conn_faults c with
    | [] => (effect c, Ret tt)
    | None :: fs =>
        (effect (MkConn (conn_file c) (conn_foreign_keys c) fs), Ret tt)
    | Some f :: fs =>
        throw_shim ERROR_CODE_ENGINE_ERROR ("journal: " +:+ fault_message f) sql
          (MkConn (conn_file c) (conn_foreign_keys c) fs)
    end.

Definition create_intents (c : Conn) : Conn :=
  MkConn (MkDbFile (Some (default ∅ (file_intents (conn_file c))))
            (file_applied (conn_file c)))
    (conn_foreign_keys c) (conn_faults c).
Definition create_applied (c : Conn) : Conn :=
  MkConn (MkDbFile (file_intents (conn_file c))
            (Some (default ∅ (file_applied (conn_file c)))))
    (conn_foreign_keys c) (conn_faults c).
Definition set_foreign_keys (c : Conn) : Conn :=
  MkConn (conn_file c) true (conn_faults c).

(** The body of [Open] after [sqlite3_open_v2] succeeded; a failed open is the
    first scheduled fault. [journal_mode] and [synchronous] make every
    statement durable before it returns, which is how the tables are read
    after a crash. *)
Definition Open (path : string) : Prog Conn Journal :=
  (Exec path id ;;;
   Exec "PRAGMA journal_mode=WAL" id ;;;
   Exec "PRAGMA synchronous=FULL" id ;;;
   Exec "PRAGMA foreign_keys=ON" set_foreign_keys ;;;
   Exec ("CREATE TABLE IF NOT EXISTS intents (" +:+
         "  mutation_id TEXT PRIMARY KEY," +:+
         "  rpc_name TEXT NOT NULL," +:+
         "  payload BLOB NOT NULL," +:+
         "  payload_sha256 BLOB NOT NULL," +:+
         "  journaled_at_utc INTEGER NOT NULL," +:+
         "  pending_response BLOB)") create_intents ;;;
   Exec ("CREATE TABLE IF NOT EXISTS applied (" +:+
         "  mutation_id TEXT PRIMARY KEY" +:+
         "    REFERENCES intents(mutation_id)," +:+
         "  outcome BLOB NOT NULL," +:+
         "  applied_at_utc INTEGER NOT NULL)") create_applied ;;;
   gets (fun c =>
     MkJournal (default ∅ (file_intents (conn_file c)))
       (default ∅ (file_applied (conn_file c)))
       (conn_foreign_keys c) (conn_faults c)))%prog.

(** ** Any sequence of journal calls *)
Inductive JournalCall :=
| CallRecordIntent (id rpc payload_ : string) (now : Z)
| CallGetOutcome (id : string)
| CallRecordPending (id response : string)
| CallListPendingUnresolved
| CallClearPending (id : string)
| CallRecordOutcome (id : string) (o : Outcome) (now : Z)
| CallListIndeterminate.

Section calls.
Context `{SqliteEnv} `{Proto Outcome}.
Local Open Scope prog_scope.

Definition run_call (c : JournalCall) : Prog Journal unit :=
  match c with
  | CallRecordIntent id rpc p now => RecordIntent id rpc p now
  | CallGetOutcome id => GetOutcome id ;;; ret tt
  | CallRecordPending id r => RecordPending id r
  | CallListPendingUnresolved => ListPendingUnresolved ;;; ret tt
  | CallClearPending id => ClearPending id
  | CallRecordOutcome id o now => RecordOutcome id o now
  | CallListIndeterminate => ListIndeterminate ;;; ret tt
  end.

(** The journal after the calls; a call that throws leaves its state and the
    next one follows (the gRPC boundary catches every exception). *)
Fixpoint run_calls (cs : list JournalCall) (j : Journal) : Journal :=
  match cs with
  | [] => j
  | c :: cs' => run_calls cs' (run_call c j).1
  end.
End calls.

(** ** Invariants *)

(** The journal only grows: a recorded intent keeps its request, a recorded
    outcome never changes. *)
Definition same_request (i i' : Intent) : Prop :=
  rpc_name i' = rpc_name i /\ payload i' = payload i /\
  payload_sha256 i' = payload_sha256 i /\
  journaled_at_utc i' = journaled_at_utc i.

Record journal_le (j j' : Journal) : Prop := {
  le_foreign_keys : foreign_keys j' = foreign_keys j;
  le_intents : forall id i, intents j !! id = Some i ->
    exists i', intents j' !! id = Some i' /\ same_request i i';
  le_applied : applied j ⊆ applied j';
}.

#[export] Instance journal_le_preorder : PreOrder journal_le.
Proof.
  split.
  - intros j. split; [done| |done]. intros id i Hi. by exists i.
  - intros j1 j2 j3 [Hf1 Hi1 Ha1] [Hf2 Hi2 Ha2].
    split; [congruence| |by etrans].
    intros id i (i2 & Hi & Hs)%Hi1. apply Hi2 in Hi as (i3 & ? & Hs').
    exists i3. unfold same_request in *. intuition congruence.
Qed.

(** Every applied row has its intent, and every stored digest is that of the
    stored payload. *)
Record journal_wf `{SqliteEnv} (j : Journal) : Prop := {
  wf_foreign_keys : foreign_keys j = true;
  wf_applied : forall id, is_Some (applied j !! id) -> is_Some (intents j !! id);
  wf_sha256 : forall id i, intents j !! id = Some i ->
    payload_sha256 i = Sha256 (payload i);
}.

#[export] Instance wf_impl_preorder `{SqliteEnv} :
  PreOrder (fun j j' => journal_wf j -> journal_wf j').
Proof. split; red; auto. Qed.

(** A relation on journals that ignores the fault schedule. *)
Class IgnoresFaults (R : Journal -> Journal -> Prop) : Prop :=
  ignores_faults : forall j fs, R j (set_faults fs j).

#[export] Instance journal_le_ignores : IgnoresFaults journal_le.
Proof. intros j fs. split; [done| |done]. intros id i Hi. by exists i. Qed.

#[export] Instance wf_impl_ignores `{SqliteEnv} :
  IgnoresFaults (fun j j' => journal_wf j -> journal_wf j').
Proof. intros j fs [? ? ?]. by split. Qed.

Section preservation.
Context `{SqliteEnv} `{Proto Outcome}.

Lemma Stmt_preserves R `{!PreOrder R} `{!IgnoresFaults R} :
  preserves R Stmt.
Proof.
  intros j j' r. unfold Stmt.
  destruct (faults j) as [|[f|] fs] eqn:E; intros [= <- _];
    [reflexivity|apply ignores_faults..].
Qed.

(** A statement with an effect preserves what the effect alone preserves. *)
Lemma stmt_effect_preserves R `{!PreOrder R} `{!IgnoresFaults R}
    (f : Journal -> Journal) :
  (forall j, R j (f j)) -> preserves R (bind Stmt (fun _ => modify f)).
Proof.
  intros Hf. apply preserves_bind; [done|by apply Stmt_preserves|].
  intros _ j j' r [= <- _]. apply Hf.
Qed.

Lemma le_set_intents j id (g : Intent -> Intent) :
  (forall i, same_request i (g i)) ->
  journal_le j (set_intents (alter g id (intents j)) j).
Proof.
  intros Hg. split; [done| |done]. cbn. intros id' i Hi.
  destruct (decide (id = id')) as [<-|Hne].
  - exists (g i). rewrite lookup_alter_eq, Hi. auto.
  - exists i. by rewrite lookup_alter_ne.
Qed.

Lemma wf_set_intents j id (g : Intent -> Intent) :
  (forall i, same_request i (g i)) ->
  journal_wf j -> journal_wf (set_intents (alter g id (intents j)) j).
Proof.
  intros Hg [Hf Ha Hs]. split; cbn; [done| |].
  - intros id' [i Hi]%Ha. rewrite lookup_alter.
    case_decide; subst; rewrite ?Hi; cbn; eauto.
  - intros id' i'. rewrite lookup_alter. case_decide as E; [subst|apply Hs].
    destruct (intents j !! id') as [i|] eqn:Hi; [|done]. intros [= <-].
    destruct (Hg i) as (_ & -> & -> & _). eauto.
Qed.

Lemma RecordIntent_le id rpc p now :
  preserves journal_le (RecordIntent id rpc p now).
Proof.
  apply stmt_effect_preserves; try typeclasses eauto. intros j.
  destruct (intents j !! id) eqn:E; [reflexivity|].
  split; [done| |done]. cbn. intros id' i Hi. exists i.
  rewrite lookup_insert_ne by congruence. by split.
Qed.

Lemma RecordIntent_wf id rpc p now :
  preserves (fun j j' => journal_wf j -> journal_wf j')
    (RecordIntent id rpc p now).
Proof.
  apply stmt_effect_preserves; try typeclasses eauto. intros j.
  destruct (intents j !! id) eqn:E; [done|].
  intros [Hf Ha Hs]. split; cbn; [done| |].
  - intros id' H'%Ha. rewrite lookup_insert. case_decide; eauto.
  - intros id' i. rewrite lookup_insert. case_decide; [intros [= <-]|]; eauto.
Qed.

Lemma pending_same p i : same_request i (set_pending p i).
Proof. done. Qed.
#[local] Hint Resolve pending_same le_set_intents wf_set_intents : core.

Lemma RecordPending_le id r : preserves journal_le (RecordPending id r).
Proof. apply stmt_effect_preserves; try typeclasses eauto. eauto. Qed.

Lemma ClearPending_le id : preserves journal_le (ClearPending id).
Proof. apply stmt_effect_preserves; try typeclasses eauto. eauto. Qed.

Lemma RecordPending_wf id r :
  preserves (fun j j' => journal_wf j -> journal_wf j') (RecordPending id r).
Proof. apply stmt_effect_preserves; try typeclasses eauto. eauto. Qed.

Lemma ClearPending_wf id :
  preserves (fun j j' => journal_wf j -> journal_wf j') (ClearPending id).
Proof. apply stmt_effect_preserves; try typeclasses eauto. eauto. Qed.

(** [RecordOutcome] either leaves the tables alone or inserts a fresh row. *)
Lemma RecordOutcome_preserves R `{!PreOrder R} `{!IgnoresFaults R} id o now :
  (forall j, applied j !! id = None ->
     (foreign_keys j = true -> is_Some (intents j !! id)) ->
     R j (set_applied
            (<[id := MkApplied (SerializeAsString o) now]> (applied j)) j)) ->
  preserves R (RecordOutcome id o now).
Proof.
  intros HR. apply preserves_bind; [done|by apply Stmt_preserves|intros _].
  intros j j' r. unfold bind, gets, modify; cbn.
  destruct (applied j !! id) eqn:Ea; [by intros [= <- _]|].
  destruct (foreign_keys j && _) eqn:E; [by intros [= <- _]|].
  intros [= <- _]. apply HR; [done|]. intros Hf. rewrite Hf in E. cbn in E.
  by apply negb_false_iff, bool_decide_eq_true in E.
Qed.

Lemma RecordOutcome_le id o now :
  preserves journal_le (RecordOutcome id o now).
Proof.
  apply RecordOutcome_preserves; try typeclasses eauto. intros j Hn _.
  split; [done| |by apply insert_subseteq]. intros id' i Hi. by exists i.
Qed.

Lemma RecordOutcome_wf id o now :
  preserves (fun j j' => journal_wf j -> journal_wf j')
    (RecordOutcome id o now).
Proof.
  apply RecordOutcome_preserves; try typeclasses eauto.
  intros j Hn Hi [Hf Ha Hs]. split; cbn; [done| |done].
  intros id'. rewrite lookup_insert. case_decide; subst; eauto.
Qed.

Lemma GetOutcome_preserves R `{!PreOrder R} `{!IgnoresFaults R} id :
  preserves R (GetOutcome id).
Proof.
  apply preserves_bind; [done|by apply Stmt_preserves|intros _].
  apply preserves_bind; [done|by apply preserves_gets|intros [row|]].
  - destruct (ParseFromString _); [by apply preserves_ret|].
    by apply preserves_throw.
  - by apply preserves_ret.
Qed.

(** Queries change nothing but the fault schedule. *)
Lemma query_preserves R `{!PreOrder R} `{!IgnoresFaults R} {A}
    (f : Journal -> A) :
  preserves R (bind Stmt (fun _ => gets f)).
Proof.
  apply preserves_bind; [done|by apply Stmt_preserves|intros _].
  by apply preserves_gets.
Qed.

(** A relation kept by the four writing methods is kept by every call. *)
Lemma run_call_preserves R `{!PreOrder R} `{!IgnoresFaults R} :
  (forall id rpc p now, preserves R (RecordIntent id rpc p now)) ->
  (forall id r, preserves R (RecordPending id r)) ->
  (forall id, preserves R (ClearPending id)) ->
  (forall id o now, preserves R (RecordOutcome id o now)) ->
  forall c, preserves R (run_call c).
Proof.
  intros Hi Hp Hc Ho c. destruct c; cbn; auto;
    (apply preserves_bind; [done| |intros; by apply preserves_ret]).
  - by apply GetOutcome_preserves.
  - by apply query_preserves.
  - by apply query_preserves.
Qed.

Lemma run_calls_preserves R `{!PreOrder R} cs j :
  (forall c, preserves R (run_call c)) -> R j (run_calls cs j).
Proof.
  intros HR. revert j. induction cs as [|c cs IH]; intros j; cbn; [done|].
  destruct (run_call c j) as [j1 r] eqn:E.
  transitivity j1; [eapply HR; eauto|apply IH].
Qed.
End preservation.

(** ** The methods without I/O failures *)
Section functional.
Context `{SqliteEnv} `{Proto Outcome}.

Lemma stmt_calm {A} (k : Prog Journal A) j :
  faults j = [] -> bind Stmt (fun _ => k) j = k j.
Proof. intros E. unfold bind, Stmt. by rewrite E. Qed.

Lemma RecordIntent_new id rpc p now j :
  faults j = [] -> intents j !! id = None ->
  RecordIntent id rpc p now j =
    (set_intents (<[id := MkIntent rpc p (Sha256 p) now None]> (intents j)) j,
     Ret tt).
Proof.
  intros Hf Hi. unfold RecordIntent. rewrite stmt_calm by done.
  unfold modify. by rewrite Hi.
Qed.

Lemma RecordIntent_existing id rpc p now j i :
  faults j = [] -> intents j !! id = Some i ->
  RecordIntent id rpc p now j = (j, Ret tt).
Proof.
  intros Hf Hi. unfold RecordIntent. rewrite stmt_calm by done.
  unfold modify. by rewrite Hi.
Qed.

Lemma GetOutcome_calm id j :
  faults j = [] ->
  GetOutcome id j =
    (j, match applied j !! id with
        | None => Ret None
        | Some r =>
            match ParseFromString (outcome r) with
            | Some o => Ret (Some o)
            | None =>
                Throw (ShimErr (MkShimError ERROR_CODE_ENGINE_ERROR
                  "journal: corrupt outcome record" id))
            end
        end).
Proof.
  intros Hf. unfold GetOutcome. rewrite stmt_calm by done.
  unfold bind, gets. destruct (applied j !! id) as [r|]; [|done].
  by destruct (ParseFromString (outcome r)).
Qed.

Lemma RecordPending_calm id r j :
  faults j = [] ->
  RecordPending id r j =
    (set_intents (alter (set_pending (Some r)) id (intents j)) j, Ret tt).
Proof. intros Hf. unfold RecordPending. by rewrite stmt_calm. Qed.

Lemma ClearPending_calm id j :
  faults j = [] ->
  ClearPending id j =
    (set_intents (alter (set_pending None) id (intents j)) j, Ret tt).
Proof. intros Hf. unfold ClearPending. by rewrite stmt_calm. Qed.

Lemma RecordOutcome_fresh id o now j :
  faults j = [] -> applied j !! id = None -> is_Some (intents j !! id) ->
  RecordOutcome id o now j =
    (set_applied
       (<[id := MkApplied (SerializeAsString o) now]> (applied j)) j, Ret tt).
Proof.
  intros Hf Ha Hi. unfold RecordOutcome. rewrite stmt_calm by done.
  unfold bind, gets, modify; cbn. rewrite Ha.
  by rewrite bool_decide_eq_true_2, andb_false_r.
Qed.

Lemma elem_of_unresolved j id i :
  (id, i) ∈ unresolved_rows j <->
  intents j !! id = Some i /\ applied j !! id = None.
Proof.
  unfold unresolved_rows. rewrite list_elem_of_filter, elem_of_map_to_list.
  cbn. tauto.
Qed.

Lemma unresolved_NoDup_ids j : NoDup (unresolved_rows j).*1.
Proof.
  unfold unresolved_rows. eapply sublist_NoDup; [apply (NoDup_fst_map_to_list (intents j))|].
  by apply fmap_sublist, sublist_filter.
Qed.
End functional.

(** ** Properties *)
Section properties.
Context `{SqliteEnv} `{Proto Outcome}.

Definition ids_printable (j : Journal) : Prop :=
  forall id i, intents j !! id = Some i -> str_free NUL id = true.

(** Whatever is done to a journal afterwards, and however often its
    statements fail, a recorded outcome and a recorded request stay. *)
Theorem journal_history_immutable cs j id :
  (forall a, applied j !! id = Some a ->
     applied (run_calls cs j) !! id = Some a) /\
  (forall i, intents j !! id = Some i ->
     exists i', intents (run_calls cs j) !! id = Some i' /\ same_request i i').
Proof.
  assert (journal_le j (run_calls cs j)) as [_ Hi Ha].
  { apply run_calls_preserves; [typeclasses eauto|].
    apply run_call_preserves; auto using RecordIntent_le, RecordPending_le,
      ClearPending_le, RecordOutcome_le; typeclasses eauto. }
  split; [intros a E; by eapply lookup_weaken|apply Hi].
Qed.

(** Every applied row keeps its intent, and every digest stays right. *)
Theorem journal_wf_invariant cs j :
  journal_wf j -> journal_wf (run_calls cs j).
Proof.
  apply (run_calls_preserves (fun j j' => journal_wf j -> journal_wf j')).
  apply run_call_preserves; auto using RecordIntent_wf, RecordPending_wf,
    ClearPending_wf, RecordOutcome_wf; typeclasses eauto.
Qed.

(** An outcome that was recorded reads back unchanged, and a second outcome
    for the same mutation is refused by the primary key. *)
Theorem record_outcome_once `{!ProtoOk Outcome} id o now j j' :
  faults j = [] -> RecordOutcome id o now j = (j', Ret tt) ->
  GetOutcome id j' = (j', Ret (Some o)) /\
  (forall o2 now2,
     RecordOutcome id o2 now2 j' =
       (j', Throw (ShimErr (MkShimError ERROR_CODE_ENGINE_ERROR
              ("journal: " +:+ unique_message) "step")))).
Proof.
  intros Hf. unfold RecordOutcome at 1. rewrite stmt_calm by done.
  unfold bind, gets, modify; cbn.
  destruct (applied j !! id) eqn:Ea; [done|].
  destruct (foreign_keys j && _); [done|]. intros [= <-]. split.
  - rewrite GetOutcome_calm by done. cbn.
    rewrite lookup_insert_eq; cbn. by rewrite parse_serialize.
  - intros o2 now2. unfold RecordOutcome. rewrite stmt_calm by done.
    unfold bind, gets; cbn. by rewrite lookup_insert_eq.
Qed.

Lemma ListIndeterminate_calm `{!SqliteEnvOk} j :
  faults j = [] -> ids_printable j ->
  exists es,
    ListIndeterminate j = (j, Ret es) /\
    NoDup (ie_mutation_id <$> es) /\
    (forall id, id ∈ ie_mutation_id <$> es <->
       is_Some (intents j !! id) /\ applied j !! id = None) /\
    StronglySorted
      (fun a b => ie_journaled_at_utc a <= ie_journaled_at_utc b)%Z es.
Proof.
  intros Hf Hp.
  exists (indeterminate_entry <$> order_by_time (unresolved_rows j)).
  unfold ListIndeterminate. rewrite stmt_calm by done. split; [done|].
  assert ((ie_mutation_id <$>
             (indeterminate_entry <$> order_by_time (unresolved_rows j))) ≡ₚ
          (unresolved_rows j).*1) as Hperm.
  { rewrite <- list_fmap_compose, order_by_time_perm.
    erewrite list_fmap_ext; [reflexivity|].
    intros n [id i] Hn. cbn. apply list_elem_of_lookup_2 in Hn.
    apply elem_of_unresolved in Hn as [Hn _]. by apply c_str_id, (Hp _ i). }
  split; [rewrite Hperm; apply unresolved_NoDup_ids|split].
  - intros id. rewrite Hperm, list_elem_of_fmap. split.
    + intros ([id' i] & -> & [? ?]%elem_of_unresolved). eauto.
    + intros [[i Hi] Hn]. exists (id, i). by rewrite elem_of_unresolved.
  - eapply StronglySorted_fmap; [|apply order_by_time_sorted]. by intros.
Qed.

(** The indeterminate listing holds exactly the journaled ids without an
    outcome, each once, oldest first. *)
Theorem list_indeterminate_exact `{!SqliteEnvOk} j :
  faults j = [] -> ids_printable j ->
  exists es,
    ListIndeterminate j = (j, Ret es) /\
    NoDup (ie_mutation_id <$> es) /\
    (forall id, id ∈ ie_mutation_id <$> es <->
       is_Some (intents j !! id) /\ applied j !! id = None) /\
    StronglySorted
      (fun a b => ie_journaled_at_utc a <= ie_journaled_at_utc b)%Z es.
Proof. apply ListIndeterminate_calm. Qed.
End properties.

(** ** Opening *)
Section opening.

(** The rows of a file; a missing table has none. *)
Definition conn_rows (c : Conn) : gmap string Intent * gmap string Applied :=
  (default ∅ (file_intents (conn_file c)), default ∅ (file_applied (conn_file c))).

(** A statement of [Open] keeps the rows, and foreign keys once on. *)
Definition open_le (c c' : Conn) : Prop :=
  conn_rows c' = conn_rows c /\
  (conn_foreign_keys c = true -> conn_foreign_keys c' = true).

Lemma Exec_cases sql effect c c' r :
  (forall c, open_le c (effect c)) -> Exec sql effect c = (c', r) ->
  open_le c c' /\
  (r = Ret tt /\ (exists c0, c' = effect c0) \/
   exists se, r = Throw (ShimErr se) /\ code_ se = ERROR_CODE_ENGINE_ERROR).
Proof.
  intros Heff. unfold Exec.
  destruct (conn_faults c) as [|[f|] fs]; cbn; intros [= <- <-].
  - split; [apply Heff|]. left. eauto.
  - split; [done|]. right. eexists. by split.
  - split; [apply (Heff (MkConn (conn_file c) (conn_foreign_keys c) fs))|]. left. eauto.
Qed.

Lemma open_le_trans c1 c2 c3 : open_le c1 c2 -> open_le c2 c3 -> open_le c1 c3.
Proof. intros [E1 F1] [E2 F2]. split; [congruence|auto]. Qed.

(** [m], run on a connection whose foreign keys are on if [fk], keeps the rows
    and yields what [P] says, or fails with an engine error. *)
Definition opens {A} (fk : bool) (m : Prog Conn A) (P : Conn -> A -> Prop) : Prop :=
  forall c c' r, (fk = true -> conn_foreign_keys c = true) -> m c = (c', r) ->
    open_le c c' /\
    match r with
    | Ret a => P c' a
    | Throw e => exists se, e = ShimErr se /\ code_ se = ERROR_CODE_ENGINE_ERROR
    | Died => False
    end.

Lemma opens_exec {A} fk fk' sql effect (k : Prog Conn A) P :
  (forall c, open_le c (effect c)) ->
  (fk' = true -> fk = true \/ forall c, conn_foreign_keys (effect c) = true) ->
  opens fk' k P -> opens fk (Exec sql effect ;;; k)%prog P.
Proof.
  intros Heff Hfk Hk c c' r Hc.
  intros [([] & c1 & H1 & H2)|[(e & H1 & ->)|[H1 ->]]]%bind_cases;
    apply (Exec_cases _ _ _ _ _ Heff) in H1 as [Hle Hr].
  - destruct Hr as [[_ [c0 Hc0]]|(se & ? & _)]; [|done].
    destruct (Hk c1 c' r) as [Hle' Hr']; [|done|].
    + intros E. destruct (Hfk E) as [->|Hon]; [by apply Hle, Hc|]. subst c1. apply Hon.
    + split; [by eapply open_le_trans|done].
  - split; [done|]. destruct Hr as [[? _]|(se & [= ->] & Hc')]; [done|]. by exists se.
  - by destruct Hr as [[? _]|(se & ? & _)].
Qed.

Lemma Open_opens path :
  opens false (Open path) (fun c j =>
    (intents j, applied j) = conn_rows c /\ foreign_keys j = true).
Proof.
  unfold Open.
  do 3 (apply (opens_exec false false); [done|auto|]).
  apply (opens_exec false true); [done|by right|].
  do 2 (apply (opens_exec true true); [done|auto|]).
  intros c c' r Hfk [= <- <-]. split; [done|]. cbn. by rewrite Hfk.
Qed.

(** Where no statement fails the journal opens and none of its own will. *)
Lemma Open_faultless path c c' r :
  Open path c = (c', r) -> conn_faults c = [] ->
  exists j, r = Ret j /\ faults j = [].
Proof.
  intros Hrun Hf. destruct c as [f fk fs]. cbn in Hf. subst fs.
  unfold Open, bind, Exec, gets in Hrun. cbn in Hrun.
  injection Hrun as <- <-. by eexists.
Qed.

(** Opening the journal loses nothing: whether it succeeds or fails at any
    statement, every row of a file that exists is still there; what is opened
    is exactly those rows, with foreign keys enforced; a failure is an engine
    error. *)
Theorem journal_open_keeps_rows path c c' r :
  Open path c = (c', r) ->
  conn_rows c' = conn_rows c /\
  match r with
  | Ret j => (intents j, applied j) = conn_rows c /\ foreign_keys j = true
  | Throw e => exists se, e = ShimErr se /\ code_ se = ERROR_CODE_ENGINE_ERROR
  | Died => False
  end.
Proof.
  intros Hrun. destruct (Open_opens path c c' r) as [[Hrows _] Hr]; [done..|].
  rewrite <- Hrows. split; [done|by destruct r].
Qed.
End opening.
