(* ===== verification/Mutation.v ===== *)
(** * The mutation protocol: [rpc/mutation.h], [rpc/mutation.cpp],
    [util/crash_point.h]

    [RunMutation] is the one path of every mutating RPC. It is a template over
    the response type and the callback [apply]; here it is a definition over
    the type [E] of engine states, the response type and [apply]. *)
From S2P Require Import Prelude.
From S2P Require Import Messages.
From S2P Require Import Errors.
From S2P Require Import Worker.
From S2P Require Import Journal.

(** ** [ValidateMutationId] *)
Definition kPattern : string := "xxxxxxxx-xxxx-xxxx-xxxx-xxxxxxxxxxxx".

(** [std::isxdigit] in the C locale. *)
Definition isxdigit (c : ascii) : bool :=
  let n := nat_of_ascii c in
  ((48 <=? n) && (n <=? 57)) || ((65 <=? n) && (n <=? 70)) ||
  ((97 <=? n) && (n <=? 102)).

(** The loop over the positions of [kPattern]. *)
Fixpoint matches_pattern (pattern id : string) : bool :=
  match pattern, id with
  | String p pattern', String c id' =>
      (if Ascii.eqb p "-" then Ascii.eqb c "-" else isxdigit c) &&
      matches_pattern pattern' id'
  | _, _ => true
  end.

Definition valid_mutation_id (mutation_id : string) : bool :=
  (String.length mutation_id =? String.length kPattern) &&
  matches_pattern kPattern mutation_id.

Definition bad_mutation_id (mutation_id : string) : ShimError :=
  MkShimError ERROR_CODE_INVALID_ARGUMENT "mutation_id must be a UUID"
    mutation_id.

Definition ValidateMutationId {S} (mutation_id : string) : Prog S unit :=
  if valid_mutation_id mutation_id then ret tt
  else throw (ShimErr (bad_mutation_id mutation_id)).

(** ** The world of a mutation

    The engine's state, the journal, the engine queue as the caller finds it,
    the clock, and the value of [DAICHOD_CRASH_AT]. *)
Record World (E : Type) := MkWorld {
  engine : E;
  journal : Journal;
  queue : EngineWorker unit;
  clock : Z;
  crash_at : option string;
}.
Arguments MkWorld {E}.
Arguments engine {E}.
Arguments journal {E}.
Arguments queue {E}.
Arguments clock {E}.
Arguments crash_at {E}.

Section run_mutation.
Context {E : Type} `{SqliteEnv} `{GrpcEnv} `{Proto Outcome}.
Local Open Scope prog_scope.

Definition set_engine (e : E) (w : World E) : World E :=
  MkWorld e (journal w) (queue w) (clock w) (crash_at w).
Definition set_journal (j : Journal) (w : World E) : World E :=
  MkWorld (engine w) j (queue w) (clock w) (crash_at w).

(** A journal call, and an engine call that cannot fail. *)
Definition in_journal {A} (m : Prog Journal A) : Prog (World E) A :=
  zoom journal set_journal m.
Definition in_engine (f : E -> E) : Prog (World E) unit :=
  modify (fun w => set_engine (f (engine w)) w).

(** [std::abort()] when the environment names this point. *)
Definition CrashPointMaybe (name : string) : Prog (World E) unit :=
  fun w =>
    if bool_decide (crash_at w = Some name) then (w, Died) else (w, Ret tt).

Section response.
Context {Resp : Type} `{Proto Resp}.

(** The [PendingRecorder] handed to [apply]; its argument is the response
    object at the time of the call. *)
Definition record_pending (mutation_id : string) (response : Resp) :
    Prog (World E) unit :=
  in_journal (RecordPending mutation_id (SerializeAsString response)) ;;;
  CrashPointMaybe "after_pending".

Definition Apply : Type :=
  Resp -> (Resp -> Prog (World E) unit) -> Prog (World E) Resp.

Definition ok_outcome (rpc : string) (response : Resp) : Outcome :=
  MkOutcome rpc true (SerializeAsString response) None.
Definition failed_outcome (rpc : string) (e : ShimError) : Outcome :=
  MkOutcome rpc false "" (Some (ToDetail e)).

(** Step 2: the recorded outcome is returned untouched. *)
Definition replay (rpc mutation_id : string) (o : Outcome) :
    Prog (World E) Resp :=
  if Outcome_ok o then
    match ParseFromString (A := Resp) (Outcome_response o) with
    | Some r => ret r
    | None =>
        throw_shim ERROR_CODE_ENGINE_ERROR
          ("journal: recorded outcome does not parse as " +:+ rpc +:+
           " response") mutation_id
    end
  else throw (ShimErr (ShimError_of_detail (Outcome_error_or_default o))).

(** Steps 3 and 4: run [apply] and record what it did. *)
Definition execute (rpc mutation_id : string) (now : Z) (response : Resp)
    (apply : Apply) : Prog (World E) Resp :=
  out <~ catch_shim
    (r <~ apply response (record_pending mutation_id) ;;
     CrashPointMaybe "after_apply" ;;;
     ret r)
    (fun shim_error =>
       (if IsDeterministicVerdict (code_ shim_error) then
          in_journal
            (RecordOutcome mutation_id (failed_outcome rpc shim_error) now)
        else ret tt) ;;;
       throw (ShimErr shim_error)) ;;
  in_journal (RecordOutcome mutation_id (ok_outcome rpc out) now) ;;;
  CrashPointMaybe "after_outcome" ;;;
  ret out.

(** The task run on the engine thread. *)
Definition mutation_body (mutation_id request_bytes rpc : string)
    (response : Resp) (apply : Apply) : Prog (World E) Resp :=
  ValidateMutationId mutation_id ;;;
  now <~ gets clock ;;
  in_journal (RecordIntent mutation_id rpc request_bytes now) ;;;
  CrashPointMaybe "after_intent" ;;;
  recorded <~ in_journal (GetOutcome mutation_id) ;;
  match recorded with
  | Some o => replay rpc mutation_id o
  | None => execute rpc mutation_id now response apply
  end.

Definition RunMutation (mutation_id request_bytes rpc : string)
    (response : Resp) (apply : Apply) :
    Prog (World E) (Status * option Resp) :=
  catch
    (r <~ (fun w =>
             Run (queue w)
               (mutation_body mutation_id request_bytes rpc response apply)
               w) ;;
     ret (Status_OK, Some r))
    (fun e => ret (StatusFromException e, None)).
End response.
End run_mutation.
Arguments Apply : clear implicits.

(** ** The shape of a mutation id *)
Fixpoint hex_run (n : nat) : string :=
  match n with 0 => "" | S n' => String "x" (hex_run n') end.

Lemma matches_hex_run n pattern id :
  n <= String.length id ->
  matches_pattern (hex_run n +:+ pattern) id =
    str_forallb isxdigit (stake n id) && matches_pattern pattern (sdrop n id).
Proof.
  revert id. induction n as [|n IH]; intros [|c id] Hn; cbn in *; try done;
    [lia|]. rewrite IH by lia. by rewrite andb_assoc.
Qed.

Lemma matches_hyphen pattern id :
  matches_pattern (String "-" pattern) id = true -> id <> "" ->
  exists id', id = String "-" id' /\ matches_pattern pattern id' = true.
Proof.
  destruct id as [|c id]; cbn; [done|].
  intros [Hc%Ascii.eqb_eq Hm]%andb_true_iff _. subst. eauto.
Qed.

(** A group of [n] hexadecimal digits. *)
Definition hex_group (n : nat) (s : string) : Prop :=
  String.length s = n /\ str_forallb isxdigit s = true.

Lemma take_group n k pattern id :
  String.length id = n + k ->
  matches_pattern (hex_run n +:+ pattern) id = true ->
  exists g id', id = g +:+ id' /\ hex_group n g /\ String.length id' = k /\
                matches_pattern pattern id' = true.
Proof.
  intros Hl Hm. rewrite matches_hex_run in Hm by lia.
  apply andb_true_iff in Hm as [Hg Hr].
  exists (stake n id), (sdrop n id). rewrite stake_sdrop, length_sdrop.
  repeat split; auto; [apply length_stake; lia|lia].
Qed.

Lemma take_hyphen_group n k pattern id :
  String.length id = S (n + k) ->
  matches_pattern (String "-" (hex_run n +:+ pattern)) id = true ->
  exists g id', id = String "-" (g +:+ id') /\ hex_group n g /\
                String.length id' = k /\ matches_pattern pattern id' = true.
Proof.
  intros Hl Hm. apply matches_hyphen in Hm as (id1 & -> & Hm); [|by intros ->].
  cbn in Hl. apply (take_group n k) in Hm as (g & id' & -> & ?); [|lia].
  eauto 10.
Qed.

Lemma matches_group n g pattern id :
  hex_group n g ->
  matches_pattern (hex_run n +:+ pattern) (g +:+ id) =
  matches_pattern pattern id.
Proof.
  intros [<- Hg]. rewrite matches_hex_run by (rewrite length_append; lia).
  by rewrite stake_append, sdrop_append, Hg.
Qed.

Lemma valid_mutation_id_iff id :
  valid_mutation_id id = true <->
  exists a b c d e,
    hex_group 8 a /\ hex_group 4 b /\ hex_group 4 c /\ hex_group 4 d /\
    hex_group 12 e /\
    id = a +:+ "-" +:+ b +:+ "-" +:+ c +:+ "-" +:+ d +:+ "-" +:+ e.
Proof.
  unfold valid_mutation_id.
  change kPattern with
    (hex_run 8 +:+ String "-" (hex_run 4 +:+ String "-" (hex_run 4 +:+
      String "-" (hex_run 4 +:+ String "-" (hex_run 12 +:+ ""))))).
  rewrite andb_true_iff, Nat.eqb_eq. split.
  - intros [Hl Hm]. cbn [String.length] in Hl.
    apply (take_group 8 28) in Hm as (a & id1 & -> & Ha & Hl1 & Hm); [|done].
    apply (take_hyphen_group 4 23) in Hm as (b & id2 & -> & Hb & Hl2 & Hm); [|done].
    apply (take_hyphen_group 4 18) in Hm as (c & id3 & -> & Hc & Hl3 & Hm); [|done].
    apply (take_hyphen_group 4 13) in Hm as (d & id4 & -> & Hd & Hl4 & Hm); [|done].
    apply (take_hyphen_group 12 0) in Hm as (e & id5 & -> & He & Hl5 & _); [|done].
    destruct id5; [|done]. rewrite append_nil_r.
    exists a, b, c, d, e. repeat (split; [done|]). done.
  - intros (a & b & c & d & e & Ha & Hb & Hc & Hd & He & ->). split.
    + rewrite !length_append. destruct Ha as [-> _], Hb as [-> _],
        Hc as [-> _], Hd as [-> _], He as [-> _]. done.
    + rewrite (matches_group 8) by done. cbn [String.append matches_pattern].
      rewrite (matches_group 4) by done. cbn [String.append matches_pattern].
      rewrite (matches_group 4) by done. cbn [String.append matches_pattern].
      rewrite (matches_group 4) by done. cbn [String.append matches_pattern].
      rewrite <- (append_nil_r e), (matches_group 12) by done. done.
Qed.

Lemma isxdigit_not_nul c : isxdigit c = true -> negb (Ascii.eqb c NUL) = true.
Proof.
  intros Hc. apply negb_true_iff. destruct (Ascii.eqb_spec c NUL) as [->|]; done.
Qed.

Lemma valid_id_no_nul id : valid_mutation_id id = true -> str_free NUL id = true.
Proof.
  intros (a & b & c & d & e & [_ Ha] & [_ Hb] & [_ Hc] & [_ Hd] & [_ He] & ->)
    %valid_mutation_id_iff.
  rewrite !str_free_append. unfold str_free.
  pose proof (fun s => str_forallb_impl isxdigit _ s isxdigit_not_nul) as Hx.
  rewrite (Hx a), (Hx b), (Hx c), (Hx d), (Hx e) by done. done.
Qed.

(** ** Symbolic execution of the protocol *)
Section exec.
Context {E : Type} `{SqliteEnv} `{GrpcEnv} `{Proto Outcome}.
Implicit Types (w : World E) (j : Journal).

(** No I/O failure is scheduled, and the queue takes the task. *)
Record ready (w : World E) : Prop := {
  ready_faults : faults (journal w) = [];
  ready_running : stopping_ (queue w) = false;
  ready_depth : length (queue_ (queue w)) < max_depth_ (queue w);
}.

Lemma in_journal_eq {A} (m : Prog Journal A) w j r :
  m (journal w) = (j, r) -> in_journal m w = (set_journal j w, r).
Proof. intros Hm. unfold in_journal, zoom. by rewrite Hm. Qed.

Lemma set_journal_id w : set_journal (journal w) w = w.
Proof. by destruct w. Qed.

Lemma in_journal_query {A} (m : Prog Journal A) w r :
  m (journal w) = (journal w, r) -> in_journal m w = (w, r).
Proof. intros Hm. by rewrite (in_journal_eq _ _ _ _ Hm), set_journal_id. Qed.

Lemma set_engine_id w : set_engine (engine w) w = w.
Proof. by destruct w. Qed.

Lemma crash_pass name w :
  crash_at w <> Some name -> CrashPointMaybe name w = (w, Ret tt).
Proof. intros Hn. unfold CrashPointMaybe. by rewrite bool_decide_eq_false_2. Qed.

Lemma crash_here name w :
  crash_at w = Some name -> CrashPointMaybe name w = (w, Died).
Proof. intros Hn. unfold CrashPointMaybe. by rewrite bool_decide_eq_true_2. Qed.

Lemma Run_admitted {S A} (q : EngineWorker unit) (fn : Prog S A) s :
  stopping_ q = false -> length (queue_ q) < max_depth_ q -> Run q fn s = fn s.
Proof.
  intros Hs Hd. unfold Run, Enqueue. rewrite Hs.
  by rewrite (proj2 (Nat.leb_gt _ _)).
Qed.

(** The journal after step 1. *)
Definition with_intent (id rpc bytes : string) (now : Z) (j : Journal) :
    Journal :=
  match intents j !! id with
  | Some _ => j
  | None =>
      set_intents
        (<[id := MkIntent rpc bytes (Sha256 bytes) now None]> (intents j)) j
  end.

Lemma with_intent_applied id rpc bytes now j :
  applied (with_intent id rpc bytes now j) = applied j.
Proof. unfold with_intent. by destruct (intents j !! id). Qed.

Lemma with_intent_faults id rpc bytes now j :
  faults (with_intent id rpc bytes now j) = faults j.
Proof. unfold with_intent. by destruct (intents j !! id). Qed.

Lemma with_intent_has id rpc bytes now j :
  is_Some (intents (with_intent id rpc bytes now j) !! id).
Proof.
  unfold with_intent. destruct (intents j !! id) eqn:Hi; cbn; [eauto|].
  rewrite lookup_insert_eq. eauto.
Qed.

Lemma with_intent_other id id' rpc bytes now j :
  id <> id' ->
  intents (with_intent id rpc bytes now j) !! id' = intents j !! id'.
Proof.
  intros Hne. unfold with_intent. destruct (intents j !! id); [done|].
  cbn. by rewrite lookup_insert_ne.
Qed.

Lemma RecordIntent_calm id rpc bytes now j :
  faults j = [] ->
  RecordIntent id rpc bytes now j = (with_intent id rpc bytes now j, Ret tt).
Proof.
  intros Hf. unfold with_intent. destruct (intents j !! id) eqn:Hi.
  - by eapply RecordIntent_existing.
  - by apply RecordIntent_new.
Qed.

Section response.
Context {Resp : Type} `{Proto Resp}.
Implicit Types (apply : Apply E Resp).

Lemma RunMutation_eq id bytes rpc resp0 apply w :
  ready w ->
  RunMutation id bytes rpc resp0 apply w =
    match mutation_body id bytes rpc resp0 apply w with
    | (w', Ret r) => (w', Ret (Status_OK, Some r))
    | (w', Throw e) => (w', Ret (StatusFromException e, None))
    | (w', Died) => (w', Died)
    end.
Proof.
  intros [_ Hs Hd]. unfold RunMutation, catch, bind.
  rewrite Run_admitted by done.
  by destruct (mutation_body _ _ _ _ _ w) as [w' [r|e|]].
Qed.

Lemma mutation_body_eq id bytes rpc resp0 apply w :
  valid_mutation_id id = true -> faults (journal w) = [] ->
  crash_at w <> Some "after_intent" ->
  mutation_body id bytes rpc resp0 apply w =
    let w1 := set_journal
                (with_intent id rpc bytes (clock w) (journal w)) w in
    match applied (journal w) !! id with
    | None => execute rpc id (clock w) resp0 apply w1
    | Some row =>
        match ParseFromString (outcome row) with
        | Some o => replay rpc id o w1
        | None =>
            (w1, Throw (ShimErr (MkShimError ERROR_CODE_ENGINE_ERROR
                   "journal: corrupt outcome record" id)))
        end
    end.
Proof.
  intros Hv Hf Hc. unfold mutation_body, ValidateMutationId. rewrite Hv.
  erewrite bind_ret_eq by done. erewrite bind_ret_eq by done.
  erewrite bind_ret_eq by (by apply in_journal_eq, RecordIntent_calm).
  erewrite bind_ret_eq by (by apply crash_pass).
  set (w1 := set_journal _ w). cbv zeta.
  assert (faults (journal w1) = []) as Hf1 by
    (cbn; by rewrite with_intent_faults).
  assert (applied (journal w1) = applied (journal w)) as Ha1 by
    (cbn; by rewrite with_intent_applied).
  pose proof (GetOutcome_calm id (journal w1) Hf1) as Hg.
  rewrite Ha1 in Hg.
  destruct (applied (journal w) !! id) as [row|].
  - destruct (ParseFromString (outcome row)) as [o|].
    + by erewrite bind_ret_eq by (by apply in_journal_query).
    + by erewrite bind_throw_eq by (by apply in_journal_query).
  - by erewrite bind_ret_eq by (by apply in_journal_query).
Qed.
End response.
End exec.

(** ** Handlers

    Every [apply] of the daemon has one shape: validate and build the response
    without a durable effect, call [record_pending], commit the engine edit.
    A [Plan] is that shape: from the clock and the engine's state, a refusal,
    or the response, the engine with the edit open, and the engine with the
    edit committed. [Hang] is a handler that loops for ever before it has an
    effect; to the client and to the books it is a death. *)
Inductive PlanResult (E Resp : Type) : Type :=
| Refuse (e : ShimError)
| Hang
| Proceed (out : Resp) (e_open e_committed : E).
Arguments Refuse {E Resp}.
Arguments Hang {E Resp}.
Arguments Proceed {E Resp}.

Definition Plan (E Resp : Type) : Type := Z -> E -> PlanResult E Resp.

Section handlers.
Context {E : Type} `{SqliteEnv} `{GrpcEnv} `{Proto Outcome}.
Context {Resp : Type} `{Proto Resp}.
Implicit Types (w : World E) (plan : Plan E Resp) (apply : Apply E Resp).

Definition handler_of plan : Apply E Resp :=
  fun _ rec w =>
    match plan (clock w) (engine w) with
    | Refuse e => (w, Throw (ShimErr e))
  | Hang => (w, Died)
    | Proceed out e_open e_committed =>
        (rec out ;;; in_engine (fun _ => e_committed) ;;; ret out)%prog
          (set_engine e_open w)
    end.

Definition conforms apply plan : Prop :=
  forall id resp w,
    apply resp (record_pending id) w =
    handler_of plan resp (record_pending id) w.

Definition with_pending (id bytes : string) (j : Journal) : Journal :=
  set_intents (alter (set_pending (Some bytes)) id (intents j)) j.
Definition with_outcome (id : string) (o : Outcome) (now : Z) (j : Journal) :
    Journal :=
  set_applied (<[id := MkApplied (SerializeAsString o) now]> (applied j)) j.

Definition on_journal (f : Journal -> Journal) w : World E :=
  set_journal (f (journal w)) w.

(** What [execute] does with a conforming handler when no journal statement
    fails: one line per place the process can die. *)
Definition execute_spec (rpc id : string) (now : Z) plan w :
    World E * res exn Resp :=
  match plan (clock w) (engine w) with
  | Hang => (w, Died)
  | Refuse e =>
      (if IsDeterministicVerdict (code_ e)
       then on_journal (with_outcome id (failed_outcome rpc e) now) w
       else w, Throw (ShimErr e))
  | Proceed out e_open e_committed =>
      let wp := on_journal (with_pending id (SerializeAsString out))
                  (set_engine e_open w) in
      if bool_decide (crash_at w = Some "after_pending") then (wp, Died)
      else
        let wc := set_engine e_committed wp in
        if bool_decide (crash_at w = Some "after_apply") then (wc, Died)
        else
          let wo := on_journal (with_outcome id (ok_outcome rpc out) now) wc in
          if bool_decide (crash_at w = Some "after_outcome") then (wo, Died)
          else (wo, Ret out)
  end.

Lemma record_outcome_world id o now w :
  faults (journal w) = [] -> applied (journal w) !! id = None ->
  is_Some (intents (journal w) !! id) ->
  in_journal (RecordOutcome id o now) w =
    (on_journal (with_outcome id o now) w, Ret tt).
Proof. intros Hf Ha Hi. apply in_journal_eq. by apply RecordOutcome_fresh. Qed.

Lemma record_pending_world id resp w :
  faults (journal w) = [] ->
  record_pending id resp w =
    CrashPointMaybe "after_pending"
      (on_journal (with_pending id (SerializeAsString resp)) w).
Proof.
  intros Hf. unfold record_pending.
  by erewrite bind_ret_eq by (by apply in_journal_eq, RecordPending_calm).
Qed.

Lemma with_pending_has id id' bytes j :
  is_Some (intents (with_pending id bytes j) !! id') <->
  is_Some (intents j !! id').
Proof.
  cbn. rewrite lookup_alter. case_decide; subst; [|done].
  by rewrite fmap_is_Some.
Qed.

Lemma execute_conforms rpc id now resp apply plan w :
  conforms apply plan ->
  faults (journal w) = [] -> applied (journal w) !! id = None ->
  is_Some (intents (journal w) !! id) ->
  execute rpc id now resp apply w = execute_spec rpc id now plan w.
Proof.
  intros Hc Hf Ha Hi. unfold execute, execute_spec, catch_shim, catch, bind.
  rewrite Hc. unfold handler_of.
  destruct (plan (clock w) (engine w)) as [e| |out eo ec].
  - destruct (IsDeterministicVerdict (code_ e)); [|done].
    by rewrite record_outcome_world.
  - done.
  - unfold bind. rewrite record_pending_world by done.
    unfold CrashPointMaybe at 1. cbn.
    case_bool_decide as Hp; [done|]. cbn.
    unfold CrashPointMaybe at 1. cbn.
    case_bool_decide as Hq; [done|]. cbn.
    rewrite record_outcome_world; cbn; [|done..|by apply with_pending_has].
    unfold CrashPointMaybe. cbn. by case_bool_decide.
Qed.
End handlers.
Arguments Plan : clear implicits.

(** ** The whole protocol on a conforming handler *)
Section spec.
Context {E : Type} `{SqliteEnv} `{GrpcEnv} `{Proto Outcome}.
Context {Resp : Type} `{Proto Resp}.
Implicit Types (w : World E) (plan : Plan E Resp) (apply : Apply E Resp).

Definition corrupt_outcome (id : string) : exn :=
  ShimErr (MkShimError ERROR_CODE_ENGINE_ERROR
    "journal: corrupt outcome record" id).

(** Answering from the [applied] table; [None] when it has no row. *)
Definition replay_spec (rpc id : string) (j : Journal) :
    option (res exn Resp) :=
  row ← applied j !! id;
  Some (match ParseFromString (A := Outcome) (outcome row) with
        | None => Throw (corrupt_outcome id)
        | Some o => (replay (E := unit) rpc id o
                       (MkWorld tt j (new_EngineWorker 0) 0%Z None)).2
        end).

Lemma replay_world rpc id o w :
  replay rpc id o w =
    (w, (replay (E := unit) (Resp := Resp) rpc id o
           (MkWorld tt (journal w) (new_EngineWorker 0) 0%Z None)).2).
Proof.
  unfold replay. destruct (Outcome_ok o); [|done].
  by destruct (ParseFromString _).
Qed.

Lemma replay_spec_applied rpc id j j' :
  applied j !! id = applied j' !! id ->
  replay_spec rpc id j = replay_spec rpc id j'.
Proof.
  unfold replay_spec. intros ->. destruct (applied j' !! id) as [row|]; cbn;
    [|done]. destruct (ParseFromString (outcome row)) as [o|]; [|done].
  unfold replay. destruct (Outcome_ok o); [|done].
  by destruct (ParseFromString _).
Qed.

(** What the client is told. *)
Definition reply (r : res exn Resp) : res exn (Status * option Resp) :=
  match r with
  | Ret out => Ret (Status_OK, Some out)
  | Throw e => Ret (StatusFromException e, None)
  | Died => Died
  end.

Definition run_spec (id bytes rpc : string) plan w :
    World E * res exn (Status * option Resp) :=
  let w1 := on_journal (with_intent id rpc bytes (clock w)) w in
  if bool_decide (crash_at w = Some "after_intent") then (w1, Died)
  else
    match replay_spec rpc id (journal w) with
    | Some r => (w1, reply r)
    | None =>
        let '(w2, r) := execute_spec rpc id (clock w) plan w1 in (w2, reply r)
    end.

Lemma RunMutation_spec id bytes rpc resp apply plan w :
  conforms apply plan -> ready w -> valid_mutation_id id = true ->
  RunMutation id bytes rpc resp apply w = run_spec id bytes rpc plan w.
Proof.
  intros Hc Hr Hv. rewrite RunMutation_eq by done. unfold run_spec.
  pose proof (ready_faults _ Hr) as Hf.
  case_bool_decide as Hi.
  { unfold mutation_body, ValidateMutationId. rewrite Hv.
    erewrite bind_ret_eq by done. erewrite bind_ret_eq by done.
    erewrite bind_ret_eq by (by apply in_journal_eq, RecordIntent_calm).
    by erewrite bind_died_eq by (by apply crash_here). }
  rewrite mutation_body_eq by done. cbv zeta.
  unfold replay_spec. destruct (applied (journal w) !! id) as [row|] eqn:Ha; cbn.
  - destruct (ParseFromString (outcome row)) as [o|]; [|done].
    rewrite replay_world. unfold replay. destruct (Outcome_ok o); [|done].
    by destruct (ParseFromString _).
  - erewrite execute_conforms; [|done|..].
    + destruct (execute_spec _ _ _ _ _) as [w2 [r|e|]]; done.
    + cbn. by rewrite with_intent_faults.
    + cbn. by rewrite with_intent_applied.
    + apply with_intent_has.
Qed.

(** Any world whose journal statements succeed: the request is turned away
    before it is journaled, or the protocol runs. *)
Lemma RunMutation_dispatch id bytes rpc resp apply plan w :
  conforms apply plan -> faults (journal w) = [] ->
  (exists e,
     (e = QueueFullError \/ e = WorkerStoppedError \/
      e = ShimErr (bad_mutation_id id)) /\
     RunMutation id bytes rpc resp apply w =
       (w, Ret (StatusFromException e, None))) \/
  (valid_mutation_id id = true /\
   RunMutation id bytes rpc resp apply w = run_spec id bytes rpc plan w).
Proof.
  intros Hc Hf. destruct (Enqueue tt (queue w)) as [e|q] eqn:Hq.
  - left. exists e. split.
    + unfold Enqueue in Hq. destruct (stopping_ _); [naive_solver|].
      destruct (_ <=? _); naive_solver.
    + unfold RunMutation, catch, bind, Run. by rewrite Hq.
  - assert (ready w) as Hr.
    { split; [done|..]; unfold Enqueue in Hq; destruct (stopping_ _); try done;
        destruct (_ <=? _) eqn:Hd; try done. by apply Nat.leb_gt. }
    destruct (valid_mutation_id id) eqn:Hv.
    + right. split; [done|]. by apply RunMutation_spec.
    + left. exists (ShimErr (bad_mutation_id id)). split; [auto|].
      rewrite RunMutation_eq by done. unfold mutation_body, ValidateMutationId.
      by rewrite Hv.
Qed.

(** The ways a run can go, by where it stops. [w] is the world after
    step 1. *)
Inductive run_case (id rpc : string) (now : Z) plan w :
    World E -> res exn (Status * option Resp) -> Prop :=
| case_intent_only : run_case id rpc now plan w w Died
| case_replayed r :
    replay_spec rpc id (journal w) = Some r ->
    run_case id rpc now plan w w (reply r)
| case_verdict e :
    applied (journal w) !! id = None -> plan now (engine w) = Refuse e ->
    IsDeterministicVerdict (code_ e) = true ->
    run_case id rpc now plan w
      (on_journal (with_outcome id (failed_outcome rpc e) now) w)
      (Ret (ToStatus e, None))
| case_transient e :
    applied (journal w) !! id = None -> plan now (engine w) = Refuse e ->
    IsDeterministicVerdict (code_ e) = false ->
    run_case id rpc now plan w w (Ret (ToStatus e, None))
| case_unresolved out eo ec x :
    applied (journal w) !! id = None ->
    plan now (engine w) = Proceed out eo ec -> x = eo \/ x = ec ->
    run_case id rpc now plan w
      (on_journal (with_pending id (SerializeAsString out)) (set_engine x w))
      Died
| case_applied out eo ec r :
    applied (journal w) !! id = None ->
    plan now (engine w) = Proceed out eo ec ->
    r = Died \/ r = Ret (Status_OK, Some out) ->
    run_case id rpc now plan w
      (on_journal (with_outcome id (ok_outcome rpc out) now)
         (on_journal (with_pending id (SerializeAsString out))
            (set_engine ec w))) r.

Lemma run_spec_cases id bytes rpc plan w w' r :
  run_spec id bytes rpc plan w = (w', r) ->
  run_case id rpc (clock w) plan
    (on_journal (with_intent id rpc bytes (clock w)) w) w' r.
Proof.
  unfold run_spec. set (w1 := on_journal _ w).
  case_bool_decide; [intros [= <- <-]; constructor|].
  assert (replay_spec rpc id (journal w) =
          replay_spec rpc id (journal w1)) as ->.
  { apply replay_spec_applied. symmetry. cbn. by rewrite with_intent_applied. }
  destruct (replay_spec rpc id (journal w1)) as [r0|] eqn:Hrep.
  { intros [= <- <-]. by constructor. }
  assert (applied (journal w1) !! id = None) as Hn.
  { unfold replay_spec in Hrep. by destruct (applied (journal w1) !! id). }
  destruct (execute_spec _ _ _ _ _) as [w2 r2] eqn:He. intros [= <- <-].
  unfold execute_spec in He. change (clock w1) with (clock w) in He.
  destruct (plan (clock w) (engine w1)) as [e| |out eo ec] eqn:Hp.
  - destruct (IsDeterministicVerdict (code_ e)) eqn:Hd; injection He as <- <-.
    + by apply case_verdict.
    + by apply case_transient.
  - injection He as <- <-. constructor.
  - repeat case_bool_decide; injection He as <- <-.
    + eapply case_unresolved; eauto.
    + apply (case_unresolved id rpc (clock w) plan w1 out eo ec ec); auto.
    + eapply case_applied; eauto.
    + eapply case_applied; eauto.
Qed.

Lemma run_spec_ready id bytes rpc plan w w' r :
  run_spec id bytes rpc plan w = (w', r) ->
  ready w -> ready w' /\ crash_at w' = crash_at w.
Proof.
  intros Hrun [Hf Hs Hd]. unfold run_spec in Hrun.
  assert (forall w0 : World E,
            faults (journal w0) = [] /\ queue w0 = queue w /\
            crash_at w0 = crash_at w ->
            ready w0 /\ crash_at w0 = crash_at w) as Hok.
  { intros w0 (? & Hq & ?). split; [split; by rewrite ?Hq|done]. }
  apply Hok. clear Hok.
  assert (faults (with_intent id rpc bytes (clock w) (journal w)) = []) as Hi.
  { by rewrite with_intent_faults. }
  case_bool_decide; [by injection Hrun as <- _|].
  destruct (replay_spec rpc id (journal w)); [by injection Hrun as <- _|].
  destruct (execute_spec _ _ _ _ _) as [w2 r2] eqn:He.
  injection Hrun as <- _. unfold execute_spec in He. cbn in He.
  destruct (plan _ _) as [e| |out eo ec].
  - destruct (IsDeterministicVerdict _); by injection He as <- _.
  - by injection He as <- _.
  - repeat case_bool_decide; by injection He as <- _.
Qed.

(** A run that ends with a recorded outcome leaves behind exactly the reply
    it gave. *)
Lemma run_spec_recorded `{!ProtoOk Outcome} `{!ProtoOk Resp}
    id bytes rpc plan w w1 r :
  run_spec id bytes rpc plan w = (w1, r) -> r <> Died ->
  is_Some (applied (journal w1) !! id) ->
  exists out, replay_spec rpc id (journal w1) = Some out /\ r = reply out.
Proof.
  intros Hrun Hr Ha. unfold run_spec in Hrun.
  case_bool_decide; [by injection Hrun as <- <-|].
  destruct (replay_spec rpc id (journal w)) as [out|] eqn:Hrep.
  - injection Hrun as <- <-. exists out. split; [|done]. rewrite <- Hrep.
    apply replay_spec_applied. cbn. by rewrite with_intent_applied.
  - assert (applied (journal w) !! id = None) as Hn.
    { unfold replay_spec in Hrep. by destruct (applied (journal w) !! id). }
    destruct (execute_spec _ _ _ _ _) as [w2 r2] eqn:He.
    injection Hrun as <- <-. exists r2. split; [|done].
    unfold execute_spec in He. cbn in He.
    destruct (plan _ _) as [e| |out eo ec].
    + destruct (IsDeterministicVerdict _); injection He as <- <-.
      * unfold replay_spec. cbn. rewrite lookup_insert_eq. cbn.
        rewrite parse_serialize. cbn. unfold replay. cbn.
        unfold Outcome_error_or_default. cbn. by rewrite ShimError_of_to_detail.
      * cbn in Ha. rewrite with_intent_applied, Hn in Ha. by destruct Ha.
    + by injection He as <- <-.
    + repeat case_bool_decide; injection He as <- <-; try done.
      unfold replay_spec. cbn. rewrite lookup_insert_eq. cbn.
      rewrite parse_serialize. cbn. unfold replay. cbn.
      by rewrite parse_serialize.
Qed.
End spec.

Section properties.
Context {E : Type} `{SqliteEnv} `{GrpcEnv} `{Proto Outcome}.
Context {Resp : Type} `{Proto Resp}.
Implicit Types (w : World E) (plan : Plan E Resp) (apply : Apply E Resp).

Lemma run_spec_has_intent id bytes rpc plan w w1 r :
  run_spec id bytes rpc plan w = (w1, r) ->
  is_Some (intents (journal w1) !! id).
Proof.
  intros Hrun. unfold run_spec in Hrun.
  pose proof (with_intent_has id rpc bytes (clock w) (journal w)) as Hi.
  case_bool_decide; [by injection Hrun as <- _|].
  destruct (replay_spec rpc id (journal w)); [by injection Hrun as <- _|].
  destruct (execute_spec _ _ _ _ _) as [w2 r2] eqn:He.
  injection Hrun as <- _. unfold execute_spec in He. cbn in He.
  destruct (plan _ _) as [e| |out eo ec].
  - destruct (IsDeterministicVerdict _); by injection He as <- _.
  - by injection He as <- _.
  - repeat case_bool_decide; injection He as <- _; by apply with_pending_has.
Qed.

Lemma on_journal_known_intent id rpc bytes now w :
  is_Some (intents (journal w) !! id) ->
  on_journal (with_intent id rpc bytes now) w = w.
Proof.
  intros [i Hi]. unfold on_journal, with_intent. rewrite Hi.
  apply set_journal_id.
Qed.

Lemma run_spec_replay id bytes rpc plan w out :
  is_Some (intents (journal w) !! id) ->
  crash_at w <> Some "after_intent" ->
  replay_spec rpc id (journal w) = Some out ->
  run_spec id bytes rpc plan w = (w, reply out).
Proof.
  intros Hi Hc Hr. unfold run_spec.
  rewrite bool_decide_eq_false_2, Hr by done.
  by rewrite on_journal_known_intent.
Qed.

Lemma run_spec_crash_free id bytes rpc plan w w1 r :
  run_spec id bytes rpc plan w = (w1, r) -> r <> Died ->
  crash_at w <> Some "after_intent".
Proof.
  intros Hrun Hr Hc. unfold run_spec in Hrun.
  rewrite bool_decide_eq_true_2 in Hrun by done. by injection Hrun as _ <-.
Qed.

(** The id check accepts exactly the 8-4-4-4-12 hexadecimal form, and such
    an id is stored and read back through SQLite's C strings unchanged. *)
Theorem validate_mutation_id_exact (id : string) {S : Type} (s : S) :
  ValidateMutationId id s =
    (s, if valid_mutation_id id then Ret tt
        else Throw (ShimErr (bad_mutation_id id))) /\
  (valid_mutation_id id = true <->
     exists a b c d e,
       hex_group 8 a /\ hex_group 4 b /\ hex_group 4 c /\ hex_group 4 d /\
       hex_group 12 e /\
       id = a +:+ "-" +:+ b +:+ "-" +:+ c +:+ "-" +:+ d +:+ "-" +:+ e) /\
  (valid_mutation_id id = true -> c_str id = id).
Proof.
  split; [|split].
  - unfold ValidateMutationId. by destruct (valid_mutation_id id).
  - apply valid_mutation_id_iff.
  - intros Hv. by apply c_str_id, valid_id_no_nul.
Qed.

(** A malformed id changes nothing at all and is never journaled, whatever
    the handler would have done. *)
Theorem invalid_id_never_journaled id bytes rpc resp apply w :
  valid_mutation_id id = false ->
  exists e,
    RunMutation id bytes rpc resp apply w =
      (w, Ret (StatusFromException e, None)) /\
    (ready w -> e = ShimErr (bad_mutation_id id)).
Proof.
  intros Hv. unfold RunMutation, catch, bind, Run.
  destruct (Enqueue tt (queue w)) as [e|q] eqn:Hq.
  - exists e. split; [done|]. intros [_ Hs Hd].
    unfold Enqueue in Hq. by rewrite Hs, (proj2 (Nat.leb_gt _ _)) in Hq.
  - exists (ShimErr (bad_mutation_id id)).
    unfold mutation_body, ValidateMutationId. by rewrite Hv.
Qed.

(** C15: Idempotence, on a ready world: once a run has returned and left a recorded
    outcome, success or verdict, sending the same id to the same RPC again - even
    with another payload and another handler - changes nothing and returns the
    identical reply. *)
Theorem resend_identical `{!ProtoOk Outcome} `{!ProtoOk Resp}
    id bytes rpc resp apply plan w w1 r :
  conforms apply plan -> ready w -> valid_mutation_id id = true ->
  RunMutation id bytes rpc resp apply w = (w1, Ret r) ->
  is_Some (applied (journal w1) !! id) ->
  forall bytes' resp' apply' plan',
    conforms apply' plan' ->
    RunMutation id bytes' rpc resp' apply' w1 = (w1, Ret r).
Proof.
  intros Hc Hr Hv Hrun Ha bytes' resp' apply' plan' Hc'.
  rewrite (RunMutation_spec _ _ _ _ _ plan) in Hrun by done.
  destruct (run_spec_ready _ _ _ _ _ _ _ Hrun Hr) as [Hr1 Hcr].
  rewrite (RunMutation_spec _ _ _ _ _ plan') by done.
  destruct (run_spec_recorded _ _ _ _ _ _ _ Hrun) as (out & Hrep & Ho); try done.
  rewrite Ho. apply run_spec_replay; [|rewrite Hcr|done].
  - by eapply run_spec_has_intent.
  - by eapply run_spec_crash_free.
Qed.

(** C16: Which results are recorded, on a ready world: a first run that returns leaves
    an outcome row exactly when the handler succeeded or refused with a
    deterministic verdict; an environmental refusal leaves the engine and every
    outcome untouched, so the retry executes the handler again. *)
Theorem only_verdicts_recorded id bytes rpc resp apply plan w w1 r :
  conforms apply plan -> ready w -> valid_mutation_id id = true ->
  applied (journal w) !! id = None ->
  RunMutation id bytes rpc resp apply w = (w1, Ret r) ->
  match plan (clock w) (engine w) with
  | Proceed out _ e_committed =>
      r = (Status_OK, Some out) /\ engine w1 = e_committed /\
      is_Some (applied (journal w1) !! id)
  | Hang => False
  | Refuse e =>
      r = (ToStatus e, None) /\ engine w1 = engine w /\
      (IsDeterministicVerdict (code_ e) = true ->
         is_Some (applied (journal w1) !! id)) /\
      (IsDeterministicVerdict (code_ e) = false ->
         applied (journal w1) = applied (journal w) /\
         forall w2 out eo ec,
           journal w2 = journal w1 -> ready w2 -> crash_at w2 = None ->
           plan (clock w2) (engine w2) = Proceed out eo ec ->
           exists w3,
             RunMutation id bytes rpc resp apply w2 =
               (w3, Ret (Status_OK, Some out)) /\ engine w3 = ec)
  end.
Proof.
  intros Hc Hr Hv Hn Hrun. rewrite (RunMutation_spec _ _ _ _ _ plan) in Hrun by done.
  assert (forall j, applied j !! id = None -> replay_spec (Resp := Resp) rpc id j = None)
    as Hno. { intros j Hj. unfold replay_spec. by rewrite Hj. }
  unfold run_spec in Hrun. case_bool_decide; [done|].
  rewrite Hno in Hrun by done.
  destruct (execute_spec _ _ _ _ _) as [w' r'] eqn:He. injection Hrun as -> Hr'.
  unfold execute_spec in He. cbn in He.
  destruct (plan (clock w) (engine w)) as [e| |out eo ec].
  - destruct (IsDeterministicVerdict (code_ e)) eqn:Hd;
      injection He as <- <-; injection Hr' as <-; cbn.
    + repeat split; try done. rewrite lookup_insert_eq. eauto.
    + split_and!; try done. intros _. split; [apply with_intent_applied|].
      intros w2 out eo ec Hj Hr2 Hc2 Hp.
      rewrite (RunMutation_spec _ _ _ _ _ plan) by done.
      unfold run_spec. rewrite bool_decide_eq_false_2 by (by rewrite Hc2).
      rewrite Hno by (by rewrite Hj, with_intent_applied).
      unfold execute_spec. cbn. rewrite Hp, Hc2. cbn. eauto.
  - by injection He as <- <-.
  - repeat case_bool_decide; injection He as <- <-; try done.
    injection Hr' as <-. cbn. rewrite lookup_insert_eq. eauto.
Qed.
End properties.

(** ** Journal invariants across a run, whatever fails and wherever it dies *)
Section invariants.
Context {E : Type} `{SqliteEnv} `{GrpcEnv} `{Proto Outcome}.
Context {Resp : Type} `{Proto Resp}.
Context (R : Journal -> Journal -> Prop) `{!PreOrder R} `{!IgnoresFaults R}.

Local Abbreviation journal_preserves m :=
  (preserves (fun w w' => R (journal w) (journal w')) m).

Lemma in_journal_preserves {A} (m : Prog Journal A) :
  preserves R m -> journal_preserves (in_journal (E := E) m).
Proof. apply preserves_zoom. done. Qed.

Lemma crash_preserves name : journal_preserves (CrashPointMaybe (E := E) name).
Proof.
  intros w w' r. unfold CrashPointMaybe. case_bool_decide; by intros [= <- _].
Qed.

Lemma in_engine_preserves (f : E -> E) : journal_preserves (in_engine f).
Proof. intros w w' r [= <- _]. cbn. reflexivity. Qed.

Lemma validate_preserves id : journal_preserves (ValidateMutationId (S := World E) id).
Proof.
  intros w w' r. unfold ValidateMutationId. destruct (valid_mutation_id id); by intros [= <- _].
Qed.

Lemma replay_preserves rpc id o :
  journal_preserves (replay (E := E) (Resp := Resp) rpc id o).
Proof.
  intros w w' r. rewrite replay_world. by intros [= <- _].
Qed.
#[local] Hint Resolve in_journal_preserves crash_preserves in_engine_preserves
  validate_preserves replay_preserves : preserves.

Lemma record_pending_preserves id (resp : Resp) :
  preserves R (RecordPending id (SerializeAsString resp)) ->
  journal_preserves (record_pending (E := E) id resp).
Proof. intros Hp. unfold record_pending. preserving. Qed.
#[local] Hint Resolve record_pending_preserves : preserves.

Lemma handler_preserves (plan : Plan E Resp) id resp :
  (forall bytes, preserves R (RecordPending id bytes)) ->
  journal_preserves (handler_of plan resp (record_pending id)).
Proof.
  intros Hp w w' r Hrun. unfold handler_of in Hrun.
  destruct (plan _ _) as [e| |out eo ec];
    [by injection Hrun as <- _|by injection Hrun as <- _|].
  change (journal w) with (journal (set_engine eo w)).
  eapply (fun H => H : journal_preserves _); [|exact Hrun]. preserving.
Qed.

Context (id : string).
Context (Hintent : forall rpc p now, preserves R (RecordIntent id rpc p now)).
Context (Hpending : forall bytes, preserves R (RecordPending id bytes)).
Context (Houtcome : forall o now, preserves R (RecordOutcome id o now)).

Lemma execute_preserves rpc now resp (apply : Apply E Resp) plan :
  conforms apply plan -> journal_preserves (execute rpc id now resp apply).
Proof.
  intros Hc. unfold execute, catch_shim. preserving.
  intros w w' r. rewrite Hc. by apply handler_preserves.
Qed.

Lemma mutation_body_preserves bytes rpc resp (apply : Apply E Resp) plan :
  conforms apply plan -> journal_preserves (mutation_body id bytes rpc resp apply).
Proof.
  intros Hc. unfold mutation_body. preserving.
  - by apply in_journal_preserves, GetOutcome_preserves.
  - by eapply execute_preserves.
Qed.

Lemma RunMutation_preserves bytes rpc resp (apply : Apply E Resp) plan :
  conforms apply plan -> journal_preserves (RunMutation id bytes rpc resp apply).
Proof.
  intros Hc. unfold RunMutation. preserving.
  intros w w' r. unfold Run. destruct (Enqueue _ _) as [e|q]; [by intros [= <- _]|].
  by apply (mutation_body_preserves _ _ _ _ _ Hc).
Qed.
End invariants.

Section journal_safety.
Context {E : Type} `{SqliteEnv} `{GrpcEnv} `{Proto Outcome}.
Context {Resp : Type} `{Proto Resp}.

Lemma mutation_body_grows id bytes rpc resp (apply : Apply E Resp) plan w w1 r :
  conforms apply plan -> mutation_body id bytes rpc resp apply w = (w1, r) ->
  journal_le (journal w) (journal w1).
Proof.
  intros Hc Hrun. eapply (mutation_body_preserves journal_le);
    eauto using RecordIntent_le, RecordPending_le, RecordOutcome_le; typeclasses eauto.
Qed.

Lemma run_mutation_grows id bytes rpc resp (apply : Apply E Resp) plan w w1 r :
  conforms apply plan -> RunMutation id bytes rpc resp apply w = (w1, r) ->
  journal_le (journal w) (journal w1).
Proof.
  intros Hc Hrun. eapply (RunMutation_preserves journal_le);
    eauto using RecordIntent_le, RecordPending_le, RecordOutcome_le; typeclasses eauto.
Qed.

(** C20: Under any schedule of journal I/O failures and a crash at any point, a
    run keeps the journal well formed, never loses or rewrites a recorded
    request or outcome, and touches the outcome of no other mutation. *)
Theorem run_mutation_journal_safe id bytes rpc resp
    (apply : Apply E Resp) plan w w1 r :
  conforms apply plan ->
  RunMutation id bytes rpc resp apply w = (w1, r) ->
  (journal_wf (journal w) -> journal_wf (journal w1)) /\
  journal_le (journal w) (journal w1) /\
  (forall id', id' <> id ->
     applied (journal w1) !! id' = applied (journal w) !! id' /\
     intents (journal w1) !! id' = intents (journal w) !! id').
Proof.
  intros Hc Hrun. split_and!.
  - eapply (RunMutation_preserves (fun j j' => journal_wf j -> journal_wf j'));
      eauto using RecordIntent_wf, RecordPending_wf, RecordOutcome_wf;
      typeclasses eauto.
  - by eapply run_mutation_grows.
  - pose (R := fun j j' : Journal => forall id', id' <> id ->
            applied j' !! id' = applied j !! id' /\
            intents j' !! id' = intents j !! id').
    assert (PreOrder R).
    { split; [done|]. intros j1 j2 j3 H12 H23 id' Hne.
      destruct (H12 id' Hne), (H23 id' Hne). split; congruence. }
    assert (IgnoresFaults R) by (by intros j fs id' Hne).
    change (R (journal w) (journal w1)). revert Hrun.
    eapply (RunMutation_preserves R); [| | |exact Hc].
    + intros. apply stmt_effect_preserves; try typeclasses eauto.
      intros j id' Hne. destruct (intents j !! id); [done|]. cbn.
      by rewrite lookup_insert_ne.
    + intros. apply stmt_effect_preserves; try typeclasses eauto.
      intros j id' Hne. cbn. by rewrite lookup_alter_ne.
    + intros. apply RecordOutcome_preserves; try typeclasses eauto.
      intros j _ _ id' Hne. cbn. by rewrite lookup_insert_ne.
Qed.
End journal_safety.
