(* ===== verification/Rpc.v ===== *)
(** * From handlers to the engine thread: [rpc/rpc_util.h]

    [RunRpc] is the boundary of the read-only RPCs. The rest of the file is the
    language the handlers are written in: code over the session, what it means
    for such code to be read-only or to refuse without a trace, and the shape
    every mutating handler has - build everything, record the pending response,
    commit - with its [Plan]. *)
From S2P Require Import Prelude.
From S2P Require Import Messages.
From S2P Require Import Engine.
From S2P Require Import Errors.
From S2P Require Import Map.
From S2P Require Import Session.
From S2P Require Import Worker.
From S2P Require Import Journal.
From S2P Require Import Mutation.
Local Open Scope prog_scope.

Section rpc.
Context `{SessionEnv} `{GrpcEnv}.

(** Code over the session, in the world of a request. *)
Definition on_session {A} (m : Prog Session A) : Prog (World Session) A :=
  zoom engine set_engine m.

(** A read of the book that can refuse. *)
Definition check {A} (f : Book -> ShimError + A) : Prog Session A :=
  fun s => match f (qof s) with
           | inl e => (s, Throw (ShimErr e))
           | inr a => (s, Ret a)
           end.

(** [if (cond) throw ShimError(code, message, context);]. *)
Definition throw_if {S} (cond : bool) (code : ErrorCode) (message context : string) :
    Prog S unit :=
  if cond then throw_shim code message context else ret tt.

(** [RunRpc(worker, fn)]. *)
Definition RunRpc {A} (fn : Prog (World Session) A) :
    Prog (World Session) (Status * option A) :=
  catch
    (a <~ (fun w => Run (queue w) fn w) ;;
     ret (Status_OK, Some a))
    (fun e => ret (StatusFromException e, None)).

(** ** The shape of a mutating handler

    [prep] validates the request, opens the edit and builds the response; then
    the pending response is recorded, then [commit] closes the edit. [prep]
    reads the clock through its argument. *)
Definition edit_then_commit {P Resp} (prep : Z -> Prog Session (P * Resp))
    (commit : P -> Book -> Book) : Apply Session Resp :=
  fun _ record_pending =>
    now <~ gets clock ;;
    p <~ on_session (prep now) ;;
    record_pending p.2 ;;;
    on_session (call (commit p.1)) ;;;
    ret p.2.

Definition plan_of {P Resp} (prep : Z -> Prog Session (P * Resp))
    (commit : P -> Book -> Book) : Plan Session Resp :=
  fun now s =>
    match prep now s with
    | (s', Ret p) => Proceed p.2 s' (set_qof (commit p.1 (qof s')) s')
    | (_, Throw (ShimErr e)) => Refuse e
    | (_, _) => Hang
    end.

(** ** Read-only code, code that cannot fail, code that refuses without a trace

    What an open book refuses is a verdict on the request; a closed one refuses
    everything with BOOK_NOT_OPEN. *)
Definition refusal_ok (s : Session) (e : exn) : Prop :=
  exists se, e = ShimErr se /\
    (IsDeterministicVerdict (code_ se) = true \/
     code_ se = ERROR_CODE_BOOK_NOT_OPEN /\ session_ s = None).

Definition reads {A} (m : Prog Session A) : Prop :=
  forall s, (m s).1 = s /\ forall e, (m s).2 = Throw e -> refusal_ok s e.

Definition succeeds {A} (m : Prog Session A) : Prop :=
  forall s, exists s' a, m s = (s', Ret a).

Definition atomic {A} (m : Prog Session A) : Prop :=
  forall s, match m s with
            | (_, Ret _) => True
            | (s', Throw e) => s' = s /\ refusal_ok s e
            | (s', Died) => s' = s
            end.

Lemma reads_ret {A} (a : A) : reads (ret a).
Proof. done. Qed.

Lemma reads_check {A} (f : Book -> ShimError + A) :
  (forall b, verdicts (f b)) -> reads (check f).
Proof.
  intros Hf s. unfold check. destruct (f (qof s)) eqn:E; cbn; [|done].
  split; [done|]. intros e' [= <-]. eexists. split; [done|]. left. by eapply Hf.
Qed.

Lemma reads_ask {A} (f : Book -> A) : reads (ask f).
Proof. done. Qed.

Lemma reads_throw_shim {A} code message context :
  IsDeterministicVerdict code = true ->
  reads (throw_shim (A := A) code message context).
Proof.
  intros Hc s. split; [done|]. intros e [= <-]. eexists. split; [done|]. by left.
Qed.

Lemma reads_throw_if cond code message context :
  IsDeterministicVerdict code = true ->
  reads (throw_if cond code message context).
Proof. intros. destruct cond; [by apply reads_throw_shim|apply reads_ret]. Qed.

Lemma reads_book : reads book.
Proof.
  intros s. unfold book, bind, gets, id. destruct (session_ s) eqn:Hs; cbn; [done|].
  split; [done|]. intros e [= <-]. eexists. split; [done|]. by right.
Qed.

Lemma reads_bind {A B} (m : Prog Session A) (k : A -> Prog Session B) :
  reads m -> (forall a, reads (k a)) -> reads (bind m k).
Proof.
  intros Hm Hk s. unfold bind. destruct (Hm s) as [Hs He].
  destruct (m s) as [s' [a|e|]]; cbn in *; subst s'; [apply Hk| |done].
  split; [done|]. intros e' [= <-]. by apply He.
Qed.

Lemma reads_root_account : reads root_account.
Proof. apply reads_bind; [apply reads_book|intros _; apply reads_ask]. Qed.

Lemma succeeds_ret {A} (a : A) : succeeds (ret a).
Proof. intros s. by exists s, a. Qed.

Lemma succeeds_call f : succeeds (call f).
Proof. intros s. eexists _, _. done. Qed.

Lemma succeeds_ask {A} (f : Book -> A) : succeeds (ask f).
Proof. intros s. eexists _, _. done. Qed.

Lemma succeeds_make {A} (f : Book -> A * Book) : succeeds (make f).
Proof. intros s. unfold make. destruct (f (qof s)). eauto. Qed.

Lemma succeeds_bind {A B} (m : Prog Session A) (k : A -> Prog Session B) :
  succeeds m -> (forall a, succeeds (k a)) -> succeeds (bind m k).
Proof.
  intros Hm Hk s. unfold bind. destruct (Hm s) as (s' & a & ->). apply Hk.
Qed.

Lemma succeeds_for_each {A} (l : list A) (f : A -> Prog Session unit) :
  (forall a, succeeds (f a)) -> succeeds (for_each l f).
Proof.
  intros Hf. induction l as [|a l IH]; cbn; [apply succeeds_ret|].
  by apply succeeds_bind.
Qed.

Lemma succeeds_option {A B} (o : option B) (f : B -> Prog Session A) (m : Prog Session A) :
  (forall b, succeeds (f b)) -> succeeds m ->
  succeeds (match o with Some b => f b | None => m end).
Proof. by destruct o. Qed.

Lemma succeeds_if {A P Q} (d : {P} + {Q}) (m1 m2 : Prog Session A) :
  succeeds m1 -> succeeds m2 -> succeeds (if d then m1 else m2).
Proof. by destruct d. Qed.

Lemma atomic_reads {A} (m : Prog Session A) : reads m -> atomic m.
Proof.
  intros Hm s. destruct (Hm s) as [Hs He].
  destruct (m s) as [s' [a|e|]]; cbn in *; subst; [done| |done].
  split; [done|by apply He].
Qed.

Lemma atomic_succeeds {A} (m : Prog Session A) : succeeds m -> atomic m.
Proof. intros Hm s. by destruct (Hm s) as (s' & a & ->). Qed.

Lemma atomic_bind {A B} (m : Prog Session A) (k : A -> Prog Session B) :
  reads m -> (forall a, atomic (k a)) -> atomic (bind m k).
Proof.
  intros Hm Hk s. unfold bind. destruct (Hm s) as [Hs He].
  destruct (m s) as [s' [a|e|]]; cbn in *; subst s'; [apply Hk| |done].
  split; [done|by apply He].
Qed.
End rpc.

(** ** Running code backwards: what a step that returned has done *)
Section inversion.
Context `{SessionEnv}.
Implicit Types (s : Session).

Lemma check_ret {A} (f : Book -> ShimError + A) s s' a :
  check f s = (s', Ret a) -> s' = s /\ f (qof s) = inr a.
Proof. unfold check. destruct (f (qof s)); intros [= <- <-]. done. Qed.

Lemma throw_if_ret {S} cond code message context (s s' : S) u :
  throw_if cond code message context s = (s', Ret u) -> s' = s /\ cond = false.
Proof. by destruct cond; intros [= <-]. Qed.

Lemma book_ret s s' u : book s = (s', Ret u) -> s' = s /\ session_ s <> None.
Proof.
  unfold book, bind, gets, id. destruct (session_ s); by intros [= <-].
Qed.

Lemma ask_ret {A} (f : Book -> A) s s' a :
  ask f s = (s', Ret a) -> s' = s /\ a = f (qof s).
Proof. by intros [= <- <-]. Qed.

Lemma call_ret f s s' u :
  call f s = (s', Ret u) -> s' = set_qof (f (qof s)) s.
Proof. by intros [= <-]. Qed.

Lemma make_ret {A} (f : Book -> A * Book) s s' a :
  make f s = (s', Ret a) -> exists b, f (qof s) = (a, b) /\ s' = set_qof b s.
Proof. unfold make. destruct (f (qof s)) as [a' b]. intros [= <- <-]. eauto. Qed.

Lemma ret_ret {S A} (a a' : A) (s s' : S) :
  ret (X := exn) a s = (s', Ret a') -> s' = s /\ a' = a.
Proof. by intros [= <- <-]. Qed.

Lemma root_account_ret s s' r :
  root_account s = (s', Ret r) ->
  s' = s /\ session_ s <> None /\ r = gnc_book_get_root_account (qof s).
Proof.
  intros (u & s1 & [-> Hs]%book_ret & [-> ->]%ask_ret)%bind_inv_ret. done.
Qed.
End inversion.

(** Takes a run that returned apart, step by step. *)
Ltac run_inv H :=
  lazymatch type of H with
  | bind _ _ _ = (_, Ret _) =>
      let a := fresh "a" in let s1 := fresh "s" in let H1 := fresh "Hrun" in
      apply bind_inv_ret in H as (a & s1 & H1 & H); run_inv H1; cbn beta in H;
      run_inv H
  | check _ _ = _ => apply check_ret in H as [-> H]
  | throw_if _ _ _ _ _ = _ => apply throw_if_ret in H as [-> H]
  | book _ = _ => apply book_ret in H as [-> H]
  | ask _ _ = _ => apply ask_ret in H as [-> ->]
  | call _ _ = _ => apply call_ret in H as ->
  | root_account _ = _ =>
      let H1 := fresh "Hopen" in apply root_account_ret in H as (-> & H1 & ->)
  | make _ _ = _ =>
      let b := fresh "b" in apply make_ret in H as (b & H & ->)
  | ret _ _ = _ => apply ret_ret in H as [-> ->]
  | _ => idtac
  end.

Create HintDb handlers.
#[export] Hint Resolve reads_ret reads_check reads_ask reads_throw_shim
  reads_throw_if reads_book reads_bind reads_root_account succeeds_ret
  succeeds_call succeeds_ask succeeds_make succeeds_bind succeeds_if succeeds_for_each succeeds_option
  StringToGuid_verdicts NumericFromProto_verdicts DateFromProto_verdicts
  AccountTypeFromProto_verdicts ReconcileStateFromProto_verdicts
  FindCommodity_verdicts FindAccount_verdicts FindTransaction_verdicts : handlers.
#[export] Hint Extern 1 (IsDeterministicVerdict _ = true) => reflexivity : handlers.

(** Splits a handler into its reads and, from the first engine write on, code
    that cannot fail. *)
Ltac solve_atomic :=
  repeat lazymatch goal with
  | |- forall _, _ => intros ?
  | |- atomic (let '(_, _) := ?p in _) => destruct p
  | |- atomic (match ?m with _ => _ end) => destruct m
  | |- atomic _ =>
      first [ apply atomic_bind; [solve [eauto 20 with handlers]|]
            | apply atomic_succeeds; solve [eauto 50 with handlers]
            | apply atomic_reads; solve [eauto 20 with handlers] ]
  end.

(** ** Read-only RPCs *)
Section read_only.
Context `{SessionEnv} `{GrpcEnv}.

(** Code that ends. *)
Definition returns {A} (m : Prog Session A) : Prop := forall s, (m s).2 <> Died.

Lemma returns_ret {A} (a : A) : returns (ret a).
Proof. done. Qed.

Lemma returns_check {A} (f : Book -> ShimError + A) : returns (check f).
Proof. intros s. unfold check. by destruct (f (qof s)). Qed.

Lemma returns_ask {A} (f : Book -> A) : returns (ask f).
Proof. done. Qed.

Lemma returns_throw_shim {A} code message context :
  returns (throw_shim (A := A) code message context).
Proof. done. Qed.

Lemma returns_throw_if cond code message context :
  returns (throw_if cond code message context).
Proof. by destruct cond. Qed.

Lemma returns_book : returns book.
Proof. intros s. unfold book, bind, gets, id. by destruct (session_ s). Qed.

Lemma returns_bind {A B} (m : Prog Session A) (k : A -> Prog Session B) :
  returns m -> (forall a, returns (k a)) -> returns (bind m k).
Proof.
  intros Hm Hk s. unfold bind. specialize (Hm s).
  destruct (m s) as [s' [a|e|]]; cbn in *; [apply Hk|done|done].
Qed.

Lemma returns_root_account : returns root_account.
Proof. apply returns_bind; [apply returns_book|intros _; apply returns_ask]. Qed.

Lemma returns_if {A P Q} (d : {P} + {Q}) (m1 m2 : Prog Session A) :
  returns m1 -> returns m2 -> returns (if d then m1 else m2).
Proof. by destruct d. Qed.

Lemma reads_if {A P Q} (d : {P} + {Q}) (m1 m2 : Prog Session A) :
  reads m1 -> reads m2 -> reads (if d then m1 else m2).
Proof. by destruct d. Qed.

Lemma reads_option {A B} (o : option B) (f : B -> Prog Session A) (m : Prog Session A) :
  (forall b, reads (f b)) -> reads m ->
  reads (match o with Some b => f b | None => m end).
Proof. by destruct o. Qed.

Lemma returns_option {A B} (o : option B) (f : B -> Prog Session A) (m : Prog Session A) :
  (forall b, returns (f b)) -> returns m ->
  returns (match o with Some b => f b | None => m end).
Proof. by destruct o. Qed.

(** An RPC that answers, changes nothing - not the book, the journal or the
    session - and has a response exactly when its status is OK. *)
Definition read_only_rpc {A} (rpc : Prog (World Session) (Status * option A)) : Prop :=
  forall w, exists st r, rpc w = (w, Ret (st, r)) /\ (is_Some r <-> st = Status_OK).

(** What the RPC boundary makes of code on an admitted request. *)
Lemma RunRpc_admitted {A} (fn : Prog (World Session) A) w q :
  Enqueue tt (queue w) = inr q ->
  RunRpc fn w =
    match fn w with
    | (w', Ret a) => (w', Ret (Status_OK, Some a))
    | (w', Throw e) => (w', Ret (StatusFromException e, None))
    | (w', Died) => (w', Died)
    end.
Proof.
  intros Hq. unfold RunRpc, catch, bind, Run. rewrite Hq.
  by destruct (fn w) as [w' [a|e|]].
Qed.

Lemma RunRpc_read_only {A} (fn : Prog Session A) :
  reads fn -> returns fn -> read_only_rpc (RunRpc (on_session fn)).
Proof.
  intros Hr He w. unfold RunRpc, catch, bind, Run.
  destruct (Enqueue tt (queue w)) as [e|_].
  { eexists _, _. split; [done|]. split; [by intros []|].
    by intros ?%StatusFromException_not_OK. }
  unfold on_session, zoom. destruct (Hr (engine w)) as [Hs _]. specialize (He (engine w)).
  destruct (fn (engine w)) as [s' [a|e|]]; cbn in *; subst; rewrite ?set_engine_id; [| |done].
  - eexists _, _. split; [done|]. split; [done|by eexists].
  - eexists _, _. split; [done|]. split; [by intros []|].
    by intros ?%StatusFromException_not_OK.
Qed.
End read_only.

#[export] Hint Resolve returns_ret returns_check returns_ask returns_throw_shim
  returns_throw_if returns_book returns_bind returns_root_account returns_if
  returns_option reads_if reads_option : handlers.

Section conforms.
Context `{SessionEnv} `{SqliteEnv} `{GrpcEnv} `{Proto Outcome}.
Context {P Resp : Type} `{Proto Resp}.

Lemma record_pending_engine {E} id (resp : Resp) (w w' : World E) r :
  record_pending id resp w = (w', r) -> engine w' = engine w.
Proof.
  unfold record_pending, bind, in_journal, zoom.
  destruct (RecordPending _ _ _) as [j [a|e|]]; [|by intros [= <- _]..].
  unfold CrashPointMaybe. case_bool_decide; by intros [= <- _].
Qed.

(** A handler of this shape whose preparation refuses without a trace is its
    plan. *)
Lemma edit_then_commit_conforms (prep : Z -> Prog Session (P * Resp)) commit :
  (forall now, atomic (prep now)) ->
  conforms (edit_then_commit prep commit) (plan_of prep commit).
Proof.
  intros Ha id resp w. unfold edit_then_commit, handler_of, plan_of.
  unfold bind at 1, gets at 1. unfold bind at 1, on_session at 1, zoom at 1.
  pose proof (Ha (clock w) (engine w)) as Hp.
  destruct (prep (clock w) (engine w)) as [s' [p|e|]].
  - unfold bind. destruct (record_pending id p.2 _) as [w' [[]|e|]] eqn:Hr;
      [|done..].
    apply record_pending_engine in Hr. cbn in Hr.
    unfold on_session, zoom, call, in_engine, modify. by rewrite Hr.
  - destruct Hp as [-> (se & -> & _)]. by rewrite set_engine_id.
  - subst s'. by rewrite set_engine_id.
Qed.
Lemma plan_of_proceed (prep : Z -> Prog Session (P * Resp)) commit now s out so sc :
  plan_of prep commit now s = Proceed out so sc ->
  exists p, prep now s = (so, Ret p) /\ out = p.2 /\
            sc = set_qof (commit p.1 (qof so)) so.
Proof.
  unfold plan_of. destruct (prep now s) as [s' [p|[]|]]; try done.
  intros [= <- <- <-]. eauto.
Qed.

(** What such a handler refuses, and when. *)
Lemma plan_of_refusal (prep : Z -> Prog Session (P * Resp)) commit now s e :
  atomic (prep now) -> plan_of prep commit now s = Refuse e ->
  IsDeterministicVerdict (code_ e) = true \/
  code_ e = ERROR_CODE_BOOK_NOT_OPEN /\ session_ s = None.
Proof.
  intros Ha Hp. unfold plan_of in Hp. specialize (Ha s).
  destruct (prep now s) as [s' [p|[se| | |]|]]; try done.
  injection Hp as ->. destruct Ha as [_ (se & [= <-] & ?)]. done.
Qed.
End conforms.
