(* ===== verification/Accounts.v ===== *)
(** * The account service: [rpc/account_service.cpp]

    Each RPC is a definition with the source's checks in the source's order;
    the mutating ones are an edit (everything up to [record_pending()]) and a
    commit. *)
From S2P Require Import Prelude.
From S2P Require Import Messages.
From S2P Require Import Engine.
From S2P Require Import Errors.
From S2P Require Import Map.
From S2P Require Import Session.
From S2P Require Import Worker.
From S2P Require Import Journal.
From S2P Require Import Mutation.
From S2P Require Import Rpc.
Local Open Scope prog_scope.

(** Unset submessages read as their defaults. *)
Definition Account_default : Account :=
  MkAccount "" "" "" ACCOUNT_TYPE_UNSPECIFIED None "" "" false false.
Definition meta_id (meta : option MutationMeta) : string :=
  from_option MutationMeta_mutation_id "" meta.
Definition or_default {A} (d : A) (o : option A) : A := default d o.

Section accounts.
Context `{SessionEnv}.

(** ** Tree checks *)

(** The walk from the new parent to the root. The fuel is spent only on moving
    to a parent; running out of it stands for a loop that does not end. *)
Fixpoint CheckNoCycle_loop (fuel : nat) (account : AccountPtr)
    (cursor : option AccountPtr) (context : string) : Prog Session unit :=
  match cursor with
  | None => ret tt
  | Some c =>
      if decide (c = account) then
        throw_shim ERROR_CODE_INVALID_ARGUMENT
          "parent_guid would create a cycle" context
      else match fuel with
           | 0 => die
           | S fuel' =>
               parent <~ ask (fun b => gnc_account_get_parent b c) ;;
               CheckNoCycle_loop fuel' account parent context
           end
  end.

(** The parents of an account are at most as many as its depth. *)
Definition CheckNoCycle (account new_parent : AccountPtr) (context : string) :
    Prog Session unit :=
  depth <~ ask (fun b => gnc_account_get_current_depth b new_parent) ;;
  CheckNoCycle_loop (S depth) account (Some new_parent) context.

Definition CheckIsNotRoot (account root : AccountPtr) (context : string) :
    Prog Session unit :=
  throw_if (bool_decide (account = root)) ERROR_CODE_INVALID_ARGUMENT
    "the root account cannot be modified" context.

(** ** Queries

    The functions the read-only RPCs run on the engine thread. *)
Definition ListAccounts_fn : Prog Session (list Account) :=
  root <~ root_account ;;
  ask (fun b =>
    AccountToProto b root ::
    (AccountToProto b <$> gnc_account_get_descendants_sorted b root)).

Definition GetAccount_fn (guid : string) : Prog Session Account :=
  book ;;;
  account <~ check (fun b => FindAccount b guid "guid") ;;
  ask (fun b => AccountToProto b account).

Definition GetReconcileInfo_fn (guid : string) : Prog Session ReconcileInfo :=
  book ;;;
  account <~ check (fun b => FindAccount b guid "guid") ;;
  ask (fun b => ReconcileInfoToProto b account).

(** ** CreateAccount *)
Definition CreateAccount_edit (request : CreateAccountRequest) (now : Z) :
    Prog Session (AccountPtr * Account) :=
  let spec := or_default Account_default (CreateAccountRequest_account request) in
  throw_if (negb (bool_decide (Account_guid spec = "")))
    ERROR_CODE_INVALID_ARGUMENT "guid must be empty on create; the engine assigns"
    "account.guid" ;;;
  throw_if (bool_decide (Account_name spec = ""))
    ERROR_CODE_INVALID_ARGUMENT "name is required" "account.name" ;;;
  throw_if (bool_decide (Account_parent_guid spec = ""))
    ERROR_CODE_INVALID_ARGUMENT "parent_guid is required" "account.parent_guid" ;;;
  book ;;;
  parent <~ check (fun b =>
    FindAccount b (Account_parent_guid spec) "account.parent_guid") ;;
  type <~ check (fun _ => AccountTypeFromProto (Account_type spec) "account.type") ;;
  commodity <~ check (fun b =>
    FindCommodity b (or_default CommodityId_default (Account_commodity spec))
      "account.commodity") ;;
  account <~ make xaccMallocAccount ;;
  call (xaccAccountBeginEdit account) ;;;
  call (xaccAccountSetName account (c_str (Account_name spec))) ;;;
  call (xaccAccountSetType account type) ;;;
  call (xaccAccountSetCommodity account commodity) ;;;
  call (xaccAccountSetCode account (c_str (Account_code spec))) ;;;
  call (xaccAccountSetDescription account (c_str (Account_description spec))) ;;;
  call (xaccAccountSetPlaceholder account (Account_placeholder spec)) ;;;
  call (xaccAccountSetHidden account (Account_hidden spec)) ;;;
  call (gnc_account_append_child parent account) ;;;
  out <~ ask (fun b => AccountToProto b account) ;;
  ret (account, out).

(** ** UpdateAccount *)
Definition UpdateAccount_edit (request : UpdateAccountRequest) (now : Z) :
    Prog Session (AccountPtr * Account) :=
  let spec := or_default Account_default (UpdateAccountRequest_account request) in
  throw_if (bool_decide (Account_guid spec = ""))
    ERROR_CODE_INVALID_ARGUMENT "guid is required on update" "account.guid" ;;;
  throw_if (bool_decide (Account_name spec = ""))
    ERROR_CODE_INVALID_ARGUMENT "name is required" "account.name" ;;;
  book ;;;
  account <~ check (fun b => FindAccount b (Account_guid spec) "account.guid") ;;
  root <~ root_account ;;
  CheckIsNotRoot account root "account.guid" ;;;
  new_type <~ check (fun _ =>
    AccountTypeFromProto (Account_type spec) "account.type") ;;
  commodity <~ check (fun b =>
    FindCommodity b (or_default CommodityId_default (Account_commodity spec))
      "account.commodity") ;;
  throw_if (bool_decide (Account_parent_guid spec = ""))
    ERROR_CODE_INVALID_ARGUMENT "parent_guid is required (full replacement)"
    "account.parent_guid" ;;;
  new_parent <~ check (fun b =>
    FindAccount b (Account_parent_guid spec) "account.parent_guid") ;;
  CheckNoCycle account new_parent "account.parent_guid" ;;;
  call (xaccAccountBeginEdit account) ;;;
  call (xaccAccountSetName account (c_str (Account_name spec))) ;;;
  call (xaccAccountSetType account new_type) ;;;
  call (xaccAccountSetCommodity account commodity) ;;;
  call (xaccAccountSetCode account (c_str (Account_code spec))) ;;;
  call (xaccAccountSetDescription account (c_str (Account_description spec))) ;;;
  call (xaccAccountSetPlaceholder account (Account_placeholder spec)) ;;;
  call (xaccAccountSetHidden account (Account_hidden spec)) ;;;
  parent <~ ask (fun b => gnc_account_get_parent b account) ;;
  (if decide (Some new_parent = parent) then ret tt
   else call (gnc_account_append_child new_parent account)) ;;;
  out <~ ask (fun b => AccountToProto b account) ;;
  ret (account, out).

(** ** DeleteAccount *)
Definition DeleteAccount_edit (request : DeleteAccountRequest) (now : Z) :
    Prog Session (AccountPtr * Empty) :=
  book ;;;
  account <~ check (fun b => FindAccount b (DeleteAccountRequest_guid request) "guid") ;;
  root <~ root_account ;;
  CheckIsNotRoot account root "guid" ;;;
  splits <~ ask (fun b => xaccAccountGetSplitList b account) ;;
  children <~ ask (fun b => gnc_account_n_children b account) ;;
  throw_if (negb (bool_decide (splits = [])) || (0 <? children)%Z)
    ERROR_CODE_ACCOUNT_NOT_EMPTY "account has splits or children"
    (DeleteAccountRequest_guid request) ;;;
  ret (account, MkEmpty).

(** [xaccAccountDestroy] commits the edit itself. *)
Definition DeleteAccount_commit (account : AccountPtr) (b : Book) : Book :=
  xaccAccountDestroy account (xaccAccountBeginEdit account b).

(** ** SetReconcileInfo *)
Definition SetReconcileInfo_edit (request : SetReconcileInfoRequest) (now : Z) :
    Prog Session (AccountPtr * ReconcileInfo) :=
  book ;;;
  account <~ check (fun b =>
    FindAccount b (SetReconcileInfoRequest_account_guid request) "account_guid") ;;
  throw_if (negb (bool_decide (is_Some (SetReconcileInfoRequest_last_date request))))
    ERROR_CODE_INVALID_ARGUMENT "last_date is required" "last_date" ;;;
  date <~ check (fun _ =>
    DateFromProto (or_default Date_default (SetReconcileInfoRequest_last_date request))
      "last_date") ;;
  let stamp := gnc_dmy2time64_neutral (g_date_get_day date) (g_date_get_month date)
                 (g_date_get_year date) in
  call (xaccAccountBeginEdit account) ;;;
  call (xaccAccountSetReconcileLastDate account stamp) ;;;
  out <~ ask (fun b => ReconcileInfoToProto b account) ;;
  ret (account, out).
End accounts.

(** ** The mutating RPCs *)
Section rpcs.
Context `{SessionEnv} `{SqliteEnv} `{GrpcEnv} `{Proto Outcome}.
Context `{Proto Account} `{Proto Empty} `{Proto ReconcileInfo}.
Context `{Proto CreateAccountRequest} `{Proto UpdateAccountRequest}
  `{Proto DeleteAccountRequest} `{Proto SetReconcileInfoRequest}.

Definition ReconcileInfo_default : ReconcileInfo := MkReconcileInfo "" None None.

Definition ListAccounts : Prog (World Session) (Status * option (list Account)) :=
  RunRpc (on_session ListAccounts_fn).

Definition GetAccount (guid : string) :
    Prog (World Session) (Status * option Account) :=
  RunRpc (on_session (GetAccount_fn guid)).

Definition GetReconcileInfo (guid : string) :
    Prog (World Session) (Status * option ReconcileInfo) :=
  RunRpc (on_session (GetReconcileInfo_fn guid)).

Definition CreateAccount_apply (request : CreateAccountRequest) :
    Apply Session Account :=
  edit_then_commit (CreateAccount_edit request) xaccAccountCommitEdit.

Definition CreateAccount (request : CreateAccountRequest) :
    Prog (World Session) (Status * option Account) :=
  RunMutation (meta_id (CreateAccountRequest_meta request))
    (SerializeAsString request) "daicho.shim.v1.AccountService/CreateAccount"
    Account_default (CreateAccount_apply request).

Definition UpdateAccount_apply (request : UpdateAccountRequest) :
    Apply Session Account :=
  edit_then_commit (UpdateAccount_edit request) xaccAccountCommitEdit.

Definition UpdateAccount (request : UpdateAccountRequest) :
    Prog (World Session) (Status * option Account) :=
  RunMutation (meta_id (UpdateAccountRequest_meta request))
    (SerializeAsString request) "daicho.shim.v1.AccountService/UpdateAccount"
    Account_default (UpdateAccount_apply request).

Definition DeleteAccount_apply (request : DeleteAccountRequest) :
    Apply Session Empty :=
  edit_then_commit (DeleteAccount_edit request) DeleteAccount_commit.

Definition DeleteAccount (request : DeleteAccountRequest) :
    Prog (World Session) (Status * option Empty) :=
  RunMutation (meta_id (DeleteAccountRequest_meta request))
    (SerializeAsString request) "daicho.shim.v1.AccountService/DeleteAccount"
    MkEmpty (DeleteAccount_apply request).

Definition SetReconcileInfo_apply (request : SetReconcileInfoRequest) :
    Apply Session ReconcileInfo :=
  edit_then_commit (SetReconcileInfo_edit request) xaccAccountCommitEdit.

Definition SetReconcileInfo (request : SetReconcileInfoRequest) :
    Prog (World Session) (Status * option ReconcileInfo) :=
  RunMutation (meta_id (SetReconcileInfoRequest_meta request))
    (SerializeAsString request) "daicho.shim.v1.AccountService/SetReconcileInfo"
    ReconcileInfo_default (SetReconcileInfo_apply request).
End rpcs.

(** ** Properties *)
Section properties.
Context `{SessionEnv}.

Lemma CheckNoCycle_loop_reads fuel account cursor context :
  reads (CheckNoCycle_loop fuel account cursor context).
Proof.
  revert cursor. induction fuel as [|fuel IH]; intros [c|]; cbn;
    try apply reads_ret; destruct (decide _); eauto with handlers; done.
Qed.

Lemma CheckNoCycle_reads account new_parent context :
  reads (CheckNoCycle account new_parent context).
Proof. apply reads_bind; [apply reads_ask|intros; apply CheckNoCycle_loop_reads]. Qed.

Lemma CheckIsNotRoot_reads account root context :
  reads (CheckIsNotRoot account root context).
Proof. unfold CheckIsNotRoot. eauto with handlers. Qed.
End properties.

#[export] Hint Resolve CheckNoCycle_reads CheckIsNotRoot_reads : handlers.

Section atomicity.
Context `{SessionEnv}.

Lemma CreateAccount_atomic request now : atomic (CreateAccount_edit request now).
Proof. unfold CreateAccount_edit. solve_atomic. Qed.

Lemma UpdateAccount_atomic request now : atomic (UpdateAccount_edit request now).
Proof.
  unfold UpdateAccount_edit. solve_atomic.
Qed.

Lemma DeleteAccount_atomic request now : atomic (DeleteAccount_edit request now).
Proof. unfold DeleteAccount_edit. solve_atomic. Qed.

Lemma SetReconcileInfo_atomic request now :
  atomic (SetReconcileInfo_edit request now).
Proof. unfold SetReconcileInfo_edit. solve_atomic. Qed.
End atomicity.

Section tree.
Context `{SessionEnv}.
Implicit Types (s : Session).

Lemma CheckNoCycle_loop_ret fuel account cursor context s s' u :
  CheckNoCycle_loop fuel account cursor context s = (s', Ret u) ->
  s' = s /\ forall c, cursor = Some c -> ~ star (up (qof s)) c account.
Proof.
  revert cursor s. induction fuel as [|fuel IH]; intros [c|] s; cbn.
  - by destruct (decide _).
  - by intros [-> _]%ret_ret.
  - destruct (decide (c = account)) as [|Hne]; [done|].
    intros (parent & s1 & [-> ->]%ask_ret & Hk)%bind_inv_ret.
    apply IH in Hk as [-> Hk]. split; [done|]. intros ? [= <-] Hstar.
    inversion Hstar as [|? p ? Hp Hrest]; subst; [done|]. by apply (Hk p Hp).
  - by intros [-> _]%ret_ret.
Qed.

Lemma CheckNoCycle_ret account new_parent context s s' u :
  CheckNoCycle account new_parent context s = (s', Ret u) ->
  s' = s /\ ~ star (up (qof s)) new_parent account.
Proof.
  unfold CheckNoCycle.
  intros (d & s1 & [-> ->]%ask_ret & [-> Hn]%CheckNoCycle_loop_ret)%bind_inv_ret.
  split; [done|]. by apply Hn.
Qed.

Lemma CheckNoCycle_loop_enough fuel account c context s :
  depth_counts (qof s) -> gnc_account_get_current_depth (qof s) c < fuel ->
  (star (up (qof s)) c account ->
     CheckNoCycle_loop fuel account (Some c) context s =
       (s, Throw (ShimErr (MkShimError ERROR_CODE_INVALID_ARGUMENT
              "parent_guid would create a cycle" context)))) /\
  (~ star (up (qof s)) c account ->
     CheckNoCycle_loop fuel account (Some c) context s = (s, Ret tt)).
Proof.
  intros Hd. revert c. induction fuel as [|fuel IH]; intros c Hlt; [lia|].
  cbn [CheckNoCycle_loop]. destruct (decide (c = account)) as [->|Hne].
  { split; [done|]. intros Hn. destruct Hn. apply star_refl. }
  unfold bind, ask, gets.
  destruct (gnc_account_get_parent (qof s) c) as [p|] eqn:Hp.
  - destruct (IH p) as [IHy IHn].
    { specialize (Hd c p Hp). lia. }
    split; intros Hs.
    + apply IHy. inversion Hs as [|? p' ? Hp' Hrest]; subst; [done|].
      unfold up in Hp'. congruence.
    + apply IHn. intros Hpa. apply Hs. by eapply star_step.
  - split; intros Hs; [|by destruct fuel].
    inversion Hs as [|? p' ? Hp' Hrest]; subst; [done|].
    unfold up in Hp'. congruence.
Qed.

(** C26: The reparenting guard: in a well-formed tree the walk always ends within
    its bound, changes nothing, and refuses exactly when the account is the new
    parent or one of its ancestors. *)
Theorem check_no_cycle_exact account new_parent context s :
  depth_counts (qof s) ->
  (star (up (qof s)) new_parent account ->
     CheckNoCycle account new_parent context s =
       (s, Throw (ShimErr (MkShimError ERROR_CODE_INVALID_ARGUMENT
              "parent_guid would create a cycle" context)))) /\
  (~ star (up (qof s)) new_parent account ->
     CheckNoCycle account new_parent context s = (s, Ret tt)).
Proof.
  intros Hd. unfold CheckNoCycle, bind, ask, gets.
  apply CheckNoCycle_loop_enough; [done|lia].
Qed.
End tree.

(** Rewrites away the calls that do not touch the tree. *)
Ltac skip_edits :=
  repeat match goal with
  | |- context [gnc_account_get_parent (?f ?b) ?x] =>
      rewrite (account_edit_parent f b x) by constructor
  end.

Section tree_edit.
Context `{SessionEnv} `{!GncTreeOk}.
Implicit Types (s : Session).

Lemma FindAccount_lookup b guid context a :
  FindAccount b guid context = inr a -> exists g, xaccAccountLookup b g = Some a.
Proof.
  intros (g & _ & Hl)%sbind_inr. exists g. by destruct (xaccAccountLookup b g); simplify_eq.
Qed.

Lemma CreateAccount_acyclic request now s s' p :
  CreateAccount_edit request now s = (s', Ret p) ->
  acyclic (qof s) -> acyclic (qof s').
Proof.
  unfold CreateAccount_edit. intros Hrun. run_inv Hrun. cbn. intros Hac.
  match goal with
  | Hm : xaccMallocAccount _ = (?a, ?b), Hf : FindAccount _ _ _ = inr ?parent |- _ =>
      destruct (malloc_account_parent _ _ _ Hm) as (Hpar & Hfresh & Hnew);
      apply FindAccount_lookup in Hf as [g Hg];
      apply (acyclic_append a parent b)
  end.
  - intros x. rewrite append_child_parent. by skip_edits.
  - intros [->|[y Hy]]%star_last; [by eapply Hnew|].
    unfold up in Hy. rewrite Hpar in Hy. destruct (decide _); [done|].
    by eapply Hfresh.
  - eapply acyclic_mono; [|exact Hac]. intros x y. unfold up. rewrite Hpar.
    by destruct (decide _).
Qed.

Lemma UpdateAccount_acyclic request now s s' p :
  UpdateAccount_edit request now s = (s', Ret p) ->
  acyclic (qof s) -> acyclic (qof s').
Proof.
  unfold UpdateAccount_edit, CheckIsNotRoot. intros Hrun. run_inv Hrun. cbn. intros Hac.
  match goal with
  | Hc : CheckNoCycle ?a ?np _ _ = _ |- _ =>
      apply CheckNoCycle_ret in Hc as [-> Hcycle];
      set (account := a) in *; set (new_parent := np) in *
  end.
  match goal with Hi : (if decide ?P then _ else _) _ = _ |- _ =>
    destruct (decide P); [apply ret_ret in Hi as [-> _]|apply call_ret in Hi as ->]
  end; cbn.
  - eapply acyclic_mono; [|exact Hac]. intros x y. unfold up. by skip_edits.
  - apply (acyclic_append account new_parent (qof s)); [|done..].
    intros x. rewrite append_child_parent. by skip_edits.
Qed.

Lemma DeleteAccount_ret request now s s' p :
  DeleteAccount_edit request now s = (s', Ret p) ->
  s' = s /\ p.1 <> gnc_book_get_root_account (qof s) /\
  (exists g, xaccAccountLookup (qof s) g = Some p.1) /\
  xaccAccountGetSplitList (qof s) p.1 = [] /\
  (gnc_account_n_children (qof s) p.1 <= 0)%Z.
Proof.
  unfold DeleteAccount_edit, CheckIsNotRoot. intros Hrun. run_inv Hrun. cbn.
  match goal with Hf : FindAccount _ _ _ = inr _ |- _ =>
    apply FindAccount_lookup in Hf end.
  match goal with Ho : (_ || _)%bool = false |- _ =>
    apply orb_false_iff in Ho as [Hs Hc] end.
  apply negb_false_iff, bool_decide_eq_true in Hs. apply Z.ltb_ge in Hc.
  match goal with Hb : bool_decide _ = false |- _ =>
    apply bool_decide_eq_false in Hb end.
  done.
Qed.

(** C25: The account tree never gets a cycle: whatever account a request creates,
    moves or deletes, a book whose parents form a tree still does when the edit
    is open and when it is committed. *)
Theorem account_tree_stays_acyclic now s :
  acyclic (qof s) ->
  (forall request out so sc,
     plan_of (CreateAccount_edit request) xaccAccountCommitEdit now s =
       Proceed out so sc -> acyclic (qof so) /\ acyclic (qof sc)) /\
  (forall request out so sc,
     plan_of (UpdateAccount_edit request) xaccAccountCommitEdit now s =
       Proceed out so sc -> acyclic (qof so) /\ acyclic (qof sc)) /\
  (forall request out so sc,
     plan_of (DeleteAccount_edit request) DeleteAccount_commit now s =
       Proceed out so sc -> acyclic (qof so) /\ acyclic (qof sc)).
Proof.
  intros Hac.
  assert (forall a b, acyclic b -> acyclic (xaccAccountCommitEdit a b)) as Hcommit.
  { intros a b. apply acyclic_mono. intros x y. unfold up. by skip_edits. }
  split_and!; intros request out so sc Hp;
    apply plan_of_proceed in Hp as (p & Hrun & -> & ->); cbn.
  - pose proof (CreateAccount_acyclic _ _ _ _ _ Hrun Hac). auto.
  - pose proof (UpdateAccount_acyclic _ _ _ _ _ Hrun Hac). auto.
  - apply DeleteAccount_ret in Hrun as [-> _]. split; [done|].
    eapply acyclic_mono; [|exact Hac]. unfold up, DeleteAccount_commit.
    intros x y Hy%destroy_parent. revert Hy. by skip_edits.
Qed.

(** DeleteAccount destroys only what it may: an account it proceeds with was
    found in the book, is not the root, and has neither splits nor children;
    nothing is changed before the commit. *)
Theorem delete_account_only_empty request now s out so sc :
  plan_of (DeleteAccount_edit request) DeleteAccount_commit now s =
    Proceed out so sc ->
  exists a, so = s /\ sc = set_qof (DeleteAccount_commit a (qof s)) s /\
    a <> gnc_book_get_root_account (qof s) /\
    (exists g, xaccAccountLookup (qof s) g = Some a) /\
    xaccAccountGetSplitList (qof s) a = [] /\
    (gnc_account_n_children (qof s) a <= 0)%Z.
Proof.
  intros Hp. apply plan_of_proceed in Hp as (p & Hrun & -> & ->).
  apply DeleteAccount_ret in Hrun as (-> & Hroot & Hg & Hs & Hc).
  by exists p.1.
Qed.
End tree_edit.

Section handlers.
Context `{SessionEnv} `{SqliteEnv} `{GrpcEnv} `{Proto Outcome}.
Context `{Proto Account} `{Proto Empty} `{Proto ReconcileInfo}.

(** C24: The four mutating account handlers have the protocol's shape: everything
    that can be refused is refused before the book is touched, the pending
    response is recorded between the edit and its commit. And what an open book
    refuses is always a verdict, so the protocol records it. *)
Theorem account_handlers_conform :
  (forall r, conforms (CreateAccount_apply r)
               (plan_of (CreateAccount_edit r) xaccAccountCommitEdit)) /\
  (forall r, conforms (UpdateAccount_apply r)
               (plan_of (UpdateAccount_edit r) xaccAccountCommitEdit)) /\
  (forall r, conforms (DeleteAccount_apply r)
               (plan_of (DeleteAccount_edit r) DeleteAccount_commit)) /\
  (forall r, conforms (SetReconcileInfo_apply r)
               (plan_of (SetReconcileInfo_edit r) xaccAccountCommitEdit)) /\
  (forall now s e, session_ s <> None ->
     (exists r, plan_of (CreateAccount_edit r) xaccAccountCommitEdit now s = Refuse e) \/
     (exists r, plan_of (UpdateAccount_edit r) xaccAccountCommitEdit now s = Refuse e) \/
     (exists r, plan_of (DeleteAccount_edit r) DeleteAccount_commit now s = Refuse e) \/
     (exists r, plan_of (SetReconcileInfo_edit r) xaccAccountCommitEdit now s = Refuse e) ->
     IsDeterministicVerdict (code_ e) = true).
Proof.
  split_and!;
    [intros r; apply edit_then_commit_conforms; intros now;
     auto using CreateAccount_atomic, UpdateAccount_atomic, DeleteAccount_atomic,
       SetReconcileInfo_atomic..|].
  intros now s e Hs [[r Hp]|[[r Hp]|[[r Hp]|[r Hp]]]];
    eapply plan_of_refusal in Hp as [?|[_ ?]];
    auto using CreateAccount_atomic, UpdateAccount_atomic, DeleteAccount_atomic,
      SetReconcileInfo_atomic; done.
Qed.
End handlers.
