(* ===== verification/Transactions.v ===== *)
(** * The transaction service: [rpc/transaction_service.cpp]

    A post or update is planned - every input resolved and checked, the sum of
    the split values included - before an engine object is touched; applying a
    plan cannot fail. The split query is paged by the GUID of the last split. *)
From S2P Require Import Prelude.
From S2P Require Import Messages.
From S2P Require Import Engine.
From S2P Require Import Errors.
From S2P Require Import Map.
From S2P Require Import Session.
From S2P Require Import Worker.
From S2P Require Import Journal.
From S2P Require Import Mutation.
From S2P Require Import Rpc.
From S2P Require Import Accounts.
From Stdlib Require Import QArith.
Local Close Scope Q_scope.
Local Open Scope prog_scope.

Definition Transaction_default : Transaction :=
  MkTransaction "" None None 0 "" "" [].

Section transactions.
Context `{SessionEnv}.

(** ** Plans *)
Record SplitPlan := MkSplitPlan {
  existing : option SplitPtr;  (** update in place when set *)
  account : AccountPtr;
  value : gnc_numeric;
  quantity : gnc_numeric;
  memo : string;
  action : string;
  reconcile : ascii;
}.

Record TransactionPlan := MkTransactionPlan {
  currency : CommodityPtr;
  post_date : GDate;
  enter_time : Z;
  num_ : string;
  description : string;
  splits : list SplitPlan;
  doomed : list SplitPtr;
}.

(** The engine's splits of the transaction by their GUID's text. *)
Definition engine_splits_of (book : Book) (existing : option TransactionPtr) :
    gmap string SplitPtr :=
  match existing with
  | None => ∅
  | Some transaction =>
      foldl (fun m split => <[GuidToString (split_guid book split) := split]> m) ∅
        (xaccTransGetSplitList book transaction)
  end.

(** The GUID checks of one split: the engine split it claims, and the claims
    made so far. *)
Definition claim_split (updating : bool) (engine_splits : gmap string SplitPtr)
    (claimed : gset string) (guid field : string) :
    ShimError + (option SplitPtr * gset string) :=
  if decide (guid = "") then inr (None, claimed)
  else if negb updating then
    refuse ERROR_CODE_INVALID_ARGUMENT
      "split guid must be empty on create; the engine assigns" (field +:+ ".guid")
  else match engine_splits !! guid with
       | None =>
           refuse ERROR_CODE_INVALID_ARGUMENT
             ("split " +:+ guid +:+ " does not belong to this transaction")
             (field +:+ ".guid")
       | Some split =>
           if decide (guid ∈ claimed) then
             refuse ERROR_CODE_INVALID_ARGUMENT
               ("split " +:+ guid +:+ " appears twice") (field +:+ ".guid")
           else inr (Some split, {[ guid ]} ∪ claimed)
       end.

(** One round of the loop over the splits of the request, but for the sum. *)
Definition plan_split (book : Book) (updating : bool)
    (engine_splits : gmap string SplitPtr) (claimed : gset string)
    (split_spec : Split) (field : string) :
    ShimError + (SplitPlan * gset string) :=
  claim <-? claim_split updating engine_splits claimed (Split_guid split_spec) field ;;
  acc <-? FindAccount book (Split_account_guid split_spec) (field +:+ ".account_guid") ;;
  val <-? NumericFromProto (or_default Numeric_default (Split_value split_spec))
            (field +:+ ".value") ;;
  qty <-? NumericFromProto (or_default Numeric_default (Split_quantity split_spec))
            (field +:+ ".quantity") ;;
  rec <-? (if decide (Split_reconcile_state split_spec = RECONCILE_STATE_UNSPECIFIED)
           then inr NREC
           else ReconcileStateFromProto (Split_reconcile_state split_spec)
                  (field +:+ ".reconcile_state")) ;;
  inr (MkSplitPlan claim.1 acc val qty (Split_memo split_spec)
         (Split_action split_spec) rec, claim.2).

(** What the loop carries: the claims, the running sum, the plans. *)
Record PlanState := MkPlanState {
  claimed : gset string;
  sum : gnc_numeric;
  planned : list SplitPlan;
}.

Fixpoint plan_splits (book : Book) (updating : bool)
    (engine_splits : gmap string SplitPtr) (i : nat) (specs : list Split)
    (st : PlanState) : ShimError + PlanState :=
  match specs with
  | [] => inr st
  | split_spec :: specs' =>
      let field := "transaction.splits[" +:+ pretty i +:+ "]" in
      planned_split <-? plan_split book updating engine_splits (claimed st)
                          split_spec field ;;
      let sum' := gnc_numeric_add (sum st) (value planned_split.1) in
      if negb (gnc_numeric_ok sum') then
        refuse ERROR_CODE_INVALID_ARGUMENT
          "split values overflow engine arithmetic" field
      else
        plan_splits book updating engine_splits (S i) specs'
          (MkPlanState planned_split.2 sum' (planned st ++ [planned_split.1]))
  end.

(** [unordered_map] iterates in no particular order. *)
Definition doomed_splits (engine_splits : gmap string SplitPtr)
    (claimed : gset string) : list SplitPtr :=
  (filter (fun kv : string * SplitPtr => kv.1 ∉ claimed)
     (map_to_list engine_splits)).*2.

Definition PlanTransaction (book : Book) (now : Z) (spec : Transaction)
    (existing : option TransactionPtr) : ShimError + TransactionPlan :=
  match Transaction_currency spec with
  | None =>
      refuse ERROR_CODE_INVALID_ARGUMENT "currency is required" "transaction.currency"
  | Some currency_id =>
      currency <-? FindCommodity book currency_id "transaction.currency" ;;
      if negb (gnc_commodity_is_currency book currency) then
        refuse ERROR_CODE_CURRENCY_MISMATCH
          "transaction currency is not a currency commodity" "transaction.currency"
      else
        match Transaction_post_date spec with
        | None =>
            refuse ERROR_CODE_INVALID_ARGUMENT "post_date is required"
              "transaction.post_date"
        | Some date =>
            post_date <-? DateFromProto date "transaction.post_date" ;;
            let enter_time :=
              if decide (Transaction_enter_time_utc spec <> 0%Z)
              then Transaction_enter_time_utc spec else now in
            if decide (Transaction_splits spec = []) then
              refuse ERROR_CODE_INVALID_ARGUMENT "at least one split is required"
                "transaction.splits"
            else
              let engine_splits := engine_splits_of book existing in
              st <-? plan_splits book (bool_decide (is_Some existing)) engine_splits 0
                       (Transaction_splits spec)
                       (MkPlanState ∅ gnc_numeric_zero []) ;;
              if negb (gnc_numeric_zero_p (sum st)) then
                refuse ERROR_CODE_UNBALANCED_TRANSACTION
                  ("split values sum to " +:+ gnc_numeric_to_string (sum st) +:+
                   ", expected zero") "transaction.splits"
              else
                inr (MkTransactionPlan currency post_date enter_time
                       (Transaction_num spec) (Transaction_description spec)
                       (planned st) (doomed_splits engine_splits (claimed st)))
        end
  end.

(** ** [ApplyPlan] *)
Definition apply_split (transaction : TransactionPtr) (split_plan : SplitPlan) :
    Prog Session unit :=
  split <~ (match existing split_plan with
            | Some split => ret split
            | None =>
                split <~ make xaccMallocSplit ;;
                call (xaccSplitSetParent split transaction) ;;;
                ret split
            end) ;;
  call (xaccSplitSetAccount split (account split_plan)) ;;;
  call (xaccSplitSetValue split (value split_plan)) ;;;
  call (xaccSplitSetAmount split (quantity split_plan)) ;;;
  call (xaccSplitSetMemo split (c_str (memo split_plan))) ;;;
  call (xaccSplitSetAction split (c_str (action split_plan))) ;;;
  call (xaccSplitSetReconcile split (reconcile split_plan)).

Definition ApplyPlan (transaction : TransactionPtr) (plan : TransactionPlan) :
    Prog Session unit :=
  call (xaccTransSetCurrency transaction (currency plan)) ;;;
  call (xaccTransSetDatePostedGDate transaction (post_date plan)) ;;;
  call (xaccTransSetDateEnteredSecs transaction (enter_time plan)) ;;;
  call (xaccTransSetNum transaction (c_str (num_ plan))) ;;;
  call (xaccTransSetDescription transaction (c_str (description plan))) ;;;
  for_each (doomed plan) (fun split => call (xaccSplitDestroy split)) ;;;
  for_each (splits plan) (apply_split transaction).

(** ** The handlers *)
Definition GetTransaction_fn (guid : string) : Prog Session Transaction :=
  book ;;;
  transaction <~ check (fun b => FindTransaction b guid "guid") ;;
  ask (fun b => TransactionToProto b transaction).

Definition PostTransaction_edit (request : PostTransactionRequest) (now : Z) :
    Prog Session (TransactionPtr * Transaction) :=
  let spec := or_default Transaction_default
                (PostTransactionRequest_transaction request) in
  throw_if (negb (bool_decide (Transaction_guid spec = "")))
    ERROR_CODE_INVALID_ARGUMENT "guid must be empty on create; the engine assigns"
    "transaction.guid" ;;;
  book ;;;
  plan <~ check (fun b => PlanTransaction b now spec None) ;;
  transaction <~ make xaccMallocTransaction ;;
  call (xaccTransBeginEdit transaction) ;;;
  ApplyPlan transaction plan ;;;
  out <~ ask (fun b => TransactionToProto b transaction) ;;
  ret (transaction, out).

Definition UpdateTransaction_edit (request : UpdateTransactionRequest) (now : Z) :
    Prog Session (TransactionPtr * Transaction) :=
  let spec := or_default Transaction_default
                (UpdateTransactionRequest_transaction request) in
  throw_if (bool_decide (Transaction_guid spec = ""))
    ERROR_CODE_INVALID_ARGUMENT "guid is required on update" "transaction.guid" ;;;
  book ;;;
  transaction <~ check (fun b =>
    FindTransaction b (Transaction_guid spec) "transaction.guid") ;;
  plan <~ check (fun b => PlanTransaction b now spec (Some transaction)) ;;
  call (xaccTransBeginEdit transaction) ;;;
  ApplyPlan transaction plan ;;;
  out <~ ask (fun b => TransactionToProto b transaction) ;;
  ret (transaction, out).

Definition DeleteTransaction_edit (request : DeleteTransactionRequest) (now : Z) :
    Prog Session (TransactionPtr * Empty) :=
  book ;;;
  transaction <~ check (fun b =>
    FindTransaction b (DeleteTransactionRequest_guid request) "guid") ;;
  ret (transaction, MkEmpty).

Definition DeleteTransaction_commit (transaction : TransactionPtr) (b : Book) : Book :=
  xaccTransCommitEdit transaction
    (xaccTransDestroy transaction (xaccTransBeginEdit transaction b)).
End transactions.

Section rpcs.
Context `{SessionEnv} `{SqliteEnv} `{GrpcEnv} `{Proto Outcome}.
Context `{Proto Transaction} `{Proto Empty}.
Context `{Proto PostTransactionRequest} `{Proto UpdateTransactionRequest}
  `{Proto DeleteTransactionRequest}.

Definition GetTransaction (guid : string) :
    Prog (World Session) (Status * option Transaction) :=
  RunRpc (on_session (GetTransaction_fn guid)).

Definition PostTransaction_apply (request : PostTransactionRequest) :
    Apply Session Transaction :=
  edit_then_commit (PostTransaction_edit request) xaccTransCommitEdit.

Definition PostTransaction (request : PostTransactionRequest) :
    Prog (World Session) (Status * option Transaction) :=
  RunMutation (meta_id (PostTransactionRequest_meta request))
    (SerializeAsString request) "daicho.shim.v1.TransactionService/PostTransaction"
    Transaction_default (PostTransaction_apply request).

Definition UpdateTransaction_apply (request : UpdateTransactionRequest) :
    Apply Session Transaction :=
  edit_then_commit (UpdateTransaction_edit request) xaccTransCommitEdit.

Definition UpdateTransaction (request : UpdateTransactionRequest) :
    Prog (World Session) (Status * option Transaction) :=
  RunMutation (meta_id (UpdateTransactionRequest_meta request))
    (SerializeAsString request) "daicho.shim.v1.TransactionService/UpdateTransaction"
    Transaction_default (UpdateTransaction_apply request).

Definition DeleteTransaction_apply (request : DeleteTransactionRequest) :
    Apply Session Empty :=
  edit_then_commit (DeleteTransaction_edit request) DeleteTransaction_commit.

Definition DeleteTransaction (request : DeleteTransactionRequest) :
    Prog (World Session) (Status * option Empty) :=
  RunMutation (meta_id (DeleteTransactionRequest_meta request))
    (SerializeAsString request) "daicho.shim.v1.TransactionService/DeleteTransaction"
    MkEmpty (DeleteTransaction_apply request).
End rpcs.

(** ** What a plan is *)
Section plans.
Context `{SessionEnv}.

(** The value a request gives a split, and their sum. *)
Definition spec_value (s : Split) : Q :=
  let v := or_default Numeric_default (Split_value s) in
  Numeric_num v # Z.to_pos (Numeric_denom v).

Fixpoint spec_sum (specs : list Split) : Q :=
  match specs with
  | [] => 0
  | s :: specs' => spec_value s + spec_sum specs'
  end%Q.

(** A split plan says what the request says, on objects that exist. *)
Record plan_matches (b : Book) (spec : Split) (p : SplitPlan) : Prop := {
  pm_account : exists context, FindAccount b (Split_account_guid spec) context = inr (account p);
  pm_value : Split_value spec = Some (NumericToProto (value p));
  pm_quantity : Split_quantity spec = Some (NumericToProto (quantity p));
  pm_value_pos : (0 < denom (value p))%Z;
  pm_quantity_pos : (0 < denom (quantity p))%Z;
  pm_memo : memo p = Split_memo spec;
  pm_action : action p = Split_action spec;
  pm_reconcile : match Split_reconcile_state spec with
                 | RECONCILE_STATE_UNSPECIFIED => reconcile p = NREC
                 | s => ReconcileStateFromProto s "" = inr (reconcile p)
                 end;
  pm_existing : existing p = None <-> Split_guid spec = "";
}.

Lemma NumericFromProto_inr n context v :
  NumericFromProto n context = inr v ->
  n = NumericToProto v /\ (0 < denom v)%Z.
Proof.
  unfold NumericFromProto. destruct (Z.leb_spec (Numeric_denom n) 0); [done|].
  intros [= <-]. by destruct n.
Qed.

Lemma or_default_numeric o v :
  or_default Numeric_default o = NumericToProto v -> (0 < denom v)%Z ->
  o = Some (NumericToProto v).
Proof.
  destruct o as [n|]; cbn; [by intros ->|].
  destruct v as [n d]; cbn. intros [= <- <-]. lia.
Qed.

Lemma claim_split_inr updating es cl guid field c cl' :
  claim_split updating es cl guid field = inr (c, cl') ->
  (guid = "" /\ c = None /\ cl' = cl) \/
  (guid <> "" /\ updating = true /\ (guid ∉ cl) /\ cl' = {[ guid ]} ∪ cl /\
   exists split, es !! guid = Some split /\ c = Some split).
Proof.
  unfold claim_split. destruct (decide (guid = "")) as [->|Hne].
  { intros [= <- <-]. by left. }
  destruct updating; cbn; [|done]. destruct (es !! guid) as [split|] eqn:He; [|done].
  destruct (decide (guid ∈ cl)); [done|]. intros [= <- <-]. right. eauto 10.
Qed.

Lemma plan_split_inr b updating es cl spec field p cl' :
  plan_split b updating es cl spec field = inr (p, cl') ->
  plan_matches b spec p /\
  claim_split updating es cl (Split_guid spec) field = inr (existing p, cl').
Proof.
  unfold plan_split.
  intros ((c & cl1) & Hc & Hk)%sbind_inr. apply sbind_inr in Hk as (a & Ha & Hk).
  apply sbind_inr in Hk as (v & Hv & Hk). apply sbind_inr in Hk as (q & Hq & Hk).
  apply sbind_inr in Hk as (r & Hr & Hk). cbn in Hk. injection Hk as <- <-.
  apply NumericFromProto_inr in Hv as [Hv Hvp].
  apply NumericFromProto_inr in Hq as [Hq Hqp].
  split; [|done]. split; cbn; try done; [by eexists|..].
  - by apply or_default_numeric.
  - by apply or_default_numeric.
  - destruct (decide _) as [->|Hne]; [by injection Hr as <-|].
    destruct (Split_reconcile_state spec); done.
  - apply claim_split_inr in Hc as [(-> & -> & _)|(Hne & _ & _ & _ & s & _ & ->)];
      [done|]. done.
Qed.

(** *** The loop over the splits *)
Definition claims_ok (es : gmap string SplitPtr) (st : PlanState)
    (l : list (string * SplitPtr)) : Prop :=
  claimed st = list_to_set l.*1 /\ NoDup l.*1 /\
  (forall k v, (k, v) ∈ l -> es !! k = Some v) /\
  omap existing (planned st) = l.*2.

Lemma claims_ok_step b updating es st spec field p cl' s l :
  plan_split b updating es (claimed st) spec field = inr (p, cl') ->
  claims_ok es st l ->
  exists l', claims_ok es (MkPlanState cl' s (planned st ++ [p])) l'.
Proof.
  intros [_ Hc]%plan_split_inr (Hcl & Hnd & Hes & Hom).
  apply claim_split_inr in Hc
    as [(_ & Hp & ->)|(_ & _ & Hnew & -> & split & He & Hp)].
  - exists l. split_and!; [done..|]. cbn. rewrite omap_app, Hom. cbn.
    by rewrite Hp, app_nil_r.
  - exists (l ++ [(Split_guid spec, split)]). rewrite Hcl in Hnew |- *.
    rewrite elem_of_list_to_set in Hnew. unfold claims_ok; cbn.
    rewrite omap_app, Hom, !fmap_app. cbn. rewrite Hp. split_and!; [|..].
    + rewrite list_to_set_app_L. cbn. by rewrite union_empty_r_L, union_comm_L.
    + apply NoDup_app. split_and!; [done| |apply NoDup_singleton].
      intros k Hk ->%list_elem_of_singleton. done.
    + intros k v [?|[= -> ->]%list_elem_of_singleton]%elem_of_app; by eauto.
    + done.
Qed.

Lemma spec_value_plan b spec p :
  plan_matches b spec p -> spec_value spec = gnc_value (value p).
Proof.
  intros []. unfold spec_value. rewrite pm_value0. symmetry. by apply gnc_value_pos.
Qed.

Lemma plan_splits_inr `{!GncValuesOk} b updating es i specs st st' :
  plan_splits b updating es i specs st = inr st' ->
  gnc_numeric_ok (sum st) = true ->
  gnc_numeric_ok (sum st') = true /\
  (gnc_value (sum st') == gnc_value (sum st) + spec_sum specs)%Q /\
  (exists ps, planned st' = planned st ++ ps /\ Forall2 (plan_matches b) specs ps) /\
  (forall l, claims_ok es st l -> exists l', claims_ok es st' l').
Proof.
  revert i st. induction specs as [|spec specs IH]; intros i st; cbn.
  - intros [= <-] Hok. split_and!; [done| | |eauto].
    + ring.
    + exists []. by rewrite app_nil_r.
  - intros ((p & cl') & Hp & Hk)%sbind_inr Hok. cbn in Hk.
    destruct (gnc_numeric_ok (gnc_numeric_add (sum st) (value p))) eqn:Hadd; [|done].
    cbn in Hk. destruct (IH _ _ Hk Hadd) as (Hok' & Hsum & (ps & Hps & Hall) & Hcl).
    apply plan_split_inr in Hp as Hpm. destruct Hpm as [Hpm _]. cbn in *.
    split_and!; [done|..].
    + rewrite Hsum, (spec_value_plan _ _ _ Hpm).
      destruct (numeric_add_error _ _ Hadd) as [_ Hv].
      rewrite numeric_add_exact by done. ring.
    + exists (p :: ps). rewrite Hps, <- app_assoc. split; [done|]. by constructor.
    + intros l Hl. eapply claims_ok_step in Hl as [l' Hl']; [|exact Hp]. eauto.
Qed.
End plans.

Section plan_theorems.
Context `{SessionEnv} `{!GncValuesOk}.

Lemma PlanTransaction_inr b now spec ex plan :
  PlanTransaction b now spec ex = inr plan ->
  exists currency_id date st,
    Transaction_currency spec = Some currency_id /\
    FindCommodity b currency_id "transaction.currency" = inr (currency plan) /\
    gnc_commodity_is_currency b (currency plan) = true /\
    Transaction_post_date spec = Some date /\
    DateFromProto date "transaction.post_date" = inr (post_date plan) /\
    Transaction_splits spec <> [] /\
    plan_splits b (bool_decide (is_Some ex)) (engine_splits_of b ex) 0
      (Transaction_splits spec) (MkPlanState ∅ gnc_numeric_zero []) = inr st /\
    gnc_numeric_zero_p (sum st) = true /\
    plan = MkTransactionPlan (currency plan) (post_date plan)
             (if decide (Transaction_enter_time_utc spec <> 0%Z)
              then Transaction_enter_time_utc spec else now)
             (Transaction_num spec) (Transaction_description spec)
             (planned st) (doomed_splits (engine_splits_of b ex) (claimed st)).
Proof.
  unfold PlanTransaction. destruct (Transaction_currency spec) as [cid|]; [|done].
  intros (c & Hc & Hk)%sbind_inr.
  destruct (gnc_commodity_is_currency b c) eqn:Hcur; [|done]. cbn in Hk.
  destruct (Transaction_post_date spec) as [date|]; [|done].
  apply sbind_inr in Hk as (d & Hd & Hk).
  destruct (decide (Transaction_splits spec = [])); [done|].
  apply sbind_inr in Hk as (st & Hst & Hk).
  destruct (gnc_numeric_zero_p (sum st)) eqn:Hz; [|done]. injection Hk as <-.
  cbn. exists cid, date, st. split_and!; done.
Qed.

Lemma start_claims es : claims_ok es (MkPlanState ∅ gnc_numeric_zero []) [].
Proof.
  split_and!; [done|apply NoDup_nil_2| |done]. by intros k v ?%not_elem_of_nil.
Qed.

(** Claimed and doomed splits are all the splits of the engine's table. *)
Lemma claimed_doomed es st l :
  claims_ok es st l ->
  omap existing (planned st) ++ doomed_splits es (claimed st) ≡ₚ
    (map_to_list es).*2.
Proof.
  intros (Hcl & Hnd & Hes & Hom). unfold doomed_splits. rewrite Hom, <- fmap_app.
  apply fmap_Permutation.
  assert (l ≡ₚ filter (fun kv : string * SplitPtr => kv.1 ∈ claimed st)
            (map_to_list es)) as Hl.
  { apply NoDup_Permutation.
    - by eapply NoDup_fmap_1.
    - apply NoDup_filter, NoDup_map_to_list.
    - intros [k v]. rewrite list_elem_of_filter, elem_of_map_to_list, Hcl. cbn.
      rewrite elem_of_list_to_set. split.
      + intros Hin. split; [|auto]. by apply (list_elem_of_fmap_2 fst _ (k, v)).
      + intros [([k' v'] & -> & Hin)%list_elem_of_fmap Hkv]. cbn in *.
        assert (v = v') as ->; [|done]. apply Hes in Hin. congruence. }
  rewrite Hl. apply filter_app_complement.
Qed.

Lemma engine_splits_perm b t :
  NoDup (GuidToString ∘ split_guid b <$> xaccTransGetSplitList b t) ->
  (map_to_list (engine_splits_of b (Some t))).*2 ≡ₚ xaccTransGetSplitList b t.
Proof.
  unfold engine_splits_of. generalize (xaccTransGetSplitList b t). intros l Hnd.
  pose (kv := fun s : SplitPtr => (GuidToString (split_guid b s), s)).
  assert (foldl (fun m s => <[GuidToString (split_guid b s) := s]> m)
            (∅ : gmap string SplitPtr) l = list_to_map (kv <$> reverse l)) as ->.
  { clear Hnd. induction l as [|s l IH] using rev_ind; [done|].
    rewrite foldl_app, IH, reverse_app. done. }
  assert ((kv <$> reverse l).*1 ≡ₚ GuidToString ∘ split_guid b <$> l) as Hp.
  { rewrite reverse_Permutation, <- list_fmap_compose. done. }
  rewrite map_to_list_to_map by (by rewrite Hp).
  rewrite <- list_fmap_compose, reverse_Permutation.
  unfold compose, kv; cbn. by rewrite list_fmap_id.
Qed.

(** A plan speaks only of the engine splits of its transaction. *)
Lemma engine_splits_own b t k x :
  engine_splits_of b (Some t) !! k = Some x -> x ∈ xaccTransGetSplitList b t.
Proof.
  unfold engine_splits_of. generalize (xaccTransGetSplitList b t). intros l.
  induction l as [|y l IH] using rev_ind; [cbn; by rewrite lookup_empty|].
  rewrite foldl_app. cbn. rewrite lookup_insert, elem_of_app.
  case_decide; [intros [= <-]; right; apply list_elem_of_here|by left; apply IH].
Qed.

Lemma plan_speaks_of_own b now spec ex plan x :
  PlanTransaction b now spec ex = inr plan ->
  x ∈ omap existing (splits plan) \/ x ∈ doomed plan ->
  exists t, ex = Some t /\ x ∈ xaccTransGetSplitList b t.
Proof.
  intros (cid & d & st & _ & _ & _ & _ & _ & _ & Hst & _ & ->)%PlanTransaction_inr Hx.
  cbn in Hx. destruct (plan_splits_inr _ _ _ _ _ _ _ Hst numeric_zero_ok)
    as (_ & _ & _ & Hcl). destruct (Hcl [] (start_claims _)) as [l Hl].
  apply elem_of_app in Hx. rewrite (claimed_doomed _ _ _ Hl) in Hx.
  apply list_elem_of_fmap in Hx as ([k y] & -> & Hin%elem_of_map_to_list).
  destruct ex as [t|]; [|cbn in Hin; by rewrite lookup_empty in Hin].
  exists t. split; [done|]. by eapply engine_splits_own.
Qed.

Lemma plan_sums_zero b now spec ex plan :
  PlanTransaction b now spec ex = inr plan -> (spec_sum (Transaction_splits spec) == 0)%Q.
Proof.
  intros (cid & d & st & _ & _ & _ & _ & _ & _ & Hst & Hz & _)%PlanTransaction_inr.
  destruct (plan_splits_inr _ _ _ _ _ _ _ Hst numeric_zero_ok) as (_ & Hsum & _).
  apply numeric_zero_p_iff in Hz as [_ Hz]. cbn in Hsum.
  rewrite <- Hz, Hsum, numeric_zero_value. ring.
Qed.

(** C21: A planned transaction is exactly balanced: the rational sum of the values
    the request gives its splits is zero. The plan's splits are the request's,
    one for one and in order, on accounts that exist, with positive
    denominators; and a post claims and dooms no engine split. *)
Theorem plan_transaction_sound b now spec ex plan :
  PlanTransaction b now spec ex = inr plan ->
  (spec_sum (Transaction_splits spec) == 0)%Q /\
  Transaction_splits spec <> [] /\
  gnc_commodity_is_currency b (currency plan) = true /\
  Forall2 (plan_matches b) (Transaction_splits spec) (splits plan) /\
  (ex = None -> omap existing (splits plan) = [] /\ doomed plan = []).
Proof.
  intros Hplan. pose proof (plan_sums_zero _ _ _ _ _ Hplan) as Hzero. revert Hplan.
  intros (cid & d & st & _ & _ & Hcur & _ & _ & Hne & Hst & _ & ->)%PlanTransaction_inr.
  cbn. destruct (plan_splits_inr _ _ _ _ _ _ _ Hst numeric_zero_ok)
    as (_ & _ & (ps & Hps & Hall) & Hcl). cbn in *. subst.
  split_and!; [done..|].
  - intros ->. destruct (Hcl [] (start_claims _)) as (l & _ & _ & Hes & Hom).
    assert (l = []) as ->.
    { apply elem_of_nil_inv. intros [k v] Hin. by apply Hes in Hin. }
    split; [exact Hom|]. unfold doomed_splits. cbn. by rewrite map_to_list_empty.
Qed.

(** On update a plan claims or dooms every split of the transaction, once. *)
Lemma plan_partition b now spec t plan :
  NoDup (GuidToString ∘ split_guid b <$> xaccTransGetSplitList b t) ->
  PlanTransaction b now spec (Some t) = inr plan ->
  omap existing (splits plan) ++ doomed plan ≡ₚ xaccTransGetSplitList b t.
Proof.
  intros Hnd (cid & d & st & _ & _ & _ & _ & _ & _ & Hst & _ & ->)%PlanTransaction_inr.
  cbn. destruct (plan_splits_inr _ _ _ _ _ _ _ Hst numeric_zero_ok)
    as (_ & _ & _ & Hcl). destruct (Hcl [] (start_claims _)) as [l Hl].
  rewrite (claimed_doomed _ _ _ Hl). by apply engine_splits_perm.
Qed.

(** C22: Full replacement: on update of a transaction whose splits have different
    GUIDs every engine split of it is either claimed by exactly one split of the
    request or doomed, and none is both. *)
Theorem plan_transaction_partition b now spec t plan :
  NoDup (GuidToString ∘ split_guid b <$> xaccTransGetSplitList b t) ->
  PlanTransaction b now spec (Some t) = inr plan ->
  omap existing (splits plan) ++ doomed plan ≡ₚ xaccTransGetSplitList b t.
Proof. apply plan_partition. Qed.

(** The codes a plan is refused with before its balance is looked at. *)
Definition not_unbalanced {A} (r : ShimError + A) : Prop :=
  forall e, r = inl e -> code_ e <> ERROR_CODE_UNBALANCED_TRANSACTION.

Lemma not_unbalanced_sbind {A B} (m : ShimError + A) (k : A -> ShimError + B) :
  not_unbalanced m -> (forall a, not_unbalanced (k a)) -> not_unbalanced (sbind m k).
Proof. intros Hm Hk e [->|(a & _ & He)]%sbind_inl; [by apply Hm|by eapply Hk]. Qed.

Lemma not_unbalanced_refuse {A} code message context :
  code <> ERROR_CODE_UNBALANCED_TRANSACTION ->
  not_unbalanced (refuse (A := A) code message context).
Proof. by intros Hc e [= <-]. Qed.

Lemma plan_split_code b updating es cl spec field :
  not_unbalanced (plan_split b updating es cl spec field).
Proof.
  assert (forall A (a : A), not_unbalanced (inr a)) as Hret by done.
  unfold plan_split, claim_split, FindAccount, StringToGuid, NumericFromProto,
    ReconcileStateFromProto.
  repeat first
    [ apply not_unbalanced_sbind; [|intros ?] | apply Hret
    | by apply not_unbalanced_refuse | case_match ].
Qed.

Lemma plan_splits_code b updating es i specs st e :
  plan_splits b updating es i specs st = inl e ->
  code_ e <> ERROR_CODE_UNBALANCED_TRANSACTION.
Proof.
  revert i st. induction specs as [|spec specs IH]; intros i st; cbn; [done|].
  intros [Hp|(p & _ & Hk)]%sbind_inl; [by eapply (plan_split_code _ _ _ _ _ _ _ Hp)|].
  destruct (gnc_numeric_ok _); cbn in Hk; [by eapply IH|]. by injection Hk as <-.
Qed.

(** A transaction is refused as unbalanced only when the exact sum of its split
    values is not zero. *)
Theorem plan_unbalanced_exact b now spec ex e :
  PlanTransaction b now spec ex = inl e ->
  code_ e = ERROR_CODE_UNBALANCED_TRANSACTION ->
  ~ (spec_sum (Transaction_splits spec) == 0)%Q.
Proof.
  unfold PlanTransaction. destruct (Transaction_currency spec) as [cid|].
  2:{ by intros [= <-]. }
  intros [Hc|(c & Hc & Hk)]%sbind_inl Hcode.
  { unfold FindCommodity, refuse in Hc. case_match; [done|]. by injection Hc as <-. }
  destruct (gnc_commodity_is_currency b c); cbn in Hk; [|by injection Hk as <-].
  destruct (Transaction_post_date spec) as [date|]; [|by injection Hk as <-].
  apply sbind_inl in Hk as [Hd|(d & Hd & Hk)].
  { unfold DateFromProto in Hd. repeat case_match; by simplify_eq/=. }
  destruct (decide (Transaction_splits spec = [])); [by injection Hk as <-|].
  apply sbind_inl in Hk as [Hst|(st & Hst & Hk)].
  { by apply plan_splits_code in Hst. }
  destruct (gnc_numeric_zero_p (sum st)) eqn:Hz; cbn in Hk; [done|].
  destruct (plan_splits_inr _ _ _ _ _ _ _ Hst numeric_zero_ok) as (Hok & Hsum & _).
  cbn in Hsum. intros H0'. assert (gnc_numeric_zero_p (sum st) = true); [|congruence].
  apply numeric_zero_p_iff. split; [done|]. rewrite Hsum, H0', numeric_zero_value. ring.
Qed.
End plan_theorems.

(** ** Atomicity of the handlers *)
Section atomicity.
Context `{SessionEnv}.

Lemma plan_split_verdicts b updating es cl spec field :
  verdicts (plan_split b updating es cl spec field).
Proof.
  unfold plan_split, claim_split.
  repeat first
    [ apply verdicts_inr | by apply verdicts_refuse | apply FindAccount_verdicts
    | apply NumericFromProto_verdicts | apply ReconcileStateFromProto_verdicts
    | apply verdicts_sbind; [|intros ?] | case_match ].
Qed.

Lemma plan_splits_verdicts b updating es i specs st :
  verdicts (plan_splits b updating es i specs st).
Proof.
  revert i st. induction specs as [|spec specs IH]; intros i st; cbn.
  - apply verdicts_inr.
  - apply verdicts_sbind; [apply plan_split_verdicts|intros p].
    case_match; [by apply verdicts_refuse|apply IH].
Qed.

Lemma PlanTransaction_verdicts b now spec ex :
  verdicts (PlanTransaction b now spec ex).
Proof.
  unfold PlanTransaction.
  repeat first
    [ apply verdicts_inr | by apply verdicts_refuse | apply FindCommodity_verdicts
    | apply DateFromProto_verdicts | apply plan_splits_verdicts
    | apply verdicts_sbind; [|intros ?] | case_match ].
Qed.

Lemma apply_split_succeeds t p : succeeds (apply_split t p).
Proof. unfold apply_split. eauto 20 with handlers. Qed.

Lemma ApplyPlan_succeeds t plan : succeeds (ApplyPlan t plan).
Proof.
  unfold ApplyPlan. pose proof apply_split_succeeds. eauto 20 with handlers.
Qed.
End atomicity.

#[export] Hint Resolve PlanTransaction_verdicts ApplyPlan_succeeds : handlers.

Section handlers.
Context `{SessionEnv}.

Lemma PostTransaction_atomic request now : atomic (PostTransaction_edit request now).
Proof. unfold PostTransaction_edit. solve_atomic. Qed.

Lemma UpdateTransaction_atomic request now :
  atomic (UpdateTransaction_edit request now).
Proof. unfold UpdateTransaction_edit. solve_atomic. Qed.

Lemma DeleteTransaction_atomic request now :
  atomic (DeleteTransaction_edit request now).
Proof. unfold DeleteTransaction_edit. solve_atomic. Qed.

Context `{SqliteEnv} `{GrpcEnv} `{Proto Outcome} `{Proto Transaction} `{Proto Empty}.

(** C23: The three mutating transaction handlers have the protocol's shape: a post
    or update that is refused has touched nothing, since its whole plan is
    checked before the edit begins; applying a plan never fails; and what an
    open book refuses is always a verdict. *)
Theorem transaction_handlers_conform :
  (forall r, conforms (PostTransaction_apply r)
               (plan_of (PostTransaction_edit r) xaccTransCommitEdit)) /\
  (forall r, conforms (UpdateTransaction_apply r)
               (plan_of (UpdateTransaction_edit r) xaccTransCommitEdit)) /\
  (forall r, conforms (DeleteTransaction_apply r)
               (plan_of (DeleteTransaction_edit r) DeleteTransaction_commit)) /\
  (forall t plan s, exists s', ApplyPlan t plan s = (s', Ret tt)) /\
  (forall now s e, session_ s <> None ->
     (exists r, plan_of (PostTransaction_edit r) xaccTransCommitEdit now s = Refuse e) \/
     (exists r, plan_of (UpdateTransaction_edit r) xaccTransCommitEdit now s = Refuse e) \/
     (exists r, plan_of (DeleteTransaction_edit r) DeleteTransaction_commit now s = Refuse e) ->
     IsDeterministicVerdict (code_ e) = true).
Proof.
  split_and!;
    [intros r; apply edit_then_commit_conforms; intros now;
     auto using PostTransaction_atomic, UpdateTransaction_atomic,
       DeleteTransaction_atomic..| |].
  - intros t plan s. destruct (ApplyPlan_succeeds t plan s) as (s' & [] & Ha). eauto.
  - intros now s e Hs [[r Hp]|[[r Hp]|[r Hp]]];
      eapply plan_of_refusal in Hp as [?|[_ ?]];
      auto using PostTransaction_atomic, UpdateTransaction_atomic,
        DeleteTransaction_atomic; done.
Qed.
End handlers.
