(* ===== verification/Query.v ===== *)
(** * The paged split query: [QuerySplits] of [rpc/transaction_service.cpp] *)
From S2P Require Import Prelude.
From S2P Require Import Messages.
From S2P Require Import Engine.
From S2P Require Import Errors.
From S2P Require Import Map.
From S2P Require Import Session.
From S2P Require Import Worker.
From S2P Require Import Journal.
From S2P Require Import Mutation.
From S2P Require Import Rpc.
From S2P Require Import Accounts.
Local Open Scope prog_scope.

Definition kDefaultPageSize : Z := 100.
Definition kMaxPageSize : Z := 500.

(** The clamping of [page_size]. *)
Definition effective_page_size (page_size : Z) : Z :=
  let page_size := if (page_size <=? 0)%Z then kDefaultPageSize else page_size in
  if (kMaxPageSize <? page_size)%Z then kMaxPageSize else page_size.

Section query.
Context `{SessionEnv}.

(** The bit of one state in the mask. *)
Definition cleared_bit (state : ReconcileState) : ShimError + Z :=
  match state with
  | RECONCILE_STATE_NOT_RECONCILED => inr CLEARED_NO
  | RECONCILE_STATE_CLEARED => inr CLEARED_CLEARED
  | RECONCILE_STATE_RECONCILED => inr CLEARED_RECONCILED
  | RECONCILE_STATE_FROZEN => inr CLEARED_FROZEN
  | RECONCILE_STATE_VOIDED => inr CLEARED_VOIDED
  | _ => refuse ERROR_CODE_INVALID_ARGUMENT "unspecified reconcile state" "states"
  end.

Fixpoint mask_loop (states : list ReconcileState) (mask : Z) : ShimError + Z :=
  match states with
  | [] => inr mask
  | state :: states' =>
      bit <-? cleared_bit state ;; mask_loop states' (Z.lor mask bit)
  end.

Definition ClearedMaskFromStates (states : list ReconcileState) : ShimError + Z :=
  mask_loop states 0.

(** The accounts of the request; [g_list_prepend] reverses them. *)
Fixpoint find_accounts (b : Book) (guids : list string) (accounts : list AccountPtr) :
    ShimError + list AccountPtr :=
  match guids with
  | [] => inr accounts
  | guid :: guids' =>
      account <-? FindAccount b guid "account_guids" ;;
      find_accounts b guids' (account :: accounts)
  end.

(** An optional bound of the request, resolved. *)
Definition resolve {A B} (f : A -> ShimError + B) (o : option A) : ShimError + option B :=
  match o with
  | None => inr None
  | Some a => b <-? f a ;; inr (Some b)
  end.

Definition day_start (d : GDate) : Z :=
  gnc_dmy2time64 (g_date_get_day d) (g_date_get_month d) (g_date_get_year d).
Definition day_end (d : GDate) : Z :=
  gnc_dmy2time64_end (g_date_get_day d) (g_date_get_month d) (g_date_get_year d).

(** What a request asks of the engine, the value bounds, the page size and the
    token. *)
Record ResolvedQuery := MkResolvedQuery {
  rq_query : SplitQuery AccountPtr;
  rq_min : option gnc_numeric;
  rq_max : option gnc_numeric;
  rq_page_size : Z;
}.

(** Everything before the query object exists. *)
Definition resolve_query (b : Book) (request : QuerySplitsRequest) :
    ShimError + ResolvedQuery :=
  accounts <-? find_accounts b (QuerySplitsRequest_account_guids request) [] ;;
  from <-? resolve (fun d => DateFromProto d "date_from")
             (QuerySplitsRequest_date_from request) ;;
  to <-? resolve (fun d => DateFromProto d "date_to")
           (QuerySplitsRequest_date_to request) ;;
  cleared_mask <-? ClearedMaskFromStates (QuerySplitsRequest_states request) ;;
  value_min <-? resolve (fun n => NumericFromProto n "value_min")
                  (QuerySplitsRequest_value_min request) ;;
  value_max <-? resolve (fun n => NumericFromProto n "value_max")
                  (QuerySplitsRequest_value_max request) ;;
  let start := from_option day_start 0%Z from in
  let end_ := from_option day_end 0%Z to in
  let has_from := bool_decide (is_Some from) in
  let has_to := bool_decide (is_Some to) in
  inr (MkResolvedQuery
         (MkSplitQuery accounts
            (if has_from || has_to then Some (has_from, start, has_to, end_) else None)
            (if decide (QuerySplitsRequest_description_contains request = "")
             then None
             else Some (c_str (QuerySplitsRequest_description_contains request)))
            (if decide (QuerySplitsRequest_memo_contains request = "")
             then None
             else Some (c_str (QuerySplitsRequest_memo_contains request)))
            (if decide (QuerySplitsRequest_states request = [])
             then None else Some cleared_mask))
         value_min value_max
         (effective_page_size (QuerySplitsRequest_page_size request))).

(** One element of the response. *)
Definition split_with_context (b : Book) (split : SplitPtr) : SplitWithContext :=
  let transaction := xaccSplitGetParent b split in
  MkSplitWithContext (SplitToProto b split)
    (GuidToString (transaction_guid b transaction))
    (date_field (xaccTransGetDatePostedGDate b transaction))
    (safe (xaccTransGetDescription b transaction))
    (CommodityIdToProto b <$> xaccTransGetCurrency b transaction).

Definition below (b : Book) (bound : option gnc_numeric) (split : SplitPtr) : bool :=
  match bound with
  | Some m => (gnc_numeric_compare (xaccSplitGetValue b split) m <? 0)%Z
  | None => false
  end.
Definition above (b : Book) (bound : option gnc_numeric) (split : SplitPtr) : bool :=
  match bound with
  | Some m => (0 <? gnc_numeric_compare (xaccSplitGetValue b split) m)%Z
  | None => false
  end.

(** What the loop leaves: the splits emitted, the next page's token, and
    whether it is still skipping to a token it never saw. *)
Record PageState := MkPageState {
  emitted : list SplitWithContext;
  next_page_token : string;
  skipping : bool;
  token_seen : bool;
}.

Definition last_guid (l : list SplitWithContext) : string :=
  from_option (fun s => Split_guid (SplitWithContext_split s)) "" (last l).

Fixpoint page_loop (b : Book) (q : ResolvedQuery) (page_token : string)
    (nodes : list SplitPtr) (st : PageState) : PageState :=
  match nodes with
  | [] => st
  | split :: nodes' =>
      if skipping st then
        if decide (GuidToString (split_guid b split) = page_token) then
          page_loop b q page_token nodes'
            (MkPageState (emitted st) (next_page_token st) false true)
        else page_loop b q page_token nodes' st
      else if below b (rq_min q) split then page_loop b q page_token nodes' st
      else if above b (rq_max q) split then page_loop b q page_token nodes' st
      else if (Z.of_nat (length (emitted st)) =? rq_page_size q)%Z then
        MkPageState (emitted st) (last_guid (emitted st)) (skipping st) (token_seen st)
      else
        page_loop b q page_token nodes'
          (MkPageState (emitted st ++ [split_with_context b split])
             (next_page_token st) (skipping st) (token_seen st))
  end.

Definition QuerySplits_fn (request : QuerySplitsRequest) :
    Prog Session QuerySplitsResponse :=
  book ;;;
  q <~ check (fun b => resolve_query b request) ;;
  let page_token := QuerySplitsRequest_page_token request in
  page <~ ask (fun b =>
    page_loop b q page_token (qof_query_run b (rq_query q))
      (MkPageState [] "" (negb (bool_decide (page_token = ""))) false)) ;;
  throw_if (skipping page && negb (token_seen page)) ERROR_CODE_INVALID_ARGUMENT
    "page_token does not match any current result" "page_token" ;;;
  ret (MkQuerySplitsResponse (emitted page) (next_page_token page)).

Definition QuerySplits `{GrpcEnv} (request : QuerySplitsRequest) :
    Prog (World Session) (Status * option QuerySplitsResponse) :=
  RunRpc (on_session (QuerySplits_fn request)).
End query.

(** ** Properties *)
Section paging.
Context `{SessionEnv}.

Lemma effective_page_size_pos n :
  (1 <= effective_page_size n <= kMaxPageSize)%Z.
Proof.
  unfold effective_page_size, kMaxPageSize, kDefaultPageSize.
  destruct (Z.leb_spec n 0); repeat case_match; lia.
Qed.

(** The splits of a result the request keeps. *)
Definition in_range (b : Book) (q : ResolvedQuery) (split : SplitPtr) : Prop :=
  below b (rq_min q) split = false /\ above b (rq_max q) split = false.

#[local] Instance in_range_dec b q split : Decision (in_range b q split).
Proof. unfold in_range. apply _. Defined.

Definition kept (b : Book) (q : ResolvedQuery) (nodes : list SplitPtr) :
    list SplitWithContext :=
  split_with_context b <$> filter (in_range b q) nodes.

(** A page from a position is the next kept splits, and its token is there
    exactly when something is left. *)
Lemma page_loop_emit b q tok nodes em :
  (Z.of_nat (length em) <= rq_page_size q)%Z ->
  let n := Z.to_nat (rq_page_size q) - length em in
  let page := em ++ take n (kept b q nodes) in
  forall seen,
  page_loop b q tok nodes (MkPageState em "" false seen) =
    MkPageState page
      (if decide (length (kept b q nodes) <= n) then "" else last_guid page)
      false seen.
Proof.
  revert em. induction nodes as [|split nodes IH]; intros em Hem n page seen.
  { cbn in page |- *. subst page. by rewrite take_nil, app_nil_r. }
  subst page. cbn [page_loop skipping]. unfold kept. rewrite filter_cons.
  destruct (below b (rq_min q) split) eqn:Hb.
  { rewrite decide_False by (intros [E _]; congruence). by apply IH. }
  destruct (above b (rq_max q) split) eqn:Ha.
  { rewrite decide_False by (intros [_ E]; congruence). by apply IH. }
  rewrite decide_True by (split; congruence). cbn [emitted fmap list_fmap].
  destruct (Z.eqb_spec (Z.of_nat (length em)) (rq_page_size q)) as [He|He].
  - assert (n = 0) as -> by (unfold n; lia). cbn.
    rewrite decide_False by lia. by rewrite app_nil_r.
  - assert (n = S (Z.to_nat (rq_page_size q) - length (em ++ [split_with_context b split])))
      as -> by (unfold n; rewrite length_app; cbn; lia).
    cbn [token_seen next_page_token skipping]. rewrite IH by (rewrite length_app; cbn; lia).
    cbn [take length]. rewrite <- app_assoc. cbn [app].
    unfold kept. f_equal. case_decide; case_decide; try done; lia.
Qed.

(** Skipping to a token that is there. *)
Lemma page_loop_skip b q tok pre split post em seen :
  ~ tok ∈ (GuidToString ∘ split_guid b <$> pre) ->
  GuidToString (split_guid b split) = tok ->
  page_loop b q tok (pre ++ split :: post) (MkPageState em "" true seen) =
    page_loop b q tok post (MkPageState em "" false true).
Proof.
  intros Hpre Hs. induction pre as [|p pre IH]; cbn.
  - by rewrite decide_True.
  - apply not_elem_of_cons in Hpre as [Hne Hpre].
    rewrite decide_False by (intros E; by apply Hne). by apply IH.
Qed.

(** The split a page ends with, in the engine's list. *)
Lemma kept_split_at b q n nodes :
  0 < n <= length (kept b q nodes) ->
  exists pre split post, nodes = pre ++ split :: post /\
    take n (kept b q nodes) = take (n - 1) (kept b q nodes) ++ [split_with_context b split] /\
    drop n (kept b q nodes) = kept b q post.
Proof.
  revert n. induction nodes as [|split nodes IH]; intros n; [cbn; lia|].
  unfold kept in *. rewrite filter_cons. destruct (decide (in_range b q split)).
  - cbn [fmap list_fmap length]. intros Hn. destruct n as [|[|n]]; [lia| |].
    + by exists [], split, nodes.
    + destruct (IH (S n)) as (pre & split' & post & -> & Ht & Hd); [lia|].
      exists (split :: pre), split', post. split; [done|]. split; [|done].
      change (take (S (S n)) ?l) with (take (S (S n)) l).
      cbn [take]. cbn [take] in Ht. rewrite Ht. cbn. by rewrite Nat.sub_0_r.
  - intros Hn. destruct (IH n Hn) as (pre & split' & post & -> & Ht & Hd).
    by exists (split :: pre), split', post.
Qed.

Definition with_token (request : QuerySplitsRequest) (token : string) :
    QuerySplitsRequest :=
  MkQuerySplitsRequest (QuerySplitsRequest_account_guids request)
    (QuerySplitsRequest_date_from request) (QuerySplitsRequest_date_to request)
    (QuerySplitsRequest_description_contains request)
    (QuerySplitsRequest_memo_contains request)
    (QuerySplitsRequest_value_min request) (QuerySplitsRequest_value_max request)
    (QuerySplitsRequest_states request) (QuerySplitsRequest_page_size request) token.

(** A client that follows the page tokens on an unchanged book; [None] when a
    call is refused or the fuel runs out. *)
Fixpoint follow_pages (fuel : nat) (request : QuerySplitsRequest) (token : string)
    (s : Session) : option (list (list SplitWithContext)) :=
  match QuerySplits_fn (with_token request token) s with
  | (_, Ret response) =>
      let page := QuerySplitsResponse_splits response in
      let next := QuerySplitsResponse_next_page_token response in
      if decide (next = "") then Some [page]
      else match fuel with
           | 0 => None
           | S fuel' => cons page <$> follow_pages fuel' request next s
           end
  | _ => None
  end.

(** The state in which a call with this token reads on from [post]. *)
Definition resumes (b : Book) (nodes : list SplitPtr) (token : string)
    (post : list SplitPtr) : Prop :=
  token = "" /\ post = nodes \/
  token <> "" /\ exists pre split, nodes = pre ++ split :: post /\
    GuidToString (split_guid b split) = token.

Lemma QuerySplits_resumes s q request token post :
  session_ s <> None -> resolve_query (qof s) request = inr q ->
  NoDup (GuidToString ∘ split_guid (qof s) <$> qof_query_run (qof s) (rq_query q)) ->
  (1 <= rq_page_size q)%Z ->
  resumes (qof s) (qof_query_run (qof s) (rq_query q)) token post ->
  let n := Z.to_nat (rq_page_size q) in
  let page := take n (kept (qof s) q post) in
  QuerySplits_fn (with_token request token) s =
    (s, Ret (MkQuerySplitsResponse page
               (if decide (length (kept (qof s) q post) <= n) then ""
                else last_guid page))).
Proof.
  intros Hs Hq Hnd Hsz Hres n page. unfold QuerySplits_fn, book, check, bind, gets, id, ask.
  destruct (session_ s); [|done].
  assert (resolve_query (qof s) (with_token request token) = inr q) as Hq' by exact Hq.
  cbn [QuerySplitsRequest_page_token with_token]. cbn beta iota. unfold ret at 1. rewrite Hq'. cbn.
  pose proof (page_loop_emit (qof s) q token post []) as Hemit.
  cbn [length app Z.of_nat] in Hemit. rewrite Nat.sub_0_r in Hemit.
  destruct Hres as [[-> ->]|(Hne & pre & split & Hn & Hg)].
  - rewrite bool_decide_eq_true_2 by done. cbn.
    by rewrite (Hemit ltac:(lia) false).
  - rewrite bool_decide_eq_false_2 by done. cbn. rewrite Hn in Hnd |- *.
    rewrite page_loop_skip; [|rewrite fmap_app in Hnd|done].
    + by rewrite (Hemit ltac:(lia) true).
    + apply NoDup_app in Hnd as (_ & Hnd & _). intros Hin.
      apply (Hnd _ Hin). cbn. rewrite Hg. apply list_elem_of_here.
Qed.

Lemma follow_pages_from `{!GncValuesOk} s q request :
  session_ s <> None -> resolve_query (qof s) request = inr q ->
  NoDup (GuidToString ∘ split_guid (qof s) <$> qof_query_run (qof s) (rq_query q)) ->
  (1 <= rq_page_size q)%Z ->
  forall fuel token post,
  length post <= fuel ->
  resumes (qof s) (qof_query_run (qof s) (rq_query q)) token post ->
  exists pages, follow_pages fuel request token s = Some pages /\
    concat pages = kept (qof s) q post /\
    Forall (fun page => (Z.of_nat (length page) <= rq_page_size q)%Z) pages.
Proof.
  intros Hs Hq Hnd Hsz fuel.
  induction fuel as [|fuel IH]; intros token post Hlen Hres;
    cbn [follow_pages];
    rewrite (QuerySplits_resumes _ _ _ _ post Hs Hq Hnd Hsz Hres);
    cbn [QuerySplitsResponse_splits QuerySplitsResponse_next_page_token];
    destruct (decide (length _ <= _)) as [Hk|Hk].
  - eexists. split; [by rewrite decide_True|]. cbn [concat]. rewrite app_nil_r.
    split; [by apply take_ge|]. constructor; [|done]. rewrite length_take. lia.
  - destruct post; [|cbn in Hlen; lia]. cbn in Hk. lia.
  - eexists. split; [by rewrite decide_True|]. cbn [concat]. rewrite app_nil_r.
    split; [by apply take_ge|]. constructor; [|done]. rewrite length_take. lia.
  - set (n := Z.to_nat (rq_page_size q)) in *.
    destruct (kept_split_at (qof s) q n post) as (pre & split & post' & Hpost & Ht & Hd);
      [lia|].
    assert (last_guid (take n (kept (qof s) q post)) =
            GuidToString (split_guid (qof s) split)) as Hg.
    { rewrite Ht. unfold last_guid. by rewrite last_snoc. }
    rewrite Hg. rewrite decide_False.
    2:{ intros E. pose proof (guid_to_string_length (split_guid (qof s) split)) as Hl.
        unfold GuidToString in E. by rewrite E in Hl. }
    destruct (IH (GuidToString (split_guid (qof s) split)) post')
      as (pages & Hp & Hc & Hall).
    + rewrite Hpost, length_app in Hlen. cbn in Hlen. lia.
    + right. split.
      { intros E. pose proof (guid_to_string_length (split_guid (qof s) split)) as Hl.
        unfold GuidToString in E. by rewrite E in Hl. }
      destruct Hres as [[_ Hn]|(_ & pre0 & split0 & Hn & _)].
      * exists pre, split. by rewrite <- Hpost.
      * exists (pre0 ++ split0 :: pre), split. rewrite Hn, Hpost.
        by rewrite <- app_assoc.
    + rewrite Hp. eexists. split; [done|]. cbn. rewrite Hc, <- Hd.
      split; [apply take_drop|]. constructor; [|done]. rewrite length_take. lia.
Qed.

Lemma resolve_query_size b request q :
  resolve_query b request = inr q ->
  rq_page_size q = effective_page_size (QuerySplitsRequest_page_size request).
Proof.
  unfold resolve_query. intros Hq. repeat (apply sbind_inr in Hq as (? & _ & Hq)).
  by injection Hq as <-.
Qed.

(** C27: Paging is complete: on an unchanged open book whose matching splits have
    different GUIDs, following the page tokens from a valid request ends, and the
    pages - none longer than the clamped page size - are together exactly the splits
    the engine's query returned that lie within the value bounds, each once and in
    the engine's order. *)
Theorem query_pages_complete `{!GncValuesOk} s q request :
  session_ s <> None -> resolve_query (qof s) request = inr q ->
  let nodes := qof_query_run (qof s) (rq_query q) in
  NoDup (GuidToString ∘ split_guid (qof s) <$> nodes) ->
  exists pages, follow_pages (length nodes) request "" s = Some pages /\
    concat pages = split_with_context (qof s) <$> filter (in_range (qof s) q) nodes /\
    Forall (fun page => (Z.of_nat (length page) <=
      effective_page_size (QuerySplitsRequest_page_size request))%Z) pages /\
    (1 <= effective_page_size (QuerySplitsRequest_page_size request) <= 500)%Z.
Proof.
  intros Hs Hq nodes Hnd.
  pose proof (resolve_query_size _ _ _ Hq) as Hsz.
  pose proof (effective_page_size_pos (QuerySplitsRequest_page_size request)) as Hpos.
  destruct (follow_pages_from s q request Hs Hq Hnd ltac:(lia) (length nodes) "" nodes)
    as (pages & Hp & Hc & Hall); [done|by left|].
  unfold kMaxPageSize in Hpos. exists pages. rewrite Hsz in Hall.
  split_and!; [done..|lia|lia].
Qed.

(** One page, whatever the token, the bounds and the engine's list. *)
Lemma page_loop_bounds b q tok nodes st :
  (1 <= rq_page_size q)%Z ->
  (Z.of_nat (length (emitted st)) <= rq_page_size q)%Z -> next_page_token st = "" ->
  let st' := page_loop b q tok nodes st in
  (Z.of_nat (length (emitted st')) <= rq_page_size q)%Z /\
  (next_page_token st' = "" \/
   Z.of_nat (length (emitted st')) = rq_page_size q /\
   next_page_token st' = last_guid (emitted st')).
Proof.
  intros Hsz. revert st. induction nodes as [|split nodes IH]; intros st Hlen Htok; cbn.
  { auto. }
  destruct (skipping st); [case_decide; by apply IH|].
  destruct (below b (rq_min q) split); [by apply IH|].
  destruct (above b (rq_max q) split); [by apply IH|].
  destruct (Z.eqb_spec (Z.of_nat (length (emitted st))) (rq_page_size q)) as [He|He].
  - cbn. auto.
  - apply IH; [|done]. cbn. rewrite length_app. cbn. lia.
Qed.

Lemma QuerySplits_ret request s s' r :
  QuerySplits_fn request s = (s', Ret r) ->
  exists q st,
    resolve_query (qof s) request = inr q /\
    st = page_loop (qof s) q (QuerySplitsRequest_page_token request)
           (qof_query_run (qof s) (rq_query q))
           (MkPageState [] ""
              (negb (bool_decide (QuerySplitsRequest_page_token request = ""))) false) /\
    r = MkQuerySplitsResponse (emitted st) (next_page_token st).
Proof. unfold QuerySplits_fn. intros Hrun. run_inv Hrun. eauto 10. Qed.

(** C28: A page is bounded by the clamped page size: for every request that is
    answered - any 32-bit page size, zero and negative ones included, any token -
    the page has at most that many splits, which is between 1 and 500 and the
    size that was asked for when that is in range; a next token comes only with
    a full page and is the GUID of its last split. *)
Theorem query_page_bounds request s s' r :
  QuerySplits_fn request s = (s', Ret r) ->
  let asked := QuerySplitsRequest_page_size request in
  let size := effective_page_size asked in
  (1 <= size <= 500)%Z /\ (1 <= asked <= 500 -> size = asked)%Z /\
  (Z.of_nat (length (QuerySplitsResponse_splits r)) <= size)%Z /\
  (QuerySplitsResponse_next_page_token r <> "" ->
     Z.of_nat (length (QuerySplitsResponse_splits r)) = size /\
     QuerySplitsResponse_next_page_token r = last_guid (QuerySplitsResponse_splits r)).
Proof.
  intros (q & st & Hq & Hst & ->)%QuerySplits_ret asked size.
  apply resolve_query_size in Hq as Hsz. fold asked size in Hsz.
  pose proof (effective_page_size_pos asked) as Hpos. fold size in Hpos.
  destruct (page_loop_bounds (qof s) q (QuerySplitsRequest_page_token request)
    (qof_query_run (qof s) (rq_query q)) (MkPageState [] ""
       (negb (bool_decide (QuerySplitsRequest_page_token request = ""))) false))
    as [Hlen Htok]; [lia|cbn; lia|done|].
  rewrite <- Hst, Hsz in Hlen, Htok. unfold kMaxPageSize in Hpos.
  split_and!; [lia|lia| |exact Hlen|].
  - unfold size, effective_page_size, kMaxPageSize, kDefaultPageSize. intros Ha.
    destruct (Z.leb_spec asked 0); repeat case_match; lia.
  - intros Hne. by destruct Htok as [?|[]].
Qed.
End paging.
