(* ===== verification/Commodities.v ===== *)
(** * The commodity and balance services: [rpc/commodity_service.cpp] *)
From S2P Require Import Prelude.
From S2P Require Import Messages.
From S2P Require Import Engine.
From S2P Require Import Errors.
From S2P Require Import Map.
From S2P Require Import Session.
From S2P Require Import Worker.
From S2P Require Import Journal.
From S2P Require Import Mutation.
From S2P Require Import Rpc.
From S2P Require Import Accounts.
From S2P Require Import Query.
From Stdlib Require Import QArith.
Local Close Scope Q_scope.
Local Open Scope prog_scope.

Definition Price_default : Price := MkPrice "" None None None None "".

Section commodities.
Context `{SessionEnv}.

Definition CommodityToProto (b : Book) (commodity : CommodityPtr) : Commodity :=
  MkCommodity (Some (CommodityIdToProto b commodity))
    (safe (gnc_commodity_get_fullname b commodity))
    (gnc_commodity_get_fraction b commodity)
    (gnc_commodity_is_currency b commodity).

Definition PriceToProto (b : Book) (price : PricePtr) : Price :=
  MkPrice (GuidToString (gnc_price_get_guid b price))
    (Some (CommodityIdToProto b (gnc_price_get_commodity b price)))
    (Some (CommodityIdToProto b (gnc_price_get_currency b price)))
    (date_field (time64_to_gdate (gnc_price_get_time64 b price)))
    (Some (NumericToProto (gnc_price_get_value b price)))
    (safe (gnc_price_get_source_string b price)).

Definition ListCommodities_fn : Prog Session (list Commodity) :=
  book ;;;
  ask (fun b =>
    CommodityToProto b <$>
      (namespace ← gnc_commodity_table_get_namespaces b;
       gnc_commodity_table_get_commodities b namespace)).

(** ** GetPrices *)

(** The loop's two [continue]s. *)
Definition price_in_range (b : Book) (from to : option Z) (price : PricePtr) : bool :=
  let stamp := gnc_price_get_time64 b price in
  negb (from_option (fun f => stamp <? f)%Z false from) &&
  negb (from_option (fun t => t <? stamp)%Z false to).

Definition GetPrices_fn (request : GetPricesRequest) : Prog Session (list Price) :=
  book ;;;
  commodity <~ check (fun b =>
    FindCommodity b (or_default CommodityId_default (GetPricesRequest_commodity request))
      "commodity") ;;
  currency <~ check (fun b =>
    resolve (fun id => FindCommodity b id "currency") (GetPricesRequest_currency request)) ;;
  from <~ check (fun _ =>
    resolve (fun d => DateFromProto d "date_from") (GetPricesRequest_date_from request)) ;;
  to <~ check (fun _ =>
    resolve (fun d => DateFromProto d "date_to") (GetPricesRequest_date_to request)) ;;
  ask (fun b =>
    PriceToProto b <$>
      filter (fun price => price_in_range b (day_start <$> from) (day_end <$> to) price = true)
        (gnc_pricedb_get_prices b commodity currency)).

(** ** AddPrice *)
Definition AddPrice_edit (request : AddPriceRequest) (now : Z) :
    Prog Session (PricePtr * Price) :=
  let spec := or_default Price_default (AddPriceRequest_price request) in
  throw_if (negb (bool_decide (Price_guid spec = "")))
    ERROR_CODE_INVALID_ARGUMENT "guid must be empty on create; the engine assigns"
    "price.guid" ;;;
  book ;;;
  commodity <~ check (fun b =>
    FindCommodity b (or_default CommodityId_default (Price_commodity spec))
      "price.commodity") ;;
  currency <~ check (fun b =>
    FindCommodity b (or_default CommodityId_default (Price_currency spec))
      "price.currency") ;;
  is_currency <~ ask (fun b => gnc_commodity_is_currency b currency) ;;
  throw_if (negb is_currency) ERROR_CODE_CURRENCY_MISMATCH
    "price currency is not a currency commodity" "price.currency" ;;;
  throw_if (negb (bool_decide (is_Some (Price_date spec))))
    ERROR_CODE_INVALID_ARGUMENT "date is required" "price.date" ;;;
  date <~ check (fun _ =>
    DateFromProto (or_default Date_default (Price_date spec)) "price.date") ;;
  value <~ check (fun _ =>
    NumericFromProto (or_default Numeric_default (Price_value spec)) "price.value") ;;
  price <~ make gnc_price_create ;;
  call (gnc_price_begin_edit price) ;;;
  call (gnc_price_set_commodity price commodity) ;;;
  call (gnc_price_set_currency price currency) ;;;
  call (gnc_price_set_time64 price
          (gnc_dmy2time64_neutral (g_date_get_day date) (g_date_get_month date)
             (g_date_get_year date))) ;;;
  call (gnc_price_set_value price value) ;;;
  call (gnc_price_set_source_string price
          (if decide (Price_source spec = "") then "shim:api"
           else c_str (Price_source spec))) ;;;
  out <~ ask (fun b => PriceToProto b price) ;;
  ret (price, out).

Definition AddPrice_commit (price : PricePtr) (b : Book) : Book :=
  gnc_price_unref price (gnc_pricedb_add_price price (gnc_price_commit_edit price b)).

(** ** GetBalance *)
Definition GetBalance_fn (request : GetBalanceRequest) : Prog Session Balance :=
  book ;;;
  account <~ check (fun b =>
    FindAccount b (GetBalanceRequest_account_guid request) "account_guid") ;;
  as_of <~ (match GetBalanceRequest_as_of request with
            | Some d => check (fun _ => DateFromProto d "as_of")
            | None => ret (g_date_set_dmy 31 12 9999)
            end) ;;
  let stamp := day_end as_of in
  target <~ (match GetBalanceRequest_convert_to request with
             | Some id => commodity <~ check (fun b => FindCommodity b id "convert_to") ;; ret (Some commodity)
             | None => ask (fun b => xaccAccountGetCommodity b account)
             end) ;;
  match target with
  | None =>
      throw_shim ERROR_CODE_INVALID_ARGUMENT
        "account has no commodity and convert_to is unset"
        (GetBalanceRequest_account_guid request)
  | Some target =>
      ask (fun b =>
        MkBalance
          (Some (NumericToProto
             (xaccAccountGetBalanceAsOfDateInCurrency b account stamp target
                (GetBalanceRequest_include_children request))))
          (Some (CommodityIdToProto b target))
          (match GetBalanceRequest_as_of request with
           | Some d => Some d
           | None => Some (DateToProto as_of)
           end))
  end.

(** ** GetTrialBalance

    The map's value is the first commodity seen under the key and the sum. *)
Definition trial_key (b : Book) (currency : CommodityPtr) : string * string :=
  (gnc_commodity_get_namespace b currency, gnc_commodity_get_mnemonic b currency).

Definition trial_step (b : Book)
    (sums : gmap (string * string) (CommodityPtr * gnc_numeric)) (split : SplitPtr) :
    gmap (string * string) (CommodityPtr * gnc_numeric) :=
  match xaccTransGetCurrency b (xaccSplitGetParent b split) with
  | None => sums
  | Some currency =>
      let key := trial_key b currency in
      let entry := default (currency, gnc_numeric_zero) (sums !! key) in
      <[key := (entry.1, gnc_numeric_add entry.2 (xaccSplitGetValue b split))]> sums
  end.

Definition GetTrialBalance_fn : Prog Session (list TrialBalanceEntry) :=
  book ;;;
  ask (fun b =>
    (fun e => MkTrialBalanceEntry (Some (CommodityIdToProto b e.2.1))
                (Some (NumericToProto e.2.2))) <$>
      map_items pair_le (foldl (trial_step b) ∅ (qof_query_run b all_splits))).
End commodities.

Section rpcs.
Context `{SessionEnv} `{SqliteEnv} `{GrpcEnv} `{Proto Outcome} `{Proto Price}.

Definition ListCommodities : Prog (World Session) (Status * option (list Commodity)) :=
  RunRpc (on_session ListCommodities_fn).

Definition GetPrices (request : GetPricesRequest) :
    Prog (World Session) (Status * option (list Price)) :=
  RunRpc (on_session (GetPrices_fn request)).

Definition GetBalance (request : GetBalanceRequest) :
    Prog (World Session) (Status * option Balance) :=
  RunRpc (on_session (GetBalance_fn request)).

Definition GetTrialBalance :
    Prog (World Session) (Status * option (list TrialBalanceEntry)) :=
  RunRpc (on_session GetTrialBalance_fn).

Definition AddPrice_apply (request : AddPriceRequest) : Apply Session Price :=
  edit_then_commit (AddPrice_edit request) AddPrice_commit.

Definition AddPrice `{Proto AddPriceRequest} (request : AddPriceRequest) :
    Prog (World Session) (Status * option Price) :=
  RunMutation (meta_id (AddPriceRequest_meta request)) (SerializeAsString request)
    "daicho.shim.v1.CommodityService/AddPrice" Price_default (AddPrice_apply request).

Lemma AddPrice_atomic request now : atomic (AddPrice_edit request now).
Proof. unfold AddPrice_edit. solve_atomic. Qed.

Lemma AddPrice_ret request now s s' p :
  AddPrice_edit request now s = (s', Ret p) ->
  exists commodity currency date value b,
    let spec := or_default Price_default (AddPriceRequest_price request) in
    FindCommodity (qof s) (or_default CommodityId_default (Price_commodity spec))
      "price.commodity" = inr commodity /\
    FindCommodity (qof s) (or_default CommodityId_default (Price_currency spec))
      "price.currency" = inr currency /\
    gnc_commodity_is_currency (qof s) currency = true /\
    DateFromProto (or_default Date_default (Price_date spec)) "price.date" = inr date /\
    NumericFromProto (or_default Numeric_default (Price_value spec)) "price.value" =
      inr value /\
    gnc_price_create (qof s) = (p.1, b).
Proof.
  unfold AddPrice_edit. intros Hrun. run_inv Hrun. cbn.
  match goal with Hc : negb _ = false |- _ => apply negb_false_iff in Hc end.
  match goal with Hm : gnc_price_create _ = _ |- _ => rewrite Hm end.
  match goal with Hc : negb (gnc_commodity_is_currency _ _) = false |- _ =>
    apply negb_false_iff in Hc end.
  eauto 20.
Qed.

(** AddPrice has the protocol's shape, refuses an open book's request only with
    a verdict, and makes a price object only for two commodities of the book,
    the second a currency, a calendar date and a value with a positive
    denominator. *)
Theorem add_price_conforms request :
  conforms (AddPrice_apply request) (plan_of (AddPrice_edit request) AddPrice_commit) /\
  (forall now s e,
     plan_of (AddPrice_edit request) AddPrice_commit now s = Refuse e ->
     IsDeterministicVerdict (code_ e) = true \/
     code_ e = ERROR_CODE_BOOK_NOT_OPEN /\ session_ s = None) /\
  (forall now s out so sc,
     plan_of (AddPrice_edit request) AddPrice_commit now s = Proceed out so sc ->
     let spec := or_default Price_default (AddPriceRequest_price request) in
     (exists context c, FindCommodity (qof s)
        (or_default CommodityId_default (Price_commodity spec)) context = inr c) /\
     (exists context c, FindCommodity (qof s)
        (or_default CommodityId_default (Price_currency spec)) context = inr c /\
        gnc_commodity_is_currency (qof s) c = true) /\
     (0 < Numeric_denom (or_default Numeric_default (Price_value spec)))%Z).
Proof.
  split_and!.
  - apply edit_then_commit_conforms. intros now. apply AddPrice_atomic.
  - intros now s e. apply plan_of_refusal, AddPrice_atomic.
  - intros now s out so sc (p & Hrun & _ & _)%plan_of_proceed.
    apply AddPrice_ret in Hrun as (c & u & d & v & b & Hc & Hu & Hcur & _ & Hv & _).
    split_and!; eauto. unfold NumericFromProto in Hv.
    destruct (Z.leb_spec (Numeric_denom (or_default Numeric_default
      (Price_value (or_default Price_default (AddPriceRequest_price request))))) 0);
      [done|lia].
Qed.
End rpcs.

(** ** The trial balance *)
Section trial.
Context `{SessionEnv}.

(** A split's currency and value, as the trial balance adds them. *)
Definition trial_entry (b : Book) (split : SplitPtr) :
    option (string * string * gnc_numeric) :=
  currency ← xaccTransGetCurrency b (xaccSplitGetParent b split);
  Some (trial_key b currency, xaccSplitGetValue b split).

Definition trial_entries (b : Book) : list (string * string * gnc_numeric) :=
  omap (trial_entry b) (qof_query_run b all_splits).

Lemma trial_sums b l m :
  snd <$> foldl (trial_step b) m l = add_all (omap (trial_entry b) l) (snd <$> m).
Proof.
  revert m. induction l as [|split l IH]; intros m; [done|]. cbn [foldl].
  rewrite IH.
  change (omap (trial_entry b) (split :: l)) with
    (match trial_entry b split with
     | Some e => e :: omap (trial_entry b) l
     | None => omap (trial_entry b) l
     end).
  unfold trial_step, trial_entry at 2.
  destruct (xaccTransGetCurrency _ _) as [c|]; [|done]. cbn [mbind option_bind].
  rewrite add_all_cons. f_equal. unfold add_to. cbn [fst snd]. rewrite fmap_insert, lookup_fmap. cbn.
  by destruct (m !! trial_key b c) as [[]|].
Qed.

Lemma trial_keys b l m :
  (forall k c v, m !! k = Some (c, v) -> trial_key b c = k) ->
  forall k c v, foldl (trial_step b) m l !! k = Some (c, v) -> trial_key b c = k.
Proof.
  revert m. induction l as [|split l IH]; intros m Hm; [done|]. cbn [foldl].
  apply IH. unfold trial_step.
  destruct (xaccTransGetCurrency _ _) as [c0|]; [|done]. intros k c v.
  rewrite lookup_insert. case_decide as Hk; [|apply Hm]. intros [= <- _].
  destruct (m !! trial_key b c0) as [[c1 v1]|] eqn:E; cbn; [|done].
  apply Hm in E. congruence.
Qed.

Local Abbreviation trial_table b :=
  (foldl (trial_step b) ∅ (qof_query_run b all_splits)).

(** A row of the table shows the commodity of its key. *)
Lemma trial_row_id b k c v :
  (k, (c, v)) ∈ map_items pair_le (trial_table b) ->
  CommodityIdToProto b c = MkCommodityId k.1 k.2.
Proof.
  intros Hin%elem_of_map_items.
  assert (trial_key b c = k) as <-; [|done].
  eapply trial_keys; [|exact Hin]. intros k' c' v'. by rewrite lookup_empty.
Qed.

Lemma trial_table_sums b : snd <$> trial_table b = add_all (trial_entries b) ∅.
Proof. rewrite trial_sums. by rewrite fmap_empty. Qed.

Lemma trial_table_keys b k : is_Some (trial_table b !! k) <-> k ∈ (trial_entries b).*1.
Proof.
  rewrite <- (fmap_is_Some snd), <- lookup_fmap, trial_table_sums, add_all_lookup_is_Some.
  rewrite lookup_empty. split; [|by right]. by intros [[]|].
Qed.

Definition trial_row (b : Book) (e : (string * string) * (CommodityPtr * gnc_numeric)) :
    TrialBalanceEntry :=
  MkTrialBalanceEntry (Some (CommodityIdToProto b e.2.1)) (Some (NumericToProto e.2.2)).

Lemma trial_rows_currencies b :
  TrialBalanceEntry_currency <$> (trial_row b <$> map_items pair_le (trial_table b)) =
  (fun k : string * string => Some (MkCommodityId k.1 k.2)) <$>
    (map_items pair_le (trial_table b)).*1.
Proof.
  rewrite <- !list_fmap_compose. apply list_fmap_ext. intros i [k [c v]] Hin.
  cbn. f_equal. by eapply trial_row_id, list_elem_of_lookup_2.
Qed.

(** C29: The trial balance has one entry for each currency of the book's
    transactions, and an entry whose sum is a well-formed number is the exact
    rational sum of the split values in that currency. *)
Theorem trial_balance_exact `{!GncValuesOk} s :
  session_ s <> None ->
  exists es, GetTrialBalance_fn s = (s, Ret es) /\
    NoDup (TrialBalanceEntry_currency <$> es) /\
    (forall id, Some id ∈ (TrialBalanceEntry_currency <$> es) <->
       (CommodityId_space id, CommodityId_mnemonic id) ∈ (trial_entries (qof s)).*1) /\
    (forall e, e ∈ es -> exists id v,
       e = MkTrialBalanceEntry (Some id) (Some (NumericToProto v)) /\
       (gnc_numeric_ok v = true ->
        (gnc_value v ==
         exact_sum (CommodityId_space id, CommodityId_mnemonic id)
           (trial_entries (qof s)))%Q)).
Proof.
  intros Hs. unfold GetTrialBalance_fn, book, bind, gets, id, ask.
  destruct (session_ s); [|done]. cbn. eexists. split; [done|].
  set (b := qof s). fold (trial_row b). rewrite trial_rows_currencies. split_and!.
  - apply NoDup_fmap_2; [|apply map_items_NoDup]. intros [? ?] [? ?] [= <- <-]. done.
  - intros cid. rewrite <- trial_table_keys, list_elem_of_fmap. split.
    + intros ([ns mn] & [= ->] & ([k [c v]] & Hk & Hin)%list_elem_of_fmap).
      cbn in Hk |- *. subst k. apply elem_of_map_items in Hin. eauto.
    + intros [[c v] Hc]. exists (CommodityId_space cid, CommodityId_mnemonic cid).
      split; [by destruct cid|]. apply list_elem_of_fmap.
      exists ((CommodityId_space cid, CommodityId_mnemonic cid), (c, v)).
      split; [done|]. by apply elem_of_map_items.
  - intros e ([k [c v]] & -> & Hin)%list_elem_of_fmap.
    exists (MkCommodityId k.1 k.2), v. rewrite <- (trial_row_id _ _ _ _ Hin).
    split; [done|]. intros Hok. rewrite (trial_row_id _ _ _ _ Hin). destruct k as [ns mn].
    apply elem_of_map_items in Hin. apply add_all_exact_empty; [|done].
    rewrite <- trial_table_sums, lookup_fmap. cbn. by rewrite Hin.
Qed.
End trial.
