(* ===== verification/SessionService.v ===== *)
(** * The session service: [rpc/session_service.cpp]

    Opening and closing the book, what is open, liveness, and the list of
    mutations whose outcome is unknown; and the read-only RPCs of every service
    taken together. *)
From S2P Require Import Prelude.
From S2P Require Import Messages.
From S2P Require Import Engine.
From S2P Require Import Errors.
From S2P Require Import Map.
From S2P Require Journal.
From S2P Require Import Session.
From S2P Require Import Worker.
From S2P Require Import Mutation.
From S2P Require Import Rpc.
From S2P Require Import Accounts.
From S2P Require Import Transactions.
From S2P Require Import Query.
From S2P Require Import Commodities.
Local Open Scope prog_scope.

(** The two version strings of the build. *)
Class Versions := {
  gnc_version : string;
  DAICHOD_VERSION : string;
}.

Section session_service.
Context `{SessionEnv} `{Versions} `{Journal.SqliteEnv} `{GrpcEnv}.

(** [session_->book()] comes first; the default currency is left unset. *)
Definition FillBookInfo : Prog Session BookInfo :=
  book ;;;
  root <~ root_account ;;
  guid <~ ask (fun b => GuidToString (account_guid b root)) ;;
  config <~ gets config_ ;;
  readonly <~ ask qof_book_is_readonly ;;
  ret (MkBookInfo guid None (RedactUri (book_uri config)) gnc_version
         DAICHOD_VERSION (read_only config || readonly)).

Definition OpenBook : Prog (World Session) (Status * option BookInfo) :=
  RunRpc (on_session (Open ;;; FillBookInfo)).

Definition CloseBook (fail_at : option string) :
    Prog (World Session) (Status * option unit) :=
  RunRpc (on_session (Close fail_at)).

Definition GetBookInfo : Prog (World Session) (Status * option BookInfo) :=
  RunRpc (on_session FillBookInfo).

(** Not routed through the engine queue. The two readings of the steady clock
    are in nanoseconds; [duration_cast] truncates. *)
Definition Ping (start_time now : Z) : Prog (World Session) (Status * PingResponse) :=
  w <~ gets id ;;
  ret (Status_OK,
       MkPingResponse (Z.of_nat (queue_depth (queue w)))
         (Z.quot (now - start_time) (10 ^ 9)) (open_ (engine w))).

Definition indeterminate_out (entry : Journal.IndeterminateEntry) :
    IndeterminateMutation :=
  MkIndeterminateMutation (Journal.ie_mutation_id entry) (Journal.ie_rpc_name entry)
    (Journal.ie_payload_sha256 entry) (Journal.ie_journaled_at_utc entry).

Definition ListIndeterminateMutations :
    Prog (World Session) (Status * option (list IndeterminateMutation)) :=
  RunRpc (entries <~ in_journal Journal.ListIndeterminate ;;
          ret (indeterminate_out <$> entries)).
End session_service.

(** ** Properties *)
Section reads.
Context `{SessionEnv}.

Lemma reads_gets {A} (f : Session -> A) : reads (gets f).
Proof. done. Qed.

Lemma returns_gets {A} (f : Session -> A) : returns (gets f).
Proof. done. Qed.

Lemma resolve_verdicts {A B} (f : A -> ShimError + B) o :
  (forall a, verdicts (f a)) -> verdicts (resolve f o).
Proof.
  intros Hf. destruct o as [a|]; [|done].
  apply verdicts_sbind; [apply Hf|intros; apply verdicts_inr].
Qed.

Lemma find_accounts_verdicts b guids acc : verdicts (find_accounts b guids acc).
Proof.
  revert acc. induction guids as [|guid guids IH]; intros acc; [done|].
  apply verdicts_sbind; [apply FindAccount_verdicts|intros; apply IH].
Qed.

Lemma mask_loop_verdicts states mask : verdicts (mask_loop states mask).
Proof.
  revert mask. induction states as [|state states IH]; intros mask; [done|].
  apply verdicts_sbind; [|intros; apply IH]. intros e. by destruct state; intros [= <-].
Qed.

Lemma resolve_query_verdicts b request : verdicts (resolve_query b request).
Proof.
  unfold resolve_query, ClearedMaskFromStates.
  repeat (apply verdicts_sbind;
    [auto using find_accounts_verdicts, resolve_verdicts, mask_loop_verdicts,
       DateFromProto_verdicts, NumericFromProto_verdicts|intros ?]).
  done.
Qed.
End reads.

#[export] Hint Resolve reads_gets returns_gets resolve_verdicts
  resolve_query_verdicts : handlers.

Section properties.
Context `{SessionEnv} `{Versions} `{Journal.SqliteEnv} `{GrpcEnv}.
Implicit Types (w : World Session).

Ltac solve_read_only :=
  apply RunRpc_read_only; eauto 30 with handlers.

(** Every read, handler by handler. *)
Lemma reads_change_nothing :
  read_only_rpc ListAccounts /\ (forall guid, read_only_rpc (GetAccount guid)) /\
  (forall guid, read_only_rpc (GetReconcileInfo guid)) /\
  (forall guid, read_only_rpc (GetTransaction guid)) /\
  (forall request, read_only_rpc (QuerySplits request)) /\
  read_only_rpc ListCommodities /\ (forall request, read_only_rpc (GetPrices request)) /\
  (forall request, read_only_rpc (GetBalance request)) /\
  read_only_rpc GetTrialBalance /\ read_only_rpc GetBookInfo /\
  (forall start now w, exists response,
     Ping start now w = (w, Ret (Status_OK, response)) /\
     PingResponse_queue_depth response = Z.of_nat (length (queue_ (queue w))) /\
     PingResponse_book_open response = open_ (engine w)).
Proof.
  split_and!.
  - unfold ListAccounts, ListAccounts_fn. solve_read_only.
  - intros. unfold GetAccount, GetAccount_fn. solve_read_only.
  - intros. unfold GetReconcileInfo, GetReconcileInfo_fn. solve_read_only.
  - intros. unfold GetTransaction, GetTransaction_fn. solve_read_only.
  - intros. unfold QuerySplits, QuerySplits_fn. solve_read_only.
  - unfold ListCommodities, ListCommodities_fn. solve_read_only.
  - intros. unfold GetPrices, GetPrices_fn. solve_read_only.
  - intros. unfold GetBalance, GetBalance_fn. solve_read_only.
  - unfold GetTrialBalance, GetTrialBalance_fn. solve_read_only.
  - unfold GetBookInfo, FillBookInfo. solve_read_only.
  - intros start now w. eexists. split; [done|]. by split.
Qed.

(** The ten RPCs that read: each answers in every world, never changes the
    book, the session or the journal, and carries a response exactly when its
    status is OK. Ping answers without the engine queue, even when that is full
    or draining. *)
Theorem read_rpcs_change_nothing :
  read_only_rpc ListAccounts /\ (forall guid, read_only_rpc (GetAccount guid)) /\
  (forall guid, read_only_rpc (GetReconcileInfo guid)) /\
  (forall guid, read_only_rpc (GetTransaction guid)) /\
  (forall request, read_only_rpc (QuerySplits request)) /\
  read_only_rpc ListCommodities /\ (forall request, read_only_rpc (GetPrices request)) /\
  (forall request, read_only_rpc (GetBalance request)) /\
  read_only_rpc GetTrialBalance /\ read_only_rpc GetBookInfo /\
  (forall start now w, exists response,
     Ping start now w = (w, Ret (Status_OK, response)) /\
     PingResponse_queue_depth response = Z.of_nat (length (queue_ (queue w))) /\
     PingResponse_book_open response = open_ (engine w)).
Proof. apply reads_change_nothing. Qed.

Definition book_not_open : ShimError :=
  MkShimError ERROR_CODE_BOOK_NOT_OPEN "no book is open" "".

Lemma FillBookInfo_closed s :
  session_ s = None -> FillBookInfo s = (s, Throw (ShimErr book_not_open)).
Proof. intros Hs. unfold FillBookInfo, book, bind, gets, id. by rewrite Hs. Qed.

Lemma FillBookInfo_ret s s' info :
  FillBookInfo s = (s', Ret info) ->
  s' = s /\ BookInfo_backend_uri info = RedactUri (book_uri (config_ s)).
Proof.
  unfold FillBookInfo, root_account, book, bind, gets, ask, id.
  destruct (session_ s) eqn:Hs; cbn; [|done]. rewrite Hs. cbn.
  by intros [= <- <-].
Qed.

(** CloseBook on an open book closes it whatever happens to the final save: a
    failed save is reported, and still nothing is open afterwards - GetBookInfo
    answers BOOK_NOT_OPEN, Ping says so, and the journal and the queue are
    untouched. An OpenBook that then succeeds has really opened the book, and
    describes it with the credentials of its URI redacted. *)
Theorem close_book_closes fail_at w p q :
  session_ (engine w) = Some p -> Enqueue tt (queue w) = inr q ->
  exists w' st out,
    CloseBook fail_at w = (w', Ret (st, out)) /\
    session_ (engine w') = None /\ journal w' = journal w /\ queue w' = queue w /\
    (st = Status_OK <-> (Close fail_at (engine w)).2 = Ret tt) /\
    GetBookInfo w' = (w', Ret (StatusFromException (ShimErr book_not_open), None)) /\
    (forall start now, exists response,
       Ping start now w' = (w', Ret (Status_OK, response)) /\
       PingResponse_book_open response = false) /\
    (forall w'' info, OpenBook w' = (w'', Ret (Status_OK, Some info)) ->
       open_ (engine w'') = true /\
       BookInfo_backend_uri info = RedactUri (book_uri (config_ (engine w)))).
Proof.
  intros Hs Hq.
  destruct (Close_open fail_at (engine w) p Hs) as (r & Hc & Hnd).
  unfold CloseBook. rewrite (RunRpc_admitted _ _ _ Hq).
  unfold on_session, zoom. rewrite Hc. cbn [snd].
  set (s' := MkSession _ _ _ _) in *.
  assert (exists st out, match r with
      | Ret a => (set_engine s' w, Ret (Status_OK, Some a))
      | Throw e => (set_engine s' w, Ret (StatusFromException e, None))
      | Died => (set_engine s' w, Died)
      end = (set_engine s' w, Ret (X := exn) (st, out)) /\ (st = Status_OK <-> r = Ret tt))
    as (st & out & -> & Hst).
  { destruct r as [[]|e|]; [by eexists _, _| |done]. eexists _, _. split; [done|].
    split; [by intros ?%StatusFromException_not_OK|done]. }
  exists (set_engine s' w), st, out. split_and!; try done.
  - unfold GetBookInfo. rewrite (RunRpc_admitted _ (set_engine s' w) q Hq).
    unfold on_session, zoom. cbn [engine set_engine].
    by rewrite FillBookInfo_closed.
  - intros start now. by eexists.
  - intros w'' info. unfold OpenBook. rewrite (RunRpc_admitted _ (set_engine s' w) q Hq).
    unfold on_session, zoom, bind. cbn [engine set_engine].
    pose proof (Open_result s' eq_refl) as Ho.
    destruct (Open s') as [s2 [[]|e|]]; [|done|done].
    destruct (FillBookInfo s2) as [s3 [info'|e|]] eqn:Hf;
      [|done|done].
    apply FillBookInfo_ret in Hf as [-> Hf]. intros [= <- <-]. cbn.
    destruct Ho as (_ & Ho & Hcfg & _). rewrite Hf, Hcfg. done.
Qed.
End properties.

(** ** A closed book *)
Section closed.
Context `{SessionEnv}.

(** Code that does nothing but refuse when no book is open. *)
Definition needs_book {A} (m : Prog Session A) : Prop :=
  forall s, session_ s = None -> exists e, m s = (s, Throw e) /\ refusal_ok s e.

Lemma needs_book_here {A} (k : unit -> Prog Session A) : needs_book (bind book k).
Proof.
  intros s Hs. eexists. split.
  - apply bind_throw_eq. unfold book, bind, gets, id. by rewrite Hs.
  - eexists. split; [done|]. by right.
Qed.

Lemma needs_book_later {A B} (m : Prog Session A) (k : A -> Prog Session B) :
  reads m -> returns m -> (forall a, needs_book (k a)) -> needs_book (bind m k).
Proof.
  intros Hm Hr Hk s Hs. unfold bind. destruct (Hm s) as [Hm1 Hme]. specialize (Hr s).
  destruct (m s) as [s1 [a|e|]]; cbn in *; subst; [by apply Hk| |done].
  exists e. split; [done|by apply Hme].
Qed.

Definition turned_away {Resp} (p : PlanResult Session Resp) : Prop :=
  exists e, p = Refuse e /\
    (IsDeterministicVerdict (code_ e) = true \/ code_ e = ERROR_CODE_BOOK_NOT_OPEN).

Lemma closed_book_refuses {P Resp} (prep : Z -> Prog Session (P * Resp)) commit :
  (forall t, needs_book (prep t)) -> forall now s, session_ s = None ->
  turned_away (plan_of prep commit now s).
Proof.
  intros Hn now s Hs. destruct (Hn now s Hs) as (e & He & se & -> & Hc).
  exists se. unfold plan_of. rewrite He. split; [done|]. tauto.
Qed.

Ltac solve_needs_book :=
  intros ?;
  repeat first [apply needs_book_here
               |apply needs_book_later;
                [solve [eauto with handlers]..|intros ?]].

(** On a closed book none of the eight mutations does anything: each is refused,
    either for what its request alone shows or with BOOK_NOT_OPEN, which the
    protocol does not record, so a retry on an open book executes. *)
Theorem mutations_need_a_book now s :
  session_ s = None ->
  (forall r, turned_away (plan_of (CreateAccount_edit r) xaccAccountCommitEdit now s)) /\
  (forall r, turned_away (plan_of (UpdateAccount_edit r) xaccAccountCommitEdit now s)) /\
  (forall r, turned_away (plan_of (DeleteAccount_edit r) DeleteAccount_commit now s)) /\
  (forall r, turned_away (plan_of (SetReconcileInfo_edit r) xaccAccountCommitEdit now s)) /\
  (forall r, turned_away (plan_of (PostTransaction_edit r) xaccTransCommitEdit now s)) /\
  (forall r, turned_away (plan_of (UpdateTransaction_edit r) xaccTransCommitEdit now s)) /\
  (forall r, turned_away (plan_of (DeleteTransaction_edit r) DeleteTransaction_commit now s)) /\
  (forall r, turned_away (plan_of (AddPrice_edit r) AddPrice_commit now s)).
Proof.
  intros Hs. split_and!; intros r; apply closed_book_refuses; (done || solve_needs_book).
Qed.
End closed.
