(* ===== verification/Faults.v ===== *)
(** * A journal that fails under a live daemon: [rpc/mutation.h]

    [Mutation.v] gives what a mutation does when every journal statement
    succeeds or the process dies. Here a statement fails - a full disk, an I/O
    error - and the process lives on: what the caller is told, what is in the
    journal, and in what state the book is left, by the statement that failed. *)
From S2P Require Import Prelude.
From S2P Require Import Messages.
From S2P Require Import Engine.
From S2P Require Import Errors.
From S2P Require Import Worker.
From S2P Require Import Journal.
From S2P Require Import Mutation.
Local Open Scope prog_scope.

Section faults.
Context {E : Type} `{SqliteEnv} `{GrpcEnv} `{Proto Outcome}.
Context {Resp : Type} `{Proto Resp}.
Implicit Types (w : World E) (plan : Plan E Resp) (apply : Apply E Resp) (f : SqlFault).

(** The journal's next [k] statements succeed, the one after fails. *)
Definition fails_after (k : nat) f w : World E :=
  on_journal (set_faults (replicate k None ++ [Some f])) w.

Definition journal_error f : exn :=
  ShimErr (MkShimError ERROR_CODE_ENGINE_ERROR ("journal: " +:+ fault_message f)
             (fault_context f)).

(** The statements of a first request: [RecordIntent], [GetOutcome], and then
    [RecordPending] and [RecordOutcome] when the handler goes through, the
    latter alone when its refusal is a verdict. *)
Definition statements (p : PlanResult E Resp) : nat :=
  match p with
  | Refuse e => if IsDeterministicVerdict (code_ e) then 3 else 2
  | Hang => 2
  | Proceed _ _ _ => 4
  end.

(** The world when statement [k] has failed: the engine is untouched up to the
    pending record, has the edit open when that fails, and has it committed when
    the outcome's record fails. *)
Definition failed_at (k : nat) (id bytes rpc : string) plan w : World E :=
  let wi := on_journal (with_intent id rpc bytes (clock w)) w in
  match k, plan (clock w) (engine w) with
  | 0, _ => w
  | 2, Proceed _ e_open _ => set_engine e_open wi
  | 3, Proceed out _ e_committed =>
      on_journal (with_pending id (SerializeAsString out)) (set_engine e_committed wi)
  | _, _ => wi
  end.

(** *** Statements against a schedule *)
Lemma set_faults_twice l l' (j : Journal) : set_faults l (set_faults l' j) = set_faults l j.
Proof. done. Qed.

Lemma set_faults_none (j : Journal) : faults j = [] -> set_faults [] j = j.
Proof. by destruct j; cbn; intros ->. Qed.

Lemma with_intent_set_faults id rpc bytes now l (j : Journal) :
  with_intent id rpc bytes now (set_faults l j) =
    set_faults l (with_intent id rpc bytes now j).
Proof. unfold with_intent. cbn. by destruct (intents j !! id). Qed.

Lemma stmt_passes {A} (m : Prog Journal A) l (j : Journal) :
  bind Stmt (fun _ => m) (set_faults (None :: l) j) = m (set_faults l j).
Proof. done. Qed.

Lemma stmt_fails {A} (m : Prog Journal A) f l (j : Journal) :
  bind Stmt (fun _ => m) (set_faults (Some f :: l) j) =
    (set_faults l j, Throw (journal_error f)).
Proof. done. Qed.

Lemma RecordIntent_passes id rpc bytes now l (j : Journal) :
  RecordIntent id rpc bytes now (set_faults (None :: l) j) =
    (set_faults l (with_intent id rpc bytes now j), Ret tt).
Proof.
  unfold RecordIntent. rewrite stmt_passes. unfold modify, with_intent. cbn.
  by destruct (intents j !! id).
Qed.

Lemma GetOutcome_passes id l (j : Journal) :
  applied j !! id = None ->
  GetOutcome id (set_faults (None :: l) j) = (set_faults l j, Ret None).
Proof.
  intros Ha. unfold GetOutcome. rewrite stmt_passes. unfold bind, gets. cbn. by rewrite Ha.
Qed.

Lemma RecordPending_passes id response l (j : Journal) :
  RecordPending id response (set_faults (None :: l) j) =
    (set_faults l (with_pending id response j), Ret tt).
Proof. done. Qed.

Lemma in_journal_at {A} (m : Prog Journal A) (j0 : Journal) w j r :
  m j0 = (j, r) -> in_journal m (set_journal j0 w) = (set_journal j w, r).
Proof. intros Hm. unfold in_journal, zoom. cbn. by rewrite Hm. Qed.

(** *** The execution *)

(** The engine's half: the handler and the two records that follow it. *)
Lemma execute_fails rpc id now resp apply plan k f (wi : World E) :
  conforms apply plan -> crash_at wi = None -> clock wi = now ->
  2 + k < statements (plan now (engine wi)) ->
  faults (journal wi) = [] ->
  execute rpc id now resp apply (fails_after k f wi) =
    (match k, plan now (engine wi) with
     | 0, Proceed _ e_open _ => set_engine e_open wi
     | 1, Proceed out _ e_committed =>
         on_journal (with_pending id (SerializeAsString out)) (set_engine e_committed wi)
     | _, _ => wi
     end, Throw (journal_error f)).
Proof.
  intros Hc Hcp Hclk Hk Hf. unfold execute, catch_shim, catch, bind. rewrite Hc.
  unfold handler_of. cbn [engine clock fails_after on_journal set_journal]. rewrite Hclk.
  destruct wi as [e [ii ap fk fl] q c cp]. cbn in Hcp, Hf, Hclk, Hk |- *. subst.
  destruct (plan now e) as [x| |out eo ec]; cbn [statements] in Hk; [|lia|].
  - destruct (IsDeterministicVerdict (code_ x)) eqn:Hv; [|lia].
    by assert (k = 0) as -> by lia.
  - destruct k as [|[|k]]; [done|done|lia].
Qed.

Lemma journal_failure_spec id bytes rpc resp apply plan k f w :
  conforms apply plan -> ready w -> valid_mutation_id id = true ->
  crash_at w = None -> applied (journal w) !! id = None ->
  k < statements (plan (clock w) (engine w)) ->
  RunMutation id bytes rpc resp apply (fails_after k f w) =
    (failed_at k id bytes rpc plan w,
     Ret (StatusFromException (journal_error f), None)) /\
  applied (journal (failed_at k id bytes rpc plan w)) !! id = None.
Proof.
  intros Hc [Hf Hs Hd] Hv Hcp Ha Hk. split.
  - unfold RunMutation, catch, bind. rewrite Run_admitted by done.
    assert (mutation_body id bytes rpc resp apply (fails_after k f w) =
      (failed_at k id bytes rpc plan w, Throw (journal_error f))) as ->; [|done].
    unfold mutation_body, ValidateMutationId. rewrite Hv.
    erewrite bind_ret_eq by done. erewrite bind_ret_eq by done.
    destruct k as [|k].
    { erewrite bind_throw_eq by (by apply in_journal_at, stmt_fails).
      unfold failed_at. by rewrite set_faults_none, set_journal_id. }
    cbn [replicate app].
    erewrite bind_ret_eq by (by apply in_journal_at, RecordIntent_passes).
    erewrite bind_ret_eq by (apply crash_pass; cbn; by rewrite Hcp).
    set (wi := on_journal (with_intent id rpc bytes (clock w)) w).
    assert (faults (journal wi) = []) as Hfi by (cbn; by rewrite with_intent_faults).
    destruct k as [|k].
    { erewrite bind_throw_eq by (by apply in_journal_at, stmt_fails).
      unfold failed_at. by rewrite set_faults_none. }
    cbn [replicate app].
    erewrite bind_ret_eq by
      (apply in_journal_at, GetOutcome_passes; by rewrite with_intent_applied).
    change (execute rpc id (clock w) resp apply (fails_after k f wi) =
      (failed_at (S (S k)) id bytes rpc plan w, Throw (journal_error f))).
    rewrite (execute_fails _ _ _ _ _ plan) by (try done; cbn; lia).
    unfold failed_at. fold wi. change (engine wi) with (engine w).
    destruct k as [|[|k]], (plan (clock w) (engine w)); cbn [statements] in Hk;
      try done; try lia; repeat case_match; lia.
  - unfold failed_at. cbn [on_journal journal set_journal].
    destruct k as [|[|[|[|k]]]], (plan (clock w) (engine w));
      cbn; by rewrite ?with_intent_applied.
Qed.
(** C17: A first request that meets a failing journal statement: the caller is told
    of the journal, not of its request; no outcome is recorded, so the id stays
    open to a retry; the book is untouched if the statement comes before the
    pending record, has the edit left open - neither committed nor rolled back -
    if it is the pending record, and has the edit committed if it is the record
    of the outcome. *)
Theorem journal_failure_exact id bytes rpc resp apply plan k f w :
  conforms apply plan -> ready w -> valid_mutation_id id = true ->
  crash_at w = None -> applied (journal w) !! id = None ->
  k < statements (plan (clock w) (engine w)) ->
  RunMutation id bytes rpc resp apply (fails_after k f w) =
    (failed_at k id bytes rpc plan w,
     Ret (StatusFromException (journal_error f), None)) /\
  applied (journal (failed_at k id bytes rpc plan w)) !! id = None.
Proof. apply journal_failure_spec. Qed.

(** When the outcome's record fails the book has the effect and the journal
    lists the id as indeterminate; and sent again, the request is carried out a
    second time, on the book that already has it. *)
Theorem unrecorded_outcome_reexecutes id bytes rpc resp apply plan f w out eo ec
    now out' eo' ec' :
  conforms apply plan -> ready w -> valid_mutation_id id = true ->
  crash_at w = None -> applied (journal w) !! id = None ->
  plan (clock w) (engine w) = Proceed out eo ec ->
  plan now ec = Proceed out' eo' ec' ->
  let w1 := (RunMutation id bytes rpc resp apply (fails_after 3 f w)).1 in
  let again := MkWorld (engine w1) (journal w1) (queue w1) now None in
  engine w1 = ec /\ id ∈ (unresolved_rows (journal w1)).*1 /\
  exists w2, RunMutation id bytes rpc resp apply again = (w2, Ret (Status_OK, Some out')) /\
    engine w2 = ec'.
Proof.
  intros Hc Hr Hv Hcp Ha Hp Hp' w1 again.
  assert (w1 = failed_at 3 id bytes rpc plan w) as E1.
  { unfold w1. rewrite (proj1 (journal_failure_spec _ _ _ _ _ _ 3 f _ Hc Hr Hv Hcp Ha
      ltac:(rewrite Hp; cbn; lia))). done. }
  clearbody w1. unfold failed_at in E1. rewrite Hp in E1.
  assert (applied (journal w1) !! id = None) as Ha1
    by (rewrite E1; cbn; by rewrite with_intent_applied).
  assert (faults (journal w1) = []) as Hf1
    by (rewrite E1; cbn; rewrite with_intent_faults; apply Hr).
  split; [by rewrite E1|]. split.
  - apply list_elem_of_fmap. destruct (with_intent_has id rpc bytes (clock w) (journal w)) as [i Hi].
    exists (id, set_pending (Some (SerializeAsString out)) i). split; [done|].
    unfold unresolved_rows. apply list_elem_of_filter. split; [done|].
    apply elem_of_map_to_list. rewrite E1. cbn. by rewrite lookup_alter_eq, Hi.
  - assert (ready again) as Hr1.
    { destruct Hr as [_ Hs Hd]. unfold again.
      split; [done|..]; cbn; by rewrite E1. }
    rewrite (RunMutation_spec _ _ _ _ _ plan) by done. unfold run_spec.
    rewrite bool_decide_eq_false_2 by done. unfold replay_spec.
    change (journal again) with (journal w1). rewrite Ha1.
    unfold execute_spec. cbn [clock engine on_journal set_journal].
    unfold again. cbn [clock engine on_journal set_journal]. rewrite E1. cbn. rewrite Hp'. by eexists.
Qed.
End faults.
