(* ===== verification/Recovery.v ===== *)
(** * Startup reconciliation: [ReconcilePendingMutations] of [journal/recovery.cpp]

    The loop over the pending, unresolved entries, over any verdict function
    [WasApplied]; the verdict itself is in [WasApplied.v]. *)
From S2P Require Import Prelude.
From S2P Require Import Messages.
From S2P Require Import Errors.
From S2P Require Import Worker.
From S2P Require Import Journal.
From S2P Require Import Mutation.

Section reconcile.
Context {E : Type} `{SqliteEnv} `{GrpcEnv} `{Proto Outcome}.
(** The verdict on one entry, read from the book; [None] is a malformed
    record ([std::nullopt]). *)
Context (WasApplied : E -> PendingEntry -> option bool).
Local Open Scope prog_scope.

(** The outcome recorded for an entry found applied. *)
Definition reconciled_outcome (entry : PendingEntry) : Outcome :=
  MkOutcome (pe_rpc_name entry) true (pe_pending_response entry) None.

(** One round of the loop; the result is what it adds to [applied_count]. *)
Definition reconcile_entry (entry : PendingEntry) : Prog (World E) nat :=
  book <~ gets engine ;;
  match WasApplied book entry with
  | Some true =>
      now <~ gets clock ;;
      in_journal
        (RecordOutcome (pe_mutation_id entry) (reconciled_outcome entry) now) ;;;
      ret 1
  | _ => in_journal (ClearPending (pe_mutation_id entry)) ;;; ret 0
  end.

Fixpoint reconcile_loop (entries : list PendingEntry) (applied_count : nat) :
    Prog (World E) nat :=
  match entries with
  | [] => ret applied_count
  | entry :: entries' =>
      n <~ reconcile_entry entry ;; reconcile_loop entries' (applied_count + n)
  end.

Definition ReconcilePendingMutations : Prog (World E) nat :=
  entries <~ in_journal ListPendingUnresolved ;; reconcile_loop entries 0.

(** What the journal's methods preserve, reconciliation does, however it ends. *)
Section preservation.
Context (R : World E -> World E -> Prop) `{!PreOrder R}.
Context (Rlist : preserves R (in_journal ListPendingUnresolved)).
Context (Rclear : forall id, preserves R (in_journal (ClearPending id))).
Context (Rrecord : forall id o now, preserves R (in_journal (RecordOutcome id o now))).

Lemma reconcile_entry_preserves entry : preserves R (reconcile_entry entry).
Proof. unfold reconcile_entry. preserving. Qed.

Lemma reconcile_loop_preserves entries n : preserves R (reconcile_loop entries n).
Proof.
  revert n. induction entries as [|entry entries IH]; intros n; cbn [reconcile_loop];
    preserving. apply reconcile_entry_preserves.
Qed.

Lemma reconcile_preserves : preserves R ReconcilePendingMutations.
Proof. unfold ReconcilePendingMutations. preserving. apply reconcile_loop_preserves. Qed.
End preservation.

(** ** The journal afterwards, row by row *)
Definition found_applied (e : E) (row : string * Intent) : bool :=
  bool_decide (WasApplied e (pending_entry row) = Some true).

Definition reconcile_row (e : E) (now : Z) (row : string * Intent)
    (j : Journal) : Journal :=
  if found_applied e row
  then with_outcome row.1 (reconciled_outcome (pending_entry row)) now j
  else set_intents (alter (set_pending None) row.1 (intents j)) j.

Definition is_pending (j : Journal) (row : string * Intent) : Prop :=
  intents j !! row.1 = Some row.2 /\ applied j !! row.1 = None /\
  is_Some (pending_response row.2).

(** The entry of [id] in the two tables after reconciliation. *)
Definition reconciled_applied (e : E) (now : Z) (j : Journal) (id : string) :
    option Applied :=
  match applied j !! id, intents j !! id with
  | Some a, _ => Some a
  | None, Some i =>
      if bool_decide (is_Some (pending_response i)) && found_applied e (id, i)
      then Some (MkApplied
                   (SerializeAsString (reconciled_outcome (pending_entry (id, i))))
                   now)
      else None
  | None, None => None
  end.

Definition reconciled_intent (e : E) (j : Journal) (id : string) :
    option Intent :=
  match applied j !! id, intents j !! id with
  | None, Some i =>
      Some (if found_applied e (id, i) then i else set_pending None i)
  | _, o => o
  end.

Lemma reconcile_entry_eq w row :
  faults (journal w) = [] -> c_str row.1 = row.1 ->
  is_pending (journal w) row ->
  reconcile_entry (pending_entry row) w =
    (on_journal (reconcile_row (engine w) (clock w) row) w,
     Ret (if found_applied (engine w) row then 1 else 0)).
Proof.
  intros Hf Hid (Hi & Ha & Hp). unfold reconcile_entry, reconcile_row.
  unfold found_applied. rewrite bind_ret_eq with (s' := w) (a := engine w) by done.
  assert (pe_mutation_id (pending_entry row) = row.1) as Hpe by done.
  destruct (WasApplied _ _) as [[]|] eqn:Hv.
  - rewrite bool_decide_eq_true_2 by done.
    rewrite bind_ret_eq with (s' := w) (a := clock w) by done.
    erewrite bind_ret_eq; [reflexivity|]. rewrite Hpe.
    by apply record_outcome_world.
  - rewrite bool_decide_eq_false_2 by done.
    by erewrite bind_ret_eq by (rewrite Hpe; by apply in_journal_eq, ClearPending_calm).
  - rewrite bool_decide_eq_false_2 by done.
    by erewrite bind_ret_eq by (rewrite Hpe; by apply in_journal_eq, ClearPending_calm).
Qed.

Lemma reconcile_row_other e now row j id :
  id <> row.1 ->
  intents (reconcile_row e now row j) !! id = intents j !! id /\
  applied (reconcile_row e now row j) !! id = applied j !! id.
Proof.
  intros Hne. unfold reconcile_row. destruct (found_applied e row); cbn.
  - by rewrite lookup_insert_ne.
  - by rewrite lookup_alter_ne.
Qed.

Lemma reconcile_row_faults e now row j :
  faults (reconcile_row e now row j) = faults j.
Proof. unfold reconcile_row. by destruct (found_applied e row). Qed.

Lemma foldl_row_faults e now rows j :
  faults (foldl (fun j row => reconcile_row e now row j) j rows) = faults j.
Proof.
  revert j. induction rows as [|row rows IH]; intros j; cbn; [done|].
  by rewrite IH, reconcile_row_faults.
Qed.

Lemma reconcile_loop_eq rows n w :
  faults (journal w) = [] -> NoDup rows.*1 ->
  (forall row, row ∈ rows -> c_str row.1 = row.1 /\ is_pending (journal w) row) ->
  exists k,
    reconcile_loop (pending_entry <$> rows) n w =
      (on_journal (fun j =>
         foldl (fun j row => reconcile_row (engine w) (clock w) row j) j rows) w,
       Ret k).
Proof.
  revert n w. induction rows as [|row rows IH]; intros n w Hf Hnd Hrows; cbn.
  - exists n. unfold on_journal. by rewrite set_journal_id.
  - apply NoDup_cons in Hnd as [Hnew Hnd].
    destruct (Hrows row) as [Hid Hp]; [apply list_elem_of_here|].
    erewrite bind_ret_eq by (by apply reconcile_entry_eq).
    edestruct (IH (n + (if found_applied (engine w) row then 1 else 0))
      (on_journal (reconcile_row (engine w) (clock w) row) w)) as [k Hk].
    + cbn. by rewrite reconcile_row_faults.
    + done.
    + intros row' Hin. destruct (Hrows row') as [? (? & ? & ?)];
        [by apply list_elem_of_further|].
      assert (row'.1 <> row.1) as Hne.
      { intros E'. apply Hnew. rewrite <- E'. by apply list_elem_of_fmap_2. }
      destruct (reconcile_row_other (engine w) (clock w) row (journal w) _ Hne).
      split; [done|]. cbn. split_and!; [congruence..|done].
    + exists k. exact Hk.
Qed.

Lemma foldl_row_lookup e now rows j :
  NoDup rows.*1 -> (forall row, row ∈ rows -> is_pending j row) ->
  forall id,
    (id ∉ rows.*1 ->
       intents (foldl (fun j row => reconcile_row e now row j) j rows) !! id =
         intents j !! id /\
       applied (foldl (fun j row => reconcile_row e now row j) j rows) !! id =
         applied j !! id) /\
    (id ∈ rows.*1 ->
       intents (foldl (fun j row => reconcile_row e now row j) j rows) !! id =
         reconciled_intent e j id /\
       applied (foldl (fun j row => reconcile_row e now row j) j rows) !! id =
         reconciled_applied e now j id).
Proof.
  revert j. induction rows as [|row rows IH]; intros j Hnd Hrows id; cbn.
  { split; [done|]. by intros ?%not_elem_of_nil. }
  apply NoDup_cons in Hnd as [Hnew Hnd].
  destruct (IH (reconcile_row e now row j) Hnd) with (id := id) as [IHout IHin].
  { intros row' Hin. destruct (Hrows row') as (? & ? & ?);
      [by apply list_elem_of_further|].
    assert (row'.1 <> row.1) as Hne.
    { intros E'. apply Hnew. rewrite <- E'. by apply list_elem_of_fmap_2. }
    destruct (reconcile_row_other e now row j _ Hne).
    split_and!; [congruence..|done]. }
  rewrite not_elem_of_cons, elem_of_cons. split.
  - intros [Hne Hout]. destruct (IHout Hout) as [-> ->].
    by apply reconcile_row_other.
  - intros [->|Hin].
    + destruct (IHout Hnew) as [-> ->].
      destruct (Hrows row) as (Hi & Ha & Hp); [apply list_elem_of_here|].
      unfold reconciled_intent, reconciled_applied. rewrite Hi, Ha.
      rewrite bool_decide_eq_true_2 by done. destruct row as [id i]; cbn in *.
      unfold reconcile_row. cbn. destruct (found_applied e (id, i)); cbn.
      * by rewrite lookup_insert_eq.
      * by rewrite lookup_alter_eq, Hi.
    + assert (id <> row.1) as Hne by (by intros ->).
      destruct (IHin Hin) as [-> ->].
      destruct (reconcile_row_other e now row j _ Hne) as [Hi Ha].
      unfold reconciled_intent, reconciled_applied. by rewrite Hi, Ha.
Qed.
End reconcile.

Section reconcile_properties.
Context {E : Type} `{SqliteEnvOk} `{GrpcEnv} `{Proto Outcome}.
Context (WasApplied : E -> PendingEntry -> option bool).

Definition pending_rows (j : Journal) : list (string * Intent) :=
  order_by_time
    (filter (fun row => is_Some (pending_response row.2)) (unresolved_rows j)).

Lemma elem_of_pending_rows j row :
  row ∈ pending_rows j <-> is_pending j row.
Proof.
  destruct row as [id i]. unfold pending_rows, is_pending.
  rewrite order_by_time_perm, list_elem_of_filter, elem_of_unresolved. tauto.
Qed.

Lemma pending_rows_NoDup j : NoDup (pending_rows j).*1.
Proof.
  unfold pending_rows. rewrite order_by_time_perm.
  eapply sublist_NoDup; [apply (unresolved_NoDup_ids j)|].
  apply fmap_sublist, sublist_filter.
Qed.

Lemma one_pending j id :
  (forall row, is_pending j row -> row.1 = id) -> length (pending_rows j) <= 1.
Proof.
  intros Hid. pose proof (pending_rows_NoDup j) as Hnd.
  assert (forall row, row ∈ pending_rows j -> row.1 = id) as Hall.
  { intros row ?%elem_of_pending_rows. by apply Hid. }
  destruct (pending_rows j) as [|r1 [|r2 rows]]; cbn in *; [lia..|].
  apply NoDup_cons in Hnd as [Hno _]. destruct Hno.
  rewrite (Hall r1), <- (Hall r2) by (set_solver). apply list_elem_of_here.
Qed.

(** The listing, where no statement fails. *)
Lemma list_pending_world (w : World E) :
  faults (journal w) = [] ->
  in_journal ListPendingUnresolved w =
    (w, Ret (pending_entry <$> pending_rows (journal w))).
Proof.
  intros Hf. apply in_journal_query. unfold ListPendingUnresolved. by rewrite stmt_calm.
Qed.

Lemma set_pending_none i : pending_response i = None -> set_pending None i = i.
Proof. destruct i; cbn. by intros ->. Qed.

(** A row that is not pending is left alone. *)
Lemma reconciled_unpending e now j id :
  (forall i, intents j !! id = Some i -> applied j !! id = None ->
             pending_response i = None) ->
  reconciled_applied WasApplied e now j id = applied j !! id /\
  reconciled_intent WasApplied e j id = intents j !! id.
Proof.
  intros Hp. unfold reconciled_applied, reconciled_intent.
  destruct (applied j !! id) as [a|]; [done|].
  destruct (intents j !! id) as [i|]; [|done].
  rewrite (Hp i), (set_pending_none i) by auto.
  rewrite bool_decide_eq_false_2 by (by intros []).
  by destruct (found_applied WasApplied e (id, i)).
Qed.

Lemma reconcile_world w :
  faults (journal w) = [] -> ids_printable (journal w) ->
  exists k j',
    ReconcilePendingMutations WasApplied w = (set_journal j' w, Ret k) /\
    faults j' = [] /\
    forall id,
      applied j' !! id =
        reconciled_applied WasApplied (engine w) (clock w) (journal w) id /\
      intents j' !! id =
        reconciled_intent WasApplied (engine w) (journal w) id.
Proof.
  intros Hf Hid.
  destruct (reconcile_loop_eq WasApplied (pending_rows (journal w)) 0 w)
    as [k Hk]; [done|apply pending_rows_NoDup| |].
  { intros row Hrow%elem_of_pending_rows. split; [|done].
    apply c_str_id. eapply Hid, Hrow. }
  eexists k, _. split; [|split].
  - unfold ReconcilePendingMutations.
    erewrite bind_ret_eq; [exact Hk|]. by apply list_pending_world.
  - by rewrite foldl_row_faults.
  - intros id.
    destruct (foldl_row_lookup WasApplied (engine w) (clock w)
      (pending_rows (journal w)) (journal w)) with (id := id) as [Hout Hin].
    { apply pending_rows_NoDup. }
    { by intros row ?%elem_of_pending_rows. }
    destruct (decide (id ∈ (pending_rows (journal w)).*1)) as [Hi|Hi].
    { destruct (Hin Hi). by split. }
    destruct (Hout Hi) as [-> ->].
    destruct (reconciled_unpending (engine w) (clock w) (journal w) id)
      as [-> ->]; [|done].
    intros i Hint Ha.
    destruct (pending_response i) as [p|] eqn:Hp; [|done]. destruct Hi.
    apply list_elem_of_fmap. exists (id, i). split; [done|].
    apply elem_of_pending_rows. split_and!; cbn; eauto.
Qed.

(** C18: When no statement fails and the ids on record are printable, as every
    accepted id is, reconciliation always finishes, leaves no pending record behind,
    records as applied exactly the pending mutations whose effect the book shows -
    with the pending response as the answer to a re-send - and reports the rest as
    indeterminate. *)
Theorem reconcile_exact `{!ProtoOk Outcome} w :
  faults (journal w) = [] -> ids_printable (journal w) ->
  exists k j',
    ReconcilePendingMutations WasApplied w = (set_journal j' w, Ret k) /\
    ListPendingUnresolved j' = (j', Ret []) /\
    (forall id a, applied (journal w) !! id = Some a ->
                  applied j' !! id = Some a) /\
    (forall id i p,
       intents (journal w) !! id = Some i ->
       applied (journal w) !! id = None -> pending_response i = Some p ->
       if bool_decide
            (WasApplied (engine w) (pending_entry (id, i)) = Some true)
       then GetOutcome id j' =
              (j', Ret (Some (MkOutcome (c_str (rpc_name i)) true p None)))
       else GetOutcome id j' = (j', Ret None) /\
            intents j' !! id = Some (set_pending None i)) /\
    (forall id, applied j' !! id = None -> is_Some (intents j' !! id) ->
       applied (journal w) !! id = None /\
       is_Some (intents (journal w) !! id)).
Proof.
  intros Hf Hid. destruct (reconcile_world w Hf Hid) as (k & j' & Hrun & Hf' & Hj).
  exists k, j'. split; [exact Hrun|].
  assert (pending_rows j' = []) as Hnone.
  { apply elem_of_nil_inv. intros [id i] (Hi & Ha & Hp)%elem_of_pending_rows.
    cbn in *. destruct (Hj id) as [Ha' Hi']. rewrite Ha in Ha'. rewrite Hi in Hi'.
    unfold reconciled_applied, reconciled_intent in *.
    destruct (applied (journal w) !! id); [done|].
    destruct (intents (journal w) !! id) as [i0|]; [|done].
    destruct (found_applied WasApplied (engine w) (id, i0)); injection Hi' as ->.
    - by rewrite bool_decide_eq_true_2 in Ha'.
    - by destruct Hp. }
  split_and!.
  - unfold ListPendingUnresolved. rewrite stmt_calm by done.
    unfold gets, pending_rows in *. by rewrite Hnone.
  - intros id a Ha. destruct (Hj id) as [-> _].
    unfold reconciled_applied. by rewrite Ha.
  - intros id i p Hi Ha Hp. destruct (Hj id) as [Ha' Hi'].
    unfold reconciled_applied, reconciled_intent in *.
    rewrite Ha, Hi in Ha', Hi'. rewrite Hp in Ha'.
    rewrite bool_decide_eq_true_2 in Ha' by eauto.
    fold (found_applied WasApplied (engine w) (id, i)).
    rewrite GetOutcome_calm, Ha' by done.
    destruct (found_applied WasApplied (engine w) (id, i)); [|done]; cbn.
    rewrite parse_serialize. unfold reconciled_outcome. cbn. by rewrite Hp.
  - intros id Ha' [i Hi']. destruct (Hj id) as [Ha Hi].
    rewrite Ha' in Ha. rewrite Hi' in Hi.
    unfold reconciled_applied, reconciled_intent in *.
    destruct (applied (journal w) !! id); [done|].
    split; [done|]. by destruct (intents (journal w) !! id).
Qed.
End reconcile_properties.
