(* ===== verification/WasApplied.v ===== *)
(** * The reconciliation verdict: [WasApplied] of [journal/recovery.cpp]

    Whether the engine commit of a pending mutation reached the book, read from
    the book the new process opened. [None] is [std::nullopt]. *)
From S2P Require Import Prelude.
From S2P Require Import Messages.
From S2P Require Import Engine.
From S2P Require Import Errors.
From S2P Require Import Map.
From S2P Require Import Session.
From S2P Require Import Worker.
From S2P Require Import Journal.
From S2P Require Import Mutation.
From S2P Require Import Recovery.
From S2P Require Import Rpc.
From S2P Require Import Accounts.
From S2P Require Import Transactions.
From S2P Require Import Query.
From S2P Require Import Commodities.

Inductive QofIdType := GNC_ID_ACCOUNT | GNC_ID_TRANS | GNC_ID_OTHER.

Section verdict.
Context `{Gnc}.
Context `{Proto Account} `{Proto ReconcileInfo} `{Proto Transaction} `{Proto Price}.
Context `{Proto DeleteAccountRequest} `{Proto DeleteTransactionRequest}.

Definition GuidExists (book : Book) (guid : string) (type : QofIdType) : bool :=
  match string_to_guid (c_str guid) with
  | None => false
  | Some parsed =>
      match type with
      | GNC_ID_ACCOUNT => bool_decide (is_Some (xaccAccountLookup book parsed))
      | GNC_ID_TRANS => bool_decide (is_Some (xaccTransLookup book parsed))
      | GNC_ID_OTHER => false
      end
  end.

(** The lambda [ends_with]. *)
Definition ends_with (rpc suffix : string) : bool :=
  (String.length suffix <=? String.length rpc)%nat &&
  bool_decide (sdrop (String.length rpc - String.length suffix) rpc = suffix).

Definition WasApplied (book : Book) (entry : PendingEntry) : option bool :=
  let rpc := pe_rpc_name entry in
  if ends_with rpc "/CreateAccount" then
    response ← ParseFromString (A := Account) (pe_pending_response entry);
    Some (GuidExists book (Account_guid response) GNC_ID_ACCOUNT)
  else if ends_with rpc "/UpdateAccount" then
    response ← ParseFromString (A := Account) (pe_pending_response entry);
    parsed ← string_to_guid (c_str (Account_guid response));
    account ← xaccAccountLookup book parsed;
    Some (bool_decide (SerializeAsString (AccountToProto book account) =
                       pe_pending_response entry))
  else if ends_with rpc "/DeleteAccount" then
    request ← ParseFromString (A := DeleteAccountRequest) (pe_request_payload entry);
    Some (negb (GuidExists book (DeleteAccountRequest_guid request) GNC_ID_ACCOUNT))
  else if ends_with rpc "/SetReconcileInfo" then
    response ← ParseFromString (A := ReconcileInfo) (pe_pending_response entry);
    parsed ← string_to_guid (c_str (ReconcileInfo_account_guid response));
    account ← xaccAccountLookup book parsed;
    Some (bool_decide (SerializeAsString (ReconcileInfoToProto book account) =
                       pe_pending_response entry))
  else if ends_with rpc "/PostTransaction" then
    response ← ParseFromString (A := Transaction) (pe_pending_response entry);
    Some (GuidExists book (Transaction_guid response) GNC_ID_TRANS)
  else if ends_with rpc "/UpdateTransaction" then
    response ← ParseFromString (A := Transaction) (pe_pending_response entry);
    parsed ← string_to_guid (c_str (Transaction_guid response));
    transaction ← xaccTransLookup book parsed;
    Some (bool_decide (SerializeAsString (TransactionToProto book transaction) =
                       pe_pending_response entry))
  else if ends_with rpc "/DeleteTransaction" then
    request ← ParseFromString (A := DeleteTransactionRequest) (pe_request_payload entry);
    Some (negb (GuidExists book (DeleteTransactionRequest_guid request) GNC_ID_TRANS))
  else if ends_with rpc "/AddPrice" then
    response ← ParseFromString (A := Price) (pe_pending_response entry);
    parsed ← string_to_guid (c_str (Price_guid response));
    Some (bool_decide (is_Some (gnc_price_lookup book parsed)))
  else None.
End verdict.

(** ** What the verdict says of the records the handlers leave *)
Section exact.
Context `{Gnc} `{!GncValuesOk}.
Context `{ProtoOk Account} `{ProtoOk ReconcileInfo} `{ProtoOk Transaction}
  `{ProtoOk Price} `{ProtoOk DeleteAccountRequest} `{ProtoOk DeleteTransactionRequest}.
Implicit Types (b : Book) (g : GncGUID).

Lemma option_bind_bool {A} (o : option A) (P : A -> Prop) `{!forall a, Decision (P a)} :
  (a ← o; Some (bool_decide (P a))) = Some true <-> exists a, o = Some a /\ P a.
Proof.
  destruct o as [a|]; cbn.
  - split; [intros [= E%bool_decide_eq_true]; eauto|].
    intros (a' & [= <-] & Ha). by rewrite bool_decide_eq_true_2.
  - split; [done|by intros (? & ? & _)].
Qed.

Lemma serialize_eq_iff {A} `{ProtoOk A} (m m' : A) :
  SerializeAsString m = SerializeAsString m' <-> m = m'.
Proof. split; [apply serialize_inj|by intros ->]. Qed.

(** The suffixes the verdict knows. *)
Definition known_suffixes : list string :=
  ["/CreateAccount"; "/UpdateAccount"; "/DeleteAccount"; "/SetReconcileInfo";
   "/PostTransaction"; "/UpdateTransaction"; "/DeleteTransaction"; "/AddPrice"].

(** The full names of the RPCs, as the handlers journal them. *)
Definition account_rpc (name : string) : string :=
  "daicho.shim.v1.AccountService/" +:+ name.
Definition transaction_rpc (name : string) : string :=
  "daicho.shim.v1.TransactionService/" +:+ name.
Definition commodity_rpc (name : string) : string :=
  "daicho.shim.v1.CommodityService/" +:+ name.

Local Ltac verdict :=
  unfold WasApplied; cbn [pe_rpc_name pe_pending_response pe_request_payload];
  repeat match goal with
  | |- context [ends_with ?r ?x] =>
      let v := eval vm_compute in (ends_with r x) in
      change (ends_with r x) with v; cbv iota
  end;
  rewrite ?parse_serialize; cbn [mbind option_bind].

Lemma GuidExists_parsed b s g type :
  string_to_guid (c_str s) = Some g ->
  GuidExists b s type =
  match type with
  | GNC_ID_ACCOUNT => bool_decide (is_Some (xaccAccountLookup b g))
  | GNC_ID_TRANS => bool_decide (is_Some (xaccTransLookup b g))
  | GNC_ID_OTHER => false
  end.
Proof. intros Hg. unfold GuidExists. by rewrite Hg. Qed.

Lemma guid_text s g : s = GuidToString g -> string_to_guid (c_str s) = Some g.
Proof. intros ->. unfold GuidToString. by rewrite string_to_guid_c_str, string_to_guid_to_string. Qed.

(** *** The verdict, RPC by RPC *)
Section by_rpc.
Context (b : Book) (id payload response : string) (g : GncGUID).

Lemma found_create_account r :
  string_to_guid (c_str (Account_guid r)) = Some g ->
  WasApplied b (MkPendingEntry id (account_rpc "CreateAccount") payload
    (SerializeAsString r)) = Some true <-> is_Some (xaccAccountLookup b g).
Proof.
  intros Hg. verdict.
  by rewrite (GuidExists_parsed _ _ g), (inj_iff Some), bool_decide_eq_true.
Qed.

Lemma found_update_account r :
  string_to_guid (c_str (Account_guid r)) = Some g ->
  WasApplied b (MkPendingEntry id (account_rpc "UpdateAccount") payload
    (SerializeAsString r)) = Some true <->
  AccountToProto b <$> xaccAccountLookup b g = Some r.
Proof.
  intros Hg. verdict. rewrite Hg. cbn [mbind option_bind].
  rewrite option_bind_bool, fmap_Some. setoid_rewrite serialize_eq_iff.
  split; intros (x & Hx & E); by exists x.
Qed.

Lemma found_delete_account r :
  string_to_guid (c_str (DeleteAccountRequest_guid r)) = Some g ->
  WasApplied b (MkPendingEntry id (account_rpc "DeleteAccount") (SerializeAsString r)
    response) = Some true <-> xaccAccountLookup b g = None.
Proof.
  intros Hg. verdict.
  rewrite (GuidExists_parsed _ _ g), (inj_iff Some), negb_true_iff,
    bool_decide_eq_false by done.
  by rewrite <- eq_None_not_Some.
Qed.

Lemma found_set_reconcile_info r :
  string_to_guid (c_str (ReconcileInfo_account_guid r)) = Some g ->
  WasApplied b (MkPendingEntry id (account_rpc "SetReconcileInfo") payload
    (SerializeAsString r)) = Some true <->
  ReconcileInfoToProto b <$> xaccAccountLookup b g = Some r.
Proof.
  intros Hg. verdict. rewrite Hg. cbn [mbind option_bind].
  rewrite option_bind_bool, fmap_Some. setoid_rewrite serialize_eq_iff.
  split; intros (x & Hx & E); by exists x.
Qed.

Lemma found_post_transaction r :
  string_to_guid (c_str (Transaction_guid r)) = Some g ->
  WasApplied b (MkPendingEntry id (transaction_rpc "PostTransaction") payload
    (SerializeAsString r)) = Some true <-> is_Some (xaccTransLookup b g).
Proof.
  intros Hg. verdict.
  by rewrite (GuidExists_parsed _ _ g), (inj_iff Some), bool_decide_eq_true.
Qed.

Lemma found_update_transaction r :
  string_to_guid (c_str (Transaction_guid r)) = Some g ->
  WasApplied b (MkPendingEntry id (transaction_rpc "UpdateTransaction") payload
    (SerializeAsString r)) = Some true <->
  TransactionToProto b <$> xaccTransLookup b g = Some r.
Proof.
  intros Hg. verdict. rewrite Hg. cbn [mbind option_bind].
  rewrite option_bind_bool, fmap_Some. setoid_rewrite serialize_eq_iff.
  split; intros (x & Hx & E); by exists x.
Qed.

Lemma found_delete_transaction r :
  string_to_guid (c_str (DeleteTransactionRequest_guid r)) = Some g ->
  WasApplied b (MkPendingEntry id (transaction_rpc "DeleteTransaction")
    (SerializeAsString r) response) = Some true <-> xaccTransLookup b g = None.
Proof.
  intros Hg. verdict.
  rewrite (GuidExists_parsed _ _ g), (inj_iff Some), negb_true_iff,
    bool_decide_eq_false by done.
  by rewrite <- eq_None_not_Some.
Qed.

Lemma found_add_price r :
  string_to_guid (c_str (Price_guid r)) = Some g ->
  WasApplied b (MkPendingEntry id (commodity_rpc "AddPrice") payload
    (SerializeAsString r)) = Some true <-> is_Some (gnc_price_lookup b g).
Proof.
  intros Hg. verdict. rewrite Hg. cbn [mbind option_bind].
  by rewrite (inj_iff Some), bool_decide_eq_true.
Qed.
End by_rpc.

(** C19: The verdict on what each handler records is exact. A creation is found
    applied when the GUID the engine gave is in the book, a deletion when the
    GUID of the request is gone, a replacement when the object exists and its
    contract image is byte for byte the pending response; an RPC name of no
    handler is never found applied. *)
Theorem was_applied_exact b id payload :
  let verdict rpc payload response :=
    WasApplied b (MkPendingEntry id rpc payload response) in
  (forall g r, Account_guid r = GuidToString g ->
     verdict (account_rpc "CreateAccount") payload (SerializeAsString r) = Some true <->
     is_Some (xaccAccountLookup b g)) /\
  (forall g r, Account_guid r = GuidToString g ->
     verdict (account_rpc "UpdateAccount") payload (SerializeAsString r) = Some true <->
     AccountToProto b <$> xaccAccountLookup b g = Some r) /\
  (forall g m response,
     verdict (account_rpc "DeleteAccount")
       (SerializeAsString (MkDeleteAccountRequest m (GuidToString g))) response =
       Some true <-> xaccAccountLookup b g = None) /\
  (forall g r, ReconcileInfo_account_guid r = GuidToString g ->
     verdict (account_rpc "SetReconcileInfo") payload (SerializeAsString r) = Some true <->
     ReconcileInfoToProto b <$> xaccAccountLookup b g = Some r) /\
  (forall g r, Transaction_guid r = GuidToString g ->
     verdict (transaction_rpc "PostTransaction") payload (SerializeAsString r) =
       Some true <-> is_Some (xaccTransLookup b g)) /\
  (forall g r, Transaction_guid r = GuidToString g ->
     verdict (transaction_rpc "UpdateTransaction") payload (SerializeAsString r) =
       Some true <->
     TransactionToProto b <$> xaccTransLookup b g = Some r) /\
  (forall g m response,
     verdict (transaction_rpc "DeleteTransaction")
       (SerializeAsString (MkDeleteTransactionRequest m (GuidToString g))) response =
       Some true <-> xaccTransLookup b g = None) /\
  (forall g r, Price_guid r = GuidToString g ->
     verdict (commodity_rpc "AddPrice") payload (SerializeAsString r) = Some true <->
     is_Some (gnc_price_lookup b g)) /\
  (forall rpc response,
     Forall (fun suffix => ends_with rpc suffix = false) known_suffixes ->
     verdict rpc payload response = None).
Proof.
  cbv zeta. split_and!.
  - intros g r Hg%guid_text. by apply found_create_account.
  - intros g r Hg%guid_text. by apply found_update_account.
  - intros g m response. by apply found_delete_account, guid_text.
  - intros g r Hg%guid_text. by apply found_set_reconcile_info.
  - intros g r Hg%guid_text. by apply found_post_transaction.
  - intros g r Hg%guid_text. by apply found_update_transaction.
  - intros g m response. by apply found_delete_transaction, guid_text.
  - intros g r Hg%guid_text. by apply found_add_price.
  - intros rpc response Hnone. unfold WasApplied. cbn [pe_rpc_name].
    unfold known_suffixes in Hnone. rewrite !Forall_cons in Hnone.
    by destruct Hnone as (-> & -> & -> & -> & -> & -> & -> & -> & _).
Qed.
End exact.
