(* ===== verification/Startup.v ===== *)
(** * Options, locks, startup and shutdown: [main.cpp]

    The command line after [getopt_long], the two locks that keep a second
    daemon off the same book, the startup sequence up to serving, and the
    shutdown. *)
From S2P Require Import Prelude.
From S2P Require Import Messages.
From S2P Require Import Engine.
From S2P Require Import Errors.
From S2P Require Import Session.
From S2P Require Import Backup.
From S2P Require Import Worker.
From S2P Require Journal.
Import (hints) Journal.
From S2P Require Import Mutation.
From S2P Require Import Recovery.
From S2P Require Import Rpc.
From S2P Require Import SessionService.
From S2P Require Import WasApplied.
Local Open Scope prog_scope.

(** How the process ends before it serves: the JSON line of [Fail] and status
    1, [--version] and status 0, or [std::terminate] on an exception nobody
    catches. *)
Inductive Exit :=
| Fail_ (reason detail : string)
| Version
| Terminate (e : exn).

(** ** [std::stoi] and [std::stoul] *)
Definition digit (c : ascii) : option Z :=
  let n := Z.of_N (N_of_ascii c) in
  if (48 <=? n)%Z && (n <=? 57)%Z then Some (n - 48)%Z else None.

Fixpoint digits (acc : option Z) (s : string) : option Z :=
  match s with
  | "" => acc
  | String c s' =>
      match digit c with
      | Some d => digits (Some (10 * default 0 acc + d)%Z) s'
      | None => acc
      end
  end.

Definition is_space (c : ascii) : bool :=
  let n := N_of_ascii c in (n =? 32)%N || ((9 <=? n)%N && (n <=? 13)%N).

Fixpoint skip_spaces (s : string) : string :=
  match s with
  | String c s' => if is_space c then skip_spaces s' else s
  | "" => ""
  end.

(** The sign and the magnitude of the leading number; [None] when there is
    none. *)
Definition leading_number (s : string) : option (bool * Z) :=
  match skip_spaces s with
  | String c s' =>
      if Ascii.eqb c "-" then pair true <$> digits None s'
      else if Ascii.eqb c "+" then pair false <$> digits None s'
      else pair false <$> digits None (String c s')
  | "" => None
  end.

Definition stoi (s : string) : exn + Z :=
  match leading_number s with
  | None => inl (StdException "stoi")
  | Some (neg, m) =>
      let n := if neg : bool then (- m)%Z else m in
      if (- 2 ^ 31 <=? n)%Z && (n <? 2 ^ 31)%Z then inr n else inl (StdException "stoi")
  end.

(** A minus sign negates modulo 2^64. *)
Definition stoul (s : string) : exn + Z :=
  match leading_number s with
  | None => inl (StdException "stoul")
  | Some (neg, m) =>
      if (m <? 2 ^ 64)%Z then inr (if neg : bool then ((- m) mod 2 ^ 64)%Z else m)
      else inl (StdException "stoul")
  end.

(** ** [Options] *)
Record Options := MkOptions {
  opt_book_uri : string;
  opt_socket_path : string;
  opt_journal_path : string;
  opt_backup_dir : string;
  opt_backup_keep_days : Z;
  opt_read_only : bool;
  opt_queue_depth : Z;
}.

Definition Options_default : Options := MkOptions "" "" "" "" 14 false 256.

(** [Options::book_path]. *)
Definition opt_book_path (o : Options) : string :=
  if starts_with "sqlite3://" (opt_book_uri o) then sdrop 10 (opt_book_uri o) else "".

(** What [getopt_long] returns, one at a time. *)
Inductive Opt :=
| OptBookUri (optarg : string)
| OptSocket (optarg : string)
| OptJournal (optarg : string)
| OptBackupDir (optarg : string)
| OptBackupKeepDays (optarg : string)
| OptReadOnly
| OptQueueDepth (optarg : string)
| OptVersion
| OptUnknown.

Definition usage : string :=
  "daichod --book-uri <sqlite3://...> --socket </abs/path.sock> " +:+
  "[--read-only] [--queue-depth N]".

(** The [switch] of the loop. *)
Definition parse_option (o : Options) (opt : Opt) : Exit + Options :=
  match opt with
  | OptBookUri a => inr (MkOptions a (opt_socket_path o) (opt_journal_path o)
      (opt_backup_dir o) (opt_backup_keep_days o) (opt_read_only o) (opt_queue_depth o))
  | OptSocket a => inr (MkOptions (opt_book_uri o) a (opt_journal_path o)
      (opt_backup_dir o) (opt_backup_keep_days o) (opt_read_only o) (opt_queue_depth o))
  | OptJournal a => inr (MkOptions (opt_book_uri o) (opt_socket_path o) a
      (opt_backup_dir o) (opt_backup_keep_days o) (opt_read_only o) (opt_queue_depth o))
  | OptBackupDir a => inr (MkOptions (opt_book_uri o) (opt_socket_path o)
      (opt_journal_path o) a (opt_backup_keep_days o) (opt_read_only o)
      (opt_queue_depth o))
  | OptBackupKeepDays a =>
      match stoi a with
      | inl e => inl (Terminate e)
      | inr n => inr (MkOptions (opt_book_uri o) (opt_socket_path o)
          (opt_journal_path o) (opt_backup_dir o) n (opt_read_only o)
          (opt_queue_depth o))
      end
  | OptReadOnly => inr (MkOptions (opt_book_uri o) (opt_socket_path o)
      (opt_journal_path o) (opt_backup_dir o) (opt_backup_keep_days o) true
      (opt_queue_depth o))
  | OptQueueDepth a =>
      match stoul a with
      | inl e => inl (Terminate e)
      | inr n => inr (MkOptions (opt_book_uri o) (opt_socket_path o)
          (opt_journal_path o) (opt_backup_dir o) (opt_backup_keep_days o)
          (opt_read_only o) n)
      end
  | OptVersion => inl Version
  | OptUnknown => inl (Fail_ "usage" usage)
  end.

Fixpoint parse_loop (o : Options) (opts : list Opt) : Exit + Options :=
  match opts with
  | [] => inr o
  | opt :: opts' => o' <-? parse_option o opt ;; parse_loop o' opts'
  end.

Definition ParseOptions (opts : list Opt) : Exit + Options :=
  o <-? parse_loop Options_default opts ;;
  if bool_decide (opt_book_uri o = "") || bool_decide (opt_socket_path o = "") then
    inl (Fail_ "usage" "--book-uri and --socket are required")
  else if negb (bool_decide (String.get 0 (opt_socket_path o) = Some "/"%char)) then
    inl (Fail_ "usage" "--socket must be an absolute path")
  else
    o <-? (if bool_decide (opt_journal_path o = "") then
             if bool_decide (opt_book_path o <> "") then
               inr (MkOptions (opt_book_uri o) (opt_socket_path o)
                      (opt_book_path o +:+ ".daichod-journal") (opt_backup_dir o)
                      (opt_backup_keep_days o) (opt_read_only o) (opt_queue_depth o))
             else inl (Fail_ "usage" "--journal is required for non-sqlite3 books")
           else inr o) ;;
    if bool_decide (opt_backup_dir o <> "") && bool_decide (opt_book_path o = "") then
      inl (Fail_ "usage"
             ("--backup-dir requires a sqlite3 book; database backups are a " +:+
              "deployment concern"))
    else inr o.

(** ** Lock names *)
Definition kHexDigits : string := "0123456789abcdef".
Definition hex_digit (n : N) : ascii :=
  default "0"%char (String.get (N.to_nat n) kHexDigits).

Fixpoint HexEncode (data : string) : string :=
  match data with
  | "" => ""
  | String byte data' =>
      let n := N_of_ascii byte in
      String (hex_digit (N.shiftr n 4)) (String (hex_digit (N.land n 15)) (HexEncode data'))
  end.

Definition StripCredentials (uri : string) : string :=
  match str_find "://" 0 uri with
  | None => uri
  | Some scheme_end =>
      let authority_start := scheme_end + 3 in
      match str_find "@" authority_start uri with
      | None => uri
      | Some at_pos =>
          match str_find "/" authority_start uri with
          | Some slash_pos =>
              if slash_pos <? at_pos then uri
              else stake authority_start uri +:+ sdrop (at_pos + 1) uri
          | None => stake authority_start uri +:+ sdrop (at_pos + 1) uri
          end
      end
  end.

(** [(fs::path(file).parent_path() / name).string()]. *)
Fixpoint path_string (p : path) : string :=
  match p with
  | [] => ""
  | [c] => c
  | c :: p' => c +:+ "/" +:+ path_string p'
  end.
Definition sibling (file name : string) : string :=
  path_string (removelast (path_of file) ++ [name]).

(** ** The process and its machine *)

(** Lock files and socket files as this process meets them. *)
Record LockState := MkLockState {
  lock_openable : string -> bool;  (** [open(path, O_CREAT | O_RDWR)] *)
  pid_writable : string -> bool;  (** [fopen(path, "w")] *)
  held_elsewhere : gset string;  (** flocked by another live process *)
  held : list string;  (** flocked by this one, until it ends *)
  can_listen : string -> bool;  (** [BuildAndStart] gives a server on the socket *)
  sockets : gset string;  (** the socket files there are *)
}.

Definition hold (lock_path : string) (l : LockState) : LockState :=
  MkLockState (lock_openable l) (pid_writable l) (held_elsewhere l)
    (lock_path :: held l) (can_listen l) (sockets l).
Definition set_sockets (x : gset string) (l : LockState) : LockState :=
  MkLockState (lock_openable l) (pid_writable l) (held_elsewhere l) (held l)
    (can_listen l) x.

Section startup.
Context `{SessionEnv} `{Journal.SqliteEnv} `{GrpcEnv} `{Proto Outcome}.
Context `{Proto Account} `{Proto ReconcileInfo} `{Proto Transaction} `{Proto Price}.
Context `{Proto DeleteAccountRequest} `{Proto DeleteTransactionRequest}.

(** Everything the process finds: the locks, the files of the snapshot, the
    journal database, libgnucash, the clock, the local date and the crash
    point. *)
Record Machine := MkMachine {
  locks : LockState;
  fs : Fs;
  conn : Journal.Conn;
  engine_lib : Book;
  machine_clock : Z;
  local_date : Z * Z * Z;
  machine_crash_at : option string;
}.

Definition set_locks (l : LockState) (m : Machine) : Machine :=
  MkMachine l (fs m) (conn m) (engine_lib m) (machine_clock m) (local_date m)
    (machine_crash_at m).
Definition set_fs (f : Fs) (m : Machine) : Machine :=
  MkMachine (locks m) f (conn m) (engine_lib m) (machine_clock m) (local_date m)
    (machine_crash_at m).
Definition set_conn (c : Journal.Conn) (m : Machine) : Machine :=
  MkMachine (locks m) (fs m) c (engine_lib m) (machine_clock m) (local_date m)
    (machine_crash_at m).

(** A part of [main] that can end the process. *)
Definition Main (S A : Type) := M Exit S A.

Definition Fail {S A} (reason detail : string) : Main S A := throw (Fail_ reason detail).

(** [try { m } catch (const std::exception& e) { Fail(reason, e.what()); }]. *)
Definition or_fail {S A} (reason : string) (m : Prog S A) : Main S A :=
  fun s => match m s with
           | (s', Ret a) => (s', Ret a)
           | (s', Throw e) => (s', Throw (Fail_ reason (what e)))
           | (s', Died) => (s', Died)
           end.

(** Code outside any [try]. *)
Definition or_terminate {S A} (m : Prog S A) : Main S A :=
  fun s => match m s with
           | (s', Ret a) => (s', Ret a)
           | (s', Throw e) => (s', Throw (Terminate e))
           | (s', Died) => (s', Died)
           end.

(** ** Locks *)
Definition AcquireOneLock (lock_path pid_path fail_reason : string) :
    Main Machine unit :=
  m <~ gets id ;;
  let l := locks m in
  if negb (lock_openable l lock_path) then Fail "lock_open_failed" lock_path
  else if bool_decide (lock_path ∈ held_elsewhere l \/ lock_path ∈ held l) then
    Fail fail_reason ("another daichod holds " +:+ lock_path)
  else
    modify (set_locks (hold lock_path l)) ;;;
    if negb (pid_writable l pid_path) then Fail "pidfile_open_failed" pid_path
    else ret tt.

Definition book_lock_path (o : Options) : string :=
  if bool_decide (opt_book_path o <> "") then opt_book_path o +:+ ".daichod.lock"
  else
    sibling (opt_journal_path o)
      (stake 32 (HexEncode (Journal.Sha256 (StripCredentials (opt_book_uri o)))) +:+
       ".daichod.lock").

(** [unlink(options.socket_path.c_str())]. *)
Definition unlink_socket (o : Options) : Main Machine unit :=
  modify (fun m =>
    set_locks (set_sockets (sockets (locks m) ∖ {[ c_str (opt_socket_path o) ]})
                 (locks m)) m).

Definition AcquireLocks (o : Options) : Main Machine unit :=
  AcquireOneLock (opt_socket_path o +:+ ".lock") (opt_socket_path o +:+ ".pid")
    "already_running" ;;;
  AcquireOneLock (book_lock_path o) (book_lock_path o +:+ ".pid") "book_already_open" ;;;
  unlink_socket o.

(** ** Startup *)
Definition verdict_of (s : Session) (entry : Journal.PendingEntry) : option bool :=
  WasApplied (qof s) entry.

(** What runs on the engine thread once the journal is open: the book, the
    integrity gate, reconciliation and the report. *)
Definition engine_startup : Main (World Session) nat :=
  or_fail "book_open_failed"
    (fun w => Run (queue w) (on_session Open) w) ;;;
  or_fail "startup_check_failed"
    (fun w => Run (queue w) (on_session RunStartupChecks) w) ;;;
  or_fail "reconciliation_failed"
    (fun w => Run (queue w) (on_session book ;;; ReconcilePendingMutations verdict_of) w) ;;;
  entries <~ or_terminate
    (fun w => Run (queue w) (in_journal Journal.ListIndeterminate) w) ;;
  ret (length entries).

(** [Run] until the engine thread takes over: locks, snapshot, journal, and the
    session that is not open yet. *)
Definition prepare (o : Options) : Main Machine (World Session) :=
  AcquireLocks o ;;;
  (if bool_decide (opt_backup_dir o <> "") then
     m <~ gets id ;;
     taken <~ or_fail "backup_failed"
       (zoom fs set_fs
          (SnapshotBeforeOpen (local_date m) (opt_book_path o) (opt_journal_path o)
             (opt_backup_dir o) (opt_backup_keep_days o))) ;;
     ret tt
   else ret tt) ;;;
  let worker := new_EngineWorker (Z.to_nat (opt_queue_depth o)) in
  journal <~ or_fail "journal_open_failed"
    (Run worker (zoom conn set_conn (Journal.Open (opt_journal_path o)))) ;;
  m <~ gets id ;;
  let session := new_Session (MkConfig (opt_book_uri o) (opt_read_only o)) (engine_lib m) in
  ret (MkWorld session journal worker (machine_clock m) (machine_crash_at m)).

(** The server on its socket. *)
Definition listen (o : Options) : Main Machine unit :=
  m <~ gets id ;;
  if can_listen (locks m) (opt_socket_path o) then
    modify (set_locks (set_sockets ({[ c_str (opt_socket_path o) ]} ∪ sockets (locks m))
                         (locks m)))
  else Fail "listen_failed" (opt_socket_path o).

(** [Run] up to [server->Wait()]: the world the daemon serves, and how many
    mutations it reports as indeterminate. *)
Definition startup (o : Options) : Main Machine (World Session * nat) :=
  w <~ prepare o ;;
  match engine_startup w with
  | (w', Ret n) => listen o ;;; ret (w', n)
  | (w', Throw e) => throw e
  | (w', Died) => die
  end.

(** ** Shutdown, once the server has stopped: the exit code and the worker *)
Definition shutdown (fail_at : option string) : Prog (World Session) Z :=
  exit_code <~ catch
    ((fun w => Run (queue w) (on_session (Close fail_at)) w) ;;; ret 0%Z)
    (fun _ => ret 1%Z) ;;
  modify (fun w =>
    MkWorld (engine w) (journal w)
      (default (queue w) (Drain_lock true (queue w))) (clock w) (crash_at w)) ;;;
  ret exit_code.

(** [Run] to its end: startup, the requests it serves, shutdown, and the
    destructor of the session. *)
Definition run_daemon (o : Options) (serving : World Session -> World Session)
    (fail_at : option string) : Main Machine (World Session * Z) :=
  started <~ startup o ;;
  match shutdown fail_at (serving started.1) with
  | (w, Ret exit_code) =>
      unlink_socket o ;;;
      ret ((on_session (Session_destructor fail_at) w).1, exit_code)
  | (w, Throw e) => throw (Terminate e)
  | (w, Died) => die
  end.

(** [main]: what [getopt_long] finds, then [Run]. *)
Definition main (opts : list Opt) (serving : World Session -> World Session)
    (fail_at : option string) : Main Machine (World Session * Z) :=
  match ParseOptions opts with
  | inl e => throw e
  | inr o => run_daemon o serving fail_at
  end.

(** The status the process ends with; [None] is an abnormal end. *)
Definition exit_status (r : res Exit (World Session * Z)) : option Z :=
  match r with
  | Ret (_, exit_code) => Some exit_code
  | Throw (Fail_ _ _) => Some 1%Z
  | Throw Version => Some 0%Z
  | Throw (Terminate _) | Died => None
  end.
End startup.

(** ** Properties of the command line and the lock names *)
Lemma find0_skip c pat a b :
  str_free c a = true ->
  find0 (String c pat) (a +:+ b) = Nat.add (String.length a) <$> find0 (String c pat) b.
Proof.
  induction a as [|x a IH]; cbn; intros Ha.
  - by destruct (find0 (String c pat) b).
  - apply andb_true_iff in Ha as [Hx Ha].
    destruct (ascii_dec c x) as [->|]; [by rewrite Ascii.eqb_refl in Hx|].
    rewrite IH by done. by destruct (find0 _ b).
Qed.

Definition uri_with_credentials (scheme cred rest : string) : string :=
  scheme +:+ "://" +:+ cred +:+ "@" +:+ rest.

Lemma StripCredentials_at scheme cred rest :
  str_free ":" scheme = true -> str_free "@" cred = true -> str_free "/" cred = true ->
  StripCredentials (uri_with_credentials scheme cred rest) = scheme +:+ "://" +:+ rest.
Proof.
  intros Hs Ha Hc. unfold StripCredentials, uri_with_credentials.
  rewrite Map.find0_scheme by done.
  pose (pre := scheme +:+ "://").
  assert (String.length scheme + 3 = String.length pre)%nat as ->.
  { unfold pre. by rewrite length_append. }
  assert (scheme +:+ "://" +:+ cred +:+ "@" +:+ rest = pre +:+ cred +:+ "@" +:+ rest)
    as -> by (unfold pre; by rewrite !append_assoc).
  unfold str_find. rewrite !sdrop_append.
  rewrite (find0_skip "@" "" cred), (find0_skip "/" "" cred) by done.
  rewrite (find0_first "@" "" "" rest eq_refl : find0 "@" ("@" +:+ rest) = Some 0).
  cbn [fmap option_fmap option_map].
  assert (stake (String.length pre) (pre +:+ cred +:+ "@" +:+ rest) +:+
          sdrop (String.length pre + (String.length cred + 0) + 1)
            (pre +:+ cred +:+ "@" +:+ rest) = scheme +:+ "://" +:+ rest) as Hcut.
  { replace (String.length pre + (String.length cred + 0) + 1)
      with (String.length pre + String.length (cred +:+ "@"))
      by (rewrite length_append; cbn; lia).
    rewrite stake_append, sdrop_append_plus, <- append_assoc, sdrop_append.
    unfold pre. by rewrite append_assoc. }
  destruct (find0 "/" ("@" +:+ rest)) as [k|] eqn:Hk; cbn [fmap option_fmap option_map].
  - rewrite (proj2 (Nat.ltb_ge _ _)) by lia. exact Hcut.
  - exact Hcut.
Qed.

Lemma digit_nonneg c d : digit c = Some d -> (0 <= d)%Z.
Proof.
  unfold digit. destruct (_ && _) eqn:E; [|done]. intros [= <-].
  apply andb_true_iff in E as [?%Z.leb_le _]. lia.
Qed.

Lemma digits_nonneg acc s n :
  (0 <= default 0 acc)%Z -> digits acc s = Some n -> (0 <= n)%Z.
Proof.
  revert acc. induction s as [|c s IH]; intros acc Ha; cbn.
  - intros ->. done.
  - destruct (digit c) as [d|] eqn:Hd; [|by intros ->].
    apply IH. apply digit_nonneg in Hd. cbn. lia.
Qed.

Lemma leading_number_nonneg s neg n : leading_number s = Some (neg, n) -> (0 <= n)%Z.
Proof.
  assert (forall b t, pair b <$> digits None t = Some (neg, n) -> (0 <= n)%Z) as Hd.
  { intros b t (m & Hm & [= _ ->])%fmap_Some. by eapply (digits_nonneg None). }
  unfold leading_number. destruct (skip_spaces s) as [|c s']; [done|].
  repeat case_match; apply Hd.
Qed.

Lemma stoi_range s n : stoi s = inr n -> (- 2 ^ 31 <= n < 2 ^ 31)%Z.
Proof.
  unfold stoi. destruct (leading_number s) as [[neg m]|]; [|done].
  destruct (_ && _) eqn:E; [|done]. intros [= <-].
  apply andb_true_iff in E as [?%Z.leb_le ?%Z.ltb_lt]. lia.
Qed.

Lemma stoul_range s n : stoul s = inr n -> (0 <= n < 2 ^ 64)%Z.
Proof.
  unfold stoul. destruct (leading_number s) as [[neg m]|] eqn:Hm; [|done].
  apply leading_number_nonneg in Hm. destruct (Z.ltb_spec m (2 ^ 64)); [|done].
  intros [= <-]. destruct neg; [|lia]. apply Z.mod_pos_bound. lia.
Qed.

(** What the loop keeps of the numeric options. *)
Definition in_width (o : Options) : Prop :=
  (- 2 ^ 31 <= opt_backup_keep_days o < 2 ^ 31)%Z /\
  (0 <= opt_queue_depth o < 2 ^ 64)%Z.

Lemma parse_loop_in_width o opts o' :
  parse_loop o opts = inr o' -> in_width o -> in_width o'.
Proof.
  revert o. induction opts as [|opt opts IH]; intros o; cbn; [by intros [= <-]|].
  intros (o1 & Ho & Hl)%sbind_inr [Hk Hq]. apply (IH o1); [done|]. unfold in_width.
  destruct opt as [a|a|a|a|a| |a| |]; cbn in Ho; try done;
    try (by injection Ho as <-).
  - destruct (stoi a) eqn:E; [done|]. injection Ho as <-. cbn.
    split; [by eapply stoi_range|done].
  - destruct (stoul a) eqn:E; [done|]. injection Ho as <-. cbn.
    split; [done|by eapply stoul_range].
Qed.

(** Accepted options are usable: a book URI, an absolute socket path, a journal
    path - beside the book unless given -, backups only for a file-backed book,
    and numbers within their C++ types. *)
Theorem parse_options_valid opts o :
  ParseOptions opts = inr o ->
  opt_book_uri o <> "" /\ (exists rest, opt_socket_path o = String "/" rest) /\
  opt_journal_path o <> "" /\
  (opt_backup_dir o <> "" -> exists path_, path_ <> "" /\
     opt_book_uri o = "sqlite3://" +:+ path_) /\
  in_width o.
Proof.
  unfold ParseOptions. intros (o1 & Hl & Ho)%sbind_inr.
  apply parse_loop_in_width in Hl; [|done].
  destruct (bool_decide (opt_book_uri o1 = "")) eqn:Hu; [done|].
  destruct (bool_decide (opt_socket_path o1 = "")) eqn:Hs; [done|].
  apply bool_decide_eq_false in Hu, Hs. cbn [orb] in Ho.
  destruct (bool_decide (String.get 0 (opt_socket_path o1) = _)) eqn:Ha; [|done].
  apply bool_decide_eq_true in Ha. cbn [negb] in Ho.
  apply sbind_inr in Ho as (o2 & Hj & Ho).
  destruct (_ && _) eqn:Hb; [done|]. injection Ho as ->.
  assert (opt_book_uri o = opt_book_uri o1 /\ opt_socket_path o = opt_socket_path o1 /\
          in_width o /\ opt_journal_path o <> "") as (Eu & Es & Hw & Hjn).
  { case_bool_decide as Hj1; [|injection Hj as <-; by split_and!].
    case_bool_decide as Hp; [|done]. injection Hj as <-. cbn.
    split_and!; [done..|]. by destruct (opt_book_path o1). }
  rewrite Eu, Es. split_and!; try done; [|].
  - destruct (opt_socket_path o1) as [|c rest]; [done|]. injection Ha as ->. by exists rest.
  - intros Hbd. apply andb_false_iff in Hb as [Hb|Hb]; apply bool_decide_eq_false in Hb;
      [done|]. unfold opt_book_path, starts_with in Hb. rewrite Eu in Hb.
    destruct (String.prefix "sqlite3://" (opt_book_uri o1)) eqn:Hp; [|done].
    apply prefix_inv in Hp as [path_ Hp]. exists path_. split; [|done].
    rewrite Hp in Hb. change 10 with (String.length "sqlite3://") in Hb.
    by rewrite sdrop_append in Hb.
Qed.

(** A number that is none ends the process with an uncaught exception, not with
    the line the supervisor parses. *)
Example garbage_depth_terminates :
  ParseOptions [OptBookUri "sqlite3:///b"; OptSocket "/s"; OptQueueDepth "many"] =
    inl (Terminate (StdException "stoul")).
Proof. reflexivity. Qed.

Example negative_depth_wraps :
  stoul " -1" = inr 18446744073709551615%Z.
Proof. reflexivity. Qed.

(** *** Hexadecimal *)
Lemma hex_digit_inj m n :
  (m < 16)%N -> (n < 16)%N -> hex_digit m = hex_digit n -> m = n.
Proof.
  assert (forallb (fun m => forallb (fun n =>
    negb (Ascii.eqb (hex_digit m) (hex_digit n)) || (m =? n)%N)
    (N.of_nat <$> seq 0 16)) (N.of_nat <$> seq 0 16) = true) as Hall by reflexivity.
  intros Hm Hn E. rewrite forallb_forall in Hall.
  assert (forall k, (k < 16)%N -> In k (N.of_nat <$> seq 0 16)) as Hin.
  { intros k Hk. apply list_elem_of_In, list_elem_of_fmap. exists (N.to_nat k).
    split; [lia|]. apply elem_of_seq. lia. }
  specialize (Hall m (Hin m Hm)). rewrite forallb_forall in Hall.
  specialize (Hall n (Hin n Hn)). rewrite E, Ascii.eqb_refl in Hall.
  cbn in Hall. by apply N.eqb_eq.
Qed.

(** [HexEncode] writes two digits a byte and loses nothing: different data have
    different names. *)
Theorem hex_encode_injective a b :
  String.length (HexEncode a) = 2 * String.length a /\
  (HexEncode a = HexEncode b -> a = b).
Proof.
  split; [induction a as [|x a IH]; cbn; lia|].
  revert b. induction a as [|x a IH]; intros [|y b]; cbn; try done.
  intros [= Hhi Hlo Hrest]. f_equal; [|by apply IH].
  rewrite <- (ascii_N_embedding x), <- (ascii_N_embedding y). f_equal.
  assert (forall c, (N.shiftr (N_of_ascii c) 4 < 16)%N /\
                    (N.land (N_of_ascii c) 15 < 16)%N) as Hb.
  { intros c. pose proof (N_ascii_bounded c). rewrite N.shiftr_div_pow2.
    change 15%N with (N.ones 4). rewrite N.land_ones. split.
    - apply N.Div0.div_lt_upper_bound. change (2 ^ 4 * 16)%N with 256%N. done.
    - by apply N.mod_lt. }
  apply hex_digit_inj in Hhi, Hlo; try apply Hb.
  change 15%N with (N.ones 4) in Hlo. rewrite !N.land_ones in Hlo.
  rewrite !N.shiftr_div_pow2 in Hhi.
  rewrite (N.div_mod' (N_of_ascii x) (2 ^ 4)), (N.div_mod' (N_of_ascii y) (2 ^ 4)).
  by rewrite Hhi, Hlo.
Qed.

(** ** Properties of the locks *)
Section locks.
Context `{SessionEnv} `{Journal.SqliteEnv} `{GrpcEnv} `{Proto Outcome}.
Context `{Proto Account} `{Proto ReconcileInfo} `{Proto Transaction} `{Proto Price}.
Context `{Proto DeleteAccountRequest} `{Proto DeleteTransactionRequest}.
Implicit Types (m : Machine) (o : Options).

Lemma AcquireOneLock_cases lock_path pid_path reason m m' r :
  AcquireOneLock lock_path pid_path reason m = (m', r) ->
  (exists l, m' = set_locks l m /\ held_elsewhere l = held_elsewhere (locks m) /\
     held (locks m) ⊆ held l /\
     (r = Ret tt -> lock_path ∈ held l)) /\
  (r = Ret tt -> lock_path ∉ held_elsewhere (locks m)) /\
  (r = Ret tt \/ exists why detail, r = Throw (Fail_ why detail) /\
     why ∈ ["lock_open_failed"; reason; "pidfile_open_failed"]).
Proof.
  unfold AcquireOneLock, bind, gets, id.
  assert (exists l, m = set_locks l m /\ held_elsewhere l = held_elsewhere (locks m) /\
            held (locks m) ⊆ held l) as (l & E & El & Eh) by (exists (locks m); by destruct m).
  destruct (lock_openable _ _); cbn.
  2:{ intros [= <- <-]. split_and!; [by exists l|done|]. right. eexists _, _.
      split; [done|]. apply list_elem_of_here. }
  case_bool_decide as Hh; cbn.
  { intros [= <- <-]. split_and!; [by exists l|done|]. right. eexists _, _.
    split; [done|]. apply list_elem_of_further, list_elem_of_here. }
  apply Decidable.not_or in Hh as [Hh _].
  destruct (pid_writable _ _); cbn; intros [= <- <-].
  - split_and!; [|done|by left]. eexists. split_and!; [done..| |]; cbn.
    + intros x ?. by apply list_elem_of_further.
    + intros _. apply list_elem_of_here.
  - split_and!; [|done|].
    + eexists. split_and!; [done..| |done]; cbn. intros x ?. by apply list_elem_of_further.
    + right. eexists _, _. split; [done|].
      do 2 apply list_elem_of_further. apply list_elem_of_here.
Qed.

Lemma take_locks_cases o m m' r :
  (AcquireOneLock (opt_socket_path o +:+ ".lock") (opt_socket_path o +:+ ".pid")
     "already_running" ;;;
   AcquireOneLock (book_lock_path o) (book_lock_path o +:+ ".pid") "book_already_open")%prog
    m = (m', r) ->
  (exists l, m' = set_locks l m /\
     (r = Ret tt -> book_lock_path o ∈ held l /\ (opt_socket_path o +:+ ".lock") ∈ held l)) /\
  (r = Ret tt -> (book_lock_path o ∉ held_elsewhere (locks m)) /\
                 (opt_socket_path o +:+ ".lock") ∉ held_elsewhere (locks m)) /\
  (r = Ret tt \/ exists why detail, r = Throw (Fail_ why detail) /\
     why ∈ ["lock_open_failed"; "already_running"; "book_already_open";
            "pidfile_open_failed"]).
Proof.
  intros [([] & m1 & Hone & Htwo)|[(e & Hone & ->)|[Hone ->]]]%bind_cases.
  - apply AcquireOneLock_cases in Hone as ((l1 & -> & He1 & Hh1 & Hin1) & Hn1 & _).
    apply AcquireOneLock_cases in Htwo as ((l2 & -> & He2 & Hh2 & Hin2) & Hn2 & Hr2).
    cbn in *. split_and!.
    + exists l2. split; [done|]. intros Hr. split; [by apply Hin2|].
      apply Hh2. by apply Hin1.
    + intros Hr. rewrite <- He1. split; [by apply Hn2|rewrite He1; by apply Hn1].
    + destruct Hr2 as [?|(why & detail & ? & Hw)]; [by left|]. right.
      exists why, detail. split; [done|]. rewrite !elem_of_cons in Hw.
    rewrite !elem_of_cons. tauto.
  - apply AcquireOneLock_cases in Hone as ((l1 & -> & _) & _ & Hr).
    split_and!; [by exists l1|done|]. destruct Hr as [?|(why & detail & [= ->] & Hw)]; [done|].
    right. exists why, detail. split; [done|]. rewrite !elem_of_cons in Hw.
    rewrite !elem_of_cons. tauto.
  - apply AcquireOneLock_cases in Hone as (_ & _ & Hr). by destruct Hr as [?|(? & ? & ? & _)].
Qed.

Lemma AcquireLocks_cases o m m' r :
  AcquireLocks o m = (m', r) ->
  (exists l, m' = set_locks l m /\
     (r = Ret tt -> book_lock_path o ∈ held l /\ (opt_socket_path o +:+ ".lock") ∈ held l)) /\
  (r = Ret tt -> (book_lock_path o ∉ held_elsewhere (locks m)) /\
                 (opt_socket_path o +:+ ".lock") ∉ held_elsewhere (locks m)) /\
  (r = Ret tt \/ exists why detail, r = Throw (Fail_ why detail) /\
     why ∈ ["lock_open_failed"; "already_running"; "book_already_open";
            "pidfile_open_failed"]).
Proof.
  unfold AcquireLocks. rewrite <- bind_assoc.
  intros [([] & m1 & Htwo & [= <- <-])|[(e & Htwo & ->)|[Htwo ->]]]%bind_cases;
    apply take_locks_cases in Htwo as ((l & -> & Hin) & Hfree & Hr).
  - split_and!; [|auto|by left]. eexists. split; [done|]. intros _. by apply Hin.
  - split_and!; [by exists l|done|done].
  - by destruct Hr as [?|(? & ? & ? & _)].
Qed.

(** Two sets of options with the same inputs to the book's lock path: the same
    SQLite file, or the same database - whatever the credentials - with journals
    in the same directory. *)
Definition same_lock_inputs o1 o2 : Prop :=
  opt_book_path o1 <> "" /\ opt_book_path o1 = opt_book_path o2 \/
  opt_book_path o1 = "" /\ opt_book_path o2 = "" /\
  (forall name, sibling (opt_journal_path o1) name = sibling (opt_journal_path o2) name) /\
  exists scheme c1 c2 rest,
    str_free ":" scheme = true /\ str_free "@" c1 = true /\ str_free "/" c1 = true /\
    str_free "@" c2 = true /\ str_free "/" c2 = true /\
    opt_book_uri o1 = uri_with_credentials scheme c1 rest /\
    opt_book_uri o2 = uri_with_credentials scheme c2 rest.

Lemma same_inputs_lock o1 o2 :
  same_lock_inputs o1 o2 -> book_lock_path o1 = book_lock_path o2.
Proof.
  unfold book_lock_path.
  intros [[Hne E]|(E1 & E2 & Ej & scheme & c1 & c2 & rest & ? & ? & ? & ? & ? & -> & ->)].
  - rewrite <- E. by rewrite bool_decide_eq_true_2.
  - rewrite E1, E2, Ej, !StripCredentials_at by done. done.
Qed.

(** The directory of the journal is part of a database's lock: with journals in
    two directories, two daemons on one database lock two files. *)
Definition on_database (journal : string) : Options :=
  MkOptions "postgres://db/daicho" "/run/daichod.sock" journal "" 14 false 256.

Example one_database_two_locks :
  book_lock_path (on_database "/var/a/daichod.journal") <>
  book_lock_path (on_database "/var/b/daichod.journal").
Proof. discriminate. Qed.

(** C35: A second daemon with the same inputs to the book's lock - the same SQLite
    file, or the same database with its journal in the same directory - fails
    loudly, whatever its socket, the credentials it connects with or its other
    options: while one holds that lock the other ends with one of the four lock
    failures before it has read or written the backup directory, the journal or
    the book. *)
Theorem second_daemon_refused o1 o2 m :
  same_lock_inputs o1 o2 -> book_lock_path o1 ∈ held_elsewhere (locks m) ->
  exists l why detail,
    startup o2 m = (set_locks l m, Throw (Fail_ why detail)) /\
    why ∈ ["lock_open_failed"; "already_running"; "book_already_open";
           "pidfile_open_failed"].
Proof.
  intros Hs%same_inputs_lock Hin. unfold startup, prepare.
  destruct (AcquireLocks o2 m) as [m' r] eqn:Ha.
  pose proof (AcquireLocks_cases _ _ _ _ Ha) as ((l & -> & _) & Hfree & Hr).
  destruct Hr as [->|(why & detail & -> & Hw)].
  { destruct (Hfree eq_refl) as [Hno _]. by rewrite <- Hs in Hno. }
  exists l, why, detail. split; [|done]. by do 2 apply bind_throw_eq.
Qed.
End locks.

(** ** Properties of startup and shutdown *)
Section serving.
Context `{SessionEnv} `{Journal.SqliteEnvOk} `{GrpcEnv} `{Proto Outcome}.
Context `{Proto Account} `{Proto ReconcileInfo} `{Proto Transaction} `{Proto Price}.
Context `{Proto DeleteAccountRequest} `{Proto DeleteTransactionRequest}.
Implicit Types (m : Machine) (o : Options) (w : World Session).

(** What reconciliation may change of a world: the journal, and there only by
    adding. *)
Definition keeps_records w w' : Prop :=
  engine w' = engine w /\ queue w' = queue w /\
  Journal.journal_le (journal w) (journal w').

#[export] Instance keeps_records_preorder : PreOrder keeps_records.
Proof.
  split; [intros w; by split_and!|]. intros w1 w2 w3 (E1 & Q1 & J1) (E2 & Q2 & J2).
  split_and!; [congruence..|by etrans].
Qed.

Lemma in_journal_keeps {A} (p : Prog Journal.Journal A) :
  preserves Journal.journal_le p -> preserves keeps_records (in_journal p).
Proof.
  intros Hp w w' r. unfold in_journal, zoom. destruct (p (journal w)) as [j' r'] eqn:E.
  intros [= <- _]. split_and!; [done..|]. by apply (Hp _ _ _ E).
Qed.

Lemma reconcile_keeps verdict :
  preserves keeps_records (ReconcilePendingMutations verdict).
Proof.
  apply reconcile_preserves; [typeclasses eauto|..]; intros; apply in_journal_keeps.
  - apply Journal.query_preserves; typeclasses eauto.
  - apply Journal.ClearPending_le.
  - apply Journal.RecordOutcome_le.
Qed.

Lemma or_fail_ret {S A} reason (p : Prog S A) s s' a :
  or_fail reason p s = (s', Ret a) -> p s = (s', Ret a).
Proof. unfold or_fail. by destruct (p s) as [s1 [?|?|]]; intros [= <- <-]. Qed.

Lemma Run_ret {S A} (q : EngineWorker unit) (fn : Prog S A) s s' a :
  Run q fn s = (s', Ret a) -> (exists q', Enqueue tt q = inr q') /\ fn s = (s', Ret a).
Proof. unfold Run. destruct (Enqueue tt q) as [e|q']; [done|eauto]. Qed.

Lemma on_session_ret {A} (p : Prog Session A) w w' a :
  on_session p w = (w', Ret a) ->
  exists s, p (engine w) = (s, Ret a) /\ w' = set_engine s w.
Proof.
  unfold on_session, zoom. destruct (p (engine w)) as [s r]. intros [= <- ->]. eauto.
Qed.

Lemma listed_length w w' es :
  in_journal Journal.ListIndeterminate w = (w', Ret es) ->
  length es = length (Journal.unresolved_rows (journal w')).
Proof.
  unfold in_journal, zoom. destruct (Journal.ListIndeterminate (journal w)) as [j r] eqn:E.
  intros [= <- ->]. cbn. unfold Journal.ListIndeterminate in E.
  apply bind_inv_ret in E as (u & j1 & _ & [= <- <-]).
  by rewrite length_fmap, Journal.order_by_time_perm.
Qed.

(** What the engine thread has done when startup gets to serving. *)
Lemma engine_startup_ret w w' n :
  engine_startup w = (w', Ret n) ->
  open_ (engine w) = bool_decide (is_Some (session_ (engine w))) ->
  (exists q', Enqueue tt (queue w) = inr q') /\ queue w' = queue w /\
  session_ (engine w') <> None /\ open_ (engine w') = true /\
  config_ (engine w') = config_ (engine w) /\
  RunStartupChecks (engine w') = (engine w', Ret tt) /\
  Journal.journal_le (journal w) (journal w') /\
  n = length (Journal.unresolved_rows (journal w')).
Proof.
  unfold engine_startup. intros Hrun Hi.
  apply bind_inv_ret in Hrun as ([] & w1 & Hopen & Hrun).
  apply bind_inv_ret in Hrun as ([] & w2 & Hchk & Hrun).
  apply bind_inv_ret in Hrun as (k & w3 & Hrec & Hrun).
  apply or_fail_ret, Run_ret in Hopen as [Hq Hopen].
  apply or_fail_ret, Run_ret in Hchk as [_ Hchk].
  apply or_fail_ret, Run_ret in Hrec as [_ Hrec].
  apply on_session_ret in Hopen as (s1 & Hopen & ->).
  apply on_session_ret in Hchk as (s2 & Hchk & ->). cbn in Hchk.
  pose proof (Open_result (engine w) Hi) as Ho. rewrite Hopen in Ho.
  destruct Ho as (Hi1 & Ho1 & Hc1 & _).
  assert (session_ s1 <> None) as Hs1.
  { unfold session_inv in Hi1. rewrite Ho1 in Hi1. symmetry in Hi1.
    apply bool_decide_eq_true in Hi1 as [p Hp]. congruence. }
  assert (s2 = s1) as ->.
  { destruct (RunStartupChecks_reads s1) as (r & Hr & _). congruence. }
  apply bind_inv_ret in Hrec as ([] & w4 & Hbook & Hrec).
  apply on_session_ret in Hbook as (s3 & [-> _]%book_ret & ->).
  apply reconcile_keeps in Hrec as (Ee & Eq & Hle).
  apply bind_inv_ret in Hrun as (entries & w5 & Hlist & [= <- <-]).
  unfold or_terminate, Run in Hlist.
  destruct (Enqueue tt (queue w3)) as [e|q3]; [done|].
  assert (preserves keeps_records (in_journal Journal.ListIndeterminate)) as Hpres.
  { apply in_journal_keeps, Journal.query_preserves; typeclasses eauto. }
  destruct (in_journal Journal.ListIndeterminate w3) as [w6 [es|e|]] eqn:Hl; [|done..].
  injection Hlist as <- <-. pose proof (Hpres _ _ _ Hl) as (Ee' & Eq' & Hle').
  cbn in Ee, Eq, Hle.
  rewrite Ee', Ee, Eq', Eq. split_and!; try done; [by etrans|].
  apply listed_length in Hl. cbn in Hl. by rewrite Hl.
Qed.
Lemma listen_ret o m m' u :
  listen o m = (m', Ret u) ->
  exists l, m' = set_locks l m /\ held l = held (locks m).
Proof.
  unfold listen, bind, gets, id. destruct (can_listen _ _); [|done].
  intros [= <- _]. by eexists.
Qed.

(** What the engine thread is given. *)
Lemma prepare_ret o m m' w :
  prepare o m = (m', Ret w) ->
  (book_lock_path o ∉ held_elsewhere (locks m)) /\
  ((opt_socket_path o +:+ ".lock") ∉ held_elsewhere (locks m)) /\
  (book_lock_path o ∈ held (locks m') /\ (opt_socket_path o +:+ ".lock") ∈ held (locks m')) /\
  Journal.conn_rows (conn m') = Journal.conn_rows (conn m) /\
  (opt_backup_dir o <> "" -> exists taken,
     SnapshotBeforeOpen (local_date m) (opt_book_path o) (opt_journal_path o)
       (opt_backup_dir o) (opt_backup_keep_days o) (fs m) = (fs m', Ret taken)) /\
  engine w = new_Session (MkConfig (opt_book_uri o) (opt_read_only o)) (engine_lib m) /\
  (Journal.conn_faults (conn m) = [] -> Journal.faults (journal w) = []) /\
  (Journal.intents (journal w), Journal.applied (journal w)) =
    Journal.conn_rows (conn m) /\
  Journal.foreign_keys (journal w) = true /\
  exists q', Enqueue tt (queue w) = inr q'.
Proof.
  unfold prepare. intros Hrun.
  apply bind_inv_ret in Hrun as ([] & m1 & Hlock & Hrun).
  apply AcquireLocks_cases in Hlock as ((l & -> & Hheld) & Hfree & _).
  destruct (Hheld eq_refl) as [Hh Hh2], (Hfree eq_refl) as [Hf1 Hf2].
  apply bind_inv_ret in Hrun as ([] & m2 & Hsnap & Hrun).
  assert (locks m2 = l /\ conn m2 = conn m /\ engine_lib m2 = engine_lib m /\
    (opt_backup_dir o <> "" -> exists taken,
     SnapshotBeforeOpen (local_date m) (opt_book_path o) (opt_journal_path o)
       (opt_backup_dir o) (opt_backup_keep_days o) (fs m) = (fs m2, Ret taken)))
    as (El & Ec & Eb & Hs).
  { case_bool_decide as Hb; [|injection Hsnap as <-; by split_and!].
    unfold bind, gets, id in Hsnap. cbn in Hsnap.
    unfold or_fail, zoom in Hsnap. cbn [fs set_locks locks] in Hsnap.
    destruct (SnapshotBeforeOpen _ _ _ _ _ _) as [f [taken|e|]]; [|done..].
    injection Hsnap as <-. split_and!; try done. intros _. by exists taken. }
  apply bind_inv_ret in Hrun as (j & m3 & Hj & Hrun).
  apply or_fail_ret, Run_ret in Hj as [Hq Hj]. unfold zoom in Hj.
  destruct (Journal.Open (opt_journal_path o) (conn m2)) as [c r] eqn:Hopen.
  injection Hj as <- ->. rewrite Ec in Hopen.
  assert (Journal.conn_faults (conn m) = [] -> Journal.faults j = []) as Hfaults.
  { intros (j' & [= <-] & ?)%(Journal.Open_faultless _ _ _ _ Hopen). done. }
  apply Journal.Open_opens in Hopen as [[Hrows _] [Hjr Hfk]]; [|done].
  injection Hrun as <- <-. cbn. rewrite El, Eb.
  split_and!; try done. by rewrite <- Hrows.
Qed.

(** What startup gives, when it gives. *)
Lemma startup_locked o m m' w n :
  startup o m = (m', Ret (w, n)) ->
  (book_lock_path o ∉ held_elsewhere (locks m)) /\ book_lock_path o ∈ held (locks m') /\
  (((opt_socket_path o +:+ ".lock") ∉ held_elsewhere (locks m)) /\
   (opt_socket_path o +:+ ".lock") ∈ held (locks m')) /\
  (opt_backup_dir o <> "" -> exists taken,
     SnapshotBeforeOpen (local_date m) (opt_book_path o) (opt_journal_path o)
       (opt_backup_dir o) (opt_backup_keep_days o) (fs m) = (fs m', Ret taken)) /\
  open_ (engine w) = true /\ RunStartupChecks (engine w) = (engine w, Ret tt) /\
  config_ (engine w) = MkConfig (opt_book_uri o) (opt_read_only o) /\
  Journal.foreign_keys (journal w) = true /\
  (forall id a, (Journal.conn_rows (conn m)).2 !! id = Some a ->
     Journal.applied (journal w) !! id = Some a) /\
  (forall id i, (Journal.conn_rows (conn m)).1 !! id = Some i ->
     exists i', Journal.intents (journal w) !! id = Some i' /\
       Journal.same_request i i') /\
  (exists q', Enqueue tt (queue w) = inr q') /\
  n = length (Journal.unresolved_rows (journal w)).
Proof.
  unfold startup. intros Hrun.
  apply bind_inv_ret in Hrun as (w0 & m1 & Hprep & Hrun).
  apply prepare_ret in Hprep as (Hf1 & Hf2 & [Hh Hh2] & _ & Hs & He0 & _ & Hjr & Hfk & Hq).
  destruct (engine_startup w0) as [w' [n'|e|]] eqn:He; [|done..].
  apply bind_inv_ret in Hrun as ([] & m2 & (l & -> & Hl)%listen_ret & [= <- <- <-]).
  apply engine_startup_ret in He
    as (_ & Eq & _ & Ho & Hcfg & Hchk & [Hfk' Hint Happ] & Hn); [|by rewrite He0].
  rewrite <- Hjr, Hcfg, He0, Eq, Hfk'. cbn [locks set_locks fs]. rewrite Hl.
  split_and!; try done.
  intros id a Ha. by eapply lookup_weaken.
Qed.

(** C33: The daemon serves only what it has secured and checked: it holds the book's
    lock and the socket's, which nobody else held; a configured snapshot was there
    or was taken; the book is open and passes the integrity gate as it will be
    served; the journal enforces its foreign keys and still has every request and
    every outcome that its file had; the queue admits work; and the number it
    reports is that of the mutations without an outcome. *)
Theorem startup_serves_checked_book o m m' w n :
  startup o m = (m', Ret (w, n)) ->
  (book_lock_path o ∉ held_elsewhere (locks m)) /\ book_lock_path o ∈ held (locks m') /\
  (((opt_socket_path o +:+ ".lock") ∉ held_elsewhere (locks m)) /\
   (opt_socket_path o +:+ ".lock") ∈ held (locks m')) /\
  (opt_backup_dir o <> "" -> exists taken,
     SnapshotBeforeOpen (local_date m) (opt_book_path o) (opt_journal_path o)
       (opt_backup_dir o) (opt_backup_keep_days o) (fs m) = (fs m', Ret taken)) /\
  open_ (engine w) = true /\ RunStartupChecks (engine w) = (engine w, Ret tt) /\
  config_ (engine w) = MkConfig (opt_book_uri o) (opt_read_only o) /\
  Journal.foreign_keys (journal w) = true /\
  (forall id a, (Journal.conn_rows (conn m)).2 !! id = Some a ->
     Journal.applied (journal w) !! id = Some a) /\
  (forall id i, (Journal.conn_rows (conn m)).1 !! id = Some i ->
     exists i', Journal.intents (journal w) !! id = Some i' /\
       Journal.same_request i i') /\
  (exists q', Enqueue tt (queue w) = inr q') /\
  n = length (Journal.unresolved_rows (journal w)).
Proof. intros Hrun. by apply startup_locked. Qed.

(** Shutdown always ends with the worker draining, the book closed and no
    session left, and its exit code is 0 exactly when the final close - the
    save included - went through. *)
Lemma shutdown_ends fail_at w q :
  Enqueue tt (queue w) = inr q ->
  exists w' code,
    shutdown fail_at w = (w', Ret code) /\
    session_ (engine w') = None /\
    ((session_ (engine w) = None -> open_ (engine w) = false) ->
     open_ (engine w') = false) /\
    stopping_ (queue w') = true /\ journal w' = journal w /\
    (Close fail_at (engine w)).1 = engine w' /\
    (code = 0%Z <-> (Close fail_at (engine w)).2 = Ret tt) /\
    (code = 0%Z \/ code = 1%Z).
Proof.
  intros Hq. unfold shutdown, bind, catch, Run, on_session, zoom. rewrite Hq.
  assert (stopping_ (default (queue w) (Drain_lock true (queue w))) = true) as Hst.
  { unfold Drain_lock. by rewrite andb_false_r. }
  destruct (session_ (engine w)) as [p|] eqn:Hs.
  - destruct (Close_open fail_at (engine w) p Hs) as (r & Hc & Hnd). rewrite Hc.
    destruct r as [[]|e|]; [| |done]; eexists _, _; (split; [done|]); cbn;
      split_and!; try done; auto.
  - assert (Close fail_at (engine w) = (engine w, Ret tt)) as Hc.
    { unfold Close, bind, gets, id. by rewrite Hs. }
    rewrite Hc. eexists _, _. split; [done|]. cbn. split_and!; try done; auto.
Qed.

Theorem shutdown_exit_code fail_at w p q :
  session_ (engine w) = Some p -> Enqueue tt (queue w) = inr q ->
  exists w' code,
    shutdown fail_at w = (w', Ret code) /\
    session_ (engine w') = None /\ open_ (engine w') = false /\
    stopping_ (queue w') = true /\ journal w' = journal w /\
    (code = 0%Z <-> (Close fail_at (engine w)).2 = Ret tt) /\
    (code = 0%Z \/ code = 1%Z).
Proof.
  intros Hs Hq. destruct (shutdown_ends fail_at w q) as (w' & code & ? & ? & Ho & ? & ? & _ & ? & ?);
    [done|]. rewrite Hs in Ho. exists w', code. split_and!; auto. by apply Ho.
Qed.

Lemma run_daemon_ends o serving fail_at m :
  match startup o m with
  | (m1, Ret (w, _)) =>
      let w1 := serving w in
      session_inv (engine w1) -> (exists q, Enqueue tt (queue w1) = inr q) ->
      exists m2 w2 code,
        run_daemon o serving fail_at m = (m2, Ret (w2, code)) /\
        session_ (engine w2) = None /\ open_ (engine w2) = false /\
        stopping_ (queue w2) = true /\ journal w2 = journal w1 /\
        (c_str (opt_socket_path o) ∉ sockets (locks m2)) /\
        held (locks m2) = held (locks m1) /\ book_lock_path o ∈ held (locks m2) /\
        (code = 0%Z <-> (Close fail_at (engine w1)).2 = Ret tt) /\
        (code = 0%Z \/ code = 1%Z)
  | (m1, Throw e) => run_daemon o serving fail_at m = (m1, Throw e)
  | (m1, Died) => run_daemon o serving fail_at m = (m1, Died)
  end.
Proof.
  destruct (startup o m) as [m1 [[w n]|e|]] eqn:Hstart.
  - intros w1 Hinv [q Hq].
    destruct (startup_locked _ _ _ _ _ Hstart) as (_ & Hh & _).
    destruct (shutdown_ends fail_at w1 q) as (w2 & code & Hrun & ? & Ho & ? & ? & _ & ? & ?);
      [done|].
    specialize (Ho ltac:(intros Hn; by rewrite Hinv, Hn)).
    assert (on_session (Session_destructor fail_at) w2 = (w2, Ret tt)) as Hd.
    { unfold on_session, zoom. destruct (destructor_closes fail_at (engine w2)) as [Hn _].
      by rewrite Hn, set_engine_id. }
    eexists _, w2, code. unfold run_daemon. rewrite (bind_ret_eq _ _ _ _ _ Hstart).
    cbn [fst]. fold w1. rewrite Hrun, Hd. split_and!; try done.
    cbn. rewrite not_elem_of_difference. right. by apply elem_of_singleton.
  - by apply bind_throw_eq.
  - by apply bind_died_eq.
Qed.
(** C34: The whole of [main]: on a command line it does not take, it touches
    nothing; a daemon that does not get to serving ends with what kept it from it;
    one that served, and left room in its queue for the final close, ends with the
    book closed, the worker draining and its socket file gone, its locks held to
    the end; and the status is 0 exactly after [--version] or when the final close
    went through. *)
Theorem run_exit_code opts serving fail_at m :
  match ParseOptions opts with
  | inl e =>
      main opts serving fail_at m = (m, Throw e) /\
      (exit_status (main opts serving fail_at m).2 = Some 0%Z <-> e = Version)
  | inr o =>
      match startup o m with
      | (m1, Ret (w, _)) =>
          let w1 := serving w in
          session_inv (engine w1) -> (exists q, Enqueue tt (queue w1) = inr q) ->
          exists m2 w2 code,
            main opts serving fail_at m = (m2, Ret (w2, code)) /\
            session_ (engine w2) = None /\ open_ (engine w2) = false /\
            stopping_ (queue w2) = true /\ journal w2 = journal w1 /\
            (c_str (opt_socket_path o) ∉ sockets (locks m2)) /\
            held (locks m2) = held (locks m1) /\ book_lock_path o ∈ held (locks m2) /\
            (code = 0%Z <-> (Close fail_at (engine w1)).2 = Ret tt) /\
            (code = 0%Z \/ code = 1%Z)
      | (m1, Throw e) => main opts serving fail_at m = (m1, Throw e)
      | (m1, Died) => main opts serving fail_at m = (m1, Died)
      end
  end.
Proof.
  unfold main. destruct (ParseOptions opts) as [e|o]; [|apply run_daemon_ends].
  split; [done|]. by destruct e.
Qed.
End serving.
