(* ===== verification/Protocol.v ===== *)
(** * Crashes, restarts and the exactly-once guarantee

    The mutation protocol and startup reconciliation put together: a client
    that submits and re-submits mutations, a process that may die at every
    crash point or between requests, and the restart that follows. The
    specification is a service that applies each mutation atomically, at most
    once, and answers a repeated id from its record; the theorem is that the
    daemon refines it. *)
From S2P Require Import Prelude.
From S2P Require Import Messages.
From S2P Require Import Errors.
From S2P Require Import Worker.
From S2P Require Import Journal.
From S2P Require Import Mutation.
From S2P Require Import Recovery.

(** ** The engine as the protocol sees it

    [disk] is what the backend has persisted of an engine state; [loads d e]:
    a process that opens [d] may have it as [e]. *)
Class Durable (E D : Type) := {
  disk : E -> D;
  loads : D -> E -> Prop;
}.

(** ** The client's mutations

    A client chooses one request per mutation id and keeps to it. *)
Record Call (E : Type) `{SqliteEnv} `{Proto Outcome} := MkCall {
  call_Resp : Type;
  call_proto :: Proto call_Resp;
  call_proto_ok :: ProtoOk call_Resp;
  call_rpc : string;
  call_bytes : string;
  call_resp : call_Resp;
  call_apply : Apply E call_Resp;
  call_plan : Plan E call_Resp;
  call_conforms : conforms call_apply call_plan;
  call_rpc_printable : str_free NUL call_rpc = true;
}.
Arguments call_Resp {E _ _}.
Arguments call_proto {E _ _}.
Arguments call_proto_ok {E _ _}.
Arguments call_rpc {E _ _}.
Arguments call_bytes {E _ _}.
Arguments call_resp {E _ _}.
Arguments call_apply {E _ _}.
Arguments call_plan {E _ _}.
Arguments call_conforms {E _ _}.
Arguments call_rpc_printable {E _ _}.

Section protocol.
Context {E D : Type} `{SqliteEnvOk} `{GrpcEnv} `{ProtoOk Outcome}.
Context `{Durable E D}.
Context (WasApplied : E -> PendingEntry -> option bool).
Context (calls : string -> Call E).

(** The requests the engine takes as its laws say: [fits id e]. *)
Context (fits : string -> E -> Prop).

(** The pending record of a call with response [out]. *)
Definition call_entry (id : string) (out : call_Resp (calls id)) :
    PendingEntry :=
  MkPendingEntry id (call_rpc (calls id)) (call_bytes (calls id))
    (SerializeAsString out).

(** What the engine and the verdict must provide, discharged for the handlers
    in [Contract.v]: an edit reaches the disk only when it is committed, a
    committed mutation is found applied after a restart, and one that was not
    committed is found applied only if the book already shows its effect.
    [book_eq] is equality of books as the contract shows them. *)
Class EngineContract (good : E -> Prop) (book_eq : D -> D -> Prop) : Prop := {
  #[global] book_eq_equiv :: Equivalence book_eq;
  good_load : forall e e', good e -> loads (disk e) e' ->
    good e' /\ book_eq (disk e') (disk e);
  proceeds_durably : forall id now e out eo ec,
    good e -> fits id e -> call_plan (calls id) now e = Proceed out eo ec ->
    good ec /\ disk eo = disk e /\
    (forall e', loads (disk ec) e' ->
       WasApplied e' (call_entry id out) = Some true) /\
    (forall e', loads (disk e) e' -> WasApplied e' (call_entry id out) = Some true ->
       book_eq (disk ec) (disk e));
}.

(** ** The daemon *)

(** What a client observes of one submission: a status with the serialized
    response, or nothing because the process died. *)
Inductive label :=
| Replied (id : string) (st : Status) (response : option string)
| Crashed.

Definition bytes_of {Resp} `{Proto Resp} (r : Status * option Resp) :
    Status * option string := (r.1, SerializeAsString <$> r.2).

(** The world a request meets: any clock, any queue, any crash point. *)
Definition at_request (q : EngineWorker unit) (now : Z) (cp : option string)
    (w : World E) : World E :=
  MkWorld (engine w) (journal w) q now cp.

(** A new process on the same journal, with [e] as the book it opened. *)
Definition restart (e : E) (now : Z) (w : World E) : World E :=
  MkWorld e (journal w) (queue w) now None.

Definition submit (id : string) (w : World E) :
    World E * res exn (Status * option string) :=
  let c := calls id in
  match RunMutation id (call_bytes c) (call_rpc c) (call_resp c) (call_apply c) w
  with
  | (w', Ret r) => (w', Ret (bytes_of r))
  | (w', Throw e) => (w', Throw e)
  | (w', Died) => (w', Died)
  end.

Inductive sys_step : World E -> label -> World E -> Prop :=
| sys_reply w id q now cp w' st out :
    fits id (engine w) ->
    submit id (at_request q now cp w) = (w', Ret (st, out)) ->
    sys_step w (Replied id st out) w'
| sys_crash w id q now cp w' e now' w'' k :
    fits id (engine w) ->
    submit id (at_request q now cp w) = (w', Died) ->
    loads (disk (engine w')) e ->
    ReconcilePendingMutations WasApplied (restart e now' w') = (w'', Ret k) ->
    sys_step w Crashed w''
| sys_kill w e now w' k :
    loads (disk (engine w)) e ->
    ReconcilePendingMutations WasApplied (restart e now w) = (w', Ret k) ->
    sys_step w Crashed w'.

(** ** The specification *)
Record Spec := MkSpec {
  spec_book : D;
  done : gmap string Outcome;
  log : list string;  (** the mutations that took effect, latest first *)
}.

Section spec.
Context (good : E -> Prop) (book_eq : D -> D -> Prop).

(** [call id] turns the book [b] into [b'] and answers [out]. *)
Definition effect (id : string) (b : D) (out : call_Resp (calls id)) (b' : D) :
    Prop :=
  exists now e eo ec,
    good e /\ fits id e /\ book_eq (disk e) b /\
    call_plan (calls id) now e = Proceed out eo ec /\ book_eq (disk ec) b'.

(** [call id] is refused on the book [b]. *)
Definition refusal (id : string) (b : D) (e : ShimError) : Prop :=
  exists now eng,
    good eng /\ book_eq (disk eng) b /\
    call_plan (calls id) now eng = Refuse e.

Definition outcome_reply (id : string) (o : Outcome) :
    option (Status * option string) :=
  if Outcome_ok o then
    out ← ParseFromString (A := call_Resp (calls id)) (Outcome_response o);
    Some (Status_OK, Some (SerializeAsString out))
  else
    Some (ToStatus (ShimError_of_detail (Outcome_error_or_default o)), None).

Inductive spec_step : Spec -> label -> Spec -> Prop :=
| spec_replay s id o st out :
    done s !! id = Some o -> outcome_reply id o = Some (st, out) ->
    spec_step s (Replied id st out) s
| spec_apply s id out b' :
    done s !! id = None -> effect id (spec_book s) out b' ->
    spec_step s (Replied id Status_OK (Some (SerializeAsString out)))
      (MkSpec b' (<[id := ok_outcome (call_rpc (calls id)) out]> (done s))
         (id :: log s))
| spec_refuse s id e :
    done s !! id = None -> refusal id (spec_book s) e ->
    IsDeterministicVerdict (code_ e) = true ->
    spec_step s (Replied id (ToStatus e) None)
      (MkSpec (spec_book s)
         (<[id := failed_outcome (call_rpc (calls id)) e]> (done s)) (log s))
| spec_transient s id e :
    done s !! id = None -> refusal id (spec_book s) e ->
    IsDeterministicVerdict (code_ e) = false ->
    spec_step s (Replied id (ToStatus e) None) s
| spec_not_taken s id e :
    e = QueueFullError \/ e = WorkerStoppedError \/
    e = ShimErr (bad_mutation_id id) ->
    spec_step s (Replied id (StatusFromException e) None) s
| spec_lost s : spec_step s Crashed s
| spec_applied_unanswered s id out b' :
    done s !! id = None -> effect id (spec_book s) out b' ->
    spec_step s Crashed
      (MkSpec b' (<[id := ok_outcome (call_rpc (calls id)) out]> (done s))
         (id :: log s)).
End spec.
End protocol.

(** ** The refinement *)
Section refinement.
Context {E D : Type} `{SqliteEnvOk} `{GrpcEnv} `{ProtoOk Outcome}.
Context `{Durable E D}.
Context (WasApplied : E -> PendingEntry -> option bool).
Context (calls : string -> Call E) (fits : string -> E -> Prop).
Context (good : E -> Prop) (book_eq : D -> D -> Prop).
Context `{!EngineContract WasApplied calls fits good book_eq}.
Implicit Types (w : World E) (s : Spec (D := D)).

(** A journal that agrees with the specification's record and has no pending
    mutation. *)
Record journal_rel (j : Journal) (d : gmap string Outcome) : Prop := {
  jr_faults : faults j = [];
  jr_intents : forall id i, intents j !! id = Some i ->
    valid_mutation_id id = true /\ rpc_name i = call_rpc (calls id) /\
    payload i = call_bytes (calls id) /\
    (applied j !! id = None -> pending_response i = None);
  jr_done : forall id,
    match applied j !! id with
    | Some a => ParseFromString (outcome a) = d !! id /\ is_Some (d !! id)
    | None => d !! id = None
    end;
  jr_reply : forall id o, d !! id = Some o ->
    is_Some (outcome_reply calls id o);
}.

Record Rel w s : Prop := {
  rel_good : good (engine w);
  rel_book : book_eq (disk (engine w)) (spec_book s);
  rel_journal : journal_rel (journal w) (done s);
}.

(** The journal relation reads the tables only by lookup. *)
Lemma journal_rel_ext j j' d :
  faults j' = [] ->
  (forall id, intents j' !! id = intents j !! id /\
              applied j' !! id = applied j !! id) ->
  journal_rel j d -> journal_rel j' d.
Proof.
  intros Hf Hj [_ Hi Hd Hr]. split; [done|..|done].
  - intros id i. destruct (Hj id) as [-> ->]. apply Hi.
  - intros id. destruct (Hj id) as [_ ->]. apply Hd.
Qed.

Lemma journal_rel_intent j d id now :
  valid_mutation_id id = true -> journal_rel j d ->
  journal_rel
    (with_intent id (call_rpc (calls id)) (call_bytes (calls id)) now j) d.
Proof.
  intros Hv [Hf Hi Hd Hr]. split; [by rewrite with_intent_faults|..|done].
  - intros id' i. rewrite with_intent_applied.
    destruct (decide (id = id')) as [<-|Hne].
    + unfold with_intent. destruct (intents j !! id) eqn:Hj; [apply Hi|].
      cbn. rewrite lookup_insert_eq. by intros [= <-].
    + rewrite with_intent_other by done. apply Hi.
  - intros id'. rewrite with_intent_applied. apply Hd.
Qed.

Lemma journal_rel_outcome j d id o now :
  journal_rel j d -> is_Some (outcome_reply calls id o) ->
  journal_rel (with_outcome id o now j) (<[id := o]> d).
Proof.
  intros [Hf Hi Hd Hr] Ho. split; [done|..].
  - intros id' i Hi'. destruct (Hi _ _ Hi') as (? & ? & ? & Hp).
    split_and!; try done. cbn. rewrite lookup_insert. case_decide; [done|done].
  - intros id'. cbn. rewrite !lookup_insert. case_decide; [|apply Hd].
    cbn. rewrite parse_serialize. eauto.
  - intros id' o'. rewrite lookup_insert. case_decide; [subst|apply Hr].
    by intros [= <-].
Qed.

Lemma ok_reply id (out : call_Resp (calls id)) :
  outcome_reply calls id (ok_outcome (call_rpc (calls id)) out) =
    Some (Status_OK, Some (SerializeAsString out)).
Proof. unfold outcome_reply. cbn. by rewrite parse_serialize. Qed.

Lemma failed_reply id e :
  outcome_reply calls id (failed_outcome (call_rpc (calls id)) e) =
    Some (ToStatus e, None).
Proof.
  unfold outcome_reply, Outcome_error_or_default. cbn.
  by rewrite ShimError_of_to_detail.
Qed.

Lemma printable j d : journal_rel j d -> ids_printable j.
Proof. intros Hj id i Hi. apply valid_id_no_nul. by eapply jr_intents. Qed.

Lemma unpending j d id i :
  journal_rel j d -> intents j !! id = Some i -> applied j !! id = None ->
  pending_response i = None.
Proof. intros Hj Hi. by eapply jr_intents. Qed.

(** A process that opens [d] finds a good engine and the book [b]. *)
Definition reloads (d b : D) : Prop :=
  forall e, loads d e -> good e /\ book_eq (disk e) b.

Lemma reload e b : good e -> book_eq (disk e) b -> reloads (disk e) b.
Proof.
  intros Hg Hb e' Hl.
  destruct (good_load WasApplied calls fits (book_eq := book_eq) _ _ Hg Hl) as [? He].
  split; [done|]. by rewrite He.
Qed.

Lemma durably id now e out eo ec :
  good e -> fits id e -> call_plan (calls id) now e = Proceed out eo ec ->
  good ec /\ disk eo = disk e /\
  (forall e', loads (disk ec) e' ->
     WasApplied e' (call_entry calls id out) = Some true) /\
  (forall e', loads (disk e) e' -> WasApplied e' (call_entry calls id out) = Some true ->
     book_eq (disk ec) (disk e)).
Proof. intros Hg Hf Hp. exact (proceeds_durably WasApplied calls fits _ _ _ _ _ _ Hg Hf Hp). Qed.

(** What the disk holds of a mutation that was opened or committed, and what
    the verdict makes of it. *)
Lemma reload_pending id now e out eo ec x e' :
  good e -> fits id e -> call_plan (calls id) now e = Proceed out eo ec ->
  x = eo \/ x = ec -> loads (disk x) e' ->
  good e' /\
  book_eq (disk e')
    (if bool_decide (WasApplied e' (call_entry calls id out) = Some true)
     then disk ec else disk e).
Proof.
  intros Hg Hf Hp Hx Hl. destruct (durably _ _ _ _ _ _ Hg Hf Hp) as (Hgc & Hdo & Hc & Hu).
  destruct Hx as [->| ->].
  - rewrite Hdo in Hl. destruct (reload e (disk e) Hg ltac:(reflexivity) _ Hl) as [? Hb].
    split; [done|]. rewrite Hb. case_bool_decide; [symmetry; eauto|done].
  - rewrite bool_decide_eq_true_2 by auto.
    by apply (reload ec (disk ec) Hgc ltac:(reflexivity)).
Qed.

(** The rows of [j], in a journal none of whose statements fails. *)
Definition same_rows (j j' : Journal) : Prop :=
  intents j' = intents j /\ applied j' = applied j /\ faults j' = [].

(** What a stopped process leaves behind, [d] on disk and the rows of [j]: any
    process that opens it reconciles to the end and goes on where the
    specification stands, or where it stands after one unanswered mutation. *)
Definition interrupted (d : D) (j : Journal) s : Prop :=
  faults j = [] /\ length (pending_rows j) <= 1 /\ (exists e, good e /\ disk e = d) /\
  forall w, same_rows j (journal w) -> loads d (engine w) ->
    exists w' k s', ReconcilePendingMutations WasApplied w = (w', Ret k) /\
      spec_step calls fits good book_eq s Crashed s' /\ Rel w' s'.

(** With nothing pending a restart changes nothing the client can see. *)
Lemma recover_quiet d w s :
  reloads d (spec_book s) -> journal_rel (journal w) (done s) -> loads d (engine w) ->
  exists w' k, ReconcilePendingMutations WasApplied w = (w', Ret k) /\ Rel w' s.
Proof.
  intros Hd Hj Hl.
  destruct (reconcile_world WasApplied w) as (k & j' & Hrun & Hf' & Hj');
    [apply Hj|by eapply printable|].
  exists (set_journal j' w), k. split; [done|].
  destruct (Hd _ Hl) as [Hg Hb]. split; cbn; [done..|].
  eapply journal_rel_ext; [done| |exact Hj]. intros id.
  destruct (Hj' id) as [-> ->].
  destruct (reconciled_unpending WasApplied (engine w) (clock w)
    (journal w) id) as [-> ->]; [|done].
  intros i. by eapply unpending.
Qed.

Lemma same_rows_rel j j' d : same_rows j j' -> journal_rel j d -> journal_rel j' d.
Proof.
  intros (Hi & Ha & Hf). apply journal_rel_ext; [done|]. intros id. by rewrite Hi, Ha.
Qed.

Lemma quiet_interrupted e j s s' :
  spec_step calls fits good book_eq s Crashed s' ->
  good e -> book_eq (disk e) (spec_book s') -> journal_rel j (done s') ->
  interrupted (disk e) j s.
Proof.
  intros Hstep Hg Hb Hj. split_and!; [apply Hj| |by exists e|].
  { apply (one_pending _ ""). intros row (Hi & Ha & [p Hp]).
    pose proof (unpending _ _ _ _ Hj Hi Ha). congruence. }
  intros w Hrows Hl.
  destruct (recover_quiet (disk e) w s') as (w' & k & Hrun & HR); [by apply reload| |done|].
  - by eapply same_rows_rel.
  - by exists w', k, s'.
Qed.

(** What reconciliation makes of the one pending row. *)
Lemma reconcile_pending_row j d id i (out : call_Resp (calls id)) e now :
  journal_rel j d -> intents j !! id = Some i -> applied j !! id = None ->
  let found := bool_decide (WasApplied e (call_entry calls id out) = Some true) in
  let j1 := with_pending id (SerializeAsString out) j in
  reconciled_applied WasApplied e now j1 id =
    (if found
     then applied (with_outcome id (ok_outcome (call_rpc (calls id)) out) now j) !! id
     else None) /\
  exists i', reconciled_intent WasApplied e j1 id = Some i' /\
    rpc_name i' = rpc_name i /\ payload i' = payload i /\
    (found = false -> pending_response i' = None).
Proof.
  intros Hj Hi Ha found j1.
  destruct (jr_intents _ _ Hj _ _ Hi) as (Hv & Hrpc & Hpay & _).
  assert (pending_entry (id, set_pending (Some (SerializeAsString out)) i) =
          call_entry calls id out) as Hent.
  { unfold pending_entry, call_entry. cbn.
    rewrite Hrpc, Hpay, !c_str_id; [done| |by apply valid_id_no_nul].
    apply call_rpc_printable. }
  unfold reconciled_applied, reconciled_intent, found_applied. subst j1. cbn.
  rewrite Ha, lookup_alter_eq, Hi. cbn. rewrite Hent. fold found.
  rewrite lookup_insert_eq. split.
  - destruct found; [|done]. unfold reconciled_outcome. cbn. done.
  - eexists. split; [done|]. by destruct found.
Qed.

(** The relation after the row of one unresolved mutation has changed. *)
Lemma journal_rel_at j j' d id i i' (o : option Outcome) :
  journal_rel j d -> intents j !! id = Some i -> d !! id = None ->
  faults j' = [] ->
  (forall id', id' <> id ->
     intents j' !! id' = intents j !! id' /\ applied j' !! id' = applied j !! id') ->
  intents j' !! id = Some i' -> rpc_name i' = rpc_name i ->
  payload i' = payload i -> (o = None -> pending_response i' = None) ->
  match o with
  | Some o => (exists t, applied j' !! id = Some (MkApplied (SerializeAsString o) t)) /\
              is_Some (outcome_reply calls id o)
  | None => applied j' !! id = None
  end ->
  journal_rel j' (match o with Some o => <[id := o]> d | None => d end).
Proof.
  intros Hj Hi Hn Hf Hother Hi' Hrpc Hpay Hpend Happ.
  destruct (jr_intents _ _ Hj _ _ Hi) as (Hv & Hr & Hp & _).
  split; [done|..].
  - intros id' i0 Hi0. destruct (decide (id' = id)) as [->|Hne].
    + rewrite Hi' in Hi0. injection Hi0 as <-. split_and!; [done|congruence..|].
      destruct o; [|auto]. destruct Happ as [[t ->] _]. done.
    + destruct (Hother id' Hne) as [E1 E2]. rewrite E1 in Hi0. rewrite E2.
      by eapply jr_intents.
  - intros id'. destruct (decide (id' = id)) as [->|Hne].
    + destruct o; [|by rewrite Happ]. destruct Happ as [[t ->] _].
      cbn. rewrite lookup_insert_eq, parse_serialize. eauto.
    + destruct (Hother id' Hne) as [_ ->]. pose proof (jr_done _ _ Hj id').
      destruct o; [by rewrite lookup_insert_ne|done].
  - intros id' o' Ho'. destruct o as [o|]; [|by eapply jr_reply].
    rewrite lookup_insert in Ho'. case_decide; [|by eapply jr_reply].
    subst. injection Ho' as <-. apply Happ.
Qed.

Lemma done_none j d id :
  journal_rel j d -> d !! id = None -> applied j !! id = None.
Proof.
  intros Hj Hn. pose proof (jr_done _ _ Hj id) as Hd.
  destruct (applied j !! id); [|done]. rewrite Hn in Hd. by destruct Hd as [_ []].
Qed.

(** The world after a death between the pending record and the outcome:
    [x] is the engine state then. *)
Lemma pending_printable j d id response :
  journal_rel j d -> ids_printable (with_pending id response j).
Proof.
  intros Hj id' i' Hi'. assert (is_Some (intents j !! id')) as [i0 Hi0].
  { apply (with_pending_has id id' response). cbn in Hi' |- *. rewrite Hi'. eauto. }
  eapply printable; [exact Hj|exact Hi0].
Qed.

(** Reconciling one pending row leaves the rows of all other mutations. *)
Lemma reconciled_other e now j j' d id response :
  journal_rel j d ->
  (forall id', applied j' !! id' =
     reconciled_applied WasApplied e now (with_pending id response j) id' /\
   intents j' !! id' = reconciled_intent WasApplied e (with_pending id response j) id') ->
  forall id', id' <> id ->
    intents j' !! id' = intents j !! id' /\ applied j' !! id' = applied j !! id'.
Proof.
  intros Hj Hj' id' Hne. destruct (Hj' id') as [-> ->].
  destruct (reconciled_unpending WasApplied e now (with_pending id response j) id')
    as [-> ->].
  - cbn. rewrite lookup_alter_ne by done. intros i'. by eapply unpending.
  - cbn. by rewrite lookup_alter_ne.
Qed.

Lemma pending_interrupted w s id i (out : call_Resp (calls id)) now0 x ec eo :
  Rel w s -> fits id (engine w) ->
  call_plan (calls id) now0 (engine w) = Proceed out eo ec ->
  intents (journal w) !! id = Some i -> done s !! id = None ->
  x = eo \/ x = ec ->
  interrupted (disk x) (with_pending id (SerializeAsString out) (journal w)) s.
Proof.
  intros [Hg Hb Hj0] Hfit Hp Hi0 Hn Hx.
  assert (exists e, good e /\ disk e = disk x) as He.
  { destruct (durably _ _ _ _ _ _ Hg Hfit Hp) as (? & ? & _).
    destruct Hx as [->| ->]; eauto. }
  split_and!; [apply Hj0| |done|].
  { apply (one_pending _ id). intros row (Hi & Ha & [p Hpend]). cbn in Hi, Ha.
    destruct (decide (row.1 = id)) as [|Hne]; [done|].
    rewrite lookup_alter_ne in Hi by done.
    pose proof (unpending _ _ _ _ Hj0 Hi Ha). congruence. }
  intros w1 Hrows Hl.
  set (j := MkJournal (intents (journal w)) (applied (journal w))
              (foreign_keys (journal w1)) []).
  assert (journal_rel j (done s)) as Hj by by eapply journal_rel_ext; [done| |exact Hj0].
  assert (journal w1 = with_pending id (SerializeAsString out) j) as Hw1.
  { destruct Hrows as (Ei & Ea & Ef). destruct (journal w1); cbn in *. by subst. }
  assert (intents j !! id = Some i) as Hi by done. clearbody j.
  pose proof (done_none _ _ _ Hj Hn) as Ha.
  destruct (reconcile_world WasApplied w1) as (k & j' & Hrun & Hf' & Hj');
    [apply Hrows|rewrite Hw1; by apply (pending_printable _ (done s))|].
  rewrite Hw1 in Hj'. exists (set_journal j' w1), k.
  destruct (reload_pending _ _ _ _ _ _ _ _ Hg Hfit Hp Hx Hl) as [Hgx Hbx].
  pose proof (reconciled_other _ _ _ _ _ _ _ Hj Hj') as Hother.
  destruct (reconcile_pending_row _ _ _ _ out (engine w1) (clock w1) Hj Hi Ha)
    as (Hida & i' & Hidi & Hrpc & Hpay & Hpend).
  destruct (Hj' id) as [Ha' Hi']. rewrite Hida in Ha'. rewrite Hidi in Hi'.
  case_bool_decide as Hfound.
  - exists (MkSpec (disk ec)
              (<[id := ok_outcome (call_rpc (calls id)) out]> (done s))
              (id :: log s)).
    split_and!; [done|eapply spec_applied_unanswered;
      [done|by exists now0, (engine w), eo, ec]|].
    split; cbn; [done|done|].
    eapply (journal_rel_at j j' (done s) id i i' (Some _)); eauto; [done|].
    split; [|by rewrite ok_reply].
    rewrite Ha'. cbn. rewrite lookup_insert_eq. eauto.
  - exists s. split_and!; [done|constructor|]. split; cbn; [done|by rewrite Hbx|].
    eapply (journal_rel_at _ _ _ _ _ _ None); eauto.
Qed.

(** The relation reads only the engine and the journal. *)
Lemma Rel_same w w' s :
  engine w' = engine w -> journal w' = journal w -> Rel w s -> Rel w' s.
Proof. intros He Hj []. by split; rewrite ?He, ?Hj. Qed.

Lemma Rel_intent w s id now :
  valid_mutation_id id = true -> Rel w s ->
  Rel (on_journal
         (with_intent id (call_rpc (calls id)) (call_bytes (calls id)) now) w) s.
Proof. intros Hv []. split; [done..|]. by apply journal_rel_intent. Qed.

(** A recorded outcome answers as the specification does. *)
Lemma replay_reply w s id r w' st out :
  Rel w s -> replay_spec (call_rpc (calls id)) id (journal w) = Some r ->
  (match reply (Resp := call_Resp (calls id)) r with
   | Ret a => (w', Ret (bytes_of a)) | Throw e => (w', Throw e)
   | Died => (w', Died) end : World E * res exn _) = (w', Ret (st, out)) ->
  spec_step calls fits good book_eq s (Replied id st out) s.
Proof.
  intros [_ _ Hj] Hrep Hr. unfold replay_spec in Hrep.
  pose proof (jr_done _ _ Hj id) as Hd.
  destruct (applied (journal w) !! id) as [row|]; [|done].
  cbn in Hrep. destruct Hd as [Hpar [o Ho]]. rewrite Ho in Hpar.
  rewrite Hpar in Hrep.
  destruct (jr_reply _ _ Hj _ _ Ho) as [[st' out'] Ha].
  apply (spec_replay _ _ _ _ _ _ o); [done|].
  unfold outcome_reply in Ha |- *. unfold replay in Hrep.
  destruct (Outcome_ok o).
  - destruct (ParseFromString (Outcome_response o)) as [m|]; [|done].
    injection Hrep as <-. cbn in Hr |- *. by injection Hr as <- <-.
  - injection Hrep as <-. cbn in Hr. by injection Hr as <- <-.
Qed.

Lemma Rel_verdict w s id i e now :
  Rel w s -> intents (journal w) !! id = Some i -> done s !! id = None ->
  let o := failed_outcome (call_rpc (calls id)) e in
  Rel (on_journal (with_outcome id o now) w)
    (MkSpec (spec_book s) (<[id := o]> (done s)) (log s)).
Proof.
  intros [Hg Hb Hj] Hi Hn o. split; cbn; [done..|].
  apply journal_rel_outcome; [done|]. subst o. rewrite failed_reply. eauto.
Qed.

Lemma Rel_applied w s id i (out : call_Resp (calls id)) now0 eo ec now :
  Rel w s -> fits id (engine w) -> intents (journal w) !! id = Some i -> done s !! id = None ->
  call_plan (calls id) now0 (engine w) = Proceed out eo ec ->
  let o := ok_outcome (call_rpc (calls id)) out in
  Rel (on_journal (with_outcome id o now)
         (on_journal (with_pending id (SerializeAsString out))
            (set_engine ec w)))
    (MkSpec (disk ec) (<[id := o]> (done s)) (id :: log s)).
Proof.
  intros [Hg Hb Hj] Hf Hi Hn Hp o. split; cbn; [|reflexivity|].
  - by eapply durably.
  - eapply (journal_rel_at (journal w) _ (done s) id i
      (set_pending (Some (SerializeAsString out)) i) (Some o)); try done.
    + apply Hj.
    + intros id' Hne. cbn. rewrite lookup_alter_ne, lookup_insert_ne; done.
    + cbn. by rewrite lookup_alter_eq, Hi.
    + split; [|subst o; rewrite ok_reply; eauto].
      exists now. cbn. by rewrite lookup_insert_eq.
Qed.

Lemma effect_of w s id now out eo ec :
  Rel w s -> fits id (engine w) -> call_plan (calls id) now (engine w) = Proceed out eo ec ->
  effect calls fits good book_eq id (spec_book s) out (disk ec).
Proof. intros [] Hfit Hp. by exists now, (engine w), eo, ec. Qed.

Lemma applied_done w s id :
  Rel w s -> applied (journal w) !! id = None -> done s !! id = None.
Proof.
  intros [_ _ Hj] Ha. pose proof (jr_done _ _ Hj id) as Hd. by rewrite Ha in Hd.
Qed.

Lemma killed_interrupted w s :
  Rel w s -> interrupted (disk (engine w)) (journal w) s.
Proof.
  intros []. by eapply quiet_interrupted; [constructor|..].
Qed.

(** What a submission does, from the world of its request. *)
Lemma submit_cases w s id now w' r :
  Rel w s -> clock w = now -> submit calls id w = (w', r) ->
  (exists e,
     (e = QueueFullError \/ e = WorkerStoppedError \/
      e = ShimErr (bad_mutation_id id)) /\
     w' = w /\ r = Ret (StatusFromException e, None)) \/
  (exists w1 i r1,
     Rel w1 s /\ engine w1 = engine w /\ intents (journal w1) !! id = Some i /\
     run_case id (call_rpc (calls id)) now (call_plan (calls id)) w1 w' r1 /\
     r = match r1 with
         | Ret a => Ret (bytes_of a) | Throw e => Throw e | Died => Died
         end).
Proof.
  intros HR Hnow Hsub. unfold submit in Hsub.
  destruct (RunMutation_dispatch id (call_bytes (calls id)) (call_rpc (calls id))
    (call_resp (calls id)) _ _ w (call_conforms (calls id)))
    as [(e & He & Hrun)|[Hv Hrun]]; [apply HR|..]; rewrite Hrun in Hsub.
  { injection Hsub as <- <-. left. by exists e. }
  destruct (run_spec _ _ _ _ _) as [w1 r1] eqn:Hspec.
  apply run_spec_cases in Hspec. rewrite Hnow in Hspec.
  destruct (with_intent_has id (call_rpc (calls id)) (call_bytes (calls id))
    now (journal w)) as [i Hi].
  right. eexists _, i, r1. split; [by apply Rel_intent|]. split; [done|].
  split; [exact Hi|]. by destruct r1; injection Hsub as <- <-.
Qed.

Lemma replied_step w s id q now cp w' st out :
  Rel w s -> fits id (engine w) ->
  submit calls id (at_request q now cp w) = (w', Ret (st, out)) ->
  exists s', spec_step calls fits good book_eq s (Replied id st out) s' /\ Rel w' s'.
Proof.
  intros HR Hf Hsub.
  destruct (submit_cases (at_request q now cp w) s id now w' (Ret (st, out)))
    as [(e & He & -> & [= -> ->])|(w1 & i & r1 & HR1 & He1 & Hi & Hcase & Hr)];
    [by apply (Rel_same w)|done|done|..].
  { exists s. split; [by constructor|by apply (Rel_same w)]. }
  destruct Hcase as [|r Hrep|e Ha Hp Hd|e Ha Hp Hd|out0 eo ec x Ha Hp Hx
    |out0 eo ec r Ha Hp Hx]; try done.
  - exists s. split; [|done]. eapply (replay_reply w1 s id r w1); [done..|].
    destruct (reply r); congruence.
  - injection Hr as -> ->. pose proof (applied_done _ _ _ HR1 Ha) as Hn.
    eexists. split; [|by eapply Rel_verdict].
    apply spec_refuse; [done| |done]. destruct HR1. by exists now, (engine w1).
  - injection Hr as -> ->. pose proof (applied_done _ _ _ HR1 Ha) as Hn.
    exists s. split; [|done]. apply spec_transient; [done| |done].
    destruct HR1. by exists now, (engine w1).
  - destruct Hx as [->| ->]; [done|]. cbn in Hr. injection Hr as -> ->.
    pose proof (applied_done _ _ _ HR1 Ha) as Hn.
    eexists. split; [|eapply Rel_applied; [done|by rewrite He1|done..]].
    apply spec_apply; [done|]. eapply effect_of; [done|by rewrite ?He1|done].
Qed.

(** A process that dies while serving, or between two requests. *)
Lemma died_interrupted w s id q now cp w' :
  Rel w s -> fits id (engine w) -> submit calls id (at_request q now cp w) = (w', Died) ->
  interrupted (disk (engine w')) (journal w') s.
Proof.
  intros HR Hf Hsub.
  destruct (submit_cases (at_request q now cp w) s id now w' Died)
    as [(e & He & -> & [=])|(w1 & i & r1 & HR1 & He1 & Hi & Hcase & Hr)];
    [by apply (Rel_same w)|done|done|].
  destruct Hcase as [|r Hrep|e Ha Hp Hd|e Ha Hp Hd|out0 eo ec x Ha Hp Hx
    |out0 eo ec r Ha Hp Hx]; try done.
  - by apply killed_interrupted.
  - by apply killed_interrupted.
  - eapply (pending_interrupted w1); [done|by rewrite He1|exact Hp|exact Hi| |done].
    by eapply applied_done.
  - pose proof (applied_done _ _ _ HR1 Ha) as Hn.
    eapply quiet_interrupted.
    + eapply spec_applied_unanswered; [done|]. eapply effect_of; [done|by rewrite ?He1|done].
    + eapply durably; [apply HR1|by rewrite He1|exact Hp].
    + reflexivity.
    + eapply Rel_applied; [done|by rewrite He1|done..].
Qed.

(** One step of the daemon is one step of the specification. *)
Lemma refinement_step w l w' s :
  sys_step WasApplied calls fits w l w' -> Rel w s ->
  exists s', spec_step calls fits good book_eq s l s' /\ Rel w' s'.
Proof.
  intros Hstep HR.
  destruct Hstep as [|w id q now cp w' e now' w'' k Hfit Hsub Hl Hrec|w e now w' k Hl Hrec].
  - by eapply replied_step.
  - destruct (died_interrupted _ _ _ _ _ _ _ HR Hfit Hsub) as (Hf & _ & _ & Hgo).
    destruct (Hgo (restart e now' w')) as (w1 & k1 & s' & Hrun & ? & ?); [done..|].
    rewrite Hrec in Hrun. injection Hrun as <- _. by exists s'.
  - destruct (killed_interrupted _ _ HR) as (Hf & _ & _ & Hgo).
    destruct (Hgo (restart e now w)) as (w1 & k1 & s' & Hrun & ? & ?); [done..|].
    rewrite Hrec in Hrun. injection Hrun as <- _. by exists s'.
Qed.

(** *** The specification counts effects *)
Definition log_exact s : Prop :=
  NoDup (log s) /\
  forall id, id ∈ log s <->
    exists o, done s !! id = Some o /\ Outcome_ok o = true.

Lemma spec_log_exact s l s' :
  spec_step calls fits good book_eq s l s' -> log_exact s -> log_exact s'.
Proof.
  assert (forall s id b (out : call_Resp (calls id)),
            done s !! id = None -> log_exact s ->
            log_exact (MkSpec b
              (<[id := ok_outcome (call_rpc (calls id)) out]> (done s))
              (id :: log s))) as Happ.
  { clear. intros s id b out Hn [Hnd Hlog]. split; cbn.
    - apply NoDup_cons. split; [|done]. intros (o & Ho & _)%Hlog. congruence.
    - intros id'. rewrite elem_of_cons, Hlog, lookup_insert.
      case_decide as Hid; [subst; split; eauto|].
      split; [intros [->|?]; done|by right]. }
  intros [] HL; try done; [by apply Happ| |by apply Happ].
  destruct HL as [Hnd Hlog]. split; cbn; [done|]. intros id'.
  rewrite Hlog, lookup_insert. case_decide; subst; [|done].
  split; intros (o & Ho & Hok); [congruence|]. by injection Ho as <-.
Qed.

Lemma spec_done_mono s l s' id o :
  spec_step calls fits good book_eq s l s' -> done s !! id = Some o ->
  done s' !! id = Some o.
Proof.
  intros [] Ho; cbn; try done; rewrite lookup_insert_ne; congruence.
Qed.

Lemma ToStatus_not_ok e : status_code (ToStatus e) <> OK.
Proof. cbn. by destruct (code_ e). Qed.

(** A reply of OK comes from a recorded success. *)
Lemma spec_ok_reply s id st out s' :
  spec_step calls fits good book_eq s (Replied id st out) s' -> status_code st = OK ->
  exists o, done s' !! id = Some o /\ Outcome_ok o = true /\
            outcome_reply calls id o = Some (st, out).
Proof.
  intros Hstep Hst. inversion Hstep as [? ? o ? ? Ho Hr|? ? out0 b' Hn He
    |? ? e Hn Hrf Hd|? ? e Hn Hrf Hd|? ? e He| |]; subst.
  - exists o. split; [done|]. split; [|done]. unfold outcome_reply in Hr.
    destruct (Outcome_ok o); [done|]. injection Hr as <- _.
    by apply ToStatus_not_ok in Hst.
  - cbn. rewrite lookup_insert_eq. eexists. split; [done|]. split; [done|].
    apply ok_reply.
  - by apply ToStatus_not_ok in Hst.
  - by apply ToStatus_not_ok in Hst.
  - by destruct He as [->|[->| ->]].
Qed.

(** Along a run, every reply of OK is the one answer the final record
    gives. *)
Lemma spec_run_ok s ls s' :
  lstar (spec_step calls fits good book_eq) s ls s' ->
  (forall id o, done s !! id = Some o -> done s' !! id = Some o) /\
  forall id st out, Replied id st out ∈ ls -> status_code st = OK ->
    exists o, done s' !! id = Some o /\ Outcome_ok o = true /\
              outcome_reply calls id o = Some (st, out).
Proof.
  induction 1 as [s|s l s1 ls s' Hstep _ [IHm IHr]].
  { split; [done|]. by intros id st out ?%not_elem_of_nil. }
  split; [intros id o Ho; by eapply IHm, spec_done_mono|].
  intros id st out [<-|Hin]%elem_of_cons Hst; [|by apply IHr].
  destruct (spec_ok_reply _ _ _ _ _ Hstep Hst) as (o & Ho & Hr). eauto.
Qed.

(** *** Runs from an empty journal *)
Definition fresh w : Prop :=
  good (engine w) /\ intents (journal w) = ∅ /\ applied (journal w) = ∅ /\
  faults (journal w) = [].

Definition spec_init (b : D) : Spec := MkSpec b ∅ [].

Lemma fresh_Rel w : fresh w -> Rel w (spec_init (disk (engine w))).
Proof.
  intros (Hg & Hi & Ha & Hf). split; [done|reflexivity|].
  split; [done|..]; rewrite ?Hi, ?Ha; done.
Qed.

Lemma fresh_run w ls w' :
  fresh w -> lstar (sys_step WasApplied calls fits) w ls w' ->
  exists s, lstar (spec_step calls fits good book_eq)
              (spec_init (disk (engine w))) ls s /\ Rel w' s /\ log_exact s.
Proof.
  intros Hw%fresh_Rel Hrun.
  destruct (lstar_simulation _ _ _ refinement_step _ _ _ _ Hrun Hw)
    as (s & Hs & HR).
  exists s. split; [done|]. split; [done|].
  eapply (lstar_invariant _ log_exact); [apply spec_log_exact|done|].
  split; cbn; [constructor|]. intros id. split; [by intros ?%not_elem_of_nil|].
  by intros (? & ? & ?).
Qed.

Lemma Rel_GetOutcome w s id :
  Rel w s -> GetOutcome id (journal w) = (journal w, Ret (done s !! id)).
Proof.
  intros [_ _ Hj]. rewrite GetOutcome_calm by apply Hj.
  pose proof (jr_done _ _ Hj id) as Hd.
  destruct (applied (journal w) !! id) as [a|]; [|by rewrite Hd].
  destruct Hd as [-> [o ->]]. done.
Qed.

(** The daemon, with crashes at every crash point and between requests and
    reconciliation at every restart, refines the service that applies each
    mutation atomically and answers a repeated id from its record: every run
    of the daemon from an empty journal is a run of that service, on the same
    book, and the journal holds exactly the service's record. *)
Theorem contract_refines w ls w' :
  fresh w -> lstar (sys_step WasApplied calls fits) w ls w' ->
  exists s, lstar (spec_step calls fits good book_eq)
              (spec_init (disk (engine w))) ls s /\
    book_eq (disk (engine w')) (spec_book s) /\
    forall id, GetOutcome id (journal w') = (journal w', Ret (done s !! id)).
Proof.
  intros Hw Hrun. destruct (fresh_run _ _ _ Hw Hrun) as (s & Hs & HR & _).
  exists s. split; [done|]. split; [apply HR|].
  intros id. by apply Rel_GetOutcome.
Qed.

(** What the health check lists took no effect. *)
Lemma Rel_indeterminate w s :
  Rel w s -> log_exact s ->
  exists es, ListIndeterminate (journal w) = (journal w, Ret es) /\
    forall id, id ∈ (ie_mutation_id <$> es) -> (id ∉ log s) /\ done s !! id = None.
Proof.
  intros HR [_ Hlog]. pose proof (rel_journal _ _ HR) as Hj.
  destruct (ListIndeterminate_calm (journal w)) as (es & Hes & _ & Hids & _);
    [apply Hj|by eapply printable|].
  exists es. split; [done|].
  intros id [_ Ha]%Hids. pose proof (applied_done _ _ _ HR Ha) as Hn.
  split; [|done]. intros (o & Ho & _)%Hlog. congruence.
Qed.

(** Every success that a run has answered is on record, with that answer. *)
Lemma spec_acknowledged s ls s' :
  lstar (spec_step calls fits good book_eq) s ls s' -> log_exact s' ->
  forall id st out, Replied id st out ∈ ls -> status_code st = OK ->
    id ∈ log s' /\
    forall st' out', Replied id st' out' ∈ ls -> status_code st' = OK ->
      st' = st /\ out' = out.
Proof.
  intros Hs [_ Hlog] id st out Hin Hst. destruct (spec_run_ok _ _ _ Hs) as [_ Hok].
  destruct (Hok _ _ _ Hin Hst) as (o & Ho & Hso & Hr). split; [apply Hlog; eauto|].
  intros st' out' Hin' Hst'.
  destruct (Hok _ _ _ Hin' Hst') as (o' & Ho' & _ & Hr').
  split; congruence.
Qed.

(** Exactly once: in any run, an acknowledged mutation took effect exactly
    once however often it was sent and however the process died, and all its
    acknowledgements are the same bytes. *)
Theorem contract_exactly_once w ls w' :
  fresh w -> lstar (sys_step WasApplied calls fits) w ls w' ->
  exists s, lstar (spec_step calls fits good book_eq)
              (spec_init (disk (engine w))) ls s /\
    book_eq (disk (engine w')) (spec_book s) /\
    NoDup (log s) /\
    (forall id st out, Replied id st out ∈ ls -> status_code st = OK ->
       id ∈ log s /\
       forall st' out', Replied id st' out' ∈ ls -> status_code st' = OK ->
         st' = st /\ out' = out).
Proof.
  intros Hw Hrun. destruct (fresh_run _ _ _ Hw Hrun) as (s & Hs & HR & Hlog).
  exists s. split; [done|]. split; [apply HR|]. split; [apply Hlog|].
  by eapply spec_acknowledged.
Qed.

(** What the health check lists after any run is exactly the journaled
    mutations without an outcome, and none of them took effect. *)
Theorem contract_indeterminate w ls w' :
  fresh w -> lstar (sys_step WasApplied calls fits) w ls w' ->
  exists s es, lstar (spec_step calls fits good book_eq)
                 (spec_init (disk (engine w))) ls s /\
    book_eq (disk (engine w')) (spec_book s) /\
    ListIndeterminate (journal w') = (journal w', Ret es) /\
    forall id, id ∈ (ie_mutation_id <$> es) -> (id ∉ log s) /\ done s !! id = None.
Proof.
  intros Hw Hrun. destruct (fresh_run _ _ _ Hw Hrun) as (s & Hs & HR & Hlog).
  destruct (Rel_indeterminate _ _ HR Hlog) as (es & Hes & Hids).
  exists s, es. split_and!; [done|apply HR|done..].
Qed.
End refinement.
