(* ===== verification/Acknowledged.v ===== *)
(** * An acknowledgement is for good, whatever fails

    [Protocol.v] assumes that no journal statement fails. Here any may, in any
    request and in any reconciliation, processes die anywhere, and the book a new
    process finds is any book. What is left of the guarantee is its core: once a
    client has been told OK, its mutation is never carried out again, and every
    later OK carries the same response. *)
From S2P Require Import Prelude.
From S2P Require Import Messages.
From S2P Require Import Errors.
From S2P Require Import Worker.
From S2P Require Import Journal.
From S2P Require Import Mutation.
From S2P Require Import Recovery.
From S2P Require Import Protocol.
Local Open Scope prog_scope.

(** *** Inversion of the journal's methods under any schedule of failures *)
Section journal.
Context `{SqliteEnv} `{Proto Outcome}.
Implicit Types (j : Journal).

Lemma Stmt_applied j j' r : Stmt j = (j', r) -> applied j' = applied j.
Proof. unfold Stmt. by destruct (faults j) as [|[f|] fs]; intros [= <- _]. Qed.

Lemma GetOutcome_inv id j j' r :
  GetOutcome id j = (j', r) ->
  applied j' = applied j /\
  match r with
  | Ret recorded =>
      match applied j !! id with
      | Some row => recorded = ParseFromString (outcome row) /\ is_Some recorded
      | None => recorded = None
      end
  | Throw _ => True
  | Died => False
  end.
Proof.
  intros Hrun. unfold GetOutcome in Hrun.
  apply bind_cases in Hrun as [([] & j1 & Hs & Hrun)|[(e & Hs & ->)|[Hs ->]]].
  - apply Stmt_applied in Hs. unfold bind, gets in Hrun. rewrite Hs in Hrun.
    destruct (applied j !! id) as [row|] eqn:Ha; [|by injection Hrun as <- <-; rewrite Hs].
    destruct (ParseFromString (outcome row)) as [o|] eqn:Hp; injection Hrun as <- <-;
      split; try done.
  - split; [by eapply Stmt_applied|done].
  - unfold Stmt in Hs. by destruct (faults j) as [|[f|] fs].
Qed.

Lemma RecordOutcome_ret id o now j j' :
  RecordOutcome id o now j = (j', Ret tt) ->
  applied j' !! id = Some (MkApplied (SerializeAsString o) now).
Proof.
  intros ([] & j1 & _ & Hrun)%bind_inv_ret. unfold bind, gets, modify in Hrun. cbn in Hrun.
  destruct (applied j1 !! id); [done|]. destruct (foreign_keys j1 && _); [done|].
  injection Hrun as <-. apply lookup_insert_eq.
Qed.

(** An answer, once in the journal, stays. *)
Definition keeps_answers j j' : Prop := applied j ⊆ applied j'.

#[export] Instance keeps_answers_preorder : PreOrder keeps_answers.
Proof. split; [by intros j|]. intros j1 j2 j3 Hone Htwo. unfold keeps_answers. by etrans. Qed.

Lemma replay_keeps {Resp} `{Proto Resp} rpc id j j' (x : res exn Resp) :
  keeps_answers j j' -> replay_spec rpc id j = Some x -> replay_spec rpc id j' = Some x.
Proof.
  intros Ha Hx. rewrite <- Hx. symmetry. apply replay_spec_applied.
  unfold replay_spec in Hx. destruct (applied j !! id) as [row|] eqn:Hr; [|done].
  symmetry. by eapply lookup_weaken.
Qed.

Lemma replay_spec_grows {Resp} `{Proto Resp} rpc id j j' (x : res exn Resp) :
  journal_le j j' -> replay_spec rpc id j = Some x -> replay_spec rpc id j' = Some x.
Proof. intros Hle. apply replay_keeps, Hle. Qed.
End journal.

(** *** One request *)
Section request.
Context {E : Type} `{SqliteEnv} `{GrpcEnv} `{!Proto Outcome} `{!ProtoOk Outcome}.
Context {Resp : Type} `{!Proto Resp} `{!ProtoOk Resp}.
Implicit Types (w : World E) (plan : Plan E Resp) (apply : Apply E Resp).

(** What a request answers is in the journal. *)
Lemma body_records id bytes rpc resp apply w w' out :
  mutation_body id bytes rpc resp apply w = (w', Ret out) ->
  replay_spec rpc id (journal w') = Some (Ret out).
Proof.
  unfold mutation_body. intros ([] & w1 & _ & Hrun)%bind_inv_ret.
  apply bind_inv_ret in Hrun as (now & w2 & _ & Hrun).
  apply bind_inv_ret in Hrun as ([] & w3 & _ & Hrun).
  apply bind_inv_ret in Hrun as ([] & w4 & _ & Hrun).
  apply bind_inv_ret in Hrun as (recorded & w5 & Hget & Hrun).
  unfold in_journal, zoom in Hget.
  destruct (GetOutcome id (journal w4)) as [j5 r5] eqn:Hg. injection Hget as <- ->.
  apply GetOutcome_inv in Hg as [Ha Hrec]. destruct recorded as [o|].
  - rewrite replay_world in Hrun. injection Hrun as <- Hr.
    destruct (applied (journal w4) !! id) as [row|] eqn:Hrow; [|done].
    destruct Hrec as [Ho _]. unfold replay_spec. cbn. rewrite Ha, Hrow. cbn.
    by rewrite <- Ho, <- Hr.
  - unfold execute in Hrun. apply bind_inv_ret in Hrun as (o & w6 & _ & Hrun).
    apply bind_inv_ret in Hrun as ([] & w7 & Hout & Hrun).
    apply bind_inv_ret in Hrun as ([] & w8 & Hcp & [= <- <-]).
    unfold in_journal, zoom in Hout.
    destruct (RecordOutcome _ _ _ _) as [j7 r7] eqn:Hro. injection Hout as <- ->.
    apply RecordOutcome_ret in Hro.
    assert (w8 = set_journal j7 w6) as ->.
    { unfold CrashPointMaybe in Hcp. case_bool_decide; [done|]. by injection Hcp. }
    unfold replay_spec. cbn. rewrite Hro. cbn. rewrite parse_serialize. cbn.
    unfold replay. cbn. by rewrite parse_serialize.
Qed.

(** The engine is as it was, and the answers in the journal are there still. *)
Definition only_journal w w' : Prop :=
  engine w' = engine w /\ journal_le (journal w) (journal w').

#[export] Instance only_journal_preorder : PreOrder only_journal.
Proof.
  split; [by intros w|]. intros w1 w2 w3 [He1 Hj1] [He2 Hj2].
  split; [congruence|by etrans].
Qed.

Lemma in_journal_only {A} (m : Prog Journal A) :
  preserves journal_le m -> preserves only_journal (in_journal m).
Proof.
  intros Hm w w' r. unfold in_journal, zoom. destruct (m (journal w)) as [j r'] eqn:Hr.
  intros [= <- _]. split; [done|]. by eapply Hm.
Qed.

Lemma crash_only name : preserves only_journal (CrashPointMaybe name).
Proof. intros w w' r. unfold CrashPointMaybe. case_bool_decide; by intros [= <- _]. Qed.

Lemma replay_any {E1 E2} rpc id o (w1 : World E1) (w2 : World E2) :
  (replay (Resp := Resp) rpc id o w1).2 = (replay rpc id o w2).2.
Proof. unfold replay. destruct (Outcome_ok o); [|done]. by destruct (ParseFromString _). Qed.

Definition no_value {A} (r : res exn A) : Prop := forall a, r <> Ret a.

Lemma only_bind {A B} w0 (m : Prog (World E) A) (k : A -> Prog (World E) B) w w' r :
  bind m k w = (w', r) -> only_journal w0 w -> preserves only_journal m ->
  (only_journal w0 w' /\ no_value r) \/
  exists a w1, only_journal w0 w1 /\ k a w1 = (w', r) /\ m w = (w1, Ret a).
Proof.
  intros [(a & w1 & Hr & Hk)|[(e & Hr & ->)|[Hr ->]]]%bind_cases H0w Hm;
    apply Hm in Hr as Hw; [right; exists a, w1|left..];
    (split; [by etrans|done]).
Qed.

Lemma validate_only id : preserves only_journal (ValidateMutationId (S := World E) id).
Proof. intros w w' r. unfold ValidateMutationId. destruct (valid_mutation_id id); by intros [= <- _]. Qed.

(** An id with an answer in the journal is not carried out: the engine stays as
    it is, and the reply is that answer if there is one. *)
Lemma body_answers id bytes rpc resp apply w w' r x :
  replay_spec rpc id (journal w) = Some x ->
  mutation_body id bytes rpc resp apply w = (w', r) ->
  only_journal w w' /\ (r = x \/ no_value r).
Proof.
  intros Hx Hrun. unfold mutation_body in Hrun.
  apply (only_bind w) in Hrun as [[]|([] & w1 & H1w & Hrun & _)];
    [auto| |done|apply validate_only].
  apply (only_bind w) in Hrun as [[]|(now & w2 & H2w & Hrun & _)];
    [auto| |done|apply preserves_gets; typeclasses eauto].
  apply (only_bind w) in Hrun as [[]|([] & w3 & H3w & Hrun & _)];
    [auto| |done|apply in_journal_only, RecordIntent_le].
  apply (only_bind w) in Hrun as [[]|([] & w4 & H4w & Hrun & _)];
    [auto| |done|apply crash_only].
  apply (only_bind w) in Hrun as [[]|(recorded & w5 & H5w & Hrun & Hget)];
    [auto| |done|apply in_journal_only, GetOutcome_preserves; typeclasses eauto].
  apply (replay_spec_grows _ _ _ _ _ (proj2 H4w)) in Hx.
  unfold in_journal, zoom in Hget.
  destruct (GetOutcome id (journal w4)) as [j5 r5] eqn:Hg. injection Hget as <- ->.
  apply GetOutcome_inv in Hg as [_ Hrec]. unfold replay_spec in Hx.
  destruct (applied (journal w4) !! id) as [row|]; [|done]. destruct Hrec as [Hp [o ->]].
  cbn in Hx. rewrite <- Hp in Hx. injection Hx as <-.
  rewrite replay_world in Hrun. injection Hrun as <- <-. split; [done|]. left.
  apply replay_any.
Qed.
End request.

(** ** Processes on a failing disk *)
Section runs.
Context {E : Type} `{SqliteEnv} `{GrpcEnv} `{!Proto Outcome} `{!ProtoOk Outcome}.
Context (WasApplied : E -> PendingEntry -> option bool).
Context (calls : string -> Call E).
Implicit Types (w : World E) (fs : list (option SqlFault)).

(** The next statements of the journal succeed or fail as [fs] says. *)
Definition strained fs w : World E := on_journal (set_faults fs) w.

(** A request is served, or the process dies in it; a new process opens a book
    - any book - and reconciles, to the end or not. *)
Inductive rough_step : World E -> label -> World E -> Prop :=
| rough_reply w id fs q now cp w' st out :
    submit calls id (at_request q now cp (strained fs w)) = (w', Ret (st, out)) ->
    rough_step w (Replied id st out) w'
| rough_death w id fs q now cp w' :
    submit calls id (at_request q now cp (strained fs w)) = (w', Died) ->
    rough_step w Crashed w'
| rough_restart w e fs now w' r :
    ReconcilePendingMutations WasApplied (restart e now (strained fs w)) = (w', r) ->
    rough_step w Crashed w'.

(** *** The journal only grows *)
Definition grows w w' : Prop := journal_le (journal w) (journal w').

#[export] Instance grows_preorder : PreOrder grows.
Proof. unfold grows. typeclasses eauto. Qed.

Lemma strained_grows fs w : grows w (strained fs w).
Proof. apply journal_le_ignores. Qed.

Lemma submit_inv id w w' r :
  submit calls id w = (w', r) ->
  exists r0, RunMutation id (call_bytes (calls id)) (call_rpc (calls id))
      (call_resp (calls id)) (call_apply (calls id)) w = (w', r0) /\
    r = match r0 with Ret x => Ret (bytes_of x) | Throw e => Throw e | Died => Died end.
Proof.
  unfold submit. destruct (RunMutation _ _ _ _ _ w) as [w1 [x|e|]]; intros [= <- <-]; eauto.
Qed.

Lemma submit_grows id w w' r : submit calls id w = (w', r) -> grows w w'.
Proof.
  intros (r0 & Hrun & _)%submit_inv.
  by apply (run_mutation_grows _ _ _ _ _ _ _ _ _ (call_conforms (calls id)) Hrun).
Qed.

Lemma in_journal_grows {A} (m : Prog Journal A) :
  preserves journal_le m -> preserves grows (in_journal m).
Proof. apply (in_journal_preserves journal_le). Qed.
#[local] Hint Resolve in_journal_grows ClearPending_le RecordOutcome_le : preserves.

Lemma list_pending_grows : preserves grows (in_journal (E := E) ListPendingUnresolved).
Proof. apply in_journal_grows, query_preserves; typeclasses eauto. Qed.
#[local] Hint Resolve list_pending_grows : preserves.

Lemma reconcile_loop_grows entries n : preserves grows (reconcile_loop WasApplied entries n).
Proof. apply reconcile_loop_preserves; eauto with preserves typeclass_instances. Qed.

Lemma reconcile_grows : preserves grows (ReconcilePendingMutations WasApplied).
Proof. apply reconcile_preserves; eauto with preserves typeclass_instances. Qed.

Lemma rough_grows w l w' : rough_step w l w' -> grows w w'.
Proof.
  intros [v id fs q now cp v' st out Hrun|v id fs q now cp v' Hrun|v e fs now v' r Hrun].
  - transitivity (strained fs v); [apply strained_grows|].
    by apply submit_grows in Hrun.
  - transitivity (strained fs v); [apply strained_grows|].
    by apply submit_grows in Hrun.
  - transitivity (strained fs v); [apply strained_grows|].
    by apply reconcile_grows in Hrun.
Qed.

(** *** Acknowledgements *)

(** The id has an OK answer on record, and it is this one. *)
Definition acknowledged (id : string) (reply : Status * option string) w : Prop :=
  exists out : call_Resp (calls id),
    replay_spec (call_rpc (calls id)) id (journal w) = Some (Ret out) /\
    reply = bytes_of (Status_OK, Some out).

Lemma acknowledged_grows id reply w w' :
  grows w w' -> acknowledged id reply w -> acknowledged id reply w'.
Proof. intros Hg (out & Hx & ->). exists out. split; [by eapply replay_spec_grows|done]. Qed.

Lemma acknowledged_same id r r' w : acknowledged id r w -> acknowledged id r' w -> r = r'.
Proof. intros (out & Hx & ->) (out' & Hx' & ->). rewrite Hx in Hx'. by injection Hx' as ->. Qed.

Lemma ok_acknowledged id w w' st out :
  submit calls id w = (w', Ret (st, out)) -> status_code st = OK ->
  acknowledged id (st, out) w'.
Proof.
  intros (r0 & Hrun & Hr)%submit_inv Hok. destruct r0 as [x|e|]; [|done..].
  injection Hr as Hst Hout. unfold RunMutation, catch, bind, Run in Hrun.
  destruct (Enqueue tt (queue w)) as [e|q].
  { injection Hrun as _ <-. cbn in Hst. subst. by apply StatusFromException_code in Hok. }
  destruct (mutation_body _ _ _ _ _ w) as [w1 [o|e|]] eqn:Hb; [| |done].
  - injection Hrun as <- <-. cbn in Hst, Hout. subst. exists o.
    split; [by eapply body_records|done].
  - injection Hrun as _ <-. cbn in Hst. subst. by apply StatusFromException_code in Hok.
Qed.

Lemma acknowledged_answers id reply w w' r :
  acknowledged id reply w -> submit calls id w = (w', r) ->
  engine w' = engine w /\
  (r = Ret reply \/ r = Died \/ exists e, r = Ret (StatusFromException e, None)).
Proof.
  intros (out & Hx & ->) (r0 & Hrun & ->)%submit_inv.
  unfold RunMutation, catch, bind, Run in Hrun.
  destruct (Enqueue tt (queue w)) as [e|q].
  { injection Hrun as <- <-. split; [done|]. right; right. by exists e. }
  destruct (mutation_body _ _ _ _ _ w) as [w1 r1] eqn:Hb.
  apply (body_answers _ _ _ _ _ _ _ _ _ Hx) in Hb as [[He _] Hr].
  destruct r1 as [o|e|]; injection Hrun as <- <-; (split; [done|]).
  - destruct Hr as [[= ->]|Hno]; [by left|by destruct (Hno o)].
  - right; right. by exists e.
  - by right; left.
Qed.

Lemma run_acknowledged w ls w' id st out :
  lstar rough_step w ls w' -> Replied id st out ∈ ls -> status_code st = OK ->
  acknowledged id (st, out) w'.
Proof.
  intros Hrun. induction Hrun as [v|v l v1 ls v' Hstep Hrun IH]; intros Hin Hok.
  { by apply not_elem_of_nil in Hin. }
  apply elem_of_cons in Hin as [<-|Hin]; [|by apply IH].
  eapply acknowledged_grows.
  { eapply (lstar_invariant _ (grows v1)); [|exact Hrun|reflexivity].
    intros x k y Hxy Hx. etrans; [exact Hx|by eapply rough_grows]. }
  inversion Hstep; subst. by eapply ok_acknowledged.
Qed.

(** An acknowledgement is for good: once a client has been told OK, then -
    whatever journal statements failed before or fail later, in requests and
    in reconciliations, whichever processes died, and whatever books they
    opened - the mutation is never carried out again: a request with its id
    leaves the engine alone and gets the same OK and the same bytes, or an error,
    or the process dies. *)
Theorem acknowledged_for_good w0 ls w id st out :
  lstar rough_step w0 ls w -> Replied id st out ∈ ls -> status_code st = OK ->
  (forall st' out', Replied id st' out' ∈ ls -> status_code st' = OK ->
     st' = st /\ out' = out) /\
  forall fs q now cp w' r,
    submit calls id (at_request q now cp (strained fs w)) = (w', r) ->
    engine w' = engine w /\
    (r = Ret (st, out) \/ r = Died \/ exists e, r = Ret (StatusFromException e, None)).
Proof.
  intros Hrun Hin Hok. pose proof (run_acknowledged _ _ _ _ _ _ Hrun Hin Hok) as Hack. split.
  - intros st' out' Hin' Hok'. pose proof (run_acknowledged _ _ _ _ _ _ Hrun Hin' Hok') as Hack'.
    by injection (acknowledged_same _ _ _ _ Hack Hack') as -> ->.
  - intros fs q now cp w' r Hsub. eapply acknowledged_answers in Hsub; [exact Hsub|].
    eapply acknowledged_grows; [|exact Hack]. apply (strained_grows fs).
Qed.
End runs.
