(* ===== verification/Contract.v ===== *)
(** * The engine contract of the real handlers

    [Protocol.v] proves the exactly-once guarantee over [EngineContract]. This
    file discharges it for the eight mutating RPCs and the verdict of
    [journal/recovery.cpp], from laws on what libgnucash keeps of a book and
    when ([GncStore]), and states the guarantee for the daemon itself. *)
From S2P Require Import Prelude.
From S2P Require Import Messages.
From S2P Require Import Engine.
From S2P Require Import Errors.
From S2P Require Import Map.
From S2P Require Import Session.
From S2P Require Import Worker.
From S2P Require Import Journal.
From S2P Require Import Mutation.
From S2P Require Import Rpc.
From S2P Require Import Accounts.
From S2P Require Import Transactions.
From S2P Require Import Commodities.
From S2P Require Import SessionService.
From S2P Require Import Recovery.
From S2P Require Import WasApplied.
From S2P Require Import Protocol.
Local Open Scope prog_scope.

(** ** A book as the contract shows it *)
Section views.
Context `{Gnc}.

Definition see_account (b : Book) (g : GncGUID) : option Account :=
  AccountToProto b <$> xaccAccountLookup b g.
Definition see_reconcile (b : Book) (g : GncGUID) : option ReconcileInfo :=
  ReconcileInfoToProto b <$> xaccAccountLookup b g.
Definition see_transaction (b : Book) (g : GncGUID) : option Transaction :=
  TransactionToProto b <$> xaccTransLookup b g.
Definition see_price (b : Book) (g : GncGUID) : option Price :=
  PriceToProto b <$> gnc_price_lookup b g.

(** The same accounts, reconciliation dates, transactions with their splits,
    and prices. Balances are computed from the splits. *)
Record same_book (b b' : Book) : Prop := {
  same_account : forall g, see_account b g = see_account b' g;
  same_last_date : forall g,
    ReconcileInfo_last_date <$> see_reconcile b g =
    ReconcileInfo_last_date <$> see_reconcile b' g;
  same_transaction : forall g, see_transaction b g = see_transaction b' g;
  same_price : forall g, see_price b g = see_price b' g;
}.

#[export] Instance same_book_equiv : Equivalence same_book.
Proof.
  split.
  - by split.
  - intros b b' []. by split.
  - intros b1 b2 b3 [A1 B1 C1 D1] [A2 B2 C2 D2].
    split; intros g; [by rewrite A1|by rewrite B1|by rewrite C1|by rewrite D1].
Qed.

(** Where in a book the contract shows something. *)
Inductive Place :=
| AtAccount (g : GncGUID)
| AtDate (g : GncGUID)
| AtTransaction (g : GncGUID)
| AtPrice (g : GncGUID).

(** The same at every place but these. *)
Record same_but (places : list Place) (b b' : Book) : Prop := {
  but_account : forall g, AtAccount g ∉ places -> see_account b g = see_account b' g;
  but_last_date : forall g, AtDate g ∉ places ->
    ReconcileInfo_last_date <$> see_reconcile b g =
    ReconcileInfo_last_date <$> see_reconcile b' g;
  but_transaction : forall g, AtTransaction g ∉ places ->
    see_transaction b g = see_transaction b' g;
  but_price : forall g, AtPrice g ∉ places -> see_price b g = see_price b' g;
}.

#[export] Instance same_but_proper places :
  Proper (same_book ==> same_book ==> iff) (same_but places).
Proof.
  intros b1 b2 [A B C D] b1' b2' [A' B' C' D'].
  split; intros [Ha Hl Ht Hp]; split; intros g Hg; specialize (Ha g); specialize (Hl g);
    specialize (Ht g); specialize (Hp g); rewrite ?A, ?B, ?C, ?D, ?A', ?B', ?C', ?D' in *;
    auto.
Qed.

#[export] Instance Place_eq_dec : EqDecision Place.
Proof. solve_decision. Defined.

(** One place differs, and there it looks as before. *)
Lemma same_but_account g b b' :
  same_but [AtAccount g] b b' -> see_account b g = see_account b' g -> same_book b b'.
Proof.
  intros [Ha Hl Ht Hp] Hg. split; intros g'.
  - destruct (decide (g' = g)) as [->|Hne]; [done|].
    apply Ha. by intros [= ->]%list_elem_of_singleton.
  - apply Hl. by intros ?%list_elem_of_singleton.
  - apply Ht. by intros ?%list_elem_of_singleton.
  - apply Hp. by intros ?%list_elem_of_singleton.
Qed.

Lemma same_but_date g b b' :
  same_but [AtDate g] b b' -> see_reconcile b g = see_reconcile b' g -> same_book b b'.
Proof.
  intros [Ha Hl Ht Hp] Hg. split; intros g'.
  - apply Ha. by intros ?%list_elem_of_singleton.
  - destruct (decide (g' = g)) as [->|Hne]; [by rewrite Hg|].
    apply Hl. by intros [= ->]%list_elem_of_singleton.
  - apply Ht. by intros ?%list_elem_of_singleton.
  - apply Hp. by intros ?%list_elem_of_singleton.
Qed.

Lemma same_but_transaction g b b' :
  same_but [AtTransaction g] b b' -> see_transaction b g = see_transaction b' g ->
  same_book b b'.
Proof.
  intros [Ha Hl Ht Hp] Hg. split; intros g'.
  - apply Ha. by intros ?%list_elem_of_singleton.
  - apply Hl. by intros ?%list_elem_of_singleton.
  - destruct (decide (g' = g)) as [->|Hne]; [done|].
    apply Ht. by intros [= ->]%list_elem_of_singleton.
  - apply Hp. by intros ?%list_elem_of_singleton.
Qed.

(** ** What happens between opening an edit and committing it *)

(** Setting the commodity of an account rescales its splits, unless there are
    none or nothing changes. *)
Definition rescales_nothing (b : Book) (a : AccountPtr) (c : CommodityPtr) : Prop :=
  xaccAccountGetSplitList b a = [] \/ xaccAccountGetCommodity b a = Some c.

Inductive account_call (a : AccountPtr) (may_set : CommodityPtr -> Prop) :
    Book -> Book -> Prop :=
| call_name n b : account_call a may_set b (xaccAccountSetName a n b)
| call_type t b : account_call a may_set b (xaccAccountSetType a t b)
| call_commodity c b :
    may_set c -> account_call a may_set b (xaccAccountSetCommodity a c b)
| call_code c b : account_call a may_set b (xaccAccountSetCode a c b)
| call_description d b : account_call a may_set b (xaccAccountSetDescription a d b)
| call_placeholder p b : account_call a may_set b (xaccAccountSetPlaceholder a p b)
| call_hidden h b : account_call a may_set b (xaccAccountSetHidden a h b)
| call_append p b : account_call a may_set b (gnc_account_append_child p a b).

Definition account_created (a : AccountPtr) (b b' : Book) : Prop :=
  exists b1, xaccMallocAccount b = (a, b1) /\
    star (account_call a (fun _ => True)) (xaccAccountBeginEdit a b1) b'.

Definition account_edited (a : AccountPtr) (b b' : Book) : Prop :=
  (exists g, xaccAccountLookup b g = Some a) /\
  star (account_call a (rescales_nothing b a)) (xaccAccountBeginEdit a b) b'.

Definition account_reconciled (a : AccountPtr) (b b' : Book) : Prop :=
  (exists g, xaccAccountLookup b g = Some a) /\
  exists t, b' = xaccAccountSetReconcileLastDate a t (xaccAccountBeginEdit a b).

Inductive transaction_call (t : TransactionPtr) : Book -> Book -> Prop :=
| call_currency c b : transaction_call t b (xaccTransSetCurrency t c b)
| call_posted d b : transaction_call t b (xaccTransSetDatePostedGDate t d b)
| call_entered s b : transaction_call t b (xaccTransSetDateEnteredSecs t s b)
| call_num n b : transaction_call t b (xaccTransSetNum t n b)
| call_text d b : transaction_call t b (xaccTransSetDescription t d b).

Inductive split_call (s : SplitPtr) : Book -> Book -> Prop :=
| call_destroy b : split_call s b (xaccSplitDestroy s b)
| call_account a b : split_call s b (xaccSplitSetAccount s a b)
| call_value v b : split_call s b (xaccSplitSetValue s v b)
| call_amount v b : split_call s b (xaccSplitSetAmount s v b)
| call_memo m b : split_call s b (xaccSplitSetMemo s m b)
| call_action m b : split_call s b (xaccSplitSetAction s m b)
| call_reconcile f b : split_call s b (xaccSplitSetReconcile s f b).

(** Calls on a transaction under edit and on its splits: those it had and
    those it was given. *)
Inductive transaction_step (t : TransactionPtr) :
    list SplitPtr * Book -> list SplitPtr * Book -> Prop :=
| step_transaction own b b' :
    transaction_call t b b' -> transaction_step t (own, b) (own, b')
| step_new_split own s b b1 :
    xaccMallocSplit b = (s, b1) ->
    transaction_step t (own, b) (s :: own, xaccSplitSetParent s t b1)
| step_split own s b b' :
    s ∈ own -> split_call s b b' -> transaction_step t (own, b) (own, b').

Definition transaction_created (t : TransactionPtr) (b b' : Book) : Prop :=
  exists b1 own, xaccMallocTransaction b = (t, b1) /\
    star (transaction_step t) ([], xaccTransBeginEdit t b1) (own, b').

Definition transaction_edited (t : TransactionPtr) (b b' : Book) : Prop :=
  (exists g, xaccTransLookup b g = Some t) /\
  exists own, star (transaction_step t)
    (xaccTransGetSplitList b t, xaccTransBeginEdit t b) (own, b').

(** The engine takes the transaction for balanced: committing it adds nothing. *)
Definition engine_balanced (b : Book) (t : TransactionPtr) : Prop :=
  gnc_numeric_zero_p (xaccTransGetImbalanceValue b t) = true.

Inductive price_call (p : PricePtr) : Book -> Book -> Prop :=
| call_price_commodity c b : price_call p b (gnc_price_set_commodity p c b)
| call_price_currency c b : price_call p b (gnc_price_set_currency p c b)
| call_price_time t b : price_call p b (gnc_price_set_time64 p t b)
| call_price_value v b : price_call p b (gnc_price_set_value p v b)
| call_price_source s b : price_call p b (gnc_price_set_source_string p s b).

Definition price_created (p : PricePtr) (b b' : Book) : Prop :=
  exists b1, gnc_price_create b = (p, b1) /\
    star (price_call p) (gnc_price_begin_edit p b1) b'.

(** No price of the same commodity, currency and day stands in the way. *)
Definition day_free (b : Book) (p : PricePtr) : Prop :=
  forall q,
    q ∈ gnc_pricedb_get_prices b (gnc_price_get_commodity b p)
          (Some (gnc_price_get_currency b p)) ->
    time64_to_gdate (gnc_price_get_time64 b q) <>
    time64_to_gdate (gnc_price_get_time64 b p).
End views.

(** ** The laws

    The book lives at the URI [stored_at].
    [clean b]: no edit is open, so memory shows what the store holds.
    [has_room b]: the engine, which draws a GUID again when it is taken, still
    finds a free one. *)
Class GncStore `{Gnc} := {
  clean : Book -> Prop;
  has_room : Book -> Prop;
  stored_at : string;
}.

(** Nothing is stored before a commit; what is committed is stored as it was, and
    nothing else changes that the contract shows; a new object has a GUID of its
    own, a destroyed one is not found again. *)
Class GncStoreOk `{GncStore} : Prop := {
  clean_load : forall b, clean b ->
    let b' := book_load (book_store b) in
    clean b' /\ book_store b' = book_store b /\ same_book b' b /\
    forall g, see_reconcile b' g = see_reconcile b g;
  account_created_stored : forall b a b',
    clean b -> has_room b -> account_created a b b' ->
    let g := account_guid b' a in
    let bc := xaccAccountCommitEdit a b' in
    xaccAccountLookup b g = None /\ book_store b' = book_store b /\ clean bc /\
    see_account bc g = Some (AccountToProto b' a) /\
    same_but [AtAccount g; AtDate g] bc b;
  account_edited_stored : forall b a b',
    clean b -> account_edited a b b' ->
    let g := account_guid b' a in
    let bc := xaccAccountCommitEdit a b' in
    book_store b' = book_store b /\ clean bc /\
    see_account bc g = Some (AccountToProto b' a) /\
    same_but [AtAccount g] bc b;
  account_reconciled_stored : forall b a b',
    clean b -> account_reconciled a b b' ->
    let g := account_guid b' a in
    let bc := xaccAccountCommitEdit a b' in
    book_store b' = book_store b /\ clean bc /\
    see_reconcile bc g = Some (ReconcileInfoToProto b' a) /\
    same_but [AtDate g] bc b;
  account_destroyed_stored : forall b g a,
    clean b -> xaccAccountLookup b g = Some a ->
    xaccAccountGetSplitList b a = [] -> (gnc_account_n_children b a <= 0)%Z ->
    let bc := xaccAccountDestroy a (xaccAccountBeginEdit a b) in
    clean bc /\ xaccAccountLookup bc g = None /\
    same_but [AtAccount g; AtDate g] bc b;
  transaction_created_stored : forall b t b',
    clean b -> has_room b -> transaction_created t b b' -> engine_balanced b' t ->
    let g := transaction_guid b' t in
    let bc := xaccTransCommitEdit t b' in
    xaccTransLookup b g = None /\ book_store b' = book_store b /\ clean bc /\
    see_transaction bc g = Some (TransactionToProto b' t) /\
    same_but [AtTransaction g] bc b;
  transaction_edited_stored : forall b t b',
    clean b -> transaction_edited t b b' -> engine_balanced b' t ->
    let g := transaction_guid b' t in
    let bc := xaccTransCommitEdit t b' in
    book_store b' = book_store b /\ clean bc /\
    see_transaction bc g = Some (TransactionToProto b' t) /\
    same_but [AtTransaction g] bc b;
  transaction_destroyed_stored : forall b g t,
    clean b -> xaccTransLookup b g = Some t ->
    let bc := xaccTransCommitEdit t (xaccTransDestroy t (xaccTransBeginEdit t b)) in
    clean bc /\ xaccTransLookup bc g = None /\
    same_but [AtTransaction g] bc b;
  price_created_stored : forall b p b',
    clean b -> has_room b -> price_created p b b' -> day_free b' p ->
    let g := gnc_price_get_guid b' p in
    let bc := AddPrice_commit p b' in
    gnc_price_lookup b g = None /\ book_store b' = book_store b /\ clean bc /\
    is_Some (gnc_price_lookup bc g) /\ same_but [AtPrice g] bc b;
}.

(** ** The engine of the protocol is the session *)
Section durable.
Context `{SessionEnv} `{!GncStore} `{!GncStoreOk} `{!GncValuesOk}.
Context `{ProtoOk Account} `{ProtoOk ReconcileInfo} `{ProtoOk Transaction}
  `{ProtoOk Price} `{ProtoOk DeleteAccountRequest} `{ProtoOk DeleteTransactionRequest}.

(** Books that the contract shows alike, reconciliation data included. *)
Definition looks_same (b b' : Book) : Prop :=
  same_book b b' /\ forall g, see_reconcile b g = see_reconcile b' g.

#[export] Instance looks_same_equiv : Equivalence looks_same.
Proof.
  split.
  - intros b. split; [reflexivity|done].
  - intros b b' [Hb Hr]. by split; [symmetry|].
  - intros b1 b2 b3 [Hb1 Hr1] [Hb2 Hr2].
    split; [by etransitivity|]. intros g. by rewrite Hr1.
Qed.

(** A session on the book, open and with no edit. *)
Definition on_book (s : Session) : Prop := book_uri (config_ s) = stored_at.
Definition at_rest (s : Session) : Prop :=
  on_book s /\ session_ s <> None /\ clean (qof s).

(** A process that opens the book finds in memory what was stored. *)
#[export] Instance session_durable : Durable Session Store := {|
  disk s := book_store (qof s);
  loads d s := at_rest s /\ looks_same (qof s) (book_load d);
|}.

(** Open or closed, with nothing half done: what is stored is a whole book. *)
Definition whole (d : Store) : Prop := exists b, clean b /\ book_store b = d.
Definition settled (s : Session) : Prop :=
  on_book s /\ (session_ s <> None -> clean (qof s)) /\ whole (book_store (qof s)).

Definition same_store (d d' : Store) : Prop := same_book (book_load d) (book_load d').

#[export] Instance same_store_equiv : Equivalence same_store.
Proof.
  split; unfold same_store.
  - intros d. reflexivity.
  - intros d d' Hd. by symmetry.
  - intros d1 d2 d3 Hd1 Hd2. by etransitivity.
Qed.

Definition found_applied (s : Session) (entry : PendingEntry) : option bool :=
  WasApplied.WasApplied (qof s) entry.

Lemma clean_looks b : clean b -> looks_same (book_load (book_store b)) b.
Proof. intros Hc. destruct (clean_load _ Hc) as (_ & _ & Hb & Hr). by split. Qed.

Lemma at_rest_settled s : at_rest s -> settled s.
Proof. intros (Hu & Hs & Hc). split_and!; [done..|]. by exists (qof s). Qed.

Lemma at_rest_clean s : at_rest s -> clean (qof s).
Proof. by intros (_ & _ & ?). Qed.

(** The session's own fields, which no edit touches. *)
Definition handle (s : Session) : Config * option QofSessionPtr := (config_ s, session_ s).

Lemma handle_rest s so b :
  handle so = handle s -> at_rest s -> clean b -> at_rest (set_qof b so).
Proof.
  intros [= Hc Hs] (Hu & Ho & _) Hb. split_and!; cbn; [|by rewrite Hs|done].
  unfold on_book. cbn. by rewrite Hc.
Qed.

(** What is stored of a settled session is what its next opening stores. *)
Lemma settled_loads s s' :
  settled s -> loads (disk s) s' -> settled s' /\ same_store (disk s') (disk s).
Proof.
  intros (_ & _ & b & Hc & Hb) [Hrest Hl]. split; [by apply at_rest_settled|].
  unfold same_store. cbn [disk session_durable] in *.
  destruct Hrest as (_ & _ & Hc'). rewrite <- Hb in Hl |- *.
  by destruct (clean_looks _ Hc') as [-> _], Hl as [-> _].
Qed.

(** What [EngineContract] asks of a mutation that proceeds. *)
Definition durable (entry : PendingEntry) (s so sc : Session) : Prop :=
  at_rest sc /\ disk so = disk s /\
  (forall s', loads (disk sc) s' -> found_applied s' entry = Some true) /\
  (forall s', loads (disk s) s' -> found_applied s' entry = Some true ->
     same_store (disk sc) (disk s)).

(** It is enough to look at the books in memory, by anything that reads them
    through the contract. *)
Lemma durable_by_view (found : Book -> Prop) entry s so sc :
  (forall b, WasApplied.WasApplied b entry = Some true <-> found b) ->
  (forall b b', looks_same b b' -> found b' -> found b) ->
  at_rest s -> at_rest sc -> book_store (qof so) = book_store (qof s) ->
  found (qof sc) -> (found (qof s) -> same_book (qof sc) (qof s)) ->
  durable entry s so sc.
Proof.
  intros Hf Hsame (Hu & Hs & Hc) (Huc & Hsc & Hcc) Hd Hfound Hnoop.
  unfold durable, found_applied, same_store. cbn [qof loads disk session_durable].
  split_and!; [done|done|..]; intros s' [_ Hl]; rewrite Hf.
  - eapply Hsame; [|done]. rewrite Hl. by apply clean_looks.
  - intros Hbefore. destruct (clean_looks _ Hc) as [-> _], (clean_looks _ Hcc) as [-> _].
    apply Hnoop. eapply Hsame; [|done]. rewrite Hl. symmetry. by apply clean_looks.
Qed.
End durable.

(** ** What the handlers do is what the laws speak of *)
Section traces.
Context `{SessionEnv}.
Implicit Types (s : Session).

Lemma FindAccount_inr b text context a :
  FindAccount b text context = inr a ->
  exists g, string_to_guid (c_str text) = Some g /\ xaccAccountLookup b g = Some a.
Proof.
  unfold FindAccount, StringToGuid. intros (g & Hg & Hl)%sbind_inr.
  destruct (string_to_guid _); [|done]. injection Hg as ->. exists g.
  destruct (xaccAccountLookup b g); [|done]. by injection Hl as ->.
Qed.

Lemma FindTransaction_inr b text context t :
  FindTransaction b text context = inr t ->
  exists g, string_to_guid (c_str text) = Some g /\ xaccTransLookup b g = Some t.
Proof.
  unfold FindTransaction, StringToGuid. intros (g & Hg & Hl)%sbind_inr.
  destruct (string_to_guid _); [|done]. injection Hg as ->. exists g.
  destruct (xaccTransLookup b g); [|done]. by injection Hl as ->.
Qed.

(** A chain of calls, the last one outermost. *)
Local Ltac chain :=
  cbn [qof set_qof];
  repeat (eapply star_snoc; [|solve [constructor; auto]]); try apply star_refl.

Lemma CreateAccount_trace request now s so p :
  CreateAccount_edit request now s = (so, Ret p) ->
  handle so = handle s /\ account_created p.1 (qof s) (qof so) /\
  p.2 = AccountToProto (qof so) p.1.
Proof.
  unfold CreateAccount_edit. intros Hrun. run_inv Hrun. cbn [fst snd].
  match goal with Hm : xaccMallocAccount _ = _ |- _ => rename Hm into Hmalloc end.
  split_and!; [done| |done]. eexists. split; [exact Hmalloc|]. chain.
Qed.

(** The update does not change the commodity of an account with splits. *)
Definition keeps_commodity (request : UpdateAccountRequest) (b : Book) : Prop :=
  let spec := or_default Account_default (UpdateAccountRequest_account request) in
  forall a c,
    FindAccount b (Account_guid spec) "account.guid" = inr a ->
    FindCommodity b (or_default CommodityId_default (Account_commodity spec))
      "account.commodity" = inr c ->
    rescales_nothing b a c.

Lemma CheckNoCycle_here account new_parent context s s' u :
  CheckNoCycle account new_parent context s = (s', Ret u) -> s' = s.
Proof.
  intros Hrun. destruct (CheckNoCycle_reads account new_parent context s) as [Hs _].
  by rewrite Hrun in Hs.
Qed.

Lemma UpdateAccount_trace request now s so p :
  keeps_commodity request (qof s) ->
  UpdateAccount_edit request now s = (so, Ret p) ->
  handle so = handle s /\ account_edited p.1 (qof s) (qof so) /\
  p.2 = AccountToProto (qof so) p.1.
Proof.
  unfold UpdateAccount_edit. intros Hkeep Hrun. run_inv Hrun. cbn [fst snd].
  repeat match goal with
  | Hc : CheckNoCycle _ _ _ _ = _ |- _ => apply CheckNoCycle_here in Hc as ->
  | Hc : CheckIsNotRoot _ _ _ _ = _ |- _ => apply throw_if_ret in Hc as [-> _]
  | Hp : (if ?d then _ else _) _ = (_, _) |- _ => destruct d; run_inv Hp
  end.
  all: cbn [qof set_qof] in *.
  all: split_and!; [done| |done].
  all: match goal with
       | Ha : FindAccount _ _ "account.guid" = inr _,
         Hc : FindCommodity _ _ _ = inr _ |- _ =>
           pose proof (Hkeep _ _ Ha Hc);
           apply FindAccount_inr in Ha as (g & _ & Ha)
       end.
  all: split; [by eexists|chain].
Qed.

Lemma SetReconcileInfo_trace request now s so p :
  SetReconcileInfo_edit request now s = (so, Ret p) ->
  handle so = handle s /\ account_reconciled p.1 (qof s) (qof so) /\
  p.2 = ReconcileInfoToProto (qof so) p.1.
Proof.
  unfold SetReconcileInfo_edit. intros Hrun. run_inv Hrun. cbn [fst snd].
  match goal with Ha : FindAccount _ _ _ = inr _ |- _ =>
    apply FindAccount_inr in Ha as (g & _ & Ha) end.
  split_and!; [done| |done]. split; [by eexists|]. by eexists.
Qed.

Lemma DeleteAccount_trace request now s so p :
  DeleteAccount_edit request now s = (so, Ret p) ->
  so = s /\ exists g,
    string_to_guid (c_str (DeleteAccountRequest_guid request)) = Some g /\
    xaccAccountLookup (qof s) g = Some p.1 /\
    xaccAccountGetSplitList (qof s) p.1 = [] /\
    (gnc_account_n_children (qof s) p.1 <= 0)%Z.
Proof.
  unfold DeleteAccount_edit. intros Hrun. run_inv Hrun. cbn [fst snd].
  match goal with Hc : CheckIsNotRoot _ _ _ _ = _ |- _ => apply throw_if_ret in Hc as [-> _] end.
  match goal with Ha : FindAccount _ _ _ = inr _ |- _ =>
    apply FindAccount_inr in Ha as (g & Hg & Ha) end.
  match goal with Hc : _ || _ = false |- _ =>
    apply orb_false_iff in Hc as [Hs%negb_false_iff%bool_decide_eq_true Hn%Z.ltb_ge] end.
  split; [done|]. by exists g.
Qed.

Lemma DeleteTransaction_trace request now s so p :
  DeleteTransaction_edit request now s = (so, Ret p) ->
  so = s /\ exists g,
    string_to_guid (c_str (DeleteTransactionRequest_guid request)) = Some g /\
    xaccTransLookup (qof s) g = Some p.1.
Proof.
  unfold DeleteTransaction_edit. intros Hrun. run_inv Hrun. cbn [fst snd].
  split; [done|]. by eapply FindTransaction_inr.
Qed.

(** *** Applying a plan *)
Lemma session_call f s : handle (set_qof (f (qof s)) s) = handle s.
Proof. done. Qed.

Lemma destroy_trace t l own s s' u :
  (forall x, x ∈ l -> x ∈ own) ->
  for_each l (fun x => call (xaccSplitDestroy x)) s = (s', Ret u) ->
  handle s' = handle s /\
  star (transaction_step t) (own, qof s) (own, qof s').
Proof.
  revert s. induction l as [|x l IH]; intros s Hown Hrun; cbn in Hrun; run_inv Hrun.
  { split; [done|apply star_refl]. }
  apply IH in Hrun as [-> Hrun]; [|intros y Hy; by apply Hown, list_elem_of_further].
  split; [done|]. eapply star_step; [|exact Hrun].
  apply (step_split t own x); [apply Hown, list_elem_of_here|constructor].
Qed.

Lemma apply_split_trace t sp own s s' u :
  (forall x, existing sp = Some x -> x ∈ own) ->
  apply_split t sp s = (s', Ret u) ->
  handle s' = handle s /\ exists own', own ⊆ own' /\
    star (transaction_step t) (own, qof s) (own', qof s').
Proof.
  unfold apply_split. intros Hown Hrun. run_inv Hrun. split.
  { destruct (existing sp); run_inv Hrun0; done. }
  assert (exists own', own ⊆ own' /\ a ∈ own' /\
            star (transaction_step t) (own, qof s) (own', qof s0))
    as (own' & Hsub & Ha & Hs).
  { destruct (existing sp) as [x|]; run_inv Hrun0.
    - exists own. split_and!; [done|by apply Hown|apply star_refl].
    - match goal with Hm : xaccMallocSplit _ = (?x, _) |- _ => exists (x :: own) end.
      split_and!; [set_solver|apply list_elem_of_here|].
      cbn [qof set_qof]. by apply star_one, step_new_split. }
  exists own'. split; [done|]. eapply star_trans; [exact Hs|]. cbn [qof set_qof].
  repeat (eapply star_snoc; [|solve [eapply step_split; [exact Ha|constructor]]]).
  apply star_refl.
Qed.

Lemma apply_splits_trace t l own s s' u :
  (forall x, x ∈ omap existing l -> x ∈ own) ->
  for_each l (apply_split t) s = (s', Ret u) ->
  handle s' = handle s /\ exists own',
    star (transaction_step t) (own, qof s) (own', qof s').
Proof.
  revert s own. induction l as [|sp l IH]; intros s own Hown Hrun; cbn in Hrun; run_inv Hrun.
  { split; [done|]. exists own. apply star_refl. }
  apply (apply_split_trace t sp own) in Hrun0 as (Hs0 & own1 & Hsub & Hrun0).
  2:{ intros x Hx. apply Hown, list_elem_of_omap. exists sp.
      split; [apply list_elem_of_here|done]. }
  apply (IH _ own1) in Hrun as (Hs1 & own2 & Hrun).
  - split; [congruence|]. exists own2. by eapply star_trans.
  - intros x (y & Hy & Hx)%list_elem_of_omap. apply Hsub, Hown, list_elem_of_omap.
    exists y. split; [by apply list_elem_of_further|done].
Qed.

Lemma ApplyPlan_trace t plan own s s' u :
  (forall x, x ∈ omap existing (splits plan) \/ x ∈ doomed plan -> x ∈ own) ->
  ApplyPlan t plan s = (s', Ret u) ->
  handle s' = handle s /\ exists own',
    star (transaction_step t) (own, qof s) (own', qof s').
Proof.
  unfold ApplyPlan. intros Hown Hrun. run_inv Hrun.
  apply (destroy_trace t _ own) in Hrun0 as [Hs1 Hdoomed]; [|auto].
  apply (apply_splits_trace t _ own) in Hrun as (Hs2 & own' & Hsplits); [|auto].
  cbn [qof set_qof] in *. split; [exact (eq_trans Hs2 Hs1)|]. exists own'.
  eapply star_trans; [|exact Hsplits]. eapply star_trans; [|exact Hdoomed].
  repeat (eapply star_snoc; [|solve [apply step_transaction; constructor]]).
  apply star_refl.
Qed.

Lemma PostTransaction_trace `{!GncValuesOk} request now s so p :
  PostTransaction_edit request now s = (so, Ret p) ->
  handle so = handle s /\ transaction_created p.1 (qof s) (qof so) /\
  p.2 = TransactionToProto (qof so) p.1.
Proof.
  unfold PostTransaction_edit. intros Hrun. run_inv Hrun. cbn [fst snd].
  match goal with
  | Hp : PlanTransaction _ _ _ _ = inr _, Hm : xaccMallocTransaction _ = _,
    Ha : ApplyPlan _ _ _ = _ |- _ =>
      apply (ApplyPlan_trace _ _ []) in Ha as (Hs & own & Hstar);
      [rename Hm into Hmalloc
      |intros x Hx; by destruct (plan_speaks_of_own _ _ _ _ _ _ Hp Hx) as (? & ? & _)]
  end.
  split_and!; [exact Hs| |done]. by eexists _, own.
Qed.

Lemma UpdateTransaction_trace `{!GncValuesOk} request now s so p :
  UpdateTransaction_edit request now s = (so, Ret p) ->
  handle so = handle s /\ transaction_edited p.1 (qof s) (qof so) /\
  p.2 = TransactionToProto (qof so) p.1.
Proof.
  unfold UpdateTransaction_edit. intros Hrun. run_inv Hrun. cbn [fst snd].
  match goal with
  | Ht : FindTransaction _ _ _ = inr ?t, Hp : PlanTransaction _ _ _ _ = inr _,
    Ha : ApplyPlan _ _ _ = _ |- _ =>
      apply FindTransaction_inr in Ht as (g & _ & Ht);
      apply (ApplyPlan_trace _ _ (xaccTransGetSplitList (qof s) t)) in Ha
        as (Hs & own & Hstar);
      [|intros x Hx;
        by destruct (plan_speaks_of_own _ _ _ _ _ _ Hp Hx) as (? & [= <-] & ?)]
  end.
  split_and!; [exact Hs| |done]. split; [by exists g|]. by exists own.
Qed.

Lemma AddPrice_trace request now s so p :
  AddPrice_edit request now s = (so, Ret p) ->
  handle so = handle s /\ price_created p.1 (qof s) (qof so) /\
  p.2 = PriceToProto (qof so) p.1.
Proof.
  unfold AddPrice_edit. intros Hrun. run_inv Hrun. cbn [fst snd].
  match goal with Hm : gnc_price_create _ = _ |- _ => rename Hm into Hmalloc end.
  split_and!; [done| |done]. eexists. split; [exact Hmalloc|]. chain.
Qed.
End traces.

(** ** Every mutating RPC is durable *)
Section rpcs.
Context `{SessionEnv} `{!GncStore} `{!GncStoreOk} `{!GncValuesOk}.
Context `{ProtoOk Account} `{ProtoOk ReconcileInfo} `{ProtoOk Transaction}
  `{ProtoOk Price} `{ProtoOk DeleteAccountRequest} `{ProtoOk DeleteTransactionRequest}.
Context (id bytes : string) (now : Z).
Implicit Types (s so sc : Session).

Lemma seen_account b g x : see_account b g = Some x -> is_Some (xaccAccountLookup b g).
Proof. unfold see_account. destruct (xaccAccountLookup b g); [by eexists|done]. Qed.

Lemma seen_transaction b g x :
  see_transaction b g = Some x -> is_Some (xaccTransLookup b g).
Proof. unfold see_transaction. destruct (xaccTransLookup b g); [by eexists|done]. Qed.

Lemma see_account_None b b' g :
  looks_same b b' -> xaccAccountLookup b' g = None -> xaccAccountLookup b g = None.
Proof.
  intros [[Ha _ _ _] _] Hb. specialize (Ha g). unfold see_account in Ha.
  rewrite Hb in Ha. by apply fmap_None in Ha.
Qed.

Lemma see_account_Some b b' g :
  looks_same b b' -> is_Some (xaccAccountLookup b' g) -> is_Some (xaccAccountLookup b g).
Proof.
  intros [[Ha _ _ _] _] Hb. specialize (Ha g). unfold see_account in Ha.
  rewrite <- (fmap_is_Some (AccountToProto b)), Ha. by rewrite fmap_is_Some.
Qed.

Lemma see_transaction_None b b' g :
  looks_same b b' -> xaccTransLookup b' g = None -> xaccTransLookup b g = None.
Proof.
  intros [[_ _ Ha _] _] Hb. specialize (Ha g). unfold see_transaction in Ha.
  rewrite Hb in Ha. by apply fmap_None in Ha.
Qed.

Lemma see_transaction_Some b b' g :
  looks_same b b' -> is_Some (xaccTransLookup b' g) -> is_Some (xaccTransLookup b g).
Proof.
  intros [[_ _ Ha _] _] Hb. specialize (Ha g). unfold see_transaction in Ha.
  rewrite <- (fmap_is_Some (TransactionToProto b)), Ha. by rewrite fmap_is_Some.
Qed.

Lemma see_price_Some b b' g :
  looks_same b b' -> is_Some (gnc_price_lookup b' g) -> is_Some (gnc_price_lookup b g).
Proof.
  intros [[_ _ _ Ha] _] Hb. specialize (Ha g). unfold see_price in Ha.
  rewrite <- (fmap_is_Some (PriceToProto b)), Ha. by rewrite fmap_is_Some.
Qed.

(** Each commit, in the laws' words: what it leaves, and where the answer is seen. *)
Lemma CreateAccount_commits r s so sc out :
  at_rest s -> has_room (qof s) ->
  plan_of (CreateAccount_edit r) xaccAccountCommitEdit now s = Proceed out so sc ->
  exists g, Account_guid out = GuidToString g /\ at_rest sc /\
    book_store (qof so) = book_store (qof s) /\
    xaccAccountLookup (qof s) g = None /\ see_account (qof sc) g = Some out /\
    same_but [AtAccount g; AtDate g] (qof sc) (qof s).
Proof.
  intros Hs Hroom ([a out'] & Hrun & -> & ->)%plan_of_proceed.
  pose proof (at_rest_clean _ Hs) as Hc.
  apply CreateAccount_trace in Hrun as (Hso & Hcreated & ->). cbn [fst snd] in *.
  destruct (account_created_stored _ _ _ Hc Hroom Hcreated) as (Hn & Hd & Hcc & Hf & Hbut).
  eexists. split; [done|]. split_and!; [by eapply handle_rest|done..].
Qed.

Lemma CreateAccount_durable r s so sc out :
  at_rest s -> has_room (qof s) ->
  plan_of (CreateAccount_edit r) xaccAccountCommitEdit now s = Proceed out so sc ->
  durable
    (MkPendingEntry id (account_rpc "CreateAccount") bytes (SerializeAsString out)) s so sc.
Proof.
  intros Hs Hroom (g & Hg & Hsc & Hd & Hn & Hf%seen_account & _)%CreateAccount_commits; [|done..].
  eapply (durable_by_view (fun b => is_Some (xaccAccountLookup b g))); try done.
  - intros b. by apply found_create_account, guid_text.
  - intros b b'. apply see_account_Some.
  - rewrite Hn. by intros [].
Qed.

Lemma UpdateAccount_commits r s so sc out :
  at_rest s -> keeps_commodity r (qof s) ->
  plan_of (UpdateAccount_edit r) xaccAccountCommitEdit now s = Proceed out so sc ->
  exists g, Account_guid out = GuidToString g /\ at_rest sc /\
    book_store (qof so) = book_store (qof s) /\ see_account (qof sc) g = Some out /\
    same_but [AtAccount g] (qof sc) (qof s).
Proof.
  intros Hs Hkeep ([a out'] & Hrun & -> & ->)%plan_of_proceed.
  pose proof (at_rest_clean _ Hs) as Hc.
  apply UpdateAccount_trace in Hrun as (Hso & Hedited & ->); [|done]. cbn [fst snd] in *.
  destruct (account_edited_stored _ _ _ Hc Hedited) as (Hd & Hcc & Hf & Hbut).
  eexists. split; [done|]. split_and!; [by eapply handle_rest|done..].
Qed.

Lemma UpdateAccount_durable r s so sc out :
  at_rest s -> keeps_commodity r (qof s) ->
  plan_of (UpdateAccount_edit r) xaccAccountCommitEdit now s = Proceed out so sc ->
  durable
    (MkPendingEntry id (account_rpc "UpdateAccount") bytes (SerializeAsString out)) s so sc.
Proof.
  intros Hs Hkeep (g & Hg & Hsc & Hd & Hf & Hbut)%UpdateAccount_commits; [|done..].
  eapply (durable_by_view (fun b => see_account b g = Some out)); try done.
  - intros b. by apply found_update_account, guid_text.
  - intros b b' [[Hb _ _ _] _]. by rewrite Hb.
  - intros Hb. apply (same_but_account g); [done|]. by rewrite Hf, Hb.
Qed.

Lemma SetReconcileInfo_commits r s so sc out :
  at_rest s ->
  plan_of (SetReconcileInfo_edit r) xaccAccountCommitEdit now s = Proceed out so sc ->
  exists g, ReconcileInfo_account_guid out = GuidToString g /\ at_rest sc /\
    book_store (qof so) = book_store (qof s) /\ see_reconcile (qof sc) g = Some out /\
    same_but [AtDate g] (qof sc) (qof s).
Proof.
  intros Hs ([a out'] & Hrun & -> & ->)%plan_of_proceed.
  pose proof (at_rest_clean _ Hs) as Hc.
  apply SetReconcileInfo_trace in Hrun as (Hso & Hedited & ->). cbn [fst snd] in *.
  destruct (account_reconciled_stored _ _ _ Hc Hedited) as (Hd & Hcc & Hf & Hbut).
  eexists. split; [done|]. split_and!; [by eapply handle_rest|done..].
Qed.

Lemma SetReconcileInfo_durable r s so sc out :
  at_rest s ->
  plan_of (SetReconcileInfo_edit r) xaccAccountCommitEdit now s = Proceed out so sc ->
  durable (MkPendingEntry id (account_rpc "SetReconcileInfo") bytes
    (SerializeAsString out)) s so sc.
Proof.
  intros Hs (g & Hg & Hsc & Hd & Hf & Hbut)%SetReconcileInfo_commits; [|done].
  eapply (durable_by_view (fun b => see_reconcile b g = Some out)); try done.
  - intros b. by apply found_set_reconcile_info, guid_text.
  - intros b b' [_ Hb]. by rewrite Hb.
  - intros Hb. apply (same_but_date g); [done|]. by rewrite Hf, Hb.
Qed.

Lemma DeleteAccount_commits r s so sc out :
  at_rest s ->
  plan_of (DeleteAccount_edit r) DeleteAccount_commit now s = Proceed out so sc ->
  exists g, string_to_guid (c_str (DeleteAccountRequest_guid r)) = Some g /\ at_rest sc /\
    book_store (qof so) = book_store (qof s) /\
    is_Some (xaccAccountLookup (qof s) g) /\ xaccAccountLookup (qof sc) g = None /\
    same_but [AtAccount g; AtDate g] (qof sc) (qof s).
Proof.
  intros Hs ([a out'] & Hrun & -> & ->)%plan_of_proceed.
  pose proof (at_rest_clean _ Hs) as Hc.
  apply DeleteAccount_trace in Hrun as (-> & g & Hg & Ha & Hsplits & Hn). cbn [fst] in *.
  destruct (account_destroyed_stored _ _ _ Hc Ha Hsplits Hn) as (Hcc & Hf & Hbut).
  exists g. split_and!; [done|by eapply handle_rest|done|by eexists|done|done].
Qed.

Lemma DeleteAccount_durable r s so sc out :
  at_rest s ->
  plan_of (DeleteAccount_edit r) DeleteAccount_commit now s = Proceed out so sc ->
  durable
    (MkPendingEntry id (account_rpc "DeleteAccount") (SerializeAsString r) bytes) s so sc.
Proof.
  intros Hs (g & Hg & Hsc & Hd & [a Ha] & Hf & _)%DeleteAccount_commits; [|done].
  eapply (durable_by_view (fun b => xaccAccountLookup b g = None)); try done.
  - intros b. by apply found_delete_account.
  - intros b b'. apply see_account_None.
  - by rewrite Ha.
Qed.

Lemma PostTransaction_commits r s so sc out :
  at_rest s -> has_room (qof s) ->
  (forall so p, PostTransaction_edit r now s = (so, Ret p) ->
     engine_balanced (qof so) p.1) ->
  plan_of (PostTransaction_edit r) xaccTransCommitEdit now s = Proceed out so sc ->
  exists g, Transaction_guid out = GuidToString g /\ at_rest sc /\
    book_store (qof so) = book_store (qof s) /\
    xaccTransLookup (qof s) g = None /\ see_transaction (qof sc) g = Some out /\
    same_but [AtTransaction g] (qof sc) (qof s).
Proof.
  intros Hs Hroom Hbal ([t out'] & Hrun & -> & ->)%plan_of_proceed.
  pose proof (at_rest_clean _ Hs) as Hc. specialize (Hbal _ _ Hrun).
  apply PostTransaction_trace in Hrun as (Hso & Hcreated & ->). cbn [fst snd] in *.
  destruct (transaction_created_stored _ _ _ Hc Hroom Hcreated Hbal)
    as (Hn & Hd & Hcc & Hf & Hbut).
  eexists. split; [done|]. split_and!; [by eapply handle_rest|done..].
Qed.

Lemma PostTransaction_durable r s so sc out :
  at_rest s -> has_room (qof s) ->
  (forall so p, PostTransaction_edit r now s = (so, Ret p) ->
     engine_balanced (qof so) p.1) ->
  plan_of (PostTransaction_edit r) xaccTransCommitEdit now s = Proceed out so sc ->
  durable (MkPendingEntry id (transaction_rpc "PostTransaction") bytes
    (SerializeAsString out)) s so sc.
Proof.
  intros Hs Hroom Hbal (g & Hg & Hsc & Hd & Hn & Hf%seen_transaction & _)%PostTransaction_commits;
    [|done..].
  eapply (durable_by_view (fun b => is_Some (xaccTransLookup b g))); try done.
  - intros b. by apply found_post_transaction, guid_text.
  - intros b b'. apply see_transaction_Some.
  - rewrite Hn. by intros [].
Qed.

Lemma UpdateTransaction_commits r s so sc out :
  at_rest s ->
  (forall so p, UpdateTransaction_edit r now s = (so, Ret p) ->
     engine_balanced (qof so) p.1) ->
  plan_of (UpdateTransaction_edit r) xaccTransCommitEdit now s = Proceed out so sc ->
  exists g, Transaction_guid out = GuidToString g /\ at_rest sc /\
    book_store (qof so) = book_store (qof s) /\ see_transaction (qof sc) g = Some out /\
    same_but [AtTransaction g] (qof sc) (qof s).
Proof.
  intros Hs Hbal ([t out'] & Hrun & -> & ->)%plan_of_proceed.
  pose proof (at_rest_clean _ Hs) as Hc. specialize (Hbal _ _ Hrun).
  apply UpdateTransaction_trace in Hrun as (Hso & Hedited & ->). cbn [fst snd] in *.
  destruct (transaction_edited_stored _ _ _ Hc Hedited Hbal) as (Hd & Hcc & Hf & Hbut).
  eexists. split; [done|]. split_and!; [by eapply handle_rest|done..].
Qed.

Lemma UpdateTransaction_durable r s so sc out :
  at_rest s ->
  (forall so p, UpdateTransaction_edit r now s = (so, Ret p) ->
     engine_balanced (qof so) p.1) ->
  plan_of (UpdateTransaction_edit r) xaccTransCommitEdit now s = Proceed out so sc ->
  durable (MkPendingEntry id (transaction_rpc "UpdateTransaction") bytes
    (SerializeAsString out)) s so sc.
Proof.
  intros Hs Hbal (g & Hg & Hsc & Hd & Hf & Hbut)%UpdateTransaction_commits; [|done..].
  eapply (durable_by_view (fun b => see_transaction b g = Some out)); try done.
  - intros b. by apply found_update_transaction, guid_text.
  - intros b b' [[_ _ Hb _] _]. by rewrite Hb.
  - intros Hb. apply (same_but_transaction g); [done|]. by rewrite Hf, Hb.
Qed.

Lemma DeleteTransaction_commits r s so sc out :
  at_rest s ->
  plan_of (DeleteTransaction_edit r) DeleteTransaction_commit now s = Proceed out so sc ->
  exists g, string_to_guid (c_str (DeleteTransactionRequest_guid r)) = Some g /\ at_rest sc /\
    book_store (qof so) = book_store (qof s) /\
    is_Some (xaccTransLookup (qof s) g) /\ xaccTransLookup (qof sc) g = None /\
    same_but [AtTransaction g] (qof sc) (qof s).
Proof.
  intros Hs ([t out'] & Hrun & -> & ->)%plan_of_proceed.
  pose proof (at_rest_clean _ Hs) as Hc.
  apply DeleteTransaction_trace in Hrun as (-> & g & Hg & Ht). cbn [fst] in *.
  destruct (transaction_destroyed_stored _ _ _ Hc Ht) as (Hcc & Hf & Hbut).
  exists g. split_and!; [done|by eapply handle_rest|done|by eexists|done|done].
Qed.

Lemma DeleteTransaction_durable r s so sc out :
  at_rest s ->
  plan_of (DeleteTransaction_edit r) DeleteTransaction_commit now s = Proceed out so sc ->
  durable (MkPendingEntry id (transaction_rpc "DeleteTransaction")
    (SerializeAsString r) bytes) s so sc.
Proof.
  intros Hs (g & Hg & Hsc & Hd & [t Ht] & Hf & _)%DeleteTransaction_commits; [|done].
  eapply (durable_by_view (fun b => xaccTransLookup b g = None)); try done.
  - intros b. by apply found_delete_transaction.
  - intros b b'. apply see_transaction_None.
  - by rewrite Ht.
Qed.

Lemma AddPrice_commits r s so sc out :
  at_rest s -> has_room (qof s) ->
  (forall so p, AddPrice_edit r now s = (so, Ret p) -> day_free (qof so) p.1) ->
  plan_of (AddPrice_edit r) AddPrice_commit now s = Proceed out so sc ->
  exists g, Price_guid out = GuidToString g /\ at_rest sc /\
    book_store (qof so) = book_store (qof s) /\ gnc_price_lookup (qof s) g = None /\
    is_Some (gnc_price_lookup (qof sc) g) /\ same_but [AtPrice g] (qof sc) (qof s).
Proof.
  intros Hs Hroom Hfree ([x out'] & Hrun & -> & ->)%plan_of_proceed.
  pose proof (at_rest_clean _ Hs) as Hc. specialize (Hfree _ _ Hrun).
  apply AddPrice_trace in Hrun as (Hso & Hcreated & ->). cbn [fst snd] in *.
  destruct (price_created_stored _ _ _ Hc Hroom Hcreated Hfree)
    as (Hn & Hd & Hcc & Hf & Hbut).
  eexists. split; [done|]. split_and!; [by eapply handle_rest|done..].
Qed.

Lemma AddPrice_durable r s so sc out :
  at_rest s -> has_room (qof s) ->
  (forall so p, AddPrice_edit r now s = (so, Ret p) -> day_free (qof so) p.1) ->
  plan_of (AddPrice_edit r) AddPrice_commit now s = Proceed out so sc ->
  durable
    (MkPendingEntry id (commodity_rpc "AddPrice") bytes (SerializeAsString out)) s so sc.
Proof.
  intros Hs Hroom Hfree (g & Hg & Hsc & Hd & Hn & Hf & _)%AddPrice_commits; [|done..].
  eapply (durable_by_view (fun b => is_Some (gnc_price_lookup b g))); try done.
  - intros b. by apply found_add_price, guid_text.
  - intros b b'. apply see_price_Some.
  - rewrite Hn. by intros [].
Qed.
End rpcs.

(** ** The daemon and its clients *)
Inductive Request :=
| RCreateAccount (r : CreateAccountRequest)
| RUpdateAccount (r : UpdateAccountRequest)
| RDeleteAccount (r : DeleteAccountRequest)
| RSetReconcileInfo (r : SetReconcileInfoRequest)
| RPostTransaction (r : PostTransactionRequest)
| RUpdateTransaction (r : UpdateTransactionRequest)
| RDeleteTransaction (r : DeleteTransactionRequest)
| RAddPrice (r : AddPriceRequest).

Definition request_id (r : Request) : string :=
  meta_id
    match r with
    | RCreateAccount r => CreateAccountRequest_meta r
    | RUpdateAccount r => UpdateAccountRequest_meta r
    | RDeleteAccount r => DeleteAccountRequest_meta r
    | RSetReconcileInfo r => SetReconcileInfoRequest_meta r
    | RPostTransaction r => PostTransactionRequest_meta r
    | RUpdateTransaction r => UpdateTransactionRequest_meta r
    | RDeleteTransaction r => DeleteTransactionRequest_meta r
    | RAddPrice r => AddPriceRequest_meta r
    end.

Section daemon.
Context `{SessionEnv} `{SqliteEnvOk} `{GrpcEnv} `{ProtoOk Outcome}.
Context `{ProtoOk Account} `{ProtoOk ReconcileInfo} `{ProtoOk Transaction}
  `{ProtoOk Price} `{ProtoOk Empty}.
Context `{ProtoOk CreateAccountRequest} `{ProtoOk UpdateAccountRequest}
  `{ProtoOk DeleteAccountRequest} `{ProtoOk SetReconcileInfoRequest}
  `{ProtoOk PostTransactionRequest} `{ProtoOk UpdateTransactionRequest}
  `{ProtoOk DeleteTransactionRequest} `{ProtoOk AddPriceRequest}.

Definition as_bytes {Resp} `{Proto Resp}
    (rpc : Prog (World Session) (Status * option Resp)) :
    Prog (World Session) (Status * option string) :=
  r <~ rpc ;; ret (bytes_of r).

(** The handler of a request, with its response as the wire carries it. *)
Definition serve (r : Request) : Prog (World Session) (Status * option string) :=
  match r with
  | RCreateAccount r => as_bytes (CreateAccount r)
  | RUpdateAccount r => as_bytes (UpdateAccount r)
  | RDeleteAccount r => as_bytes (DeleteAccount r)
  | RSetReconcileInfo r => as_bytes (SetReconcileInfo r)
  | RPostTransaction r => as_bytes (PostTransaction r)
  | RUpdateTransaction r => as_bytes (UpdateTransaction r)
  | RDeleteTransaction r => as_bytes (DeleteTransaction r)
  | RAddPrice r => as_bytes (AddPrice r)
  end.

(** The same handler as the protocol sees it. *)
Definition edit_call {P Resp} `{ProtoOk Resp} (rpc bytes : string) (resp : Resp)
    (prep : Z -> Prog Session (P * Resp)) (commit : P -> Book -> Book)
    (Hatomic : forall now, atomic (prep now)) (Hrpc : str_free NUL rpc = true) :
    Call Session :=
  @MkCall Session _ _ Resp _ _ rpc bytes resp (edit_then_commit prep commit)
    (plan_of prep commit) (edit_then_commit_conforms prep commit Hatomic) Hrpc.

Definition call_of (r : Request) : Call Session :=
  match r with
  | RCreateAccount r =>
      edit_call (account_rpc "CreateAccount") (SerializeAsString r) Account_default
        (CreateAccount_edit r) xaccAccountCommitEdit (CreateAccount_atomic r) eq_refl
  | RUpdateAccount r =>
      edit_call (account_rpc "UpdateAccount") (SerializeAsString r) Account_default
        (UpdateAccount_edit r) xaccAccountCommitEdit (UpdateAccount_atomic r) eq_refl
  | RDeleteAccount r =>
      edit_call (account_rpc "DeleteAccount") (SerializeAsString r) MkEmpty
        (DeleteAccount_edit r) DeleteAccount_commit (DeleteAccount_atomic r) eq_refl
  | RSetReconcileInfo r =>
      edit_call (account_rpc "SetReconcileInfo") (SerializeAsString r)
        ReconcileInfo_default (SetReconcileInfo_edit r) xaccAccountCommitEdit
        (SetReconcileInfo_atomic r) eq_refl
  | RPostTransaction r =>
      edit_call (transaction_rpc "PostTransaction") (SerializeAsString r)
        Transaction_default (PostTransaction_edit r) xaccTransCommitEdit
        (PostTransaction_atomic r) eq_refl
  | RUpdateTransaction r =>
      edit_call (transaction_rpc "UpdateTransaction") (SerializeAsString r)
        Transaction_default (UpdateTransaction_edit r) xaccTransCommitEdit
        (UpdateTransaction_atomic r) eq_refl
  | RDeleteTransaction r =>
      edit_call (transaction_rpc "DeleteTransaction") (SerializeAsString r) MkEmpty
        (DeleteTransaction_edit r) DeleteTransaction_commit
        (DeleteTransaction_atomic r) eq_refl
  | RAddPrice r =>
      edit_call (commodity_rpc "AddPrice") (SerializeAsString r) Price_default
        (AddPrice_edit r) AddPrice_commit (AddPrice_atomic r) eq_refl
  end.

Lemma serve_submit (requests : string -> Request) id w :
  request_id (requests id) = id ->
  submit (fun id => call_of (requests id)) id w = serve (requests id) w.
Proof.
  intros Hid. unfold submit, serve, request_id in *.
  destruct (requests id); cbn -[meta_id] in *; unfold as_bytes, bind, ret.
  all: unfold CreateAccount, UpdateAccount, DeleteAccount, SetReconcileInfo,
    PostTransaction, UpdateTransaction, DeleteTransaction, AddPrice.
  all: rewrite Hid.
  all: by destruct (RunMutation _ _ _ _ _ _) as [w' [r'|e|]].
Qed.
End daemon.

(** ** The guarantee for the daemon *)
Section guarantee.
Context `{SessionEnv} `{!GncStore} `{!GncStoreOk} `{!GncValuesOk}.
Context `{SqliteEnvOk} `{GrpcEnv} `{ProtoOk Outcome}.
Context `{ProtoOk Account} `{ProtoOk ReconcileInfo} `{ProtoOk Transaction}
  `{ProtoOk Price} `{ProtoOk Empty}.
Context `{ProtoOk CreateAccountRequest} `{ProtoOk UpdateAccountRequest}
  `{ProtoOk DeleteAccountRequest} `{ProtoOk SetReconcileInfoRequest}
  `{ProtoOk PostTransactionRequest} `{ProtoOk UpdateTransactionRequest}
  `{ProtoOk DeleteTransactionRequest} `{ProtoOk AddPriceRequest}.

(** What a client may ask of an open book for the guarantee to hold: there are GUIDs
    left, an update keeps the commodity of an account that has splits, a
    transaction's values are not rounded into an imbalance, a price is the
    first of its day. *)
Definition fits (r : Request) (s : Session) : Prop :=
  session_ s <> None ->
  has_room (qof s) /\
  match r with
  | RUpdateAccount r => keeps_commodity r (qof s)
  | RPostTransaction r => forall now so p,
      PostTransaction_edit r now s = (so, Ret p) -> engine_balanced (qof so) p.1
  | RUpdateTransaction r => forall now so p,
      UpdateTransaction_edit r now s = (so, Ret p) -> engine_balanced (qof so) p.1
  | RAddPrice r => forall now so p,
      AddPrice_edit r now s = (so, Ret p) -> day_free (qof so) p.1
  | _ => True
  end.

(** The clients keep one request per mutation id. *)
Context (requests : string -> Request).
Context (requests_keyed : forall id, request_id (requests id) = id).

Definition calls (id : string) : Call Session := call_of (requests id).
Definition request_fits (id : string) (s : Session) : Prop := fits (requests id) s.

(** On a closed book nothing proceeds. *)
Lemma proceeds_open r now s (out : call_Resp (call_of r)) so sc :
  call_plan (call_of r) now s = Proceed out so sc -> session_ s <> None.
Proof.
  intros Hp Hs. assert (turned_away (call_plan (call_of r) now s)) as Ht.
  { pose proof (mutations_need_a_book now s Hs) as Hall. destruct r; apply Hall. }
  destruct Ht as (e & He & _). congruence.
Qed.

Lemma call_proceeds r id now s (out : call_Resp (call_of r)) so sc :
  settled s -> fits r s -> call_plan (call_of r) now s = Proceed out so sc ->
  durable
    (MkPendingEntry id (call_rpc (call_of r)) (call_bytes (call_of r))
       (SerializeAsString out)) s so sc.
Proof.
  intros (Hu & Hclean & _) Hfit Hp. pose proof (proceeds_open _ _ _ _ _ _ Hp) as Hopen.
  assert (at_rest s) as Hs by (split_and!; auto). destruct (Hfit Hopen) as [Hroom Hr].
  destruct r as [r|r|r|r|r|r|r|r]; cbn in *.
  - by eapply CreateAccount_durable.
  - by eapply UpdateAccount_durable.
  - by eapply DeleteAccount_durable.
  - by eapply SetReconcileInfo_durable.
  - eapply PostTransaction_durable; eauto.
  - eapply UpdateTransaction_durable; eauto.
  - by eapply DeleteTransaction_durable.
  - eapply AddPrice_durable; eauto.
Qed.

(** The contract of [Protocol.v], for the real handlers. *)
#[export] Instance daemon_contract :
  EngineContract found_applied calls request_fits settled same_store.
Proof.
  split; [apply same_store_equiv|apply settled_loads|].
  intros id now s out so sc Hs Hfit Hp.
  edestruct call_proceeds as (Hrest & Hd & Hc & Hu); [done..|].
  split_and!; [by apply at_rest_settled|done|exact Hc|exact Hu].
Qed.

(** The steps of the daemon: a request is served, in any world - any clock, any
    queue, any crash point -; the process dies while serving one, or between
    two, and a new one opens the book and reconciles. *)
Inductive daemon_step : World Session -> label -> World Session -> Prop :=
| daemon_reply w id q now cp w' st out :
    request_fits id (engine w) ->
    serve (requests id) (at_request q now cp w) = (w', Ret (st, out)) ->
    daemon_step w (Replied id st out) w'
| daemon_crash w id q now cp w' e now' w'' k :
    request_fits id (engine w) ->
    serve (requests id) (at_request q now cp w) = (w', Died) ->
    loads (disk (engine w')) e ->
    ReconcilePendingMutations found_applied (restart e now' w') = (w'', Ret k) ->
    daemon_step w Crashed w''
| daemon_kill w e now w' k :
    loads (disk (engine w)) e ->
    ReconcilePendingMutations found_applied (restart e now w) = (w', Ret k) ->
    daemon_step w Crashed w'.

Lemma daemon_step_sys w l w' :
  daemon_step w l w' -> sys_step found_applied calls request_fits w l w'.
Proof.
  intros []; [eapply sys_reply|eapply sys_crash|eapply sys_kill]; try done.
  - unfold calls. by rewrite serve_submit.
  - unfold calls. rewrite serve_submit; [done|apply requests_keyed].
Qed.

Definition daemon_spec := spec_step calls request_fits settled same_store.
Definition book_of (w : World Session) : Store := book_store (qof (engine w)).

(** The daemon, with crashes at every crash point and between requests and
    reconciliation at every restart, refines the service that applies each
    mutation atomically and answers a repeated id from its record: every run
    of the daemon from an empty journal is a run of that service, on a book
    that looks the same, and the journal holds exactly the service's record. *)
Theorem daemon_refines_atomic_service w ls w' :
  fresh settled w -> lstar daemon_step w ls w' ->
  exists s, lstar daemon_spec (spec_init (book_of w)) ls s /\
    same_store (book_of w') (spec_book s) /\
    forall id, GetOutcome id (journal w') = (journal w', Ret (done s !! id)).
Proof.
  intros Hw Hrun. apply (lstar_impl _ _ daemon_step_sys) in Hrun.
  exact (contract_refines found_applied calls request_fits settled same_store
    w ls w' Hw Hrun).
Qed.

(** Exactly once: in any run, an acknowledged mutation took effect exactly
    once however often it was sent and however the process died, and all its
    acknowledgements are the same bytes. *)
Theorem acknowledged_exactly_once w ls w' :
  fresh settled w -> lstar daemon_step w ls w' ->
  exists s, lstar daemon_spec (spec_init (book_of w)) ls s /\
    same_store (book_of w') (spec_book s) /\
    NoDup (log s) /\
    (forall id st out, Replied id st out ∈ ls -> status_code st = OK ->
       id ∈ log s /\
       forall st' out', Replied id st' out' ∈ ls -> status_code st' = OK ->
         st' = st /\ out' = out).
Proof.
  intros Hw Hrun. apply (lstar_impl _ _ daemon_step_sys) in Hrun.
  exact (contract_exactly_once found_applied calls request_fits settled same_store
    w ls w' Hw Hrun).
Qed.

(** Nothing that the health check lists after any run took effect on the
    book, and none of it has a recorded answer. *)
Theorem indeterminate_took_no_effect w ls w' :
  fresh settled w -> lstar daemon_step w ls w' ->
  exists s es, lstar daemon_spec (spec_init (book_of w)) ls s /\
    same_store (book_of w') (spec_book s) /\
    ListIndeterminate (journal w') = (journal w', Ret es) /\
    forall id, id ∈ (ie_mutation_id <$> es) -> (id ∉ log s) /\ done s !! id = None.
Proof.
  intros Hw Hrun. apply (lstar_impl _ _ daemon_step_sys) in Hrun.
  exact (contract_indeterminate found_applied calls request_fits settled same_store
    w ls w' Hw Hrun).
Qed.
End guarantee.
