(* ===== verification/Requests.v ===== *)
(** * The RPCs as a client issues them: [rpc/*_service.cpp]

    A client mutates, reads, or manages the book. Each RPC has two halves: what
    runs on the engine thread, [work], and what the caller's thread makes of it,
    [answer]; [perform] is the RPC as a whole, as one caller sees it. *)
From S2P Require Import Prelude.
From S2P Require Import Messages.
From S2P Require Import Engine.
From S2P Require Import Errors.
From S2P Require Import Map.
From S2P Require Import Worker.
From S2P Require Import Journal.
From S2P Require Import Session.
From S2P Require Import Mutation.
From S2P Require Import Rpc.
From S2P Require Import Accounts.
From S2P Require Import Transactions.
From S2P Require Import Query.
From S2P Require Import Commodities.
From S2P Require Import SessionService.
From S2P Require Import Recovery.
From S2P Require Import WasApplied.
From S2P Require Import Protocol.
From S2P Require Import Contract.
Local Open Scope prog_scope.

(** ** Everything a client may ask besides a mutation *)
Inductive Inquiry :=
| AskAccounts
| AskAccount (guid : string)
| AskReconcileInfo (guid : string)
| AskTransaction (guid : string)
| AskSplits (request : QuerySplitsRequest)
| AskCommodities
| AskPrices (request : GetPricesRequest)
| AskBalance (request : GetBalanceRequest)
| AskTrialBalance
| AskBookInfo
| AskPing (start_time now : Z)
| AskIndeterminate.

Inductive Management :=
| ManageOpen
| ManageClose (fail_at : option string).

(** A mutation is named by its id; a client keeps one request per id. *)
Inductive Command :=
| Mutate (id : string)
| Inquire (i : Inquiry)
| Manage (a : Management).

(** The response messages. That of a mutation is kept as its bytes. *)
Inductive Shown :=
| ShownBytes (bytes : string)
| ShownAccounts (accounts : list Account)
| ShownAccount (account : Account)
| ShownReconcileInfo (info : ReconcileInfo)
| ShownTransaction (transaction : Transaction)
| ShownSplits (page : QuerySplitsResponse)
| ShownCommodities (commodities : list Commodity)
| ShownPrices (prices : list Price)
| ShownBalance (balance : Balance)
| ShownTrialBalance (entries : list TrialBalanceEntry)
| ShownBook (info : BookInfo)
| ShownPing (response : PingResponse)
| ShownIndeterminate (mutations : list IndeterminateMutation)
| ShownEmpty.

(** What a caller gets: the status, and a response when it is OK. *)
Definition Reply : Type := Status * option Shown.

Section requests.
Context `{SessionEnv} `{Versions} `{SqliteEnvOk} `{GrpcEnv} `{ProtoOk Outcome}.
Context `{ProtoOk Account} `{ProtoOk ReconcileInfo} `{ProtoOk Transaction}
  `{ProtoOk Price} `{ProtoOk Empty}.
Context `{ProtoOk CreateAccountRequest} `{ProtoOk UpdateAccountRequest}
  `{ProtoOk DeleteAccountRequest} `{ProtoOk SetReconcileInfoRequest}
  `{ProtoOk PostTransactionRequest} `{ProtoOk UpdateTransactionRequest}
  `{ProtoOk DeleteTransactionRequest} `{ProtoOk AddPriceRequest}.
Implicit Types (w : World Session).

Definition showing {A} (f : A -> Shown)
    (rpc : Prog (World Session) (Status * option A)) : Prog (World Session) Reply :=
  r <~ rpc ;; ret (r.1, f <$> r.2).

Definition inquire (i : Inquiry) : Prog (World Session) Reply :=
  match i with
  | AskAccounts => showing ShownAccounts ListAccounts
  | AskAccount guid => showing ShownAccount (GetAccount guid)
  | AskReconcileInfo guid => showing ShownReconcileInfo (GetReconcileInfo guid)
  | AskTransaction guid => showing ShownTransaction (GetTransaction guid)
  | AskSplits request => showing ShownSplits (QuerySplits request)
  | AskCommodities => showing ShownCommodities ListCommodities
  | AskPrices request => showing ShownPrices (GetPrices request)
  | AskBalance request => showing ShownBalance (GetBalance request)
  | AskTrialBalance => showing ShownTrialBalance GetTrialBalance
  | AskBookInfo => showing ShownBook GetBookInfo
  | AskPing start_time now =>
      r <~ Ping start_time now ;; ret (r.1, Some (ShownPing r.2))
  | AskIndeterminate => showing ShownIndeterminate ListIndeterminateMutations
  end.

Definition manage (a : Management) : Prog (World Session) Reply :=
  match a with
  | ManageOpen => showing ShownBook OpenBook
  | ManageClose fail_at => showing (fun _ => ShownEmpty) (CloseBook fail_at)
  end.

Context (requests : string -> Request).
Context (requests_keyed : forall id, request_id (requests id) = id).

Definition perform (c : Command) : Prog (World Session) Reply :=
  match c with
  | Mutate id => showing ShownBytes (serve (requests id))
  | Inquire i => inquire i
  | Manage a => manage a
  end.

(** ** The two halves *)

(** The closure handed to [worker_->Run]; [Ping] has none. *)
Definition work (c : Command) : option (Prog (World Session) Shown) :=
  let over {A} (f : A -> Shown) (fn : Prog Session A) :=
    Some (a <~ on_session fn ;; ret (f a)) in
  match c with
  | Mutate id =>
      let r := call_of (requests id) in
      Some (out <~ mutation_body id (call_bytes r) (call_rpc r) (call_resp r)
                     (call_apply r) ;;
            ret (ShownBytes (SerializeAsString out)))
  | Inquire AskAccounts => over ShownAccounts ListAccounts_fn
  | Inquire (AskAccount guid) => over ShownAccount (GetAccount_fn guid)
  | Inquire (AskReconcileInfo guid) => over ShownReconcileInfo (GetReconcileInfo_fn guid)
  | Inquire (AskTransaction guid) => over ShownTransaction (GetTransaction_fn guid)
  | Inquire (AskSplits request) => over ShownSplits (QuerySplits_fn request)
  | Inquire AskCommodities => over ShownCommodities ListCommodities_fn
  | Inquire (AskPrices request) => over ShownPrices (GetPrices_fn request)
  | Inquire (AskBalance request) => over ShownBalance (GetBalance_fn request)
  | Inquire AskTrialBalance => over ShownTrialBalance GetTrialBalance_fn
  | Inquire AskBookInfo => over ShownBook FillBookInfo
  | Inquire (AskPing _ _) => None
  | Inquire AskIndeterminate =>
      Some (entries <~ in_journal Journal.ListIndeterminate ;;
            ret (ShownIndeterminate (indeterminate_out <$> entries)))
  | Manage ManageOpen => over ShownBook (Open ;;; FillBookInfo)
  | Manage (ManageClose fail_at) => over (fun _ => ShownEmpty) (Close fail_at)
  end.

(** The caller's side of [RunRpc] and [RunMutation]: what [future.get()] gives
    back as a reply. With the process the caller is gone too. *)
Definition refused (e : exn) : Reply := (StatusFromException e, None).

Definition answer (r : res exn Shown) : option Reply :=
  match r with
  | Ret a => Some (Status_OK, Some a)
  | Throw e => Some (refused e)
  | Died => None
  end.

(** ** The halves make the whole *)
Lemma showing_RunRpc {A} (f : A -> Shown) (fn : Prog (World Session) A) w :
  showing f (RunRpc fn) w =
    match Enqueue tt (queue w) with
    | inl e => (w, Ret (refused e))
    | inr _ =>
        let '(w', r) := (a <~ fn ;; ret (f a)) w in
        (w', match answer r with Some reply => Ret reply | None => Died end)
    end.
Proof.
  unfold showing, RunRpc, catch, bind, Run. destruct (Enqueue tt (queue w)) as [e|q]; [done|].
  by destruct (fn w) as [w' [a|e|]].
Qed.

Lemma showing_mutation (c : Call Session) id w :
  showing ShownBytes
    (r <~ RunMutation id (call_bytes c) (call_rpc c) (call_resp c) (call_apply c) ;;
     ret (bytes_of r)) w =
    match Enqueue tt (queue w) with
    | inl e => (w, Ret (refused e))
    | inr _ =>
        let '(w', r) :=
          (out <~ mutation_body id (call_bytes c) (call_rpc c) (call_resp c)
                    (call_apply c) ;;
           ret (ShownBytes (SerializeAsString out))) w in
        (w', match answer r with Some reply => Ret reply | None => Died end)
    end.
Proof.
  unfold showing, RunMutation, catch, bind, Run. destruct (Enqueue tt (queue w)); [done|].
  by destruct (mutation_body _ _ _ _ _ w) as [w1 [a|x|]].
Qed.

(** An RPC is its admission to the queue, its work, and its answer. *)
Lemma perform_halves c m w :
  work c = Some m ->
  perform c w =
    match Enqueue tt (queue w) with
    | inl e => (w, Ret (refused e))
    | inr _ =>
        let '(w', r) := m w in
        (w', match answer r with Some reply => Ret reply | None => Died end)
    end.
Proof.
  destruct c as [id|[]|[]]; cbn [work perform inquire manage]; intros [= <-];
    try exact (showing_RunRpc _ _ w).
  - rewrite <- showing_mutation. unfold showing, bind.
    rewrite <- (serve_submit requests id w (requests_keyed id)). unfold submit.
    by destruct (RunMutation _ _ _ _ _ w) as [w' [r|e|]].
  - unfold ListIndeterminateMutations. rewrite (showing_RunRpc ShownIndeterminate).
    destruct (Enqueue tt (queue w)); [done|]. unfold bind.
    by destruct (in_journal _ w) as [w1 [r|x|]].
Qed.

(** Only [Ping] does without the engine thread. *)
Lemma direct_is_ping c : work c = None -> exists start now, c = Inquire (AskPing start now).
Proof. destruct c as [id|[]|[]]; try done. eauto. Qed.

(** ** What they change *)
Lemma showing_inv {A} (f : A -> Shown) (rpc : Prog (World Session) (Status * option A))
    w w' r :
  showing f rpc w = (w', Ret r) -> exists st a, rpc w = (w', Ret (st, a)) /\ r = (st, f <$> a).
Proof.
  intros ([st a] & w1 & Hrpc & [= <- <-])%bind_inv_ret. by exists st, a.
Qed.

Lemma read_only_showing {A} (f : A -> Shown)
    (rpc : Prog (World Session) (Status * option A)) w w' r :
  read_only_rpc rpc -> showing f rpc w = (w', Ret r) -> w' = w.
Proof.
  intros Hr (st & a & Hrun & _)%showing_inv. destruct (Hr w) as (st' & r' & Hw & _).
  congruence.
Qed.

Lemma RunRpc_state {A} (fn : Prog (World Session) A) w w' r :
  RunRpc fn w = (w', Ret r) -> w' = w \/ exists r', fn w = (w', r').
Proof.
  unfold RunRpc, catch, bind, Run. destruct (Enqueue tt (queue w)) as [x|x]; [intros [= <- _]; by left|].
  destruct (fn w) as [w1 [a|e|]]; intros [= <- _]; eauto.
Qed.

(** Where no statement fails the listing only reads. *)
Lemma list_quiet w :
  faults (journal w) = [] -> exists entries, in_journal ListIndeterminate w = (w, Ret entries).
Proof.
  intros Hf.
  assert (exists es, ListIndeterminate (journal w) = (journal w, Ret es)) as [es Hl].
  { unfold ListIndeterminate, bind, Stmt. rewrite Hf. by eexists. }
  exists es. by apply in_journal_query.
Qed.

Lemma inquire_keeps i w w' r :
  inquire i w = (w', Ret r) -> faults (journal w) = [] ->
  engine w' = engine w /\ journal w' = journal w.
Proof.
  intros Hrun Hf.
  destruct reads_change_nothing as (R1 & R2 & R3 & R4 & R5 & R6 & R7 & R8 & R9 & R10 & R11).
  assert (w' = w \/ i = AskIndeterminate) as [->| ->]; [|done|].
  { destruct i; cbn [inquire] in Hrun; try (left; eapply read_only_showing; [|exact Hrun]; solve [auto]);
      [|by right].
    left. unfold Ping, gets, bind, ret in Hrun. by injection Hrun as <- _. }
  apply showing_inv in Hrun as (st & a & [->|[r' Hrun]]%RunRpc_state & _); [done|].
  destruct (list_quiet _ Hf) as [es Hl]. apply bind_cases in Hrun.
  rewrite Hl in Hrun.
  by destruct Hrun as [(? & w1 & [= <- ->] & [= <- _])|[(? & [= <- _] & _)|[[= <- _] _]]].
Qed.

(** ** Only a mutation can die *)
Lemma RunRpc_returns {A} (f : A -> Shown) (m : Prog Session A) w w' :
  returns m -> showing f (RunRpc (on_session m)) w <> (w', Died).
Proof.
  intros Hm. rewrite showing_RunRpc. destruct (Enqueue tt (queue w)); [done|].
  unfold bind, on_session, zoom. specialize (Hm (engine w)).
  by destruct (m (engine w)) as [s [a|x|]].
Qed.

Lemma Open_returns : returns Open.
Proof.
  intros s. destruct (session_ s) as [p|] eqn:Hs; [by rewrite (Open_open _ p Hs)|].
  destruct (HasSupportedScheme (book_uri (config_ s))) eqn:Hu.
  - destruct (qof_session_new (qof s)) as [p b0] eqn:Hnew.
    rewrite (Open_closed s p b0) by done. cbv zeta. by repeat case_bool_decide.
  - unfold Open, bind, gets, id. by rewrite Hs, Hu.
Qed.

Lemma Close_returns fail_at : returns (Close fail_at).
Proof.
  intros s. destruct (session_ s) as [p|] eqn:Hs.
  - by destruct (Close_open fail_at s p Hs) as (r & -> & Hr).
  - unfold Close, bind, gets, id. by rewrite Hs.
Qed.

Lemma read_only_returns {A} (f : A -> Shown)
    (rpc : Prog (World Session) (Status * option A)) w w' :
  read_only_rpc rpc -> showing f rpc w <> (w', Died).
Proof.
  intros Hr Hd. destruct (Hr w) as (st & r & Hw & _).
  unfold showing, bind in Hd. rewrite Hw in Hd. done.
Qed.

Lemma perform_dies c w w' : perform c w = (w', Died) -> exists id, c = Mutate id.
Proof.
  destruct reads_change_nothing as (R1 & R2 & R3 & R4 & R5 & R6 & R7 & R8 & R9 & R10 & _).
  destruct c as [id|i|a]; [eauto|..]; intros Hd; exfalso; cbn [perform] in Hd.
  - destruct i; cbn [inquire] in Hd;
      try (by eapply read_only_returns; [|exact Hd]; solve [auto]); [done|].
    unfold ListIndeterminateMutations in Hd. rewrite showing_RunRpc in Hd.
    destruct (Enqueue tt (queue w)); [done|].
    unfold bind, in_journal, zoom, ListIndeterminate, bind, Stmt in Hd.
    by destruct (faults (journal w)) as [|[x|] fs].
  - destruct a as [|fail_at]; cbn [manage] in Hd; eapply RunRpc_returns; [|exact Hd| |exact Hd].
    + apply returns_bind; [apply Open_returns|]. intros _. unfold FillBookInfo.
      eauto 20 with handlers.
    + apply Close_returns.
Qed.
End requests.
