(* ===== verification/Typing.v ===== *)
(** * The journal is well typed

    The journal stores bytes: requests, pending responses and outcomes. This
    file states of what type they are - the type of the RPC that the mutation
    id belongs to - and that serving requests, dying anywhere, restarting and
    reconciling keep it so. Every recorded outcome can therefore be replayed. *)
From S2P Require Import Prelude.
From S2P Require Import Messages.
From S2P Require Import Engine.
From S2P Require Import Errors.
From S2P Require Import Session.
From S2P Require Import Worker.
From S2P Require Import Journal.
From S2P Require Import Mutation.
From S2P Require Import Rpc.
From S2P Require Import Recovery.
From S2P Require Import WasApplied.
From S2P Require Import Protocol.
From S2P Require Import Contract.

Section typing.
Context {E : Type} `{SqliteEnvOk} `{GrpcEnv} `{ProtoOk Outcome}.
Context (WasApplied : E -> PendingEntry -> option bool) (calls : string -> Call E).
Implicit Types (w : World E) (j : Journal).

(** The bytes of a response of the RPC of [id]. *)
Definition response_bytes (id : string) (bytes : string) : Prop :=
  exists out : call_Resp (calls id), bytes = SerializeAsString out.

(** A success carries a response of its RPC and no error; a failure carries a
    deterministic verdict and no response. *)
Inductive outcome_typed (id : string) : Outcome -> Prop :=
| typed_ok bytes :
    response_bytes id bytes ->
    outcome_typed id (MkOutcome (call_rpc (calls id)) true bytes None)
| typed_failed e :
    IsDeterministicVerdict (code_ e) = true ->
    outcome_typed id (failed_outcome (call_rpc (calls id)) e).

Record intent_typed (id : string) (i : Intent) : Prop := {
  it_id : valid_mutation_id id = true;
  it_rpc : rpc_name i = call_rpc (calls id);
  it_payload : payload i = call_bytes (calls id);
  it_digest : payload_sha256 i = Sha256 (payload i);
  it_pending : forall p, pending_response i = Some p -> response_bytes id p;
}.

Record journal_typed j : Prop := {
  jt_faults : faults j = [];
  jt_intent : forall id i, intents j !! id = Some i -> intent_typed id i;
  jt_applied : forall id a, applied j !! id = Some a ->
    is_Some (intents j !! id) /\
    exists o, ParseFromString (outcome a) = Some o /\ outcome_typed id o;
}.

Lemma typed_printable j : journal_typed j -> ids_printable j.
Proof. intros Hj id i Hi. apply valid_id_no_nul. by eapply jt_intent. Qed.

(** *** Each change of the journal *)
Lemma typed_intent id now j :
  valid_mutation_id id = true -> journal_typed j ->
  journal_typed (with_intent id (call_rpc (calls id)) (call_bytes (calls id)) now j).
Proof.
  intros Hv [Hf Hi Ha]. unfold with_intent.
  destruct (intents j !! id) eqn:Hid; [done|]. split; [done|..]; cbn.
  - intros id' i. rewrite lookup_insert. case_decide; [subst|apply Hi].
    by intros [= <-].
  - intros id' a Hid'. destruct (Ha _ _ Hid') as [Hi' Ho]. split; [|done].
    rewrite lookup_insert. case_decide; [eauto|done].
Qed.

Lemma typed_pending id bytes j :
  response_bytes id bytes -> journal_typed j -> journal_typed (with_pending id bytes j).
Proof.
  intros Hb [Hf Hi Ha]. split; [done|..].
  - intros id' i. cbn. rewrite lookup_alter. case_decide as Hid; [subst id'|apply Hi].
    intros (i0 & Hi0 & ->)%fmap_Some. destruct (Hi _ _ Hi0). split; try done.
    by intros p [= <-].
  - intros id' a Hid'. destruct (Ha _ _ Hid') as [Hi' Ho]. split; [|done].
    by apply with_pending_has.
Qed.

Lemma typed_outcome id o now j :
  outcome_typed id o -> is_Some (intents j !! id) -> journal_typed j ->
  journal_typed (with_outcome id o now j).
Proof.
  intros Ho Hid [Hf Hi Ha]. split; [done|done|]. intros id' a. cbn.
  rewrite lookup_insert. case_decide; [subst|apply Ha]. intros [= <-].
  split; [done|]. exists o. cbn. by rewrite parse_serialize.
Qed.

(** *** A request, and a restart *)
Lemma submit_typed id w w' r :
  submit calls id w = (w', r) -> journal_typed (journal w) -> journal_typed (journal w').
Proof.
  unfold submit. intros Hrun Hj.
  assert (exists r', RunMutation id (call_bytes (calls id)) (call_rpc (calls id))
    (call_resp (calls id)) (call_apply (calls id)) w = (w', r')) as [r' Hrun'].
  { destruct (RunMutation _ _ _ _ _ _) as [w1 [x|e|]]; injection Hrun as <- _; eauto. }
  clear Hrun.
  destruct (RunMutation_dispatch id (call_bytes (calls id)) (call_rpc (calls id))
    (call_resp (calls id)) _ _ w (call_conforms (calls id)) (jt_faults _ Hj))
    as [(e & _ & He)|[Hv He]]; rewrite He in Hrun'; [by injection Hrun' as <- _|].
  apply run_spec_cases in Hrun'.
  set (w1 := on_journal _ w) in Hrun'.
  assert (journal_typed (journal w1)) as Hj1 by by apply typed_intent.
  assert (is_Some (intents (journal w1) !! id)) as Hid by apply with_intent_has.
  destruct Hrun'; try done; cbn.
  - apply typed_outcome; [by constructor|done|done].
  - apply typed_pending; [by eexists|done].
  - apply typed_outcome; [constructor; by eexists|by apply with_pending_has|].
    apply typed_pending; [by eexists|done].
Qed.

(** *** The reconciliation loop, on any entries of the journal *)
Record entry_typed j (entry : PendingEntry) : Prop := {
  et_row : is_Some (intents j !! pe_mutation_id entry);
  et_rpc : pe_rpc_name entry = call_rpc (calls (pe_mutation_id entry));
  et_pending : response_bytes (pe_mutation_id entry) (pe_pending_response entry);
}.

Lemma reconcile_entry_typed entry w w' r :
  reconcile_entry WasApplied entry w = (w', r) -> entry_typed (journal w) entry ->
  journal_typed (journal w) ->
  journal_typed (journal w') /\
  forall id, is_Some (intents (journal w) !! id) -> is_Some (intents (journal w') !! id).
Proof.
  intros Hrun [Hrow Hrpc Hpend] Hj. pose proof (jt_faults _ Hj) as Hf.
  unfold reconcile_entry, bind, gets, in_journal, zoom in Hrun.
  assert (forall j, j = journal w \/
      j = with_outcome (pe_mutation_id entry) (reconciled_outcome entry) (clock w) (journal w) \/
      j = set_intents (alter (set_pending None) (pe_mutation_id entry) (intents (journal w)))
            (journal w) ->
      journal_typed j /\
      forall id, is_Some (intents (journal w) !! id) -> is_Some (intents j !! id)) as Hall.
  { intros j [->|[->| ->]]; [by split|split; [|done]|split; [split|]]; cbn.
    - apply typed_outcome; [|done|done]. unfold reconciled_outcome. rewrite Hrpc.
      by constructor.
    - done.
    - intros id i. rewrite lookup_alter. case_decide as Hid; [subst id|apply Hj].
      intros (i0 & Hi0 & ->)%fmap_Some. destruct (jt_intent _ Hj _ _ Hi0). by split.
    - intros id a Ha. destruct (jt_applied _ Hj _ _ Ha) as [Hi Ho]. split; [|done].
      rewrite lookup_alter. case_decide; [subst|done]. by apply fmap_is_Some.
    - intros id Hi. rewrite lookup_alter. case_decide; [subst|done]. by apply fmap_is_Some. }
  assert (exists j, journal w' = j /\ (j = journal w \/
      j = with_outcome (pe_mutation_id entry) (reconciled_outcome entry) (clock w) (journal w) \/
      j = set_intents (alter (set_pending None) (pe_mutation_id entry) (intents (journal w)))
            (journal w))) as (j & -> & Hcases); [|by apply Hall].
  eexists. split; [reflexivity|].
  destruct (WasApplied (engine w) entry) as [[]|];
    unfold RecordOutcome, ClearPending, bind, gets, id, Stmt, modify, ThrowSqlite,
      throw_shim, throw in Hrun; rewrite Hf in Hrun.
  - destruct (applied (journal w) !! pe_mutation_id entry); [|destruct (_ && _)];
      injection Hrun as <- _; auto.
  - injection Hrun as <- _. auto.
  - injection Hrun as <- _. auto.
Qed.

Lemma reconcile_loop_typed entries n w w' r :
  reconcile_loop WasApplied entries n w = (w', r) ->
  Forall (entry_typed (journal w)) entries -> journal_typed (journal w) ->
  journal_typed (journal w').
Proof.
  revert n w. induction entries as [|entry entries IH]; intros n w Hrun Hall Hj.
  { by injection Hrun as <- _. }
  apply Forall_cons in Hall as [He Hall]. cbn [reconcile_loop] in Hrun.
  apply bind_cases in Hrun as [(k & w1 & Hone & Hrest)|[(e & Hone & _)|[Hone _]]];
    destruct (reconcile_entry_typed _ _ _ _ Hone He Hj) as [Hj1 Hkeep]; [|done..].
  eapply IH; [exact Hrest| |done]. eapply Forall_impl; [exact Hall|].
  intros x []. split; [by apply Hkeep|done..].
Qed.

(** What the listing gives is typed. *)
Lemma listed_typed w w' entries :
  in_journal ListPendingUnresolved w = (w', Ret entries) -> journal_typed (journal w) ->
  w' = w /\ Forall (entry_typed (journal w)) entries.
Proof.
  intros Hlist Hj. rewrite list_pending_world in Hlist by apply Hj.
  injection Hlist as <- <-. split; [done|]. apply Forall_fmap, Forall_forall.
  intros [id i] (Hi & _ & [p Hp])%elem_of_pending_rows. cbn in Hi, Hp.
  pose proof (typed_printable _ Hj id i Hi) as Hprint.
  destruct (jt_intent _ Hj id i Hi) as [? Hr ? ? Hpend].
  unfold pending_entry. cbn. rewrite Hp, Hr, !c_str_id
    by (done || apply call_rpc_printable). split; cbn; [by exists i|done|by apply Hpend].
Qed.

Lemma reconcile_typed w w' r :
  ReconcilePendingMutations WasApplied w = (w', r) ->
  journal_typed (journal w) -> journal_typed (journal w').
Proof.
  unfold ReconcilePendingMutations. intros Hrun Hj.
  apply bind_cases in Hrun as [(es & w1 & Hl & Hloop)|[(e & Hl & _)|[Hl _]]].
  - destruct (listed_typed _ _ _ Hl Hj) as [-> Hall]. by eapply reconcile_loop_typed.
  - by rewrite list_pending_world in Hl by apply Hj.
  - by rewrite list_pending_world in Hl by apply Hj.
Qed.
End typing.

(** ** The daemon *)
Section daemon.
Context `{SessionEnv} `{!GncStore} `{!GncStoreOk} `{!GncValuesOk}.
Context `{SqliteEnvOk} `{GrpcEnv} `{ProtoOk Outcome}.
Context `{ProtoOk Account} `{ProtoOk ReconcileInfo} `{ProtoOk Transaction}
  `{ProtoOk Price} `{ProtoOk Empty}.
Context `{ProtoOk CreateAccountRequest} `{ProtoOk UpdateAccountRequest}
  `{ProtoOk DeleteAccountRequest} `{ProtoOk SetReconcileInfoRequest}
  `{ProtoOk PostTransactionRequest} `{ProtoOk UpdateTransactionRequest}
  `{ProtoOk DeleteTransactionRequest} `{ProtoOk AddPriceRequest}.
Context (requests : string -> Request).
Context (requests_keyed : forall id, request_id (requests id) = id).

Lemma daemon_step_typed w l w' :
  daemon_step requests w l w' ->
  journal_typed (calls requests) (journal w) ->
  journal_typed (calls requests) (journal w').
Proof.
  intros Hstep Hj. destruct Hstep as
    [w id q now cp w' st out _ Hrun|w id q now cp w' e now' w'' k _ Hrun _ Hrec
    |w e now w' k _ Hrec].
  - rewrite <- (serve_submit requests) in Hrun by done. by eapply submit_typed in Hrun.
  - rewrite <- (serve_submit requests) in Hrun by done.
    eapply reconcile_typed in Hrec; [done|]. by eapply submit_typed in Hrun.
  - by eapply reconcile_typed in Hrec.
Qed.

(** The journal stays well typed through every run of the daemon, deaths and
    restarts included: each id's request, pending response and outcome are bytes
    of that id's RPC, each digest is that of its request, each failure on record
    is a deterministic verdict. *)
Theorem journal_stays_typed w ls w' :
  lstar (daemon_step requests) w ls w' ->
  journal_typed (calls requests) (journal w) ->
  journal_typed (calls requests) (journal w').
Proof.
  intros Hrun Hj. revert Hj. induction Hrun as [|a l b ls c Hstep _ IH]; [done|].
  intros Hj. apply IH. by eapply daemon_step_typed.
Qed.
End daemon.
