(* ===== verification/Lifecycle.v ===== *)
(** * The life of a deployment: one process of the daemon after another

    [Contract.v] follows one client and the deaths between its requests. Here
    whole processes follow one another on the same book and the same journal:
    each starts through the startup sequence of [main.cpp] - or fails to -,
    serves mutations, reads and book management in any order, and ends by its
    shutdown or by a death: during the start, at a crash point of a mutation, or
    between requests. The guarantee is that of [Contract.v], from the first
    start on. *)
From S2P Require Import Prelude.
From S2P Require Import Messages.
From S2P Require Import Engine.
From S2P Require Import Errors.
From S2P Require Import Map.
From S2P Require Import Worker.
From S2P Require Import Journal.
From S2P Require Import Session.
From S2P Require Import Mutation.
From S2P Require Import Rpc.
From S2P Require Import Accounts.
From S2P Require Import Transactions.
From S2P Require Import Query.
From S2P Require Import Commodities.
From S2P Require Import SessionService.
From S2P Require Import Recovery.
From S2P Require Import WasApplied.
From S2P Require Import Backup.
From S2P Require Import Startup.
From S2P Require Import Protocol.
From S2P Require Import Contract.
From S2P Require Import Requests.
Local Open Scope prog_scope.

(** ** Sessions and what is stored *)
Section laws.
Context `{SessionEnv} `{!GncStore}.

(** The attempts of [Session::Open] to attach to the book. *)
Inductive attached (p : QofSessionPtr) (b : Book) : Book -> Prop :=
| attached_once mode :
    mode <> SESSION_NEW_STORE ->
    attached p b (qof_session_begin p (c_str stored_at) mode b)
| attached_again mode :
    mode <> SESSION_NEW_STORE ->
    attached p b (qof_session_begin p (c_str stored_at) SESSION_BREAK_LOCK
                    (qof_session_begin p (c_str stored_at) mode b)).

(** A session takes and releases locks; only a save writes, and it writes what
    is stored already. A load that reports no error shows the stored book. *)
Class GncSessionStoreOk : Prop := {
  session_new_keeps : forall b, book_store (qof_session_new b).2 = book_store b;
  session_begin_keeps : forall p uri mode b, mode <> SESSION_NEW_STORE ->
    book_store (qof_session_begin p uri mode b) = book_store b;
  session_load_keeps : forall p b, book_store (qof_session_load p b) = book_store b;
  session_end_keeps : forall p b, book_store (qof_session_end p b) = book_store b;
  session_destroy_keeps : forall p b,
    book_store (qof_session_destroy p b) = book_store b;
  session_save_keeps : forall p b, clean b ->
    let b' := qof_session_save p b in
    clean b' /\ same_book (book_load (book_store b')) (book_load (book_store b));
  session_loads : forall b p b0 b1,
    whole (book_store b) -> qof_session_new b = (p, b0) -> attached p b0 b1 ->
    qof_session_get_error p b1 = ERR_BACKEND_NO_ERR ->
    let b2 := qof_session_load p b1 in
    qof_session_get_error p b2 = ERR_BACKEND_NO_ERR ->
    clean b2 /\ looks_same b2 (book_load (book_store b));
}.
End laws.

(** What is stored, through the calls that store nothing. *)
Ltac stored :=
  rewrite ?session_destroy_keeps, ?session_end_keeps, ?session_load_keeps,
    ?session_begin_keeps by first [done|apply open_mode_existing].

Section sessions.
Context `{SessionEnv} `{!GncStore} `{!GncStoreOk} `{!GncSessionStoreOk}.
Implicit Types (s : Session).

Lemma begun_attached s p b :
  on_book s -> attached p b (begun s p b) /\ book_store (begun s p b) = book_store b.
Proof.
  unfold on_book, begun, first_begin. intros ->.
  destruct (_ && _); (split; [constructor; apply open_mode_existing|by stored]).
Qed.

(** Opening: the stored book in memory, or nothing changed. *)
Lemma Open_settled s s' r :
  Open s = (s', r) -> settled s -> session_ s = None ->
  disk s' = disk s /\ config_ s' = config_ s /\
  match r with
  | Ret _ => loads (disk s) s'
  | _ => session_ s' = None
  end.
Proof.
  intros Hrun (Hu & _ & Hwhole) Hs. cbn [disk loads session_durable].
  destruct (HasSupportedScheme (book_uri (config_ s))) eqn:Hscheme.
  2:{ unfold Open, bind, gets, id in Hrun. rewrite Hs, Hscheme in Hrun. cbn in Hrun.
      by injection Hrun as <- <-. }
  destruct (qof_session_new (qof s)) as [p b0] eqn:Hnew.
  pose proof (session_new_keeps (qof s)) as Hb0. rewrite Hnew in Hb0. cbn in Hb0.
  destruct (begun_attached s p b0 Hu) as [Hatt Hb2].
  rewrite (Open_closed s p b0) in Hrun by done. cbv zeta in Hrun.
  case_bool_decide as He2; [case_bool_decide as He3|]; injection Hrun as <- <-;
    cbn; stored; rewrite ?Hb2, ?Hb0; try done.
  destruct (session_loads _ _ _ _ Hwhole Hnew Hatt He2 He3) as [Hc Hl].
  by split_and!.
Qed.

(** Closing stores nothing new, whatever the save does. *)
Lemma Close_settled fail_at s :
  settled s ->
  let s' := (Close fail_at s).1 in
  settled s' /\ same_store (disk s') (disk s) /\ session_ s' = None.
Proof.
  intros Hs. destruct (session_ s) as [p|] eqn:Hp.
  2:{ unfold Close, bind, gets, id. rewrite Hp. cbn. by split_and!. }
  destruct (Close_open fail_at s p Hp) as (r & -> & _). cbn [fst].
  destruct Hs as (Hu & Hc & Hw). specialize (Hc ltac:(by rewrite Hp)).
  unfold settled, on_book, same_store. cbn [disk session_durable qof config_ session_].
  stored. unfold saved_by_close.
  destruct (_ || _); [by split_and!|].
  destruct (session_save_keeps p _ Hc) as [Hc' Hsame].
  split_and!; [done|done|by eexists|exact Hsame|done].
Qed.

End sessions.

(** ** The deployment *)

(** A daemon is up, or none is: then there is what is stored of the book, and
    the rows of the journal. *)
Inductive site `{SessionEnv} :=
| Serving (w : World Session)
| Stopped (d : Store) (j : Journal).

(** What the outside sees of a step. *)
Inductive event :=
| Answered (id : string) (st : Status) (response : option string)
| Asked (i : Inquiry) (reply : Reply)
| Managed (a : Management) (reply : Reply)
| Died_
| Exited (exit_code : Z)
| Started (indeterminate : nat)
| NotStarted.

(** In the words of the service: a mutation's reply is a reply, and every start,
    successful or not, may be where an interrupted mutation is settled. *)
Definition heard (e : event) : list label :=
  match e with
  | Answered id st response => [Replied id st response]
  | Started _ | NotStarted => [Crashed]
  | Asked _ _ | Managed _ _ | Died_ | Exited _ => []
  end.

Lemma heard_reply id st response es :
  Answered id st response ∈ es -> Replied id st response ∈ concat (heard <$> es).
Proof.
  intros Hin. apply list_elem_of_In, List.in_concat.
  exists [Replied id st response]. split; [|by left].
  apply list_elem_of_In, list_elem_of_fmap. by exists (Answered id st response).
Qed.

Section deployment.
Context `{SessionEnv} `{!GncStore} `{!GncStoreOk} `{!GncSessionStoreOk} `{!GncValuesOk}.
Context `{Versions} `{SqliteEnvOk} `{GrpcEnv} `{ProtoOk Outcome}.
Context `{ProtoOk Account} `{ProtoOk ReconcileInfo} `{ProtoOk Transaction}
  `{ProtoOk Price} `{ProtoOk Empty}.
Context `{ProtoOk CreateAccountRequest} `{ProtoOk UpdateAccountRequest}
  `{ProtoOk DeleteAccountRequest} `{ProtoOk SetReconcileInfoRequest}
  `{ProtoOk PostTransactionRequest} `{ProtoOk UpdateTransactionRequest}
  `{ProtoOk DeleteTransactionRequest} `{ProtoOk AddPriceRequest}.
Context (requests : string -> Request).
Context (requests_keyed : forall id, request_id (requests id) = id).
Implicit Types (w : World Session) (m : Machine) (o : Options) (j : Journal).

(** What a process leaves when it ends. *)
Definition leaves w : site := Stopped (disk (engine w)) (journal w).

(** The machine a new process finds: libgnucash as it starts, beside the stored
    book; the journal's file. *)
Definition boots (d : Store) j m : Prop :=
  book_store (engine_lib m) = d /\
  Journal.conn_rows (conn m) = (intents j, applied j).

(** What is assumed of a run is an argument of its steps: [admits id s] - the
    mutation [id] may come to its turn on the session [s] -, and [disk_is c] - the
    statements on the journal's connection [c] may fail as it says, from the start
    of a process to its end. The code's own steps are those that assume nothing. *)
Definition any_mutation : string -> Session -> Prop := fun _ _ => True.
Definition any_disk : Journal.Conn -> Prop := fun _ => True.
Definition sound_disk (c : Journal.Conn) : Prop := Journal.conn_faults c = [].

(** What a process leaves that does not get to serving. *)
Definition leftover o m : site :=
  match prepare o m with
  | (_, Ret w) => leaves (engine_startup w).1
  | (m', _) =>
      Stopped (book_store (engine_lib m))
        (MkJournal (Journal.conn_rows (conn m')).1 (Journal.conn_rows (conn m')).2 true [])
  end.

(** A start may succeed, fail, or be cut by a death: before anything is written
    ([done_ = []]) or with some of the pending mutations reconciled. *)
Section steps.
Context (admits : string -> Session -> Prop) (disk_is : Journal.Conn -> Prop).

Inductive site_step : site -> event -> site -> Prop :=
| site_start d j o m m' w n :
    opt_book_uri o = stored_at -> boots d j m -> disk_is (conn m) ->
    startup o m = (m', Ret (w, n)) ->
    site_step (Stopped d j) (Started n) (Serving w)
| site_fail d j o m m' r :
    opt_book_uri o = stored_at -> boots d j m -> disk_is (conn m) ->
    startup o m = (m', r) -> (forall a, r <> Ret a) ->
    site_step (Stopped d j) NotStarted (leftover o m)
| site_cut d j o m m' w0 wa wb done_ todo w1 k :
    opt_book_uri o = stored_at -> boots d j m -> disk_is (conn m) ->
    prepare o m = (m', Ret w0) ->
    on_session Open w0 = (wa, Ret tt) ->
    in_journal ListPendingUnresolved wa = (wb, Ret (done_ ++ todo)) ->
    reconcile_loop verdict_of done_ 0 wb = (w1, Ret k) ->
    site_step (Stopped d j) NotStarted (leaves w1)
| site_mutate w id q now cp w' st response :
    admits id (engine w) ->
    serve (requests id) (at_request q now cp w) = (w', Ret (st, response)) ->
    site_step (Serving w) (Answered id st response) (Serving w')
| site_inquire w i q now cp w' reply :
    inquire i (at_request q now cp w) = (w', Ret reply) ->
    site_step (Serving w) (Asked i reply) (Serving w')
| site_manage w a q now cp w' reply :
    manage a (at_request q now cp w) = (w', Ret reply) ->
    site_step (Serving w) (Managed a reply) (Serving w')
| site_die w id q now cp w' :
    admits id (engine w) ->
    serve (requests id) (at_request q now cp w) = (w', Died) ->
    site_step (Serving w) Died_ (leaves w')
| site_kill w : site_step (Serving w) Died_ (leaves w)
| site_exit w fail_at q now cp w' exit_code :
    shutdown fail_at (at_request q now cp w) = (w', Ret exit_code) ->
    site_step (Serving w) (Exited exit_code) (leaves w').
End steps.

(** A run under stronger assumptions is one under weaker ones. *)
Lemma site_step_mono (admits admits' : string -> Session -> Prop)
    (disk_is disk_is' : Journal.Conn -> Prop) x e x' :
  (forall id s, admits id s -> admits' id s) -> (forall c, disk_is c -> disk_is' c) ->
  site_step admits disk_is x e x' -> site_step admits' disk_is' x e x'.
Proof.
  intros Ha Hc [];
    [eapply site_start|eapply site_fail|eapply site_cut|eapply site_mutate|eapply site_inquire
    |eapply site_manage|eapply site_die|eapply site_kill|eapply site_exit]; eauto.
Qed.

(** *** The simulation *)
Local Abbreviation Held := (Rel (calls requests) settled same_store).
Local Abbreviation Waits :=
  (interrupted found_applied (calls requests) (request_fits requests) settled same_store).
Local Abbreviation service := (daemon_spec requests).

Definition follows (x : site) (s : Spec) : Prop :=
  match x with Serving w => Held w s | Stopped d j => Waits d j s end.

Lemma Held_book w s e :
  Held w s -> settled e -> same_store (disk e) (disk (engine w)) ->
  Held (set_engine e w) s.
Proof. intros [Hg Hb Hj] He Hd. split; [done|by cbn; rewrite Hd|done]. Qed.

Lemma Held_waits w s : Held w s -> Waits (disk (engine w)) (journal w) s.
Proof.
  exact (killed_interrupted found_applied (calls requests) (request_fits requests)
    settled same_store w s).
Qed.

Lemma same_rows_pending j j' :
  same_rows j j' -> pending_rows j' = pending_rows j.
Proof. unfold pending_rows, unresolved_rows. by intros (-> & -> & _). Qed.

Lemma Waits_same d d' j j' s :
  Waits d j s -> d' = d -> same_rows j j' -> Waits d' j' s.
Proof.
  intros (Hf & Hone & He & Hgo) -> Hr.
  split_and!; [apply Hr|by rewrite (same_rows_pending _ _ Hr)|done|].
  intros w Hr' Hl. apply Hgo; [|done].
  destruct Hr as (E1 & E2 & _), Hr' as (E1' & E2' & ?). split_and!; [congruence..|done].
Qed.

Lemma Waits_whole d j s : Waits d j s -> whole d.
Proof. intros (_ & _ & (e & (_ & _ & Hw) & <-) & _). exact Hw. Qed.

(** Book management keeps a settled session settled, on a book that looks the
    same. *)
Lemma on_session_inv {A} (p : Prog Session A) w w' r :
  on_session p w = (w', r) -> exists s, p (engine w) = (s, r) /\ w' = set_engine s w.
Proof. unfold on_session, zoom. destruct (p (engine w)) as [s r']. intros [= <- <-]. eauto. Qed.

Lemma open_keeps s0 s' r :
  (Open ;;; FillBookInfo) s0 = (s', r) -> settled s0 ->
  settled s' /\ same_store (disk s') (disk s0).
Proof.
  intros Hrun Hs.
  assert (forall s1 r1, Open s0 = (s1, r1) -> settled s1 /\ same_store (disk s1) (disk s0))
    as Hopen.
  { intros s1 r1 Ho. destruct (session_ s0) as [p|] eqn:Hp.
    - rewrite (Open_open _ p Hp) in Ho. injection Ho as <- _. by split.
    - destruct (Open_settled _ _ _ Ho Hs Hp) as (Hd & Hc & Hr).
      assert (same_store (disk s1) (disk s0)) as Hsame by by rewrite Hd.
      assert (session_ s1 = None \/ loads (disk s0) s1) as [Hn|[Hl _]]
        by (destruct r1; auto); [|by split; [apply at_rest_settled|]].
      destruct Hs as (Hu & _ & Hw). split; [|done]. split; [|split].
      + unfold on_book. by rewrite Hc.
      + by rewrite Hn.
      + change (whole (disk s1)). by rewrite Hd. }
  apply bind_cases in Hrun as [([] & s1 & Ho & Hf)|[(e & Ho & _)|[Ho _]]]; [|by eapply Hopen..].
  assert (s' = s1) as ->; [|by eapply Hopen].
  assert (reads FillBookInfo) as Hreads by (unfold FillBookInfo; eauto 20 with handlers).
  destruct (Hreads s1) as [Hs1 _]. by rewrite Hf in Hs1.
Qed.

Lemma manage_held a w w' st s :
  manage a w = (w', Ret st) -> Held w s -> Held w' s.
Proof.
  intros Hrun HR. pose proof (rel_good _ _ _ _ _ HR) as Hg.
  destruct a as [|fail_at]; cbn [manage] in Hrun; apply showing_inv in Hrun as (st' & x & Hrun & _);
    apply RunRpc_state in Hrun as [->|[r Hrun]]; try done;
    apply on_session_inv in Hrun as (e & Hrun & ->); apply Held_book; try done.
  - by eapply open_keeps.
  - by eapply open_keeps.
  - destruct (Close_settled fail_at _ Hg) as [Hc _]. by rewrite Hrun in Hc.
  - destruct (Close_settled fail_at _ Hg) as (_ & Hc & _). by rewrite Hrun in Hc.
Qed.
(** *** Startup, stage by stage *)
Lemma or_fail_inv {S A} why (p : Prog S A) s s' r :
  or_fail why p s = (s', r) ->
  exists r0, p s = (s', r0) /\ forall a, r = Ret a -> r0 = Ret a.
Proof.
  unfold or_fail. destruct (p s) as [s1 [a|e|]]; intros [= <- <-];
    (eexists; split; [reflexivity|]); intros a'; congruence.
Qed.

Lemma Run_inv {S A} (q : EngineWorker unit) (fn : Prog S A) s s' r :
  Run q fn s = (s', r) -> s' = s /\ (exists e, r = Throw e) \/ fn s = (s', r).
Proof.
  unfold Run. destruct (Enqueue tt q); [intros [= <- <-]|by right]. left. eauto.
Qed.

(** What every part of the engine thread's startup preserves, startup does. *)
Lemma Run_preserves {S A} (R : S -> S -> Prop) `{!PreOrder R} (q : S -> EngineWorker unit)
    (fn : Prog S A) :
  preserves R fn -> preserves R (fun s => Run (q s) fn s).
Proof. intros Hfn s s' r [[-> _]|Hrun]%Run_inv; [reflexivity|]. by eapply Hfn. Qed.

Lemma or_fail_preserves {S A} (R : S -> S -> Prop) why (p : Prog S A) :
  preserves R p -> preserves R (or_fail why p).
Proof. intros Hp s s' r (r0 & Hrun & _)%or_fail_inv. by eapply Hp. Qed.

Lemma or_terminate_preserves {S A} (R : S -> S -> Prop) (p : Prog S A) :
  preserves R p -> preserves R (or_terminate p).
Proof.
  intros Hp s s' r. unfold or_terminate. destruct (p s) as [s1 r1] eqn:Hrun.
  apply Hp in Hrun. by destruct r1; intros [= <- _].
Qed.

Lemma engine_startup_preserves (R : World Session -> World Session -> Prop) `{!PreOrder R} :
  (forall A (p : Prog Session A), preserves R (on_session p)) ->
  preserves R (ReconcilePendingMutations verdict_of) ->
  preserves R (in_journal ListIndeterminate) ->
  preserves R engine_startup.
Proof.
  intros Hs Hr Hl. unfold engine_startup. preserving;
    first [apply or_fail_preserves|apply or_terminate_preserves]; apply Run_preserves; preserving.
Qed.

Lemma open_stage w w' r :
  or_fail "book_open_failed" (fun w => Run (queue w) (on_session Open) w) w = (w', r) ->
  settled (engine w) -> session_ (engine w) = None ->
  disk (engine w') = disk (engine w) /\ journal w' = journal w /\
  forall u, r = Ret u -> loads (disk (engine w)) (engine w').
Proof.
  intros (r0 & Hrun & Hr)%or_fail_inv Hs Hn.
  apply Run_inv in Hrun as [[-> [e ->]]|Hrun].
  { split_and!; [done..|]. by intros u ?%Hr. }
  apply on_session_inv in Hrun as (s' & Ho & ->).
  destruct (Open_settled _ _ _ Ho Hs Hn) as (Hd & _ & Hl).
  split_and!; [exact Hd|done|]. intros u ->%Hr. exact Hl.
Qed.

Lemma check_stage w w' r :
  or_fail "startup_check_failed"
    (fun w => Run (queue w) (on_session RunStartupChecks) w) w = (w', r) -> w' = w.
Proof.
  intros (r0 & [[-> _]|Hrun]%Run_inv & _)%or_fail_inv; [done|].
  apply on_session_inv in Hrun as (s' & Ho & ->).
  destruct (RunStartupChecks_reads (engine w)) as (r1 & Hr1 & _).
  rewrite Hr1 in Ho. injection Ho as <- _. apply set_engine_id.
Qed.

Lemma reconcile_stage d j s w w' r :
  or_fail "reconciliation_failed"
    (fun w => Run (queue w)
       (on_session book ;;; ReconcilePendingMutations verdict_of) w) w = (w', r) ->
  Waits d j s -> same_rows j (journal w) -> loads d (engine w) ->
  w' = w /\ (forall k, r <> Ret k) \/
  exists s', service s Crashed s' /\ Held w' s'.
Proof.
  intros (r0 & Hrun & Hr)%or_fail_inv HW Hrows Hl.
  apply Run_inv in Hrun as [[-> [e ->]]|Hrun].
  { left. split; [done|]. by intros k ?%Hr. }
  assert (on_session book w = (w, Ret tt)) as Hb.
  { unfold on_session, zoom, book, bind, gets, id. destruct Hl as ((_ & Ho & _) & _).
    destruct (session_ (engine w)) eqn:E; [|done]. cbn. by rewrite set_engine_id. }
  rewrite (bind_ret_eq _ _ _ _ _ Hb) in Hrun. right.
  destruct HW as (_ & _ & _ & Hgo).
  destruct (Hgo w Hrows Hl) as (w1 & k & s' & Hrec & Hstep & HR). exists s'.
  assert ((w1, Ret k) = (w', r0)) as [= -> _] by (rewrite <- Hrec; exact Hrun). done.
Qed.

Lemma list_stage w w' r :
  or_terminate (fun w => Run (queue w) (in_journal ListIndeterminate) w) w = (w', r) ->
  faults (journal w) = [] -> w' = w.
Proof.
  unfold or_terminate. intros Hrun Hf.
  destruct (Run (queue w) _ w) as [w1 r1] eqn:Hr.
  assert (w1 = w) as ->; [|by destruct r1; injection Hrun as <- _].
  apply Run_inv in Hr as [[-> _]|Hl]; [done|].
  destruct (list_quiet _ Hf) as [r' Hq]. congruence.
Qed.

(** Wherever the engine's part of startup ends, what is left waits or holds. *)
Lemma engine_startup_follows d j s w0 w1 r :
  engine_startup w0 = (w1, r) -> Waits d j s -> same_rows j (journal w0) ->
  on_book (engine w0) -> session_ (engine w0) = None -> disk (engine w0) = d ->
  exists s', service s Crashed s' /\ Waits (disk (engine w1)) (journal w1) s' /\
    (forall n, r = Ret n -> Held w1 s').
Proof.
  intros Hrun HW Hrows Hu Hn Hd. pose proof (Waits_whole _ _ _ HW) as Hw.
  assert (settled (engine w0)) as Hs0.
  { split_and!; [done|by rewrite Hn|]. cbn in Hd. by rewrite Hd. }
  assert (forall w, disk (engine w) = d -> journal w = journal w0 ->
            Waits (disk (engine w)) (journal w) s) as Hwait.
  { intros w Hdw Hjw. eapply Waits_same; [done..|by rewrite Hjw]. }
  unfold engine_startup in Hrun.
  apply bind_cases in Hrun as [([] & wa & Ho & Hrun)|Hrun].
  2:{ exists s. split; [constructor|].
      destruct Hrun as [(e & Ho & ->)|[Ho ->]]; apply open_stage in Ho as (Hda & Hja & _);
        try done; (split; [apply Hwait; congruence|done]). }
  apply open_stage in Ho as (Hda & Hja & Hl); [|done..]. specialize (Hl tt eq_refl).
  rewrite Hd in Hda, Hl.
  apply bind_cases in Hrun as [([] & wb & Hc & Hrun)|Hrun].
  2:{ exists s. split; [constructor|].
      destruct Hrun as [(e & Hc & ->)|[Hc ->]]; apply check_stage in Hc as ->;
        (split; [by apply Hwait|done]). }
  apply check_stage in Hc as ->.
  assert (same_rows j (journal wa)) as Hra by by rewrite Hja.
  apply bind_cases in Hrun as [(k & wc & Hrec & Hrun)|Hrun].
  2:{ destruct Hrun as [(e & Hrec & ->)|[Hrec ->]];
        (destruct (reconcile_stage _ _ _ _ _ _ Hrec HW Hra Hl)
           as [[-> _]|(s' & Hstep & HR)];
         [exists s; split; [by apply spec_lost|split; [by apply Hwait|done]]
         |exists s'; split; [done|split; [by apply Held_waits|done]]]). }
  destruct (reconcile_stage _ _ _ _ _ _ Hrec HW Hra Hl) as [[_ Hno]|(s' & Hstep & HR)];
    [by destruct (Hno k)|].
  exists s'. split; [done|].
  assert (w1 = wc) as ->; [|split; [by apply Held_waits|done]].
  assert (faults (journal wc) = []) as Hf by apply HR.
  by apply bind_cases in Hrun as [(es & wd & Hlist%list_stage & [= <- _])
    |[(e & Hlist%list_stage & _)|[Hlist%list_stage _]]].
Qed.
Lemma snapshot_keeps_conn o m m' (r : res Exit unit) :
  (if bool_decide (opt_backup_dir o <> "") then
     m <~ gets id ;;
     taken <~ or_fail "backup_failed"
       (zoom fs set_fs
          (SnapshotBeforeOpen (local_date m) (opt_book_path o) (opt_journal_path o)
             (opt_backup_dir o) (opt_backup_keep_days o))) ;;
     ret tt
   else ret tt) m = (m', r) -> conn m' = conn m.
Proof.
  case_bool_decide; [|by intros [= <- _]]. unfold bind, gets, id, or_fail, zoom.
  destruct (SnapshotBeforeOpen _ _ _ _ _ (fs m)) as [f [t|e|]]; by intros [= <- _].
Qed.

(** What comes before leaves the stored rows alone, however it ends. *)
Lemma prepare_keeps_rows o m m' r :
  prepare o m = (m', r) -> Journal.conn_rows (conn m') = Journal.conn_rows (conn m).
Proof.
  unfold prepare. intros Hrun.
  assert (forall m1 r1, AcquireLocks o m = (m1, r1) -> conn m1 = conn m) as Hlocks.
  { by intros m1 r1 ((l & -> & _) & _)%AcquireLocks_cases. }
  apply bind_cases in Hrun as [([] & m1 & Hl & Hrun)|Hrun].
  2:{ destruct Hrun as [(e & Hl & _)|[Hl _]]; by rewrite (Hlocks _ _ Hl). }
  rewrite <- (Hlocks _ _ Hl). clear Hl Hlocks.
  apply bind_cases in Hrun as [(u & m2 & Hsnap & Hrun)|Hrun].
  2:{ destruct Hrun as [(e & Hsnap & _)|[Hsnap _]];
        by rewrite (snapshot_keeps_conn _ _ _ _ Hsnap). }
  rewrite <- (snapshot_keeps_conn _ _ _ _ Hsnap). clear Hsnap.
  assert (forall m3 r3, or_fail "journal_open_failed"
    (Run (new_EngineWorker (Z.to_nat (opt_queue_depth o)))
       (zoom conn set_conn (Journal.Open (opt_journal_path o)))) m2 = (m3, r3) ->
    Journal.conn_rows (conn m3) = Journal.conn_rows (conn m2)) as Hopen.
  { intros m3 r3 (r0 & [[-> _]|Hj]%Run_inv & _)%or_fail_inv; [done|].
    unfold zoom in Hj. destruct (Journal.Open (opt_journal_path o) (conn m2)) as [c r1] eqn:Ho.
    injection Hj as <- _. apply Journal.Open_opens in Ho as [[Hrows _] _]; [|done].
    by rewrite <- Hrows. }
  apply bind_cases in Hrun as [(j & m3 & Hj & Hrun)|[(e & Hj & _)|[Hj _]]];
    [|by eapply Hopen..].
  apply Hopen in Hj. by injection Hrun as <- _.
Qed.

Lemma startup_follows d j s o m m' r :
  startup o m = (m', r) -> opt_book_uri o = stored_at -> boots d j m -> sound_disk (conn m) ->
  Waits d j s ->
  exists s', service s Crashed s' /\
    match r with
    | Ret p => Held p.1 s'
    | _ => follows (leftover o m) s'
    end.
Proof.
  intros Hrun Hu [Hd Hrows] Hfaults HW. unfold startup in Hrun. unfold leftover.
  destruct (prepare o m) as [m1 [w0|e|]] eqn:Hprep.
  - rewrite (bind_ret_eq _ _ _ _ _ Hprep) in Hrun.
    apply prepare_ret in Hprep as (_ & _ & _ & _ & _ & Heng & Hf & Hj & _).
    rewrite Hrows in Hj. injection Hj as Hi Ha.
    destruct (engine_startup w0) as [w1 r1] eqn:Hes.
    destruct (engine_startup_follows d j s w0 w1 r1) as (s' & Hstep & HW' & HR); try done.
    { split_and!; auto. }
    { unfold on_book. by rewrite Heng. }
    { by rewrite Heng. }
    { by rewrite Heng. }
    exists s'. split; [done|]. cbn [fst].
    destruct r1 as [n|e|]; [|by injection Hrun as _ <-|by injection Hrun as _ <-].
    unfold listen, bind, gets, id in Hrun.
    destruct (can_listen _ _); injection Hrun as _ <-; [by eapply HR|done].
  - rewrite (bind_throw_eq _ _ _ _ _ Hprep) in Hrun. injection Hrun as _ <-.
    exists s. split; [by apply spec_lost|]. apply prepare_keeps_rows in Hprep.
    cbn [follows]. rewrite Hprep, Hrows. by eapply Waits_same.
  - rewrite (bind_died_eq _ _ _ _ Hprep) in Hrun. injection Hrun as _ <-.
    exists s. split; [by apply spec_lost|]. apply prepare_keeps_rows in Hprep.
    cbn [follows]. rewrite Hprep, Hrows. by eapply Waits_same.
Qed.
Lemma shutdown_state fail_at w w' r :
  shutdown fail_at w = (w', r) ->
  journal w' = journal w /\
  (engine w' = engine w \/ engine w' = (Close fail_at (engine w)).1).
Proof.
  unfold shutdown, bind, catch, Run, on_session, zoom, modify, ret.
  destruct (Enqueue tt (queue w)) as [e|q']; [intros [= <- _]; split; [done|by left]|].
  destruct (Close fail_at (engine w)) as [s [u|e|]]; intros [= <- _];
    (split; [done|by right]).
Qed.

(** A death in the middle of a start. *)
Lemma cut_follows d j s o m m' w0 wa wb done_ todo w1 k :
  opt_book_uri o = stored_at -> boots d j m -> sound_disk (conn m) ->
  Waits d j s ->
  prepare o m = (m', Ret w0) -> on_session Open w0 = (wa, Ret tt) ->
  in_journal ListPendingUnresolved wa = (wb, Ret (done_ ++ todo)) ->
  reconcile_loop verdict_of done_ 0 wb = (w1, Ret k) ->
  exists s', service s Crashed s' /\ Waits (disk (engine w1)) (journal w1) s'.
Proof.
  intros Hu [Hd Hrows] Hfaults HW Hprep Hopen Hlist Hloop.
  apply prepare_ret in Hprep as (_ & _ & _ & _ & _ & Heng & Hf & Hj & _).
  rewrite Hrows in Hj. injection Hj as Hi Ha.
  apply on_session_inv in Hopen as (s1 & Hopen & ->).
  set (wa := set_engine s1 w0) in *.
  assert (same_rows j (journal wa)) as Hra by (split_and!; auto).
  assert (settled (engine w0)) as Hs0.
  { rewrite Heng. split_and!; [exact Hu|done|]. cbn. rewrite Hd. by eapply Waits_whole. }
  destruct (Open_settled _ _ _ Hopen Hs0) as (Hda & _ & Hl); [by rewrite Heng|].
  assert (disk (engine wa) = d) as Hdwa by (cbn; rewrite Heng in Hda; cbn in Hda; congruence).
  assert (loads d (engine wa)) as Hla by by rewrite Heng in Hl; rewrite <- Hd.
  pose proof Hlist as Hlisted.
  rewrite list_pending_world in Hlist by apply Hra. injection Hlist as <- Hes.
  destruct HW as (Hf0 & Hone & He & Hgo).
  assert (length (done_ ++ todo) <= 1) as Hlen.
  { rewrite <- Hes, length_fmap.
    change (length (pending_rows (journal wa)) <= 1).
    by rewrite (same_rows_pending _ _ Hra). }
  destruct done_ as [|entry done_].
  - injection Hloop as <- _. exists s. split; [by apply spec_lost|].
    by eapply (Waits_same d _ j).
  - assert (todo = []) as ->.
    { destruct todo; [done|]. cbn in Hlen. rewrite length_app in Hlen. cbn in Hlen. lia. }
    rewrite app_nil_r in Hlisted.
    destruct (Hgo wa Hra Hla) as (w2 & k2 & s' & Hrec & Hstep & HR).
    unfold ReconcilePendingMutations in Hrec.
    rewrite (bind_ret_eq _ _ _ _ _ Hlisted) in Hrec.
    change (reconcile_loop verdict_of (entry :: done_) 0 wa = (w2, Ret k2)) in Hrec.
    rewrite Hloop in Hrec. injection Hrec as <- _.
    exists s'. split; [done|by apply Held_waits].
Qed.

Lemma Held_request w s q now cp : Held w s -> Held (at_request q now cp w) s.
Proof. by apply Rel_same. Qed.

(** Every step of the deployment is what the service does. *)
Lemma site_follows x e x' s :
  site_step (request_fits requests) sound_disk x e x' -> follows x s ->
  exists s', lstar service s (heard e) s' /\ follows x' s'.
Proof.
  intros Hstep HR.
  destruct Hstep as [d j o m m' w n Hu Hb Hdisk Hrun|d j o m m' r Hu Hb Hdisk Hrun Hno
    |d j o m m' w0 wa wb done_ todo w1 k Hu Hb Hdisk Hprep Hopen Hlist Hloop
    |w id q now cp w' st response Hfit Hrun|w i q now cp w' st Hrun
    |w a q now cp w' st Hrun|w id q now cp w' Hfit Hrun|w
    |w fail_at q now cp w' exit_code Hrun]; cbn [follows heard] in *.
  - destruct (startup_follows _ _ _ _ _ _ _ Hrun Hu Hb Hdisk HR) as (s' & Hs & HR').
    exists s'. split; [|done]. by eapply lstar_cons; [|constructor].
  - destruct (startup_follows _ _ _ _ _ _ _ Hrun Hu Hb Hdisk HR) as (s' & Hs & HR').
    exists s'. split; [by eapply lstar_cons; [|constructor]|].
    destruct r as [p|e|]; [by destruct (Hno p)|done..].
  - destruct (cut_follows _ _ _ _ _ _ _ _ _ _ _ _ _ Hu Hb Hdisk HR Hprep Hopen Hlist Hloop)
      as (s' & Hs & HR').
    exists s'. split; [|done]. by eapply lstar_cons; [|constructor].
  - rewrite <- (serve_submit requests) in Hrun by done.
    edestruct (replied_step found_applied (calls requests) (request_fits requests)
      settled same_store w s) as (s' & Hs & HR'); [done..|].
    exists s'. split; [|done]. by eapply lstar_cons; [|constructor].
  - exists s. split; [constructor|]. apply inquire_keeps in Hrun as [He Hj]; [|apply HR].
    eapply Rel_same; [exact He|exact Hj|]. by apply Held_request.
  - exists s. split; [constructor|]. eapply manage_held; [exact Hrun|]. by apply Held_request.
  - exists s. split; [constructor|]. rewrite <- (serve_submit requests) in Hrun by done.
    by eapply (died_interrupted found_applied (calls requests) (request_fits requests)
      settled same_store w s).
  - exists s. split; [constructor|]. by apply Held_waits.
  - exists s. split; [constructor|]. apply shutdown_state in Hrun as [Hj He].
    apply Held_waits. cbn [at_request engine journal] in Hj, He.
    destruct He as [He|He]; [by apply (Rel_same _ _ _ w)|].
    destruct (Close_settled fail_at _ (rel_good _ _ _ _ _ HR)) as (Hg & Hd & _).
    eapply (Rel_same _ _ _ (set_engine (Close fail_at (engine w)).1 w)); [exact He|exact Hj|].
    by apply Held_book.
Qed.

(** *** From the first start on *)
Definition first_site (d : Store) j : Prop :=
  whole d /\ intents j = ∅ /\ applied j = ∅ /\ faults j = [].

Lemma first_waits d j : first_site d j -> Waits d j (spec_init d).
Proof.
  intros (Hw & Hi & Ha & Hf). pose proof Hw as (b & Hb & <-).
  set (e := MkSession (MkConfig stored_at false) None false b).
  change (Waits (disk e) j (spec_init (disk e))).
  eapply (quiet_interrupted found_applied (calls requests) (request_fits requests) settled
    same_store).
  - apply spec_lost.
  - split; [done|]. split; [done|exact Hw].
  - reflexivity.
  - split; [done|..]; rewrite ?Hi, ?Ha; done.
Qed.

Lemma first_log_exact (d : Store) : log_exact (spec_init d).
Proof.
  split; cbn; [constructor|]. intros id. split; [by intros ?%not_elem_of_nil|].
  by intros (? & ? & ?).
Qed.

Lemma site_run d j es x :
  first_site d j -> lstar (site_step (request_fits requests) sound_disk) (Stopped d j) es x ->
  exists s, lstar service (spec_init d) (concat (heard <$> es)) s /\ follows x s /\
    log_exact s.
Proof.
  intros Hd%first_waits Hrun.
  destruct (lstar_weak_simulation _ _ heard follows site_follows _ _ _ _ Hrun Hd)
    as (s & Hs & HR).
  exists s. split_and!; [done..|].
  eapply (lstar_invariant _ log_exact); [apply spec_log_exact|done|apply first_log_exact].
Qed.

(** What a client of the site finds: the book, and the answer on record for every
    mutation; when no daemon is up, a whole book on disk. *)
Definition shows (x : site) (s : Spec) : Prop :=
  match x with
  | Serving w =>
      same_store (book_of w) (spec_book s) /\
      forall id, GetOutcome id (journal w) = (journal w, Ret (done s !! id))
  | Stopped d _ => whole d
  end.

Lemma follows_shows x s : follows x s -> shows x s.
Proof.
  destruct x as [w|d j]; cbn; [|apply Waits_whole]. intros HR.
  split; [apply HR|]. intros id. by eapply Rel_GetOutcome.
Qed.

(** Whole processes, one after another, make the atomic service: whatever starts,
    failed and interrupted starts, mutations, reads, openings and closings of the
    book, deaths and shutdowns follow each other on one book and one journal,
    what clients are answered is what a service answers that applies each
    mutation at most once and atomically, and whenever a daemon serves, its book
    and its record are that service's. *)
Theorem site_refines_atomic_service d j es x :
  first_site d j -> lstar (site_step (request_fits requests) sound_disk) (Stopped d j) es x ->
  exists s, lstar service (spec_init d) (concat (heard <$> es)) s /\ shows x s.
Proof.
  intros Hd Hrun. destruct (site_run _ _ _ _ Hd Hrun) as (s & Hs & HR & _).
  exists s. split; [done|by apply follows_shows].
Qed.

(** Exactly once, across processes: a mutation that any process acknowledged took
    effect exactly once, however often and to whichever process it was sent, and
    all its acknowledgements are the same bytes. *)
Theorem site_exactly_once d j es x :
  first_site d j -> lstar (site_step (request_fits requests) sound_disk) (Stopped d j) es x ->
  exists s, lstar service (spec_init d) (concat (heard <$> es)) s /\ shows x s /\
    NoDup (log s) /\
    (forall id st out, Answered id st out ∈ es -> status_code st = OK ->
       id ∈ log s /\
       forall st' out', Answered id st' out' ∈ es -> status_code st' = OK ->
         st' = st /\ out' = out).
Proof.
  intros Hd Hrun. destruct (site_run _ _ _ _ Hd Hrun) as (s & Hs & HR & Hlog).
  exists s. split_and!; [done|by apply follows_shows|apply Hlog|].
  intros id st out Ha%heard_reply Hst.
  destruct (spec_acknowledged _ _ _ _ _ _ _ Hs Hlog _ _ _ Ha Hst) as [Hl Hsame].
  split; [done|]. intros st' out' Ha'%heard_reply. by apply Hsame.
Qed.

(** C5: When no statement on the journal has failed and every mutation so far fitted
    ([fits]: the engine takes the request as it is), what the health check of a
    process lists, after whatever starts, failed starts, requests, deaths and
    shutdowns went before, took no effect on the book and has no recorded answer. *)
Theorem site_indeterminate d j es w :
  first_site d j -> lstar (site_step (request_fits requests) sound_disk) (Stopped d j) es (Serving w) ->
  exists s entries, lstar service (spec_init d) (concat (heard <$> es)) s /\
    same_store (book_of w) (spec_book s) /\
    ListIndeterminate (journal w) = (journal w, Ret entries) /\
    forall id, id ∈ (ie_mutation_id <$> entries) -> (id ∉ log s) /\ done s !! id = None.
Proof.
  intros Hd Hrun. destruct (site_run _ _ _ _ Hd Hrun) as (s & Hs & HR & Hlog).
  destruct (Rel_indeterminate _ _ _ w s HR Hlog) as (entries & Hl & Hno).
  exists s, entries. split_and!; [done|apply HR|done|done].
Qed.
(** *** The next start *)
Lemma Run_go {S A} (q : EngineWorker unit) (fn : Prog S A) s q' :
  Enqueue tt q = inr q' -> Run q fn s = fn s.
Proof. unfold Run. by intros ->. Qed.

Lemma engine_startup_goes d j s w0 q s1 :
  Waits d j s -> same_rows j (journal w0) -> on_book (engine w0) ->
  session_ (engine w0) = None -> disk (engine w0) = d ->
  Enqueue tt (queue w0) = inr q ->
  Open (engine w0) = (s1, Ret tt) -> RunStartupChecks s1 = (s1, Ret tt) ->
  exists w n, engine_startup w0 = (w, Ret n).
Proof.
  intros HW Hrows Hu Hn Hd Hq Hopen Hchecks.
  assert (settled (engine w0)) as Hs0.
  { split_and!; [done|by rewrite Hn|]. cbn in Hd. rewrite Hd. by eapply Waits_whole. }
  destruct (Open_settled _ _ _ Hopen Hs0 Hn) as (_ & _ & Hl). rewrite Hd in Hl.
  set (wa := set_engine s1 w0).
  destruct HW as (_ & _ & _ & Hgo).
  destruct (Hgo wa Hrows Hl) as (wb & k & s' & Hrec & _ & HR).
  assert (queue wb = queue w0) as Hqb.
  { by apply (reconcile_keeps found_applied) in Hrec as (_ & Hqb & _). }
  destruct (list_quiet wb) as [entries Hlist]; [apply HR|].
  assert (or_fail "book_open_failed"
    (fun w => Run (queue w) (on_session Open) w) w0 = (wa, Ret tt)) as Ha.
  { unfold or_fail. rewrite (Run_go _ _ _ _ Hq). unfold on_session, zoom. by rewrite Hopen. }
  assert (or_fail "startup_check_failed"
    (fun w => Run (queue w) (on_session RunStartupChecks) w) wa = (wa, Ret tt)) as Hb.
  { unfold or_fail. rewrite (Run_go _ _ _ _ Hq). unfold on_session, zoom. cbn [engine wa set_engine].
    by rewrite Hchecks. }
  assert (on_session book wa = (wa, Ret tt)) as Hbook.
  { unfold on_session, zoom, book, bind, gets, id. destruct Hl as ((_ & Ho & _) & _).
    cbn [engine wa set_engine]. by destruct (session_ s1). }
  assert (or_fail "reconciliation_failed" (fun w => Run (queue w)
    (on_session book ;;; ReconcilePendingMutations verdict_of) w) wa = (wb, Ret k)) as Hc.
  { unfold or_fail. rewrite (Run_go _ _ _ _ Hq), (bind_ret_eq _ _ _ _ _ Hbook).
    change (ReconcilePendingMutations verdict_of wa = (wb, Ret k)) in Hrec.
    by rewrite Hrec. }
  exists wb, (length entries). unfold engine_startup.
  rewrite (bind_ret_eq _ _ _ _ _ Ha), (bind_ret_eq _ _ _ _ _ Hb),
    (bind_ret_eq _ _ _ _ _ Hc).
  unfold or_terminate, bind. by rewrite Hqb, (Run_go _ _ _ _ Hq), Hlist.
Qed.

(** C6: What a process leaves never keeps the next one from serving: after any
    history of the deployment in which the mutations fitted and no statement on the
    journal failed, a process that gets its locks, snapshot and a sound journal,
    whose libgnucash opens the book, whose gate the book passes and whose socket can
    be bound does serve - the reconciliation of what was interrupted always comes to
    its end. *)
Theorem site_restarts d j es d' j' o m m1 w0 s1 :
  first_site d j -> lstar (site_step (request_fits requests) sound_disk) (Stopped d j) es (Stopped d' j') ->
  opt_book_uri o = stored_at -> boots d' j' m -> sound_disk (conn m) ->
  prepare o m = (m1, Ret w0) ->
  Open (engine w0) = (s1, Ret tt) -> RunStartupChecks s1 = (s1, Ret tt) ->
  can_listen (locks m1) (opt_socket_path o) = true ->
  exists m2 w n, startup o m = (m2, Ret (w, n)) /\
    site_step (request_fits requests) sound_disk (Stopped d' j') (Started n) (Serving w).
Proof.
  intros Hfirst Hrun Hu Hboot Hfaults Hprep Hopen Hchecks Hlisten.
  destruct (site_run _ _ _ _ Hfirst Hrun) as (s & _ & HW & _). cbn [follows] in HW.
  pose proof Hboot as [Hd Hrows].
  pose proof (prepare_ret _ _ _ _ Hprep)
    as (_ & _ & _ & _ & _ & Heng & Hf & Hj & _ & q & Hq).
  rewrite Hrows in Hj. injection Hj as Hi Ha.
  destruct (engine_startup_goes d' j' s w0 q s1) as (w & n & Hes); try done.
  { split_and!; auto. }
  { unfold on_book. by rewrite Heng. }
  { by rewrite Heng. }
  { by rewrite Heng. }
  assert (exists m2, startup o m = (m2, Ret (w, n))) as [m2 Hstart].
  { unfold startup. rewrite (bind_ret_eq _ _ _ _ _ Hprep), Hes.
    unfold listen, bind, gets, id. rewrite Hlisten. by eexists. }
  exists m2, w, n. split; [done|]. by eapply site_start.
Qed.
End deployment.
