(* ===== verification/Concurrent.v ===== *)
(** * Many callers at once: gRPC threads in front of the one engine thread

    [Lifecycle.v] lets clients speak one after another. Here every call has a
    thread of its own: it enters, is taken into the queue of [Worker.v] or
    refused by it, waits for its future, and returns, in any interleaving with
    the others and with the steps of the engine thread. Every call is answered,
    and its story - beginning, effect, reply - is in order; [Linearizable.v]
    builds on that. *)
From S2P Require Import Prelude.
From S2P Require Import Messages.
From S2P Require Import Engine.
From S2P Require Import Errors.
From S2P Require Import Map.
From S2P Require Import Worker.
From S2P Require Import Journal.
From S2P Require Import Session.
From S2P Require Import Mutation.
From S2P Require Import Rpc.
From S2P Require Import Accounts.
From S2P Require Import Transactions.
From S2P Require Import Query.
From S2P Require Import Commodities.
From S2P Require Import SessionService.
From S2P Require Import Recovery.
From S2P Require Import WasApplied.
From S2P Require Import Startup.
From S2P Require Import Protocol.
From S2P Require Import Contract.
From S2P Require Import Requests.
From S2P Require Import Lifecycle.
Local Open Scope prog_scope.

(** ** The threads of a serving daemon *)

(** A queued closure: whose call it is, and what it does. *)
Definition Task : Type := nat * Command.

(** A gRPC thread: before [Enqueue]; in [future.get()], with the queue as it
    found it; with its reply. *)
Inductive Caller :=
| Entering (c : Command)
| Waiting (c : Command) (found : EngineWorker unit)
| Leaving (c : Command) (reply : Reply).

Definition command (k : Caller) : Command :=
  match k with Entering c | Waiting c _ | Leaving c _ => c end.

(** How many tasks are queued is all a caller sees of them. *)
Definition depths {T} (w : EngineWorker T) : EngineWorker unit :=
  MkEngineWorker ((fun _ => tt) <$> queue_ w) (max_depth_ w) (stopping_ w).

Lemma Enqueue_depths {T} (t : T) w :
  Enqueue tt (depths w) =
    match Enqueue t w with inl e => inl e | inr w' => inr (depths w') end.
Proof.
  destruct w as [q d []]; [done|]. unfold Enqueue, depths. cbn [stopping_ queue_ max_depth_].
  rewrite length_fmap. destruct (_ <=? _); cbn [queue_ max_depth_ stopping_]; [done|].
  by rewrite fmap_app.
Qed.

(** What can be observed, and the moment a call takes effect. *)
Inductive action :=
| Called (n : nat) (c : Command)
| Effect (n : nat) (c : Command) (reply : Reply)
| Got (n : nat) (c : Command) (reply : Reply)
| Silent
| Spurious
| Outside (e : event).

(** The actions of one call, in order. *)
Definition about (n : nat) (a : action) : Prop :=
  match a with Called m _ | Effect m _ _ | Got m _ _ => m = n | _ => False end.

#[export] Instance about_dec n a : Decision (about n a).
Proof. destruct a; cbn; apply _. Defined.

Definition story (n : nat) (acts : list action) : list action := filter (about n) acts.

(** The sequential history: what took effect, in that order. *)
Definition shown_bytes (shown : option Shown) : option string :=
  match shown with Some (ShownBytes b) => Some b | _ => None end.

Definition as_event (c : Command) (reply : Reply) : event :=
  match c with
  | Mutate id => Answered id reply.1 (shown_bytes reply.2)
  | Inquire i => Asked i reply
  | Manage a => Managed a reply
  end.

Definition takes_effect (a : action) : list event :=
  match a with
  | Effect _ c reply => [as_event c reply]
  | Outside e => [e]
  | _ => []
  end.

Definition effects (acts : list action) : list event := concat (takes_effect <$> acts).

Section server.
Context `{SessionEnv} `{Versions} `{SqliteEnvOk} `{GrpcEnv} `{ProtoOk Outcome}.
Context `{ProtoOk Account} `{ProtoOk ReconcileInfo} `{ProtoOk Transaction}
  `{ProtoOk Price} `{ProtoOk Empty}.
Context `{ProtoOk CreateAccountRequest} `{ProtoOk UpdateAccountRequest}
  `{ProtoOk DeleteAccountRequest} `{ProtoOk SetReconcileInfoRequest}
  `{ProtoOk PostTransactionRequest} `{ProtoOk UpdateTransactionRequest}
  `{ProtoOk DeleteTransactionRequest} `{ProtoOk AddPriceRequest}.
Context (requests : string -> Request).
Context (requests_keyed : forall id, request_id (requests id) = id).

(** The session and the journal belong to the engine thread. *)
Record Server := MkServer {
  threads : Sys Task;
  book_session : Session;
  sidecar : Journal;
  callers : gmap nat Caller;
  calls_made : nat;
}.
Implicit Types (x y : Server).

(** A daemon that has just started, before its first call. *)
Definition serving (w : World Session) (calls : nat) : Server :=
  MkServer (init (max_depth_ (queue w))) (engine w) (journal w) ∅ calls.

Definition set_caller (n : nat) (k : Caller) x : Server :=
  MkServer (threads x) (book_session x) (sidecar x) (<[n := k]> (callers x)) (calls_made x).
Definition set_threads (t : Sys Task) x : Server :=
  MkServer t (book_session x) (sidecar x) (callers x) (calls_made x).

(** The queue as a caller finds it now, and the world of code that finds it so. *)
Definition found_now x : EngineWorker unit := depths (worker (threads x)).
Definition world_of x (q : EngineWorker unit) (now : Z) (cp : option string) :
    World Session :=
  MkWorld (book_session x) (sidecar x) q now cp.

Inductive server_step : Server -> action -> Server -> Prop :=
| server_call x c :
    server_step x (Called (calls_made x) c)
      (MkServer (threads x) (book_session x) (sidecar x)
         (<[calls_made x := Entering c]> (callers x)) (S (calls_made x)))
| server_enqueue x n c m w :
    callers x !! n = Some (Entering c) -> work requests c = Some m ->
    Enqueue (n, c) (worker (threads x)) = inr w ->
    server_step x Silent
      (set_caller n (Waiting c (found_now x))
         (set_threads (enqueued (n, c) w (threads x)) x))
| server_refuse x n c m e :
    callers x !! n = Some (Entering c) -> work requests c = Some m ->
    Enqueue (n, c) (worker (threads x)) = inl e ->
    server_step x (Effect n c (refused e)) (set_caller n (Leaving c (refused e)) x)
| server_direct x n c now cp w' reply :
    callers x !! n = Some (Entering c) -> work requests c = None ->
    perform requests c (world_of x (found_now x) now cp) = (w', Ret reply) ->
    server_step x (Effect n c reply) (set_caller n (Leaving c reply) x)
| server_thread x t :
    internal (threads x) t -> executed t = executed (threads x) ->
    server_step x Silent (set_threads t x)
| server_spurious x :
    loop (threads x) = Asleep ->
    server_step x Spurious (set_threads (set_loop AtLock (threads x)) x)
| server_work x n c found m now cp w' r reply :
    loop (threads x) = Running (n, c) ->
    callers x !! n = Some (Waiting c found) -> work requests c = Some m ->
    m (world_of x found now cp) = (w', r) -> answer r = Some reply ->
    server_step x (Effect n c reply)
      (MkServer (ran (n, c) (threads x)) (engine w') (journal w')
         (<[n := Leaving c reply]> (callers x)) (calls_made x))
| server_return x n c reply :
    callers x !! n = Some (Leaving c reply) ->
    server_step x (Got n c reply)
      (MkServer (threads x) (book_session x) (sidecar x) (delete n (callers x))
         (calls_made x)).

(** The process dies in the task in hand. *)
Inductive server_dies : Server -> World Session -> Prop :=
| server_died x n c found m now cp w' :
    loop (threads x) = Running (n, c) ->
    callers x !! n = Some (Waiting c found) -> work requests c = Some m ->
    m (world_of x found now cp) = (w', Died) ->
    server_dies x w'.

(** ** The invariant *)

(** The tasks in the engine thread's hand and in the queue. *)
Definition waiting_tasks x : list Task :=
  in_hand (threads x) ++ queue_ (worker (threads x)).

Definition waits_for x (n : nat) (c : Command) : Prop :=
  exists found m q, callers x !! n = Some (Waiting c found) /\
    work requests c = Some m /\ Enqueue tt found = inr q.

Record server_inv (depth : nat) x : Prop := {
  si_worker : inv depth (threads x);
  si_running : stopping_ (worker (threads x)) = false;
  si_tickets : NoDup (waiting_tasks x).*1;
  si_waited : forall n c, (n, c) ∈ waiting_tasks x -> waits_for x n c;
  si_waiting : forall n c found,
    callers x !! n = Some (Waiting c found) -> (n, c) ∈ waiting_tasks x;
  si_fresh : forall n, calls_made x <= n -> callers x !! n = None;
}.

Lemma serving_inv w calls : server_inv (max_depth_ (queue w)) (serving w calls).
Proof.
  split; cbn; try done; [apply inv_init|constructor|].
  intros n c ?%not_elem_of_nil. done.
Qed.

(** Steps that run nothing leave the same tasks waiting. *)
Lemma internal_tasks depth (s s' : Sys Task) :
  internal s s' -> executed s' = executed s -> inv depth s ->
  in_hand s' ++ queue_ (worker s') = in_hand s ++ queue_ (worker s).
Proof.
  intros Hs He Hi. pose proof (inv_internal _ _ _ Hs Hi) as Hi'.
  apply (app_inv_head (executed s)). rewrite <- (inv_fifo _ _ Hi), <- He at 1.
  rewrite <- (inv_fifo _ _ Hi'). by destruct (internal_keeps _ _ Hs).
Qed.

(** A caller that does not wait has no task waiting. *)
Lemma not_waiting depth x n k :
  server_inv depth x -> callers x !! n = k ->
  (forall c found, k <> Some (Waiting c found)) -> n ∉ (waiting_tasks x).*1.
Proof.
  intros Hi Hk Hno Hin. apply list_elem_of_fmap in Hin as ([n' c] & -> & Hin).
  destruct (si_waited _ _ Hi _ _ Hin) as (found & m & q & Hw & _).
  cbn in Hk. rewrite Hw in Hk. by eapply Hno.
Qed.

(** Moving a caller that does not wait, and will not. *)
Lemma move_caller depth x n k k' calls :
  server_inv depth x -> callers x !! n = k -> (forall c found, k <> Some (Waiting c found)) ->
  (forall c found, k' <> Some (Waiting c found)) ->
  calls_made x <= calls -> (n < calls \/ k' = None) ->
  server_inv depth
    (MkServer (threads x) (book_session x) (sidecar x)
       (partial_alter (fun _ => k') n (callers x)) calls).
Proof.
  intros Hi Hk Hno Hno' Hcalls Hn. pose proof (not_waiting _ _ _ _ Hi Hk Hno) as Hout.
  destruct Hi as [Hw Hr Ht Hwd Hwg Hf]. split; try done; cbn.
  - intros m c Hin. destruct (Hwd _ _ Hin) as (found & p & q & Hm & ? & ?).
    exists found, p, q. split; [|done]. cbn. rewrite lookup_partial_alter_ne; [done|].
    intros ->. apply Hout. apply list_elem_of_fmap. by exists (m, c).
  - intros m c found. destruct (decide (m = n)) as [->|Hne].
    + rewrite lookup_partial_alter_eq. by intros ?%Hno'.
    + rewrite lookup_partial_alter_ne by done. apply Hwg.
  - intros m Hm. destruct (decide (m = n)) as [->|Hne].
    + rewrite lookup_partial_alter_eq. destruct Hn as [Hn|Hn]; [lia|done].
    + rewrite lookup_partial_alter_ne by done. apply Hf. lia.
Qed.

Lemma caller_known depth x n k : server_inv depth x -> callers x !! n = Some k -> n < calls_made x.
Proof.
  intros Hi Hk. destruct (decide (n < calls_made x)) as [|Hge]; [done|].
  by rewrite (si_fresh _ _ Hi) in Hk by lia.
Qed.

Lemma server_enqueue_inv depth x n c m w :
  server_inv depth x -> callers x !! n = Some (Entering c) -> work requests c = Some m ->
  Enqueue (n, c) (worker (threads x)) = inr w ->
  server_inv depth
    (set_caller n (Waiting c (found_now x))
       (set_threads (enqueued (n, c) w (threads x)) x)).
Proof.
  intros Hi Hn Hm He. pose proof (not_waiting _ _ _ _ Hi Hn ltac:(done)) as Hout.
  pose proof (caller_known _ _ _ _ Hi Hn) as Hlt.
  pose proof (Enqueue_cases (n, c) (worker (threads x))) as HE. rewrite He in HE.
  destruct HE as (Hst & _ & Hw).
  set (y := set_caller _ _ _).
  assert (waiting_tasks y = waiting_tasks x ++ [(n, c)]) as Htasks.
  { unfold waiting_tasks, y, in_hand. cbn. rewrite Hw. cbn. by rewrite app_assoc. }
  destruct Hi as [Hwi Hr Ht Hwd Hwg Hf]. split; rewrite ?Htasks.
  - eapply inv_external; [by apply step_enqueue|done].
  - cbn. by rewrite Hw.
  - rewrite fmap_app. apply NoDup_app. split_and!; [done| |apply NoDup_singleton].
    intros k Hk ->%list_elem_of_singleton. by apply Hout.
  - intros k d [Hin|[= -> ->]%list_elem_of_singleton]%elem_of_app.
    + destruct (Hwd _ _ Hin) as (found & p & q & Hk & ? & ?). exists found, p, q.
      split; [|done]. cbn. rewrite lookup_insert_ne; [done|]. intros ->.
      apply Hout. apply list_elem_of_fmap. by exists (k, d).
    + exists (found_now x), m. unfold found_now. rewrite (Enqueue_depths (n, c)), He.
      eexists. split; [cbn; apply lookup_insert_eq|]. done.
  - intros k d found. cbn. rewrite elem_of_app. rewrite lookup_insert.
    case_decide; [intros [= <- <-]; right; subst; by apply list_elem_of_singleton|].
    intros Hk. left. by eapply Hwg.
  - intros k Hk. cbn in *. rewrite lookup_insert_ne by lia. by apply Hf.
Qed.

Lemma server_work_inv depth x n c found reply s j :
  server_inv depth x -> loop (threads x) = Running (n, c) ->
  callers x !! n = Some (Waiting c found) ->
  server_inv depth
    (MkServer (ran (n, c) (threads x)) s j (<[n := Leaving c reply]> (callers x))
       (calls_made x)).
Proof.
  intros Hi Hl Hn. pose proof (caller_known _ _ _ _ Hi Hn) as Hlt.
  set (y := MkServer _ _ _ _ _).
  assert (waiting_tasks x = (n, c) :: waiting_tasks y) as Htasks.
  { unfold waiting_tasks, y, in_hand. cbn. by rewrite Hl. }
  destruct Hi as [Hwi Hr Ht Hwd Hwg Hf]. rewrite Htasks in *.
  apply NoDup_cons in Ht as [Hout Ht]. split; try done.
  - eapply inv_internal; [by apply step_run|done].
  - intros k d Hin. destruct (Hwd k d) as (found' & p & q & Hk & ? & ?); [by right|].
    exists found', p, q. split; [|done]. cbn. rewrite lookup_insert_ne; [done|].
    intros <-. apply Hout. apply list_elem_of_fmap. by exists (n, d).
  - intros k d found'. cbn. rewrite lookup_insert. case_decide as Hd; [done|].
    intros Hk%Hwg. apply elem_of_cons in Hk as [[= ? ?]|?]; [congruence|done].
  - intros k Hk. cbn in *. rewrite lookup_insert_ne by lia. by apply Hf.
Qed.

Lemma server_step_inv depth x a y :
  server_step x a y -> server_inv depth x -> server_inv depth y.
Proof.
  intros Hstep Hi. destruct Hstep as [x c|x n c m w Hn Hm He|x n c m e Hn Hm He
    |x n c now cp w' reply Hn Hm Hp|x t Ht He|x Hl
    |x n c found m now cp w' r reply Hl Hn Hm Hw Ha|x n c reply Hn].
  - apply (move_caller depth x _ None (Some (Entering c))); try done; [|lia|lia].
    by apply (si_fresh _ _ Hi).
  - by eapply server_enqueue_inv.
  - apply (move_caller depth x n _ (Some (Leaving c (refused e))) _ Hi Hn); try done.
    left. by eapply caller_known.
  - apply (move_caller depth x n _ (Some (Leaving c reply)) _ Hi Hn); try done.
    left. by eapply caller_known.
  - destruct Hi as [Hwi Hr Htk Hwd Hwg Hf].
    pose proof (internal_tasks _ _ _ Ht He Hwi) as Htasks.
    destruct (internal_keeps _ _ Ht) as [_ Hst].
    split; cbn; unfold waiting_tasks; cbn; rewrite ?Htasks; try done;
      [by eapply inv_internal|congruence].
  - destruct Hi as [Hwi Hr Htk Hwd Hwg Hf]. unfold waiting_tasks, in_hand in *.
    rewrite Hl in *. split; cbn; try done.
    eapply inv_external; [by apply step_spurious|done].
  - by eapply server_work_inv.
  - apply (move_caller depth x n _ None _ Hi Hn); try done. by right.
Qed.

Lemma server_run_inv w k acts x :
  lstar server_step (serving w k) acts x -> server_inv (max_depth_ (queue w)) x.
Proof.
  intros Hrun. eapply (lstar_invariant _ (server_inv _)); [|exact Hrun|apply serving_inv].
  intros ? ? ?. apply server_step_inv.
Qed.

(** ** Every call is answered *)

(** What the daemon does by itself: neither new calls nor spurious wake-ups. *)
Definition own_step x y : Prop :=
  exists a, server_step x a y /\
    match a with Called _ _ | Spurious => False | _ => True end.

Definition caller_weight (k : Caller) : nat :=
  match k with Entering _ => 8 | Waiting _ _ => 2 | Leaving _ _ => 1 end.
Definition weigh (m : gmap nat Caller) : nat :=
  sum_list_with (fun p => caller_weight p.2) (map_to_list m).
Definition loop_weight (pc : loop_pc (T := Task)) : nat :=
  match pc with Running _ => 2 | AtLock => 1 | Asleep | Returned => 0 end.

(** What the engine thread and its wake-ups have left to do. *)
Definition engine_load (s : Sys Task) : nat :=
  3 * length (queue_ (worker s)) + loop_weight (loop s) + 2 * notifies s +
  (if joined s then 0 else 1).

Definition load x : nat := engine_load (threads x) + weigh (callers x).

Lemma internal_load s t :
  internal s t -> executed t = executed s -> engine_load t < engine_load s.
Proof.
  intros Ht He. unfold engine_load.
  destruct Ht as [s Hl Hk|s Hl Hk|s u w Hl Hk|s u Hl|s k Hk|s Hl Hk Hj];
    try (pose proof (Loop_lock_cases (worker s)) as HL; rewrite Hk in HL);
    cbn in *; rewrite ?Hl; cbn; try lia.
  - destruct HL as (-> & _). cbn. unfold Task in *. lia.
  - rewrite Hk. unfold Task in *. destruct (loop s); cbn; lia.
  - rewrite Hj. unfold Task in *. lia.
Qed.

Lemma enqueued_load t w s :
  Enqueue t (worker s) = inr w -> engine_load (enqueued t w s) = 5 + engine_load s.
Proof.
  intros He. pose proof (Enqueue_cases t (worker s)) as HE. rewrite He in HE.
  destruct HE as (_ & _ & ->). unfold engine_load. cbn. rewrite length_app. cbn.
  unfold Task in *. lia.
Qed.

Lemma ran_load t s :
  loop s = Running t -> engine_load s = S (engine_load (ran t s)).
Proof. intros Hl. unfold engine_load. cbn. rewrite Hl. cbn. unfold Task in *. lia. Qed.

Lemma weigh_delete m n k :
  m !! n = Some k -> weigh m = caller_weight k + weigh (delete n m).
Proof. intros Hn. unfold weigh. by rewrite <- (map_to_list_delete m n k Hn). Qed.

Lemma weigh_insert m n k : weigh (<[n := k]> m) = caller_weight k + weigh (delete n m).
Proof.
  rewrite (weigh_delete _ n k) by apply lookup_insert_eq. by rewrite delete_insert_eq.
Qed.

Lemma own_step_decreases x y : own_step x y -> load y < load x.
Proof.
  intros (a & Hstep & Ha).
  destruct Hstep as [x c|x n c m w Hn Hm He|x n c m e Hn Hm He
    |x n c now cp w' reply Hn Hm Hp|x t Ht He|x Hl
    |x n c found m now cp w' r reply Hl Hn Hm Hw Har|x n c reply Hn]; try done;
    unfold load; cbn [threads callers set_caller set_threads];
    rewrite ?weigh_insert, ?(weigh_delete (callers x) n _ Hn);
    cbn [caller_weight]; try lia.
  - pose proof (enqueued_load _ _ _ He). unfold Task in *. lia.
  - pose proof (internal_load _ _ Ht He). lia.
  - pose proof (ran_load _ _ Hl). unfold Task in *. lia.
Qed.

(** A thread of the daemon can go on as long as there is a call. *)
Lemma server_progress depth x :
  server_inv depth x ->
  callers x = ∅ \/ (exists y, own_step x y) \/ (exists w, server_dies x w).
Proof.
  intros Hi. destruct (decide (callers x = ∅)) as [|Hne]; [by left|right].
  apply map_choose in Hne as (n & [c|c found|c reply] & Hn).
  - left. destruct (work requests c) as [m|] eqn:Hm.
    + destruct (Enqueue (n, c) (worker (threads x))) as [e|w] eqn:He;
        eexists _, _; (split; [first [by eapply server_refuse|by eapply server_enqueue]|done]).
    + pose proof (direct_is_ping _ _ Hm) as (start & now & ->).
      eexists _, _. split.
      { eapply (server_direct x n _ 0%Z None); [done..|reflexivity]. }
      done.
  - pose proof (si_waiting _ _ Hi _ _ _ Hn) as Hin.
    destruct (loop (threads x)) as [| |[k d]|] eqn:Hl.
    4:{ destruct (inv_returned _ _ (si_worker _ _ Hi) Hl). by rewrite (si_running _ _ Hi) in *. }
    3:{ destruct (si_waited _ _ Hi k d) as (found' & m & q & Hk & Hm & _).
        { unfold waiting_tasks, in_hand. rewrite Hl. by left. }
        destruct (m (world_of x found' 0 None)) as [w r] eqn:Hw.
        destruct (answer r) as [reply|] eqn:Ha.
        - left. eexists _, _. split; [by eapply server_work|done].
        - right. exists w. econstructor; [done..|]. by destruct r. }
    all: left; unfold waiting_tasks, in_hand in Hin; rewrite Hl in Hin.
    all: destruct (inv_progress _ _ (si_worker _ _ Hi)) as [[t Ht]|[Hr _]]; [right|..|congruence].
    all: try (intros Hq; rewrite Hq in Hin; by apply not_elem_of_nil in Hin).
    all: eexists _, _; split; [apply (server_thread x t Ht)|done].
    all: destruct Ht; cbn; congruence.
  - left. eexists _, _. split; [by eapply server_return|done].
Qed.

Lemma own_steps_inv depth x y : star own_step x y -> server_inv depth x -> server_inv depth y.
Proof.
  intros Hrun. eapply star_invariant; [|exact Hrun]. intros a b (l & Hstep & _).
  by apply (server_step_inv _ _ _ _ Hstep).
Qed.

(** C12: Every call is answered, under every schedule: whatever went before, the
    daemon's own steps come to an end, and they end only when every caller has
    returned with a reply - or when the process dies in a task. *)
Theorem every_call_answered w k acts x :
  lstar server_step (serving w k) acts x ->
  Acc (fun y x => own_step x y) x /\
  forall y, star own_step x y -> ~ (exists z, own_step y z) ->
    callers y = ∅ \/ exists w', server_dies y w'.
Proof.
  intros Hi%server_run_inv. split.
  - apply (measured_Acc _ (fun _ => True) load); [|done]. intros y z Hs _.
    split; [done|by apply own_step_decreases].
  - intros y Hs Hend. pose proof (own_steps_inv _ _ _ Hs Hi) as Hy.
    by destruct (server_progress _ _ Hy) as [?|[?|?]]; auto.
Qed.

(** ** The life of a call *)

(** What may have been seen of a call: its beginning, then its effect, then its
    reply, each once, and the reply is that of the effect. *)
Definition in_order (n : nat) (hist : list action) : Prop :=
  exists c reply,
    story n hist `prefix_of` [Called n c; Effect n c reply; Got n c reply].

Definition told (n : nat) (hist : list action) (k : option Caller) (calls : nat) : Prop :=
  match k with
  | Some (Entering c) | Some (Waiting c _) => story n hist = [Called n c]
  | Some (Leaving c reply) => story n hist = [Called n c; Effect n c reply]
  | None => in_order n hist /\ (calls <= n -> story n hist = [])
  end.

Definition accounted (hist : list action) x : Prop :=
  forall n, told n hist (callers x !! n) (calls_made x).

Lemma story_app n hist acts : story n (hist ++ acts) = story n hist ++ story n acts.
Proof. apply filter_app. Qed.

Lemma story_other n hist a : ~ about n a -> story n (hist ++ [a]) = story n hist.
Proof.
  intros Ha. rewrite story_app. unfold story at 2.
  by rewrite filter_cons_False, app_nil_r.
Qed.

Lemma story_this n hist a : about n a -> story n (hist ++ [a]) = story n hist ++ [a].
Proof. intros Ha. rewrite story_app. unfold story at 2. by rewrite filter_cons_True. Qed.

Lemma told_other n hist a k calls calls' :
  ~ about n a -> calls <= calls' -> told n hist k calls -> told n (hist ++ [a]) k calls'.
Proof.
  intros Ha Hc. unfold told, in_order. rewrite story_other by done.
  destruct k as [[]|]; [done..|]. intros [? Hn]. split; [done|]. intros ?. apply Hn. lia.
Qed.

Lemma told_in_order n hist k calls : told n hist k calls -> in_order n hist.
Proof.
  unfold told, in_order.
  destruct k as [[c|c found|c reply]|]; [intros ->|intros ->|intros ->|by intros []];
    exists c; [exists (Status_OK, None)|exists (Status_OK, None)|exists reply];
    by eexists.
Qed.

(** A step moves at most one caller, and adds to its story alone. *)
Lemma accounted_move hist x n k a s j t calls :
  accounted hist x -> (forall m, m <> n -> ~ about m a) -> calls_made x <= calls ->
  told n (hist ++ [a]) k calls ->
  accounted (hist ++ [a]) (MkServer t s j (partial_alter (fun _ => k) n (callers x)) calls).
Proof.
  intros Hx Ha Hc Hn m. cbn. destruct (decide (m = n)) as [->|Hne].
  - by rewrite lookup_partial_alter_eq.
  - rewrite lookup_partial_alter_ne by done.
    eapply told_other; [by apply Ha|exact Hc|apply Hx].
Qed.

Lemma accounted_quiet hist x a s j t :
  accounted hist x -> (forall m, ~ about m a) ->
  accounted (hist ++ [a]) (MkServer t s j (callers x) (calls_made x)).
Proof. intros Hx Ha m. cbn. eapply told_other; [apply Ha|done|apply Hx]. Qed.

Lemma server_step_accounted depth hist x a y :
  server_step x a y -> server_inv depth x -> accounted hist x -> accounted (hist ++ [a]) y.
Proof.
  intros Hstep Hi Hx.
  destruct Hstep as [x c|x n c m w Hn Hm He|x n c m e Hn Hm He
    |x n c now cp w' reply Hn Hm Hp|x t Ht He|x Hl
    |x n c found m now cp w' r reply Hl Hn Hm Hw Ha|x n c reply Hn];
    try (by apply accounted_quiet; [|intros ? ?]);
    apply accounted_move; try done; try (intros k ? ?; cbn in *; congruence); [lia|..].
  - pose proof (Hx (calls_made x)) as Hs. rewrite (si_fresh _ _ Hi) in Hs by done.
    destruct Hs as [_ Hs]. cbn. by rewrite story_this, Hs by done.
  - pose proof (Hx n) as Hs. rewrite Hn in Hs. cbn in *. by rewrite story_other by tauto.
  - pose proof (Hx n) as Hs. rewrite Hn in Hs. cbn in *. by rewrite story_this, Hs.
  - pose proof (Hx n) as Hs. rewrite Hn in Hs. cbn in *. by rewrite story_this, Hs.
  - pose proof (Hx n) as Hs. rewrite Hn in Hs. cbn in *. by rewrite story_this, Hs.
  - pose proof (Hx n) as Hs. rewrite Hn in Hs. pose proof (caller_known _ _ _ _ Hi Hn).
    cbn in *. unfold in_order. rewrite story_this, Hs by done. split; [by exists c, reply|lia].
Qed.
End server.

(** ** A scheduler

    Which thread moves next, with the clock and the crash point its code meets.
    [play] makes the move, where the thread can. *)
Inductive move :=
| NewCall (c : Command)
| Enter (n : nat) (now : Z) (cp : option string)
| EngineThread (now : Z) (cp : option string)
| Notify
| WakeUp
| Return_ (n : nat).

Section scheduler.
Context `{SessionEnv} `{Versions} `{SqliteEnvOk} `{GrpcEnv} `{ProtoOk Outcome}.
Context `{ProtoOk Account} `{ProtoOk ReconcileInfo} `{ProtoOk Transaction}
  `{ProtoOk Price} `{ProtoOk Empty}.
Context `{ProtoOk CreateAccountRequest} `{ProtoOk UpdateAccountRequest}
  `{ProtoOk DeleteAccountRequest} `{ProtoOk SetReconcileInfoRequest}
  `{ProtoOk PostTransactionRequest} `{ProtoOk UpdateTransactionRequest}
  `{ProtoOk DeleteTransactionRequest} `{ProtoOk AddPriceRequest}.
Context (requests : string -> Request).
Context (requests_keyed : forall id, request_id (requests id) = id).
Implicit Types (x y : Server).

Definition enter (n : nat) (now : Z) (cp : option string) (c : Command) x :
    option (action * Server) :=
  match work requests c with
  | Some _ =>
      match Enqueue (n, c) (worker (threads x)) with
      | inl e => Some (Effect n c (refused e), set_caller n (Leaving c (refused e)) x)
      | inr w =>
          Some (Silent,
            set_caller n (Waiting c (found_now x))
              (set_threads (enqueued (n, c) w (threads x)) x))
      end
  | None =>
      match perform requests c (world_of x (found_now x) now cp) with
      | (_, Ret reply) => Some (Effect n c reply, set_caller n (Leaving c reply) x)
      | _ => None
      end
  end.

Definition run_task (n : nat) (c : Command) (now : Z) (cp : option string) x :
    option (action * Server) :=
  match callers x !! n, work requests c with
  | Some (Waiting _ found), Some m =>
      let '(w, r) := m (world_of x found now cp) in
      reply ← answer r;
      Some (Effect n c reply,
            MkServer (ran (n, c) (threads x)) (engine w) (journal w)
              (<[n := Leaving c reply]> (callers x)) (calls_made x))
  | _, _ => None
  end.

Definition engine_move (now : Z) (cp : option string) x : option (action * Server) :=
  let s := threads x in
  match loop s with
  | AtLock =>
      Some (Silent, set_threads
        match Loop_lock (worker s) with
        | Sleep => set_loop Asleep s
        | Return => set_loop Returned s
        | RunTask t w => MkSys w (Running t) (notifies s) (joined s) (accepted s) (executed s)
        end x)
  | Running (n, c) => run_task n c now cp x
  | Asleep | Returned => None
  end.

Definition notify_move x : option (action * Server) :=
  let s := threads x in
  match notifies s with
  | S k =>
      Some (Silent, set_threads
        (MkSys (worker s) (match loop s with Asleep => AtLock | pc => pc end) k
           (joined s) (accepted s) (executed s)) x)
  | 0 => None
  end.

Definition play x (mv : move) : option (action * Server) :=
  match mv with
  | NewCall c =>
      Some (Called (calls_made x) c,
            MkServer (threads x) (book_session x) (sidecar x)
              (<[calls_made x := Entering c]> (callers x)) (S (calls_made x)))
  | Enter n now cp =>
      match callers x !! n with
      | Some (Entering c) => enter n now cp c x
      | _ => None
      end
  | EngineThread now cp => engine_move now cp x
  | Notify => notify_move x
  | WakeUp =>
      match loop (threads x) with
      | Asleep => Some (Spurious, set_threads (set_loop AtLock (threads x)) x)
      | _ => None
      end
  | Return_ n =>
      match callers x !! n with
      | Some (Leaving c reply) =>
          Some (Got n c reply,
                MkServer (threads x) (book_session x) (sidecar x) (delete n (callers x))
                  (calls_made x))
      | _ => None
      end
  end.

Lemma engine_move_sound depth now cp x a y :
  server_inv requests depth x -> engine_move now cp x = Some (a, y) ->
  server_step requests x a y.
Proof.
  intros Hi. unfold engine_move. destruct (loop (threads x)) as [| |[n c]|] eqn:Hl; try done.
  - intros [= <- <-]. destruct (Loop_lock (worker (threads x))) as [| |t w] eqn:Ha;
      apply server_thread; try done;
      [by apply step_sleep|by apply step_return|by apply step_pop].
  - unfold run_task. destruct (si_waited _ _ _ Hi n c) as (found & m & q & Hn & Hm & _).
    { unfold waiting_tasks, in_hand. rewrite Hl. by left. }
    rewrite Hn, Hm. destruct (m _) as [w r] eqn:Hw.
    destruct (answer r) as [reply|] eqn:Ha; [|done]. intros [= <- <-].
    by eapply server_work.
Qed.

Lemma play_sound depth x mv a y :
  server_inv requests depth x -> play x mv = Some (a, y) -> server_step requests x a y.
Proof.
  intros Hi. destruct mv as [c|n now cp|now cp| | |n]; cbn [play].
  - intros [= <- <-]. constructor.
  - destruct (callers x !! n) as [[c| |]|] eqn:Hn; try done. unfold enter.
    destruct (work requests c) as [m|] eqn:Hm.
    + destruct (Enqueue (n, c) (worker (threads x))) as [e|w] eqn:He; intros [= <- <-].
      * by eapply server_refuse.
      * by eapply server_enqueue.
    + destruct (perform _ _ _) as [w [reply|e|]] eqn:Hp; intros [= <- <-].
      by eapply server_direct.
  - by apply (engine_move_sound depth).
  - unfold notify_move. destruct (notifies (threads x)) as [|k] eqn:Hk; [done|].
    intros [= <- <-]. apply server_thread; [by apply step_notify|done].
  - destruct (loop (threads x)) eqn:Hl; try done. intros [= <- <-]. by apply server_spurious.
  - destruct (callers x !! n) as [[| |c reply]|] eqn:Hn; try done.
    intros [= <- <-]. by apply server_return.
Qed.

(** Every step of the daemon is some thread's move, and every move a step. *)
Lemma play_complete depth x a y :
  server_inv requests depth x ->
  server_step requests x a y <-> exists mv, play x mv = Some (a, y).
Proof.
  intros Hi. split; [|intros [mv Hp]; by eapply play_sound].
  destruct 1 as [x c|x n c m w Hn Hm He|x n c m e Hn Hm He
    |x n c now cp w' reply Hn Hm Hp|x t Ht He|x Hl
    |x n c found m now cp w' r reply Hl Hn Hm Hw Ha|x n c reply Hn].
  - by exists (NewCall c).
  - exists (Enter n 0 None). cbn. rewrite Hn. unfold enter. by rewrite Hm, He.
  - exists (Enter n 0 None). cbn. rewrite Hn. unfold enter. by rewrite Hm, He.
  - exists (Enter n now cp). cbn. rewrite Hn. unfold enter. by rewrite Hm, Hp.
  - pose proof (si_running _ _ _ Hi) as Hst. remember (threads x) as s eqn:Es.
    destruct Ht as [s Hl Hk|s Hl Hk|s u w Hl Hk|s u Hl|s k Hk|s Hl Hk];
      [exists (EngineThread 0 None)..|exists Notify|congruence]; cbn.
    4:{ apply (f_equal length) in He. cbn in He. rewrite length_app in He. cbn in He. lia. }
    all: unfold engine_move, notify_move; by rewrite <- Es, ?Hl, ?Hk.
  - exists WakeUp. cbn. by rewrite Hl.
  - exists (EngineThread now cp). cbn. unfold engine_move. rewrite Hl. unfold run_task.
    rewrite Hn, Hm, Hw. cbn. by rewrite Ha.
  - exists (Return_ n). cbn. by rewrite Hn.
Qed.

(** A schedule, as far as it can be played: what is seen, and the states passed. *)
Fixpoint play_all x (mvs : list move) : list (action * Server) :=
  match mvs with
  | [] => []
  | mv :: mvs =>
      match play x mv with
      | Some (a, y) => (a, y) :: play_all y mvs
      | None => []
      end
  end.
Definition final x (played : list (action * Server)) : Server :=
  default x (last played.*2).

Lemma final_cons x a y played : final x ((a, y) :: played) = final y played.
Proof.
  unfold final. rewrite fmap_cons, last_cons. cbn.
  by destruct (last played.*2).
Qed.

Lemma play_all_server depth x mvs :
  server_inv requests depth x ->
  lstar (server_step requests) x (play_all x mvs).*1 (final x (play_all x mvs)).
Proof.
  revert x. induction mvs as [|mv mvs IH]; intros x Hi; cbn; [constructor|].
  destruct (play x mv) as [[a y]|] eqn:Hp; [|constructor].
  pose proof (play_sound _ _ _ _ _ Hi Hp) as Hs. rewrite final_cons.
  eapply lstar_cons; [exact Hs|]. apply IH. by eapply server_step_inv.
Qed.
End scheduler.
