(* ===== verification/Linearizable.v ===== *)
(** * Linearizability: concurrent clients and the atomic service

    The daemon of [Concurrent.v] in the deployment of [Lifecycle.v]: processes
    with many callers start, serve, die and are shut down. Every run of it is a
    run of the deployment with one client at a time, so that the guarantees of
    [Lifecycle.v] hold of concurrent clients. *)
From S2P Require Import Prelude.
From S2P Require Import Messages.
From S2P Require Import Engine.
From S2P Require Import Errors.
From S2P Require Import Map.
From S2P Require Import Worker.
From S2P Require Import Journal.
From S2P Require Import Session.
From S2P Require Import Mutation.
From S2P Require Import Rpc.
From S2P Require Import Accounts.
From S2P Require Import Transactions.
From S2P Require Import Query.
From S2P Require Import Commodities.
From S2P Require Import SessionService.
From S2P Require Import Recovery.
From S2P Require Import WasApplied.
From S2P Require Import Startup.
From S2P Require Import Protocol.
From S2P Require Import Contract.
From S2P Require Import Requests.
From S2P Require Import Lifecycle.
From S2P Require Import Concurrent.
Local Open Scope prog_scope.

(** ** Whole processes *)

(** A daemon is up with its callers, or none is; tickets are never reused. *)
Inductive live `{SessionEnv} :=
| Up (x : Server)
| Down (d : Store) (j : Journal) (calls : nat).

Section live.
Context `{SessionEnv} `{!GncStore} `{!GncStoreOk} `{!GncSessionStoreOk} `{!GncValuesOk}.
Context `{Versions} `{SqliteEnvOk} `{GrpcEnv} `{ProtoOk Outcome}.
Context `{ProtoOk Account} `{ProtoOk ReconcileInfo} `{ProtoOk Transaction}
  `{ProtoOk Price} `{ProtoOk Empty}.
Context `{ProtoOk CreateAccountRequest} `{ProtoOk UpdateAccountRequest}
  `{ProtoOk DeleteAccountRequest} `{ProtoOk SetReconcileInfoRequest}
  `{ProtoOk PostTransactionRequest} `{ProtoOk UpdateTransactionRequest}
  `{ProtoOk DeleteTransactionRequest} `{ProtoOk AddPriceRequest}.
Context (requests : string -> Request).
Context (requests_keyed : forall id, request_id (requests id) = id).
Implicit Types (x y : Server).

(** *** Steps, under assumptions

    As in [site_step]: what the mutations find when their turn comes, and how the
    journal's statements may fail. With [any_mutation] and [any_disk] these are the
    code's own steps. *)
Section steps.
Context (admits : string -> Session -> Prop) (disk_is : Journal.Conn -> Prop).

Definition command_fits (c : Command) (s : Session) : Prop :=
  match c with Mutate id => admits id s | _ => True end.

Definition action_fits (a : action) (s : Session) : Prop :=
  match a with Effect _ c _ => command_fits c s | _ => True end.

(** Processes start as in [site_step]. The server of [main.cpp] is shut down,
    and its handlers have returned, before the final close. *)
Inductive live_step : live -> action -> live -> Prop :=
| live_start d j calls n w :
    site_step requests admits disk_is (Stopped d j) (Started n) (Serving w) ->
    live_step (Down d j calls) (Outside (Started n)) (Up (serving w calls))
| live_fail d j calls d' j' :
    site_step requests admits disk_is (Stopped d j) NotStarted (Stopped d' j') ->
    live_step (Down d j calls) (Outside NotStarted) (Down d' j' calls)
| live_serve x a y :
    server_step requests x a y -> action_fits a (book_session x) ->
    live_step (Up x) a (Up y)
| live_die x w :
    server_dies requests x w ->
    (forall n c, loop (threads x) = Running (n, c) -> command_fits c (book_session x)) ->
    live_step (Up x) (Outside Died_) (Down (disk (engine w)) (journal w) (calls_made x))
| live_kill x :
    live_step (Up x) (Outside Died_)
      (Down (disk (book_session x)) (sidecar x) (calls_made x))
| live_exit x fail_at now cp w exit_code :
    callers x = ∅ ->
    shutdown fail_at (world_of x (found_now x) now cp) = (w, Ret exit_code) ->
    live_step (Up x) (Outside (Exited exit_code))
      (Down (disk (engine w)) (journal w) (calls_made x)).

(** *** Every run is a sequential one *)
Definition alike (l : live) (a : site) : Prop :=
  match l, a with
  | Up x, Serving w =>
      engine w = book_session x /\ journal w = sidecar x /\
      exists depth, server_inv requests depth x
  | Down d j _, Stopped d' j' => d' = d /\ j' = j
  | _, _ => False
  end.

Lemma perform_site w c q now cp w' reply :
  command_fits c (engine w) ->
  perform requests c (at_request q now cp w) = (w', Ret reply) ->
  site_step requests admits disk_is (Serving w) (as_event c reply) (Serving w').
Proof.
  destruct c as [id|i|a]; cbn [perform as_event]; intros Hfit Hrun.
  - apply showing_inv in Hrun as (st & out & Hrun & ->). cbn.
    assert (shown_bytes (ShownBytes <$> out) = out) as -> by by destruct out.
    by eapply site_mutate.
  - by eapply site_inquire.
  - by eapply site_manage.
Qed.

Lemma perform_site_dies w c q now cp w' :
  command_fits c (engine w) ->
  perform requests c (at_request q now cp w) = (w', Died) ->
  site_step requests admits disk_is (Serving w) Died_ (leaves w').
Proof.
  intros Hfit Hrun. destruct (perform_dies _ _ _ _ Hrun) as [id ->]. cbn [perform] in Hrun.
  apply bind_cases in Hrun as [(r & w1 & _ & Hr)|[(e & _ & Hr)|[Hrun _]]]; [done..|].
  by eapply site_die.
Qed.

(** The work of an admitted call is the call. *)
Lemma work_performed x n c found m now cp depth w' r w :
  server_inv requests depth x -> callers x !! n = Some (Waiting c found) ->
  work requests c = Some m -> m (world_of x found now cp) = (w', r) ->
  engine w = book_session x -> journal w = sidecar x ->
  perform requests c (at_request found now cp w) =
    (w', match answer r with Some reply => Ret reply | None => Died end).
Proof.
  intros Hi Hn Hm Hw He Hj. pose proof (si_waiting _ _ _ Hi _ _ _ Hn) as Hin.
  destruct (si_waited _ _ _ Hi _ _ Hin) as (found' & m' & q & Hn' & Hm' & Hq).
  assert (found' = found) as -> by congruence.
  rewrite (perform_halves _ requests_keyed _ m) by done. cbn [queue at_request].
  rewrite Hq. unfold at_request. rewrite He, Hj.
  change (MkWorld _ _ _ _ _) with (world_of x found now cp). by rewrite Hw.
Qed.

Lemma server_step_site x a y w :
  server_step requests x a y -> action_fits a (book_session x) -> alike (Up x) (Serving w) ->
  exists b, lstar (site_step requests admits disk_is) (Serving w) (takes_effect a) b /\ alike (Up y) b.
Proof.
  intros Hstep Hfit (He & Hj & depth & Hi).
  pose proof (server_step_inv _ _ _ _ _ Hstep Hi) as Hi'.
  assert (forall q now cp, world_of x q now cp = at_request q now cp w) as Hworld
    by (unfold world_of, at_request; intros; by rewrite He, Hj).
  destruct Hstep as [x c|x n c m q Hn Hm Hq|x n c m e Hn Hm Hq
    |x n c now cp w' reply Hn Hm Hp|x t Ht Hex|x Hl
    |x n c found m now cp w' r reply Hl Hn Hm Hw Ha|x n c reply Hn];
    cbn [takes_effect action_fits] in *;
    try (by exists (Serving w); split; [constructor|]; split_and!; eauto).
  - exists (Serving (at_request (found_now x) 0 None w)). split; [|by split_and!; eauto].
    eapply lstar_cons; [|constructor]. rewrite <- He in Hfit.
    apply (perform_site _ _ (found_now x) 0 None _ _ Hfit).
    rewrite (perform_halves _ requests_keyed _ m) by done. cbn [queue at_request].
    unfold found_now. by rewrite (Enqueue_depths (n, c)), Hq.
  - exists (Serving (at_request (found_now x) now cp w)). split; [|by split_and!; eauto].
    eapply lstar_cons; [|constructor]. rewrite <- He in Hfit.
    apply (perform_site _ _ (found_now x) now cp _ _ Hfit).
    destruct (direct_is_ping _ _ Hm) as (start & time & ->). rewrite Hworld in Hp.
    rewrite Hp. f_equal. by injection Hp.
  - exists (Serving w'). split; [|by split_and!; eauto].
    eapply lstar_cons; [|constructor]. rewrite <- He in Hfit.
    apply (perform_site _ _ found now cp _ _ Hfit).
    rewrite (work_performed _ _ _ _ _ _ _ _ _ _ _ Hi Hn Hm Hw He Hj). by rewrite Ha.
Qed.

Lemma live_step_site l a l' b :
  live_step l a l' -> alike l b ->
  exists b', lstar (site_step requests admits disk_is) b (takes_effect a) b' /\ alike l' b'.
Proof.
  intros Hstep Hb.
  destruct Hstep as [d j calls n w Hs|d j calls d' j' Hs|x a y Hs Hfit|x w Hd Hfit|x
    |x fail_at now cp w code Hc Hs]; destruct b as [wb|db jb]; try done;
    cbn [takes_effect].
  - destruct Hb as [-> ->]. exists (Serving w). split; [by eapply lstar_cons; [|constructor]|].
    split_and!; [done..|]. eexists. apply serving_inv.
  - destruct Hb as [-> ->]. exists (Stopped d' j').
    split; [by eapply lstar_cons; [|constructor]|done].
  - by eapply server_step_site.
  - destruct Hb as (He & Hj & depth & Hi). exists (leaves w). split; [|done].
    eapply lstar_cons; [|constructor].
    destruct Hd as [x n c found m now cp w Hl Hn Hm Hw].
    specialize (Hfit _ _ Hl). rewrite <- He in Hfit.
    apply (perform_site_dies _ _ found now cp _ Hfit).
    by rewrite (work_performed _ _ _ _ _ _ _ _ _ _ _ Hi Hn Hm Hw He Hj).
  - destruct Hb as (He & Hj & _). exists (leaves wb).
    split; [eapply lstar_cons; [apply site_kill|constructor]|].
    cbn. by rewrite He, Hj.
  - destruct Hb as (He & Hj & _). exists (leaves w). split; [|done].
    eapply lstar_cons; [|constructor]. eapply (site_exit _ _ _ wb fail_at (found_now x) now cp).
    unfold at_request. by rewrite He, Hj.
Qed.

(** *** What holds after any run *)
Definition orderly (hist : list action) (l : live) : Prop :=
  match l with
  | Up x => (exists depth, 0 < depth /\ server_inv requests depth x) /\ accounted hist x
  | Down _ _ calls => forall n, in_order n hist /\ (calls <= n -> story n hist = [])
  end.

Lemma orderly_down hist e x :
  accounted hist x -> (exists depth, 0 < depth /\ server_inv requests depth x) ->
  forall n, in_order n (hist ++ [Outside e]) /\
    (calls_made x <= n -> story n (hist ++ [Outside e]) = []).
Proof.
  intros Hx (depth & _ & Hi) n. unfold in_order. rewrite story_other by by intros ?.
  pose proof (Hx n) as Hn. split; [by eapply told_in_order|].
  intros Hge. rewrite (si_fresh _ _ _ Hi) in Hn by done. by apply Hn.
Qed.

(** A process that has started takes tasks, and has no caller yet. *)
Lemma started_orderly hist o m m' w n calls :
  startup o m = (m', Ret (w, n)) ->
  (forall k, in_order k hist /\ (calls <= k -> story k hist = [])) ->
  orderly (hist ++ [Outside (Started n)]) (Up (serving w calls)).
Proof.
  intros Hrun Hl. split.
  - exists (max_depth_ (queue w)). split; [|apply serving_inv].
    apply startup_locked in Hrun as (_ & _ & _ & _ & _ & _ & _ & _ & _ & _ & (q & Hq) & _).
    pose proof (Enqueue_cases tt (queue w)) as HE. rewrite Hq in HE. lia.
  - intros k. change (told k (hist ++ [Outside (Started n)]) None calls).
    by eapply told_other; [intros ?| |apply Hl].
Qed.

Lemma served_orderly hist x a y :
  server_step requests x a y -> orderly hist (Up x) -> orderly (hist ++ [a]) (Up y).
Proof.
  intros Hs [(depth & Hd & Hi) Hx]. split.
  - exists depth. split; [done|]. by eapply server_step_inv.
  - by eapply server_step_accounted.
Qed.

Lemma still_down_orderly hist d j d' j' calls :
  orderly hist (Down d j calls) -> orderly (hist ++ [Outside NotStarted]) (Down d' j' calls).
Proof.
  intros Hl k. apply (told_other _ _ _ None calls); [by intros ?|done|apply Hl].
Qed.

Lemma live_step_orderly hist l a l' :
  live_step l a l' -> orderly hist l -> orderly (hist ++ [a]) l'.
Proof.
  intros Hstep Hl.
  destruct Hstep as [d j calls n w Hs|d j calls d' j' Hs|x a y Hs Hfit|x w Hd Hfit|x
    |x fail_at now cp w code Hc Hs].
  - inversion Hs as [? ? o m m' ? ? _ _ Hrun| | | | | | | |]. subst.
    by eapply started_orderly.
  - by eapply still_down_orderly.
  - by eapply served_orderly.
  - destruct Hl. cbn [orderly]. by apply orderly_down.
  - destruct Hl. cbn [orderly]. by apply orderly_down.
  - destruct Hl. cbn [orderly]. by apply orderly_down.
Qed.

Lemma live_run_orderly hist l acts l' :
  lstar live_step l acts l' -> orderly hist l -> orderly (hist ++ acts) l'.
Proof.
  intros Hrun. revert hist. induction Hrun as [l|l a l1 acts l' Hs _ IH]; intros hist Hl.
  - by rewrite app_nil_r.
  - rewrite cons_middle, app_assoc. apply IH. by eapply live_step_orderly.
Qed.

Lemma first_orderly d j : orderly [] (Down d j 0).
Proof. intros n. split; [|done]. exists (Inquire AskAccounts), (Status_OK, None). by eexists. Qed.

Lemma orderly_in_order hist l n : orderly hist l -> in_order n hist.
Proof.
  destruct l as [x|d j calls]; cbn; [intros [_ Hx]|intros Hn; apply Hn].
  by eapply told_in_order.
Qed.

(** A reply is that of the effect. *)
Lemma got_effect n hist c reply :
  in_order n hist -> Got n c reply ∈ hist -> Effect n c reply ∈ hist.
Proof.
  intros (c' & reply' & rest & Hp) Hin.
  assert (Got n c reply ∈ story n hist) as Hgot by by apply list_elem_of_filter.
  assert (story n hist = [Called n c'; Effect n c' reply'; Got n c' reply']) as Hs.
  { destruct (story n hist) as [|a1 [|a2 [|a3 s]]]; cbn in Hp; simplify_eq;
      repeat (apply elem_of_cons in Hgot as [Hgot|Hgot]; [done|]);
      try by apply not_elem_of_nil in Hgot.
    by destruct s. }
  rewrite Hs in Hgot. repeat (apply elem_of_cons in Hgot as [Hgot|Hgot]; [try done|]);
    [|by apply not_elem_of_nil in Hgot]. injection Hgot as -> ->.
  assert (Effect n c' reply' ∈ story n hist) as He by (rewrite Hs; set_solver).
  by apply list_elem_of_filter in He as [_ ?].
Qed.

Lemma effect_listed n c reply acts : Effect n c reply ∈ acts -> as_event c reply ∈ effects acts.
Proof.
  intros Hin. apply list_elem_of_In, List.in_concat. exists [as_event c reply].
  split; [|by left]. apply list_elem_of_In, list_elem_of_fmap. by exists (Effect n c reply).
Qed.

Lemma live_run_site d j acts l :
  lstar live_step (Down d j 0) acts l ->
  exists a, lstar (site_step requests admits disk_is) (Stopped d j) (effects acts) a /\ alike l a.
Proof.
  intros Hrun. eapply (lstar_weak_simulation _ _ takes_effect alike);
    [|exact Hrun|by split]. intros. by eapply live_step_site.
Qed.

(** An orderly shutdown is never refused: once every caller has returned, the
    queue is empty and takes the final close, so the exit code tells whether
    the book was saved and closed, and nothing that was accepted is left. *)
Theorem final_close_admitted d j acts x fail_at now cp :
  lstar live_step (Down d j 0) acts (Up x) -> callers x = ∅ ->
  executed (threads x) = accepted (threads x) /\
  exists w exit_code,
    shutdown fail_at (world_of x (found_now x) now cp) = (w, Ret exit_code) /\
    session_ (engine w) = None /\ engine w = (Close fail_at (book_session x)).1 /\
    (exit_code = 0%Z <-> (Close fail_at (book_session x)).2 = Ret tt) /\
    live_step (Up x) (Outside (Exited exit_code))
      (Down (disk (engine w)) (journal w) (calls_made x)).
Proof.
  intros Hrun Hc. pose proof (live_run_orderly [] _ _ _ Hrun (first_orderly d j)) as
    [(depth & Hd & Hi) _].
  assert (waiting_tasks x = []) as Hnone.
  { destruct (waiting_tasks x) as [|[n c] ts] eqn:Ht; [done|].
    destruct (si_waited _ _ _ Hi n c) as (found & m & q & Hn & _); [rewrite Ht; by left|].
    by rewrite Hc, lookup_empty in Hn. }
  split.
  - pose proof (inv_fifo _ _ (si_worker _ _ _ Hi)) as Hf. unfold waiting_tasks in Hnone.
    by rewrite Hnone, app_nil_r in Hf.
  - apply app_eq_nil in Hnone as [_ Hq].
    assert (exists q, Enqueue tt (found_now x) = inr q) as [q Henq].
    { unfold found_now, Enqueue, depths. cbn.
      rewrite (si_running _ _ _ Hi), Hq, (inv_max _ _ (si_worker _ _ _ Hi)).
      destruct depth; [lia|]. cbn. by eexists. }
    destruct (shutdown_ends fail_at (world_of x (found_now x) now cp) q Henq)
      as (w & code & Hs & Hn & _ & _ & _ & He & Hcode & _).
    exists w, code. split_and!; try done. by eapply live_exit.
Qed.

(** *** Played runs *)
Lemma play_all_live depth x mvs :
  server_inv requests depth x ->
  Forall (fun y => forall c, command_fits c (book_session y))
    (x :: (play_all requests x mvs).*2) ->
  lstar live_step (Up x) (play_all requests x mvs).*1
    (Up (final x (play_all requests x mvs))).
Proof.
  revert x. induction mvs as [|mv mvs IH]; intros x Hi; cbn; [constructor|].
  destruct (play requests x mv) as [[a y]|] eqn:Hp; [|constructor].
  cbn. intros [Hx Hfit]%Forall_cons.
  pose proof (play_sound _ _ _ _ _ _ Hi Hp) as Hs. rewrite final_cons.
  eapply lstar_cons; [eapply (live_serve _ _ _ Hs)|].
  - destruct a; cbn; first [exact I|apply Hx].
  - apply IH; [by eapply server_step_inv|done].
Qed.
End steps.

(** What clients find when a daemon is up, and what is stored when none is. *)
Definition live_shows (l : live) (s : Spec) : Prop :=
  match l with
  | Up x =>
      same_store (book_store (qof (book_session x))) (spec_book s) /\
      forall id, GetOutcome id (sidecar x) = (sidecar x, Ret (done s !! id))
  | Down d _ _ => whole d
  end.

Local Abbreviation service := (daemon_spec requests).

Lemma alike_shows l a s : alike l a -> shows a s -> live_shows l s.
Proof.
  destruct l as [x|d j calls], a as [w|d' j']; try done.
  - intros (He & Hj & _) [Hb Ho]. unfold book_of in Hb. cbn. by rewrite <- He, <- Hj.
  - by intros [-> _].
Qed.

Lemma live_run d j acts l :
  first_site d j ->
  lstar (live_step (request_fits requests) sound_disk) (Down d j 0) acts l ->
  orderly acts l /\
  exists s, lstar service (spec_init d) (concat (heard <$> effects acts)) s /\
    live_shows l s /\ log_exact s.
Proof.
  intros Hd Hrun. split.
  - apply (live_run_orderly _ _ [] _ _ _ Hrun), first_orderly.
  - destruct (live_run_site _ _ _ _ _ _ Hrun) as (a & Ha & Hl).
    destruct (site_run requests requests_keyed _ _ _ _ Hd Ha) as (s & Hs & HR & Hlog).
    exists s. split_and!; [done| |done]. eapply alike_shows; [done|].
    by eapply follows_shows.
Qed.

(** ** Properties *)

(** C1: Linearizability: whatever number of clients call at once, over any number of
    processes that start, die and are shut down, whatever the requests and however
    the journal's statements fail, each call takes effect at one moment between its
    beginning and its end, once, and gets the reply of that moment; the effects in
    their order are a run of the deployment with one client at a time. When that
    run is from a new journal, the statements on the journal succeed and every
    mutation that comes to its turn fits ([fits]: the engine takes the request as
    it is, without rounding or dropping anything of it), the effects are a run of
    the atomic service, and the book and the record of answers are that service's. *)
Theorem concurrent_calls_linearizable admits disk_is d j acts l :
  lstar (live_step admits disk_is) (Down d j 0) acts l ->
  (forall n, in_order n acts) /\
  (exists a, lstar (site_step requests admits disk_is) (Stopped d j) (effects acts) a /\
     alike l a) /\
  (first_site d j -> (forall id s, admits id s -> request_fits requests id s) ->
   (forall c, disk_is c -> sound_disk c) ->
   exists s, lstar service (spec_init d) (concat (heard <$> effects acts)) s /\
     live_shows l s).
Proof.
  intros Hrun. pose proof (live_run_orderly _ _ [] _ _ _ Hrun (first_orderly d j)) as Ho.
  destruct (live_run_site _ _ _ _ _ _ Hrun) as (a & Ha & Hl).
  split_and!; [intros n; by eapply orderly_in_order|by exists a|]. intros Hd Hfit Hdisk.
  assert (lstar (site_step requests (request_fits requests) sound_disk) (Stopped d j)
    (effects acts) a) as Ha'.
  { eapply lstar_impl; [|exact Ha]. intros x e x'. by apply site_step_mono. }
  destruct (site_run requests requests_keyed _ _ _ _ Hd Ha') as (s & Hs & HR & _).
  exists s. split; [done|]. eapply alike_shows; [done|]. by eapply follows_shows.
Qed.

(** C2: Exactly once under concurrency, when no statement on the journal fails and
    every mutation that comes to its turn fits ([fits]: the engine takes the
    request as it is): a mutation acknowledged to any caller took effect exactly
    once, however many callers sent it at the same time and however the processes
    under them died; and every caller to whom it was acknowledged got the same
    bytes. *)
Theorem concurrent_exactly_once d j acts l :
  first_site d j ->
  lstar (live_step (request_fits requests) sound_disk) (Down d j 0) acts l ->
  exists s, lstar service (spec_init d) (concat (heard <$> effects acts)) s /\
    live_shows l s /\ NoDup (log s) /\
    (forall n id reply, Got n (Mutate id) reply ∈ acts -> status_code reply.1 = OK ->
       id ∈ log s /\
       forall m reply', Got m (Mutate id) reply' ∈ acts -> status_code reply'.1 = OK ->
         reply'.1 = reply.1 /\ shown_bytes reply'.2 = shown_bytes reply.2).
Proof.
  intros Hd Hrun. destruct (live_run _ _ _ _ Hd Hrun) as (Ho & s & Hs & Hl & Hlog).
  exists s. split_and!; [done|done|apply Hlog|].
  assert (forall n id reply, Got n (Mutate id) reply ∈ acts ->
    Replied id reply.1 (shown_bytes reply.2) ∈ concat (heard <$> effects acts)) as Hin.
  { intros n id reply Hg%got_effect; [|by eapply orderly_in_order].
    apply effect_listed, heard_reply in Hg. done. }
  intros n id reply Hg%Hin Hok.
  destruct (spec_acknowledged _ _ _ _ _ _ _ Hs Hlog _ _ _ Hg Hok) as [Hlg Hsame].
  split; [done|]. intros m reply' Hg'%Hin. by apply Hsame.
Qed.

End live.
