(* ===== verification/Readback.v ===== *)
(** * Reading back what was acknowledged

    [Linearizable.v] says that an acknowledged mutation took effect. Here a client
    asks for what it wrote: the read RPC on the mutation's object shows what its
    acknowledgement said, in the process that carried it out and in every later
    one, until a later mutation takes effect at the same place. *)
From S2P Require Import Prelude.
From S2P Require Import Messages.
From S2P Require Import Engine.
From S2P Require Import Errors.
From S2P Require Import Map.
From S2P Require Import Worker.
From S2P Require Import Journal.
From S2P Require Import Session.
From S2P Require Import Mutation.
From S2P Require Import Rpc.
From S2P Require Import Accounts.
From S2P Require Import Transactions.
From S2P Require Import Query.
From S2P Require Import Commodities.
From S2P Require Import SessionService.
From S2P Require Import WasApplied.
From S2P Require Import Protocol.
From S2P Require Import Contract.
From S2P Require Import Requests.
From S2P Require Import Lifecycle.
From S2P Require Import Concurrent.
From S2P Require Import Linearizable.
Local Open Scope prog_scope.

Section readback.
Context `{SessionEnv} `{!GncStore} `{!GncStoreOk} `{!GncSessionStoreOk} `{!GncValuesOk}.
Context `{Versions} `{SqliteEnvOk} `{GrpcEnv} `{ProtoOk Outcome}.
Context `{ProtoOk Account} `{ProtoOk ReconcileInfo} `{ProtoOk Transaction}
  `{ProtoOk Price} `{ProtoOk Empty}.
Context `{ProtoOk CreateAccountRequest} `{ProtoOk UpdateAccountRequest}
  `{ProtoOk DeleteAccountRequest} `{ProtoOk SetReconcileInfoRequest}
  `{ProtoOk PostTransactionRequest} `{ProtoOk UpdateTransactionRequest}
  `{ProtoOk DeleteTransactionRequest} `{ProtoOk AddPriceRequest}.
Implicit Types (s : Session) (b : Book) (w : World Session) (r : Request).

(** ** What a mutation leaves to be seen *)
Definition shown r : call_Resp (call_of r) -> Book -> Prop :=
  match r return call_Resp (call_of r) -> Book -> Prop with
  | RCreateAccount _ | RUpdateAccount _ => fun out b => exists g,
      Account_guid out = GuidToString g /\ see_account b g = Some out
  | RDeleteAccount r => fun _ b => exists g,
      string_to_guid (c_str (DeleteAccountRequest_guid r)) = Some g /\ see_account b g = None
  | RSetReconcileInfo _ => fun out b => exists g,
      ReconcileInfo_account_guid out = GuidToString g /\
      ReconcileInfo_last_date <$> see_reconcile b g = Some (ReconcileInfo_last_date out)
  | RPostTransaction _ | RUpdateTransaction _ => fun out b => exists g,
      Transaction_guid out = GuidToString g /\ see_transaction b g = Some out
  | RDeleteTransaction r => fun _ b => exists g,
      string_to_guid (c_str (DeleteTransactionRequest_guid r)) = Some g /\
      see_transaction b g = None
  | RAddPrice _ => fun _ _ => True
  end.

#[export] Instance shown_proper r out : Proper (same_book ==> iff) (shown r out).
Proof.
  intros b b' [Ha Hl Ht _].
  destruct r; cbn [shown]; try done;
    repeat first [setoid_rewrite Ha|setoid_rewrite Hl|setoid_rewrite Ht]; done.
Qed.

(** The places a mutation changes, and the one where its answer is seen; of a
    price, only that it is there. *)
Definition at_text (places : GncGUID -> list Place) (text : string) : list Place :=
  match string_to_guid (c_str text) with Some g => places g | None => [] end.

Definition touches r : call_Resp (call_of r) -> list Place :=
  match r return call_Resp (call_of r) -> list Place with
  | RCreateAccount _ => fun out =>
      at_text (fun g => [AtAccount g; AtDate g]) (Account_guid out)
  | RUpdateAccount _ => fun out => at_text (fun g => [AtAccount g]) (Account_guid out)
  | RDeleteAccount r => fun _ =>
      at_text (fun g => [AtAccount g; AtDate g]) (DeleteAccountRequest_guid r)
  | RSetReconcileInfo _ => fun out =>
      at_text (fun g => [AtDate g]) (ReconcileInfo_account_guid out)
  | RPostTransaction _ | RUpdateTransaction _ => fun out =>
      at_text (fun g => [AtTransaction g]) (Transaction_guid out)
  | RDeleteTransaction r => fun _ =>
      at_text (fun g => [AtTransaction g]) (DeleteTransactionRequest_guid r)
  | RAddPrice _ => fun out => at_text (fun g => [AtPrice g]) (Price_guid out)
  end.

Definition seen_at r : call_Resp (call_of r) -> list Place :=
  match r return call_Resp (call_of r) -> list Place with
  | RCreateAccount _ | RUpdateAccount _ => fun out =>
      at_text (fun g => [AtAccount g]) (Account_guid out)
  | RDeleteAccount r => fun _ =>
      at_text (fun g => [AtAccount g]) (DeleteAccountRequest_guid r)
  | RSetReconcileInfo _ => fun out =>
      at_text (fun g => [AtDate g]) (ReconcileInfo_account_guid out)
  | RPostTransaction _ | RUpdateTransaction _ => fun out =>
      at_text (fun g => [AtTransaction g]) (Transaction_guid out)
  | RDeleteTransaction r => fun _ =>
      at_text (fun g => [AtTransaction g]) (DeleteTransactionRequest_guid r)
  | RAddPrice _ => fun _ => []
  end.

Lemma at_text_parsed places text g :
  string_to_guid (c_str text) = Some g -> at_text places text = places g.
Proof. unfold at_text. by intros ->. Qed.

(** What happens elsewhere does not disturb it. *)
Lemma shown_elsewhere r out places b b' :
  same_but places b' b -> (forall p, p ∈ seen_at r out -> p ∉ places) ->
  shown r out b -> shown r out b'.
Proof.
  intros [Ha Hl Ht _] Hout.
  destruct r; cbn [shown seen_at] in *; try done; intros (g & Hg & Hsee); exists g;
    (split; [exact Hg|]); try apply guid_text in Hg; rewrite (at_text_parsed _ _ _ Hg) in Hout;
    first [rewrite Ha|rewrite Hl|rewrite Ht]; try exact Hsee; apply Hout;
    by apply list_elem_of_singleton.
Qed.

Lemma call_shown r now s (out : call_Resp (call_of r)) so sc :
  settled s -> fits r s -> call_plan (call_of r) now s = Proceed out so sc ->
  clean (qof s) /\ clean (qof sc) /\ shown r out (qof sc) /\
  same_but (touches r out) (qof sc) (qof s).
Proof.
  intros Hset Hfit Hp. pose proof (proceeds_open _ _ _ _ _ _ Hp) as Hopen.
  assert (at_rest s) as Hs by (destruct Hset as (? & Hclean & _); split_and!; auto).
  destruct (Hfit Hopen) as [Hroom Hr]. split; [by apply at_rest_clean|].
  destruct r as [r|r|r|r|r|r|r|r]; cbn [call_plan call_of edit_call shown touches] in *.
  - apply CreateAccount_commits in Hp as (g & Hg & ? & _ & _ & ? & ?); [|done..].
    rewrite (at_text_parsed _ _ g) by by apply guid_text.
    split_and!; [by apply at_rest_clean|by exists g|done].
  - apply UpdateAccount_commits in Hp as (g & Hg & ? & _ & ? & ?); [|done..].
    rewrite (at_text_parsed _ _ g) by by apply guid_text.
    split_and!; [by apply at_rest_clean|by exists g|done].
  - apply DeleteAccount_commits in Hp as (g & Hg & ? & _ & _ & Hn & ?); [|done].
    rewrite (at_text_parsed _ _ g Hg). split_and!; [by apply at_rest_clean| |done].
    exists g. split; [done|]. unfold see_account. by rewrite Hn.
  - apply SetReconcileInfo_commits in Hp as (g & Hg & ? & _ & Hsee & ?); [|done].
    rewrite (at_text_parsed _ _ g) by by apply guid_text.
    split_and!; [by apply at_rest_clean| |done]. exists g. by rewrite Hsee.
  - apply PostTransaction_commits in Hp as (g & Hg & ? & _ & _ & ? & ?); [|done|done|by apply Hr].
    rewrite (at_text_parsed _ _ g) by by apply guid_text.
    split_and!; [by apply at_rest_clean|by exists g|done].
  - apply UpdateTransaction_commits in Hp as (g & Hg & ? & _ & ? & ?); [|done|by apply Hr].
    rewrite (at_text_parsed _ _ g) by by apply guid_text.
    split_and!; [by apply at_rest_clean|by exists g|done].
  - apply DeleteTransaction_commits in Hp as (g & Hg & ? & _ & _ & Hn & ?); [|done].
    rewrite (at_text_parsed _ _ g Hg). split_and!; [by apply at_rest_clean| |done].
    exists g. split; [done|]. unfold see_transaction. by rewrite Hn.
  - apply AddPrice_commits in Hp as (g & Hg & ? & _ & _ & _ & ?); [|done|done|by apply Hr].
    rewrite (at_text_parsed _ _ g) by by apply guid_text.
    split_and!; [by apply at_rest_clean|done|done].
Qed.

(** What took effect is seen in the stored book, and nothing else of it changed. *)
Lemma effect_shown (requests : string -> Request) id d (out : call_Resp (calls requests id)) d' :
  effect (calls requests) (request_fits requests) settled same_store id d out d' ->
  shown (requests id) out (book_load d') /\
  same_but (touches (requests id) out) (book_load d') (book_load d).
Proof.
  intros (now & e & eo & ec & He & Hfit & Hd & Hp & Hd').
  destruct (call_shown _ _ _ _ _ _ He Hfit Hp) as (Hc & Hcc & Hshown & Hbut).
  unfold same_store in *. cbn [disk session_durable] in *.
  destruct (clean_looks _ Hc) as [Hs _], (clean_looks _ Hcc) as [Hsc _].
  rewrite Hs in Hd. rewrite Hsc in Hd'. split; [by rewrite <- Hd'|].
  by rewrite <- Hd, <- Hd'.
Qed.

(** ** What stands *)
Section stands.
Context (requests : string -> Request).
Local Abbreviation service := (daemon_spec requests).

(** None of [later] took effect where the answer [out] to [id] is seen. *)
Definition undisturbed (answers : gmap string Outcome) (later : list string) id
    (out : call_Resp (calls requests id)) : Prop :=
  forall id' (out' : call_Resp (calls requests id')), id' ∈ later ->
    answers !! id' = Some (ok_outcome (call_rpc (calls requests id')) out') ->
    forall p, p ∈ seen_at (requests id) out -> p ∉ touches (requests id') out'.

(** Every effect has its answer on record, and shows until a later one is where
    it is seen. *)
Definition stands (s : Spec (D := Store)) : Prop :=
  forall later id earlier, log s = later ++ id :: earlier ->
    exists out : call_Resp (calls requests id),
      done s !! id = Some (ok_outcome (call_rpc (calls requests id)) out) /\
      (undisturbed (done s) later id out -> shown (requests id) out (book_load (spec_book s))).

Lemma undisturbed_before answers id0 o later id (out : call_Resp (calls requests id)) :
  answers !! id0 = None -> undisturbed (<[id0 := o]> answers) later id out ->
  undisturbed answers later id out.
Proof.
  intros Hn Hu id' out' Hin Ho. apply (Hu id' out' Hin).
  rewrite lookup_insert_ne; [done|congruence].
Qed.

Lemma stands_effect (s : Spec (D := Store)) id (out : call_Resp (calls requests id)) (b' : Store) :
  done s !! id = None ->
  effect (calls requests) (request_fits requests) settled same_store id (spec_book s) out b' ->
  stands s ->
  stands (MkSpec b' (<[id := ok_outcome (call_rpc (calls requests id)) out]> (done s))
            (id :: log s)).
Proof.
  intros Hn [Hshown Hbut]%effect_shown Hs [|id1 later] id2 earlier; cbn [log spec_book done].
  { intros [= <- <-]. exists out. by rewrite lookup_insert_eq. }
  intros [= <- Hlog]. destruct (Hs _ _ _ Hlog) as (out2 & Ho & Hsee).
  exists out2. split; [rewrite lookup_insert_ne; [done|congruence]|]. intros Hu.
  eapply shown_elsewhere; [exact Hbut| |apply Hsee].
  - apply (Hu id out); [apply list_elem_of_here|]. by rewrite lookup_insert_eq.
  - eapply undisturbed_before; [exact Hn|]. intros id' out' Hin.
    by apply (Hu id' out'), list_elem_of_further.
Qed.

Lemma service_stands (s s' : Spec) l : service s l s' -> stands s -> stands s'.
Proof.
  intros [| |s1 id e Hn _ _| | | |] Hs; try done; [by apply stands_effect| |by apply stands_effect].
  intros later id2 earlier Hlog. destruct (Hs _ _ _ Hlog) as (out & Ho & Hsee).
  exists out. split; [cbn; rewrite lookup_insert_ne; [done|congruence]|].
  intros Hu. apply Hsee. by eapply undisturbed_before.
Qed.

Lemma service_run_stands d ls (s : Spec) : lstar service (spec_init d) ls s -> stands s.
Proof.
  intros Hs. eapply (lstar_invariant _ stands); [intros s1 l s2; apply service_stands|exact Hs|].
  by intros [|? later] id earlier.
Qed.
End stands.

(** ** What a client asks, and what it is told *)

(** A price has no RPC that asks for it by its GUID. *)
Definition question r : call_Resp (call_of r) -> option Inquiry :=
  match r return call_Resp (call_of r) -> option Inquiry with
  | RCreateAccount _ | RUpdateAccount _ => fun out => Some (AskAccount (Account_guid out))
  | RDeleteAccount r => fun _ => Some (AskAccount (DeleteAccountRequest_guid r))
  | RSetReconcileInfo _ => fun out =>
      Some (AskReconcileInfo (ReconcileInfo_account_guid out))
  | RPostTransaction _ | RUpdateTransaction _ => fun out =>
      Some (AskTransaction (Transaction_guid out))
  | RDeleteTransaction r => fun _ => Some (AskTransaction (DeleteTransactionRequest_guid r))
  | RAddPrice _ => fun _ => None
  end.

(** Of an account's reconciliation the balance is computed from its splits; the
    date is what was set. *)
Definition agrees r : call_Resp (call_of r) -> Reply -> Prop :=
  match r return call_Resp (call_of r) -> Reply -> Prop with
  | RCreateAccount _ | RUpdateAccount _ => fun out reply =>
      reply = (Status_OK, Some (ShownAccount out))
  | RDeleteAccount _ => fun _ reply => exists e,
      reply = refused (ShimErr e) /\ code_ e = ERROR_CODE_ACCOUNT_NOT_FOUND
  | RSetReconcileInfo _ => fun out reply => exists info,
      reply = (Status_OK, Some (ShownReconcileInfo info)) /\
      ReconcileInfo_last_date info = ReconcileInfo_last_date out
  | RPostTransaction _ | RUpdateTransaction _ => fun out reply =>
      reply = (Status_OK, Some (ShownTransaction out))
  | RDeleteTransaction _ => fun _ reply => exists e,
      reply = refused (ShimErr e) /\ code_ e = ERROR_CODE_TXN_NOT_FOUND
  | RAddPrice _ => fun _ _ => True
  end.

(** A read on an open session. *)
Lemma read_by_guid {A} (find : Book -> ShimError + A) {B} (show : Book -> A -> B) s :
  session_ s <> None ->
  (book ;;; x <~ check find ;; ask (fun b => show b x)) s =
    (s, match find (qof s) with inl e => Throw (ShimErr e) | inr x => Ret (show (qof s) x) end).
Proof.
  intros Hs. assert (book s = (s, Ret tt)) as Hb.
  { unfold book, bind, gets, id. by destruct (session_ s). }
  rewrite (bind_ret_eq _ _ _ _ _ Hb). unfold bind, check, ask, gets.
  by destruct (find (qof s)).
Qed.

Lemma inquire_work (requests : string -> Request) i {A} (f : A -> Shown) fn w q x :
  (forall id, request_id (requests id) = id) ->
  work requests (Inquire i) = Some (a <~ on_session fn ;; ret (f a)) ->
  fn (engine w) = (engine w, x) -> Enqueue tt (queue w) = inr q ->
  inquire i w =
    (w, match x with
        | Ret a => Ret (Status_OK, Some (f a)) | Throw e => Ret (refused e)
        | Died => Died end).
Proof.
  intros Hkeyed Hw Hfn Hq. change (inquire i w) with (perform requests (Inquire i) w).
  rewrite (perform_halves _ Hkeyed _ _ _ Hw), Hq.
  unfold bind, on_session, zoom. rewrite Hfn, set_engine_id. by destruct x.
Qed.

Lemma FindAccount_parsed b text context g :
  string_to_guid (c_str text) = Some g ->
  FindAccount b text context =
    match xaccAccountLookup b g with
    | Some a => inr a
    | None => refuse ERROR_CODE_ACCOUNT_NOT_FOUND ("no account " +:+ text) context
    end.
Proof. unfold FindAccount, StringToGuid. by intros ->. Qed.

Lemma FindTransaction_parsed b text context g :
  string_to_guid (c_str text) = Some g ->
  FindTransaction b text context =
    match xaccTransLookup b g with
    | Some t => inr t
    | None => refuse ERROR_CODE_TXN_NOT_FOUND ("no transaction " +:+ text) context
    end.
Proof. unfold FindTransaction, StringToGuid. by intros ->. Qed.

(** The three reads, in the words of the contract. *)
Section reads.
Context (requests : string -> Request) (w : World Session) (text : string) (g : GncGUID).
Context (keyed : forall id, request_id (requests id) = id).
Context (Htext : string_to_guid (c_str text) = Some g).
Context (Hopen : session_ (engine w) <> None).
Context (q : EngineWorker unit) (Hq : Enqueue tt (queue w) = inr q).

Definition no_account : ShimError :=
  MkShimError ERROR_CODE_ACCOUNT_NOT_FOUND ("no account " +:+ text) "guid".
Definition no_transaction : ShimError :=
  MkShimError ERROR_CODE_TXN_NOT_FOUND ("no transaction " +:+ text) "guid".

Lemma ask_account :
  inquire (AskAccount text) w =
    (w, Ret match see_account (qof (engine w)) g with
            | Some out => (Status_OK, Some (ShownAccount out))
            | None => refused (ShimErr no_account)
            end).
Proof.
  rewrite (inquire_work requests (AskAccount text) ShownAccount _ _ _ _ keyed eq_refl
    (read_by_guid _ _ _ Hopen) Hq).
  rewrite (FindAccount_parsed _ _ _ _ Htext). unfold see_account.
  by destruct (xaccAccountLookup _ g).
Qed.

Lemma ask_reconcile :
  inquire (AskReconcileInfo text) w =
    (w, Ret match see_reconcile (qof (engine w)) g with
            | Some out => (Status_OK, Some (ShownReconcileInfo out))
            | None => refused (ShimErr no_account)
            end).
Proof.
  rewrite (inquire_work requests (AskReconcileInfo text) ShownReconcileInfo _ _ _ _ keyed
    eq_refl (read_by_guid _ _ _ Hopen) Hq).
  rewrite (FindAccount_parsed _ _ _ _ Htext). unfold see_reconcile.
  by destruct (xaccAccountLookup _ g).
Qed.

Lemma ask_transaction :
  inquire (AskTransaction text) w =
    (w, Ret match see_transaction (qof (engine w)) g with
            | Some out => (Status_OK, Some (ShownTransaction out))
            | None => refused (ShimErr no_transaction)
            end).
Proof.
  rewrite (inquire_work requests (AskTransaction text) ShownTransaction _ _ _ _ keyed
    eq_refl (read_by_guid _ _ _ Hopen) Hq).
  rewrite (FindTransaction_parsed _ _ _ _ Htext). unfold see_transaction.
  by destruct (xaccTransLookup _ g).
Qed.
End reads.

Lemma asked_shown (requests : string -> Request) r out w q i :
  (forall id, request_id (requests id) = id) ->
  shown r out (qof (engine w)) -> session_ (engine w) <> None ->
  Enqueue tt (queue w) = inr q -> question r out = Some i ->
  exists reply, inquire i w = (w, Ret reply) /\ agrees r out reply.
Proof.
  intros Hkeyed Hsh Hs Hq Hi.
  destruct r as [r|r|r|r|r|r|r|r]; cbn in Hsh, Hi; try done; injection Hi as <-;
    destruct Hsh as (g & Hg & Hsee); try apply guid_text in Hg.
  1,2,3: eexists; split; [by apply (ask_account requests w _ g Hkeyed Hg Hs q)|].
  4: eexists; split; [by apply (ask_reconcile requests w _ g Hkeyed Hg Hs q)|].
  5,6,7: eexists; split; [by apply (ask_transaction requests w _ g Hkeyed Hg Hs q)|].
  4: destruct (see_reconcile _ g) as [info|]; [|done]; injection Hsee; by exists info.
  all: rewrite Hsee; first [reflexivity|by eexists].
Qed.

(** ** Read your writes *)

(** C4: When no statement on the journal fails and every mutation that comes to its
    turn fits ([fits]: the engine takes the request as it is), whatever number of
    clients call, over any number of processes that start, die and are shut down:
    what a caller was told of an acknowledged mutation is what the read RPC on its
    object shows from then on, in the process that carried it out and in every
    later one, as long as none of the mutations that took effect after it changed
    what is read there - the account or the transaction itself, the reconciliation
    date that was set, or that there is no such object any more. (A price has no
    such RPC.) *)
Theorem read_your_writes (requests : string -> Request) d j acts x :
  (forall id, request_id (requests id) = id) ->
  first_site d j ->
  lstar (live_step requests (request_fits requests) sound_disk) (Down d j 0) acts (Up x) ->
  exists s : Spec, lstar (daemon_spec requests) (spec_init d) (concat (heard <$> effects acts)) s /\
    live_shows (Up x) s /\ log_exact s /\
    forall n id reply, Got n (Mutate id) reply ∈ acts -> status_code reply.1 = OK ->
      exists (out : call_Resp (calls requests id)) later earlier,
        reply.1 = Status_OK /\ shown_bytes reply.2 = Some (SerializeAsString out) /\
        log s = later ++ id :: earlier /\
        (undisturbed requests (done s) later id out ->
         forall i q q' now cp,
           question (requests id) out = Some i -> session_ (book_session x) <> None ->
           Enqueue tt q = inr q' ->
           exists reply', inquire i (world_of x q now cp) = (world_of x q now cp, Ret reply') /\
             agrees (requests id) out reply').
Proof.
  intros Hkeyed Hd Hrun.
  pose proof (live_run requests Hkeyed _ _ _ _ Hd Hrun) as [Horder _].
  destruct (live_run_site requests Hkeyed _ _ _ _ _ _ Hrun) as (a & Ha & Hl).
  destruct (site_run requests Hkeyed _ _ _ _ Hd Ha) as (s & Hs & HR & Hlog).
  exists s. split_and!; [exact Hs| |exact Hlog|].
  { eapply alike_shows; [done|by apply (follows_shows requests)]. }
  intros n id reply Hgot Hok.
  apply (got_effect requests Hkeyed n), effect_listed, heard_reply in Hgot;
    [|by apply (orderly_in_order requests acts (Up x))].
  destruct (spec_run_ok _ _ _ _ _ _ _ Hs) as [_ Hall].
  destruct (Hall _ _ _ Hgot Hok) as (o & Ho & Hoo & Hr).
  assert (id ∈ log s) as Hin by (apply Hlog; eauto).
  apply list_elem_of_split in Hin as (later & earlier & Hsplit).
  destruct (service_run_stands _ _ _ _ Hs _ _ _ Hsplit) as (out & Hdone & Hsee).
  rewrite Hdone in Ho. injection Ho as <-. rewrite ok_reply in Hr. injection Hr as Hst Hb.
  exists out, later, earlier. split_and!; [done..|].
  intros Hu i q q' now cp Hi Hopen Hq. destruct a as [w|]; [|done].
  destruct Hl as (He & _ & _). pose proof (rel_good _ _ _ _ _ HR) as (_ & Hclean & _).
  eapply (asked_shown requests); [done| |done|exact Hq|exact Hi].
  cbn [engine world_of]. rewrite He in *. specialize (Hclean Hopen).
  destruct (clean_looks _ Hclean) as [<- _].
  pose proof (rel_book _ _ _ _ _ HR) as Hbook. unfold same_store in Hbook.
  cbn [disk session_durable] in Hbook. rewrite He in Hbook. rewrite Hbook. by apply Hsee.
Qed.
End readback.
