(* ===== verification/SiteTypes.v ===== *)
(** * The journal's bytes over the life of a deployment

    [Typing.v] follows a journal through requests and reconciliations. Here it is
    followed through whole processes - failed and interrupted starts, shutdowns,
    deaths, many callers at once - from an empty file on. *)
From S2P Require Import Prelude.
From S2P Require Import Messages.
From S2P Require Import Engine.
From S2P Require Import Errors.
From S2P Require Import Map.
From S2P Require Import Worker.
From S2P Require Import Journal.
From S2P Require Import Session.
From S2P Require Import Mutation.
From S2P Require Import Rpc.
From S2P Require Import SessionService.
From S2P Require Import Recovery.
From S2P Require Import WasApplied.
From S2P Require Import Startup.
From S2P Require Import Protocol.
From S2P Require Import Contract.
From S2P Require Import Requests.
From S2P Require Import Typing.
From S2P Require Import Lifecycle.
From S2P Require Import Concurrent.
From S2P Require Import Linearizable.
Local Open Scope prog_scope.

Section types.
Context `{SessionEnv} `{!GncStore} `{!GncStoreOk} `{!GncSessionStoreOk} `{!GncValuesOk}.
Context `{Versions} `{SqliteEnvOk} `{GrpcEnv} `{ProtoOk Outcome}.
Context `{ProtoOk Account} `{ProtoOk ReconcileInfo} `{ProtoOk Transaction}
  `{ProtoOk Price} `{ProtoOk Empty}.
Context `{ProtoOk CreateAccountRequest} `{ProtoOk UpdateAccountRequest}
  `{ProtoOk DeleteAccountRequest} `{ProtoOk SetReconcileInfoRequest}
  `{ProtoOk PostTransactionRequest} `{ProtoOk UpdateTransactionRequest}
  `{ProtoOk DeleteTransactionRequest} `{ProtoOk AddPriceRequest}.
Context (requests : string -> Request).
Context (requests_keyed : forall id, request_id (requests id) = id).
Implicit Types (w : World Session) (j : Journal).

Local Abbreviation typed := (journal_typed (calls requests)).

(** Typed journals stay so. *)
Definition stays w w' : Prop := typed (journal w) -> typed (journal w').

#[export] Instance stays_preorder : PreOrder stays.
Proof. split; [by intros w ?|]. intros w1 w2 w3 Hone Htwo Hw. by apply Htwo, Hone. Qed.

Lemma typed_same_rows j j' : same_rows j j' -> typed j -> typed j'.
Proof.
  intros (Hi & Ha & Hf) [_ HI HA]. split; [done|by rewrite Hi|].
  intros id a. rewrite Ha, Hi. apply HA.
Qed.

Lemma on_session_stays {A} (p : Prog Session A) : preserves stays (on_session p).
Proof. intros w w' r (s & _ & ->)%on_session_inv Hw. exact Hw. Qed.

Lemma list_stays : preserves stays (in_journal ListIndeterminate).
Proof.
  intros w w' r Hrun Hw. destruct (list_quiet w (jt_faults _ _ Hw)) as [es Hl]. congruence.
Qed.

Lemma reconcile_stays : preserves stays (ReconcilePendingMutations verdict_of).
Proof. intros w w' r Hrun Hw. by eapply reconcile_typed. Qed.

Lemma engine_startup_stays : preserves stays engine_startup.
Proof.
  apply engine_startup_preserves;
    [typeclasses eauto|intros; apply on_session_stays|apply reconcile_stays|apply list_stays].
Qed.

(** What [prepare] makes of the rows it finds. *)
Lemma prepare_typed o m m' w j d :
  prepare o m = (m', Ret w) -> boots d j m -> sound_disk (conn m) -> typed j ->
  typed (journal w).
Proof.
  intros Hprep [_ Hrows] Hfaults Hj.
  apply prepare_ret in Hprep as (_ & _ & _ & _ & _ & _ & Hf & Hrow & _).
  rewrite Hrows in Hrow. injection Hrow as Hi Ha.
  eapply typed_same_rows; [|exact Hj]. split_and!; auto.
Qed.

Definition site_typed (x : site) : Prop :=
  match x with Serving w => typed (journal w) | Stopped _ j => typed j end.

Lemma leftover_typed o m d j :
  boots d j m -> sound_disk (conn m) -> typed j -> site_typed (leftover o m).
Proof.
  intros Hb Hdisk Hj. unfold leftover. destruct (prepare o m) as [m1 [w|e|]] eqn:Hprep.
  - pose proof (prepare_typed _ _ _ _ _ _ Hprep Hb Hdisk Hj) as Hw. cbn.
    destruct (engine_startup w) as [w1 r] eqn:Hes. by eapply engine_startup_stays.
  - apply prepare_keeps_rows in Hprep. destruct Hb as [_ Hrows]. cbn -[Journal.conn_rows].
    rewrite Hprep, Hrows. eapply typed_same_rows; [|exact Hj]. by split_and!.
  - apply prepare_keeps_rows in Hprep. destruct Hb as [_ Hrows]. cbn -[Journal.conn_rows].
    rewrite Hprep, Hrows. eapply typed_same_rows; [|exact Hj]. by split_and!.
Qed.

Lemma serve_stays id : preserves stays (serve (requests id)).
Proof.
  intros w w' r Hrun. rewrite <- (serve_submit requests) in Hrun by done.
  unfold stays. by eapply submit_typed.
Qed.

Lemma manage_journal a w w' r : manage a w = (w', Ret r) -> journal w' = journal w.
Proof.
  destruct a as [|fail_at]; intros (st & x & Hrun & _)%showing_inv;
    apply RunRpc_state in Hrun as [->|[r' Hrun]]; try done;
    by apply on_session_inv in Hrun as (s & _ & ->).
Qed.

(** Whatever the requests. *)
Lemma site_step_typed admits x e x' :
  site_step requests admits sound_disk x e x' -> site_typed x -> site_typed x'.
Proof.
  intros Hstep Hx.
  destruct Hstep as [d j o m m' w n Hu Hb Hdisk Hrun|d j o m m' r Hu Hb Hdisk Hrun Hno
    |d j o m m' w0 wa wb done_ todo w1 k Hu Hb Hdisk Hprep Hopen Hlist Hloop
    |w id q now cp w' st response Hfit Hrun|w i q now cp w' st Hrun
    |w a q now cp w' st Hrun|w id q now cp w' Hfit Hrun|w
    |w fail_at q now cp w' exit_code Hrun]; cbn [site_typed leaves] in *.
  - unfold startup in Hrun. apply bind_inv_ret in Hrun as (w0 & m1 & Hprep & Hrun).
    pose proof (prepare_typed _ _ _ _ _ _ Hprep Hb Hdisk Hx) as Hw.
    destruct (engine_startup w0) as [w1 [k|e|]] eqn:Hes; [|done..].
    apply bind_inv_ret in Hrun as (u & m2 & _ & [= _ <- _]). by eapply engine_startup_stays.
  - by eapply leftover_typed.
  - pose proof (prepare_typed _ _ _ _ _ _ Hprep Hb Hdisk Hx) as Hw.
    apply (on_session_stays _ _ _ _ Hopen) in Hw.
    destruct (listed_typed _ _ _ _ Hlist Hw) as [-> Hall].
    apply Forall_app in Hall as [Hall _]. by eapply reconcile_loop_typed.
  - by apply serve_stays in Hrun; apply Hrun.
  - apply inquire_keeps in Hrun as [_ ->]; [done|]. apply Hx.
  - by apply manage_journal in Hrun as ->.
  - by apply serve_stays in Hrun; apply Hrun.
  - done.
  - apply shutdown_state in Hrun as [-> _]. done.
Qed.

Lemma first_typed d j : first_site d j -> typed j.
Proof.
  intros (_ & Hi & Ha & Hf). split; [done|..]; intros id x; by rewrite ?Hi, ?Ha, lookup_empty.
Qed.

(** The journal of a deployment at any moment: in the daemon's hands or on disk. *)
Definition journal_of (l : live) : Journal :=
  match l with Up x => sidecar x | Down _ j _ => j end.

(** C11: The journal is well typed through every life of the daemon whose journal's
    statements succeed: from an empty file on, whatever processes start, fail, are
    interrupted, serve any number of callers at once, whatever they ask for, die or
    are shut down, each id's request, pending response and outcome are bytes of
    that id's RPC, each digest is that of its request, and each failure on record is
    a deterministic verdict. *)
Theorem deployment_journal_typed admits d j acts l :
  first_site d j -> lstar (live_step requests admits sound_disk) (Down d j 0) acts l ->
  typed (journal_of l).
Proof.
  intros Hd Hrun. destruct (live_run_site requests requests_keyed _ _ _ _ _ _ Hrun)
    as (x & Hx & Hl).
  assert (site_typed x) as Hty.
  { eapply (lstar_invariant _ site_typed); [intros ? ? ?; apply site_step_typed|exact Hx|].
    by eapply first_typed. }
  destruct l as [y|d' j' n], x as [w|d'' j'']; try done; cbn in *.
  - destruct Hl as (_ & <- & _). done.
  - by destruct Hl as [_ ->].
Qed.
End types.
