(* ===== verification/FailingDisk.v ===== *)
(** * Deployments on a failing disk, with any number of callers

    The deployment of [Linearizable.v] where journal statements may fail at any
    moment, in startups too, and a process may open any book. An acknowledgement
    is for good there as well. *)
From S2P Require Import Prelude.
From S2P Require Import Messages.
From S2P Require Import Engine.
From S2P Require Import Errors.
From S2P Require Import Map.
From S2P Require Import Worker.
From S2P Require Import Journal.
From S2P Require Import Session.
From S2P Require Import Mutation.
From S2P Require Import Rpc.
From S2P Require Import Accounts.
From S2P Require Import Transactions.
From S2P Require Import Query.
From S2P Require Import Commodities.
From S2P Require Import SessionService.
From S2P Require Import Recovery.
From S2P Require Import WasApplied.
From S2P Require Import Startup.
From S2P Require Import Protocol.
From S2P Require Import Acknowledged.
From S2P Require Import Contract.
From S2P Require Import Requests.
From S2P Require Import Lifecycle.
From S2P Require Import Concurrent.
From S2P Require Import Linearizable.
From S2P Require Import SiteTypes.
Local Open Scope prog_scope.

Section disk.
Context `{SessionEnv} `{!GncStore} `{!GncStoreOk} `{!GncSessionStoreOk} `{!GncValuesOk}.
Context `{Versions} `{SqliteEnvOk} `{GrpcEnv} `{ProtoOk Outcome}.
Context `{ProtoOk Account} `{ProtoOk ReconcileInfo} `{ProtoOk Transaction}
  `{ProtoOk Price} `{ProtoOk Empty}.
Context `{ProtoOk CreateAccountRequest} `{ProtoOk UpdateAccountRequest}
  `{ProtoOk DeleteAccountRequest} `{ProtoOk SetReconcileInfoRequest}
  `{ProtoOk PostTransactionRequest} `{ProtoOk UpdateTransactionRequest}
  `{ProtoOk DeleteTransactionRequest} `{ProtoOk AddPriceRequest}.
Context (requests : string -> Request).
Context (requests_keyed : forall id, request_id (requests id) = id).
Implicit Types (w : World Session) (x y : Server) (j : Journal) (fs : list (option SqlFault)).

Definition set_sidecar j x : Server :=
  MkServer (threads x) (book_session x) j (callers x) (calls_made x).

(** What [leftover] says is on disk, with callers' tickets. *)
Definition down_with (calls : nat) (a : site) : live :=
  match a with Serving w => Down (disk (engine w)) (journal w) calls | Stopped d j => Down d j calls end.

(** The machine finds the journal's file; its book is any book, and statements
    on the journal fail as they may. *)
Definition finds j (m : Machine) : Prop :=
  Journal.conn_rows (conn m) = (intents j, applied j).

Inductive rough_live : live -> action -> live -> Prop :=
| rough_disk x fs : rough_live (Up x) Silent (Up (set_sidecar (set_faults fs (sidecar x)) x))
| rough_serve x a y : server_step requests x a y -> rough_live (Up x) a (Up y)
| rough_die x w :
    server_dies requests x w ->
    rough_live (Up x) (Outside Died_) (Down (disk (engine w)) (journal w) (calls_made x))
| rough_kill x :
    rough_live (Up x) (Outside Died_)
      (Down (disk (book_session x)) (sidecar x) (calls_made x))
| rough_exit x fail_at now cp w exit_code :
    shutdown fail_at (world_of x (found_now x) now cp) = (w, Ret exit_code) ->
    rough_live (Up x) (Outside (Exited exit_code))
      (Down (disk (engine w)) (journal w) (calls_made x))
| rough_start d j calls o m m' w n :
    finds j m -> startup o m = (m', Ret (w, n)) ->
    rough_live (Down d j calls) (Outside (Started n)) (Up (serving w calls))
| rough_fail d j calls o m m' r :
    finds j m -> startup o m = (m', r) -> (forall a, r <> Ret a) ->
    rough_live (Down d j calls) (Outside NotStarted) (down_with calls (leftover o m))
| rough_cut d j calls o m m' w0 wa wb done_ todo w1 r :
    finds j m -> prepare o m = (m', Ret w0) ->
    on_session Open w0 = (wa, Ret tt) ->
    in_journal ListPendingUnresolved wa = (wb, Ret (done_ ++ todo)) ->
    reconcile_loop verdict_of done_ 0 wb = (w1, r) ->
    rough_live (Down d j calls) (Outside NotStarted) (down_with calls (leaves w1)).

Lemma rough_serves x acts y :
  lstar (server_step requests) x acts y -> lstar rough_live (Up x) acts (Up y).
Proof. induction 1; [constructor|]. eapply lstar_cons; [by apply rough_serve|done]. Qed.

(** *** Answers in the journal stay *)
Lemma grows_answers w w' : grows w w' -> keeps_answers (journal w) (journal w').
Proof. apply le_applied. Qed.

Lemma on_session_grows {A} (p : Prog Session A) : preserves grows (on_session p).
Proof. intros w w' r (s & _ & ->)%on_session_inv. unfold grows. cbn. reflexivity. Qed.

Lemma engine_startup_grows : preserves grows engine_startup.
Proof.
  apply engine_startup_preserves;
    [typeclasses eauto|intros; apply on_session_grows|apply reconcile_grows|].
  apply in_journal_grows, query_preserves; typeclasses eauto.
Qed.

Lemma prepare_answers o m m' w j :
  prepare o m = (m', Ret w) -> finds j m -> applied (journal w) = applied j.
Proof.
  intros Hprep Hj. apply prepare_ret in Hprep as (_ & _ & _ & _ & _ & _ & _ & Hrow & _).
  unfold finds in Hj. rewrite Hj in Hrow. by injection Hrow.
Qed.

Lemma leftover_answers o m j calls :
  finds j m -> exists d' j',
    down_with calls (leftover o m) = Down d' j' calls /\ keeps_answers j j'.
Proof.
  intros Hj. unfold leftover. destruct (prepare o m) as [m1 [w|e|]] eqn:Hprep.
  - eexists _, _. split; [reflexivity|].
    unfold keeps_answers. rewrite <- (prepare_answers _ _ _ _ _ Hprep Hj).
    destruct (engine_startup w) as [w1 r] eqn:Hes.
    by apply engine_startup_grows in Hes; apply grows_answers in Hes.
  - apply prepare_keeps_rows in Hprep. unfold finds in Hj. rewrite Hprep, Hj.
    eexists _, _. split; [reflexivity|]. unfold keeps_answers. cbn. reflexivity.
  - apply prepare_keeps_rows in Hprep. unfold finds in Hj. rewrite Hprep, Hj.
    eexists _, _. split; [reflexivity|]. unfold keeps_answers. cbn. reflexivity.
Qed.

Lemma work_grows c m : work requests c = Some m -> preserves grows m.
Proof.
  assert (forall A (f : A -> Shown) (fn : Prog Session A),
    preserves grows (a <~ on_session fn ;; ret (f a))) as Hover.
  { intros A f fn. preserving. apply on_session_grows. }
  destruct c as [id|[]|[]]; cbn [work]; intros [= <-]; try apply Hover; preserving.
  - intros w w' r. exact (mutation_body_grows _ _ _ _ _ _ _ _ _ (call_conforms (call_of (requests id)))).
  - apply in_journal_grows, query_preserves; typeclasses eauto.
Qed.

Lemma server_step_answers x a y :
  server_step requests x a y -> keeps_answers (sidecar x) (sidecar y).
Proof.
  intros Hstep.
  destruct Hstep as [x c|x n c m w Hn Hm He|x n c m e Hn Hm He
    |x n c now cp w' reply Hn Hm Hp|x t Ht He|x Hl
    |x n c found m now cp w' r reply Hl Hn Hm Hw Ha|x n c reply Hn]; try reflexivity.
  apply work_grows in Hm. by apply Hm in Hw; apply grows_answers in Hw.
Qed.

Lemma server_dies_answers x w :
  server_dies requests x w -> keeps_answers (sidecar x) (journal w).
Proof.
  intros [y n c found m now cp v Hl Hn Hm Hw].
  apply work_grows in Hm. by apply Hm in Hw; apply grows_answers in Hw.
Qed.

Lemma rough_live_answers l a l' :
  rough_live l a l' -> keeps_answers (journal_of l) (journal_of l').
Proof.
  intros [x fs|x b y Hs|x w Hd|x|x fail_at now cp w code Hs|d j calls o m m' w n Hj Hrun
    |d j calls o m m' r Hj Hrun _|d j calls o m m' w0 wa wb done_ todo w1 r Hj Hp Ho Hl Hr];
    cbn [journal_of down_with leaves].
  - unfold keeps_answers. cbn. reflexivity.
  - by eapply server_step_answers.
  - by apply server_dies_answers.
  - reflexivity.
  - apply shutdown_state in Hs as [-> _]. reflexivity.
  - apply startup_locked in Hrun as (_ & _ & _ & _ & _ & _ & _ & _ & Ha & _).
    unfold finds in Hj. rewrite Hj in Ha. cbn in Ha.
    by apply map_subseteq_spec.
  - destruct (leftover_answers o m j calls Hj) as (d' & j' & -> & Hk). exact Hk.
  - unfold keeps_answers. rewrite <- (prepare_answers _ _ _ _ _ Hp Hj).
    change (keeps_answers (journal w0) (journal w1)).
    apply grows_answers. apply on_session_grows in Ho.
    etrans; [exact Ho|]. etrans; [|by eapply reconcile_loop_grows].
    revert Hl. apply in_journal_grows, query_preserves; typeclasses eauto.
Qed.

(** *** Acknowledgements *)

(** The id has a success on record, and [reply] is what it is answered with. *)
Definition on_record (id : string) (reply : Reply) j : Prop :=
  exists out : call_Resp (calls requests id),
    replay_spec (call_rpc (calls requests id)) id j = Some (Ret out) /\
    reply = (Status_OK, Some (ShownBytes (SerializeAsString out))).

Lemma on_record_kept id reply j j' :
  keeps_answers j j' -> on_record id reply j -> on_record id reply j'.
Proof. intros Hk (out & Hx & ->). exists out. split; [by eapply replay_keeps|done]. Qed.

Lemma on_record_same id r r' j : on_record id r j -> on_record id r' j -> r = r'.
Proof. intros (out & Hx & ->) (out' & Hx' & ->). rewrite Hx in Hx'. by injection Hx' as ->. Qed.

Lemma work_records id m x found now cp w' r reply :
  work requests (Mutate id) = Some m -> m (world_of x found now cp) = (w', r) ->
  answer r = Some reply -> status_code reply.1 = OK -> on_record id reply (journal w').
Proof.
  cbn [work]. intros [= <-] Hrun Ha Hok. destruct r as [shown|e|]; [| |done].
  - apply bind_inv_ret in Hrun as (out & w1 & Hbody & [= <- <-]).
    injection Ha as <-. exists out. split; [|done].
    by eapply (body_records (Resp := call_Resp (calls requests id))).
  - injection Ha as <-. cbn in Hok. by apply StatusFromException_code in Hok.
Qed.

(** A mutation answered with OK is on record. *)
Lemma effect_recorded x n id reply y :
  server_step requests x (Effect n (Mutate id) reply) y -> status_code reply.1 = OK ->
  on_record id reply (sidecar y).
Proof.
  intros Hstep Hok. remember (Effect n (Mutate id) reply) as a eqn:Ea.
  destruct Hstep as [x c|x k c m w Hn Hm He|x k c m e Hn Hm He
    |x k c now cp w' reply' Hn Hm Hp|x t Ht He|x Hl
    |x k c found m now cp w' r reply' Hl Hn Hm Hw Ha|x k c reply' Hn]; try done;
    injection Ea as -> -> <-.
  - by apply StatusFromException_code in Hok.
  - done.
  - cbn [sidecar]. by eapply work_records.
Qed.

(** And one that is on record is not carried out. *)
Lemma recorded_stands x n id reply reply' y :
  on_record id reply (sidecar x) ->
  server_step requests x (Effect n (Mutate id) reply') y ->
  book_session y = book_session x /\ (reply' = reply \/ exists e, reply' = refused e).
Proof.
  intros (out & Hx & ->) Hstep. remember (Effect n (Mutate id) reply') as a eqn:Ea.
  destruct Hstep as [x c|x k c m w Hn Hm He|x k c m e Hn Hm He
    |x k c now cp w' reply0 Hn Hm Hp|x t Ht He|x Hl
    |x k c found m now cp w' r reply0 Hl Hn Hm Hw Ha|x k c reply0 Hn]; try done;
    injection Ea as -> -> <-; [by split; [|right; exists e]|done|].
  cbn [work] in Hm. injection Hm as <-. cbn [book_session].
  unfold bind in Hw.
  destruct (mutation_body _ _ _ _ _ (world_of x found now cp)) as [w1 r1] eqn:Hb.
  apply (body_answers _ _ _ _ _ _ _ _ (Ret out)) in Hb as [[He _] Hr]; [|exact Hx].
  destruct r1 as [o|e|]; injection Hw as <- <-; [| |done]; injection Ha as <-;
    (split; [exact He|]).
  - destruct Hr as [[= ->]|Hno]; [by left|by destruct (Hno o)].
  - right. by exists e.
Qed.

Lemma run_recorded l acts l' n id reply :
  lstar rough_live l acts l' -> Effect n (Mutate id) reply ∈ acts ->
  status_code reply.1 = OK -> on_record id reply (journal_of l').
Proof.
  intros Hrun. induction Hrun as [v|v a v1 acts v' Hstep Hrun IH]; intros Hin Hok.
  { by apply not_elem_of_nil in Hin. }
  apply elem_of_cons in Hin as [<-|Hin]; [|by apply IH].
  apply (on_record_kept _ _ (journal_of v1)).
  { eapply (lstar_invariant _ (fun l => keeps_answers (journal_of v1) (journal_of l)));
      [|exact Hrun|reflexivity].
    intros s k t Hst Hs. etrans; [exact Hs|by eapply rough_live_answers]. }
  inversion Hstep; subst; by eapply effect_recorded.
Qed.

(** *** Calls stay in order *)
Lemma rough_live_orderly hist l a l' :
  rough_live l a l' -> orderly requests hist l -> orderly requests (hist ++ [a]) l'.
Proof.
  intros [x fs|x b y Hs|x w Hd|x|x fail_at now cp w code Hs|d j calls o m m' w n Hj Hrun
    |d j calls o m m' r Hj Hrun _|d j calls o m m' w0 wa wb done_ todo w1 r Hj Hp Ho Hl Hr]
    Hlive.
  - destruct Hlive as [(depth & Hd & Hi) Hx]. split.
    + exists depth. split; [done|]. by destruct Hi.
    + by apply accounted_quiet; [|intros ? ?].
  - by eapply served_orderly.
  - destruct Hlive. cbn [orderly]. by apply (orderly_down requests).
  - destruct Hlive. cbn [orderly]. by apply (orderly_down requests).
  - destruct Hlive. cbn [orderly]. by apply (orderly_down requests).
  - by eapply started_orderly.
  - destruct (leftover_answers o m j calls Hj) as (d' & j' & -> & _).
    by eapply still_down_orderly.
  - by eapply still_down_orderly.
Qed.

Lemma rough_run_orderly hist l acts l' :
  lstar rough_live l acts l' -> orderly requests hist l -> orderly requests (hist ++ acts) l'.
Proof.
  intros Hrun. revert hist. induction Hrun as [l|l a l1 acts l' Hs _ IH]; intros hist Hl.
  - by rewrite app_nil_r.
  - rewrite cons_middle, app_assoc. apply IH. by eapply rough_live_orderly.
Qed.

(** C3: An acknowledgement is for good, in a deployment with any number of callers,
    whose journal statements fail whenever they may - in requests, in startups,
    in reconciliations -, whose processes die anywhere, and whose next ones open
    whatever book: once a caller was told OK, every caller told OK for that
    mutation was told the same bytes; and when a mutation that was acknowledged
    comes to its turn again, it is not carried out: the book session is left alone
    and the caller gets that same reply or an error. *)
Theorem deployment_acknowledged_for_good d j acts l n id reply :
  lstar rough_live (Down d j 0) acts l ->
  Got n (Mutate id) reply ∈ acts -> status_code reply.1 = OK ->
  (forall m reply', Got m (Mutate id) reply' ∈ acts -> status_code reply'.1 = OK ->
     reply' = reply) /\
  (forall x m reply' y, l = Up x -> server_step requests x (Effect m (Mutate id) reply') y ->
     book_session y = book_session x /\ (reply' = reply \/ exists e, reply' = refused e)).
Proof.
  intros Hrun Hgot Hok.
  assert (forall k r, Got k (Mutate id) r ∈ acts -> status_code r.1 = OK ->
    on_record id r (journal_of l)) as Hrec.
  { intros k r Hin Hr. eapply run_recorded; [exact Hrun| |exact Hr].
    apply (got_effect requests requests_keyed k); [|exact Hin]. apply (orderly_in_order requests acts l).
    apply (rough_run_orderly [] _ _ _ Hrun), first_orderly. }
  pose proof (Hrec _ _ Hgot Hok) as Hack. split.
  - intros m reply' Hin Hr. eapply on_record_same; [by eapply Hrec|exact Hack].
  - intros x m reply' y -> Hstep. by eapply recorded_stands.
Qed.
End disk.
