(* ===== verification/Signals.v ===== *)
(** * Signals and the orderly shutdown: [Run] of [main.cpp], thread by thread

    [Startup.v] runs the end of [main] as one function. Here it is the main
    thread, the signal thread and the engine thread, with the callers of
    [Concurrent.v] in front of them: SIGTERM and SIGINT are blocked before any
    thread exists, the signal thread takes one and shuts the gRPC server down,
    the main thread waits for the server, queues the final close, drains the
    worker, unlinks the socket, wakes the signal thread and joins it. *)
From S2P Require Import Prelude.
From S2P Require Import Messages.
From S2P Require Import Engine.
From S2P Require Import Errors.
From S2P Require Import Map.
From S2P Require Import Worker.
From S2P Require Import Journal.
From S2P Require Import Session.
From S2P Require Import Mutation.
From S2P Require Import Rpc.
From S2P Require Import SessionService.
From S2P Require Import Recovery.
From S2P Require Import WasApplied.
From S2P Require Import Startup.
From S2P Require Import Protocol.
From S2P Require Import Contract.
From S2P Require Import Requests.
From S2P Require Import Lifecycle.
From S2P Require Import Concurrent.
Local Open Scope prog_scope.

(** ** Signals of a process *)
Definition sigset : Type := gset nat.
Definition SIGINT : nat := 2.
Definition SIGTERM : nat := 15.

(** The set [Run] blocks and waits for. *)
Definition signals : sigset := {[ SIGINT ]} ∪ ({[ SIGTERM ]} ∪ ∅).

(** The signals that ask the daemon to stop. *)
Definition stop_signal (s : nat) : Prop := s = SIGTERM \/ s = SIGINT.

(** What the kernel keeps: the mask of each thread, the main thread's first,
    and the signals that are pending for the process. *)
Record Kernel := MkKernel { masks : list sigset; pending : sigset }.

(** [pthread_sigmask(SIG_BLOCK, &set, nullptr)] in thread [i]. *)
Definition block (i : nat) (set : sigset) (k : Kernel) : Kernel :=
  MkKernel (alter (union set) i (masks k)) (pending k).

(** Thread [i] makes a thread, which inherits its mask. *)
Definition spawn (i : nat) (k : Kernel) : Kernel :=
  MkKernel (masks k ++ option_list (masks k !! i)) (pending k).

(** A signal for the process: pending while every thread blocks it, and taken
    at once by a thread that does not - [None], the default action, which for
    SIGTERM and SIGINT ends the process. *)
Definition kill (s : nat) (k : Kernel) : option Kernel :=
  if forallb (fun m : sigset => bool_decide (s ∈ m)) (masks k)
  then Some (MkKernel (masks k) ({[ s ]} ∪ pending k))
  else None.

(** [sigwait] takes [s]. *)
Definition take_signal (s : nat) (k : Kernel) : Kernel :=
  MkKernel (masks k) (pending k ∖ {[ s ]}).

(** Every thread blocks them, and nothing else is pending. *)
Definition masked_everywhere (k : Kernel) : Prop :=
  Forall (fun m : sigset => signals ⊆ m) (masks k) /\ pending k ⊆ signals.

Lemma stop_signals s : stop_signal s -> s ∈ signals.
Proof. intros [->| ->]; unfold signals; set_solver. Qed.

Lemma kill_masked s k :
  masked_everywhere k -> stop_signal s ->
  kill s k = Some (MkKernel (masks k) ({[ s ]} ∪ pending k)).
Proof.
  intros [Hm _] Hs%stop_signals. unfold kill. enough (forallb _ (masks k) = true) as -> by done.
  apply forallb_forall. intros m Hin%list_elem_of_In. apply bool_decide_eq_true.
  rewrite Forall_forall in Hm. by apply (Hm _ Hin).
Qed.

Lemma kill_keeps s k k' :
  kill s k = Some k' -> stop_signal s -> masked_everywhere k -> masked_everywhere k'.
Proof.
  intros Hk Hs Hm. rewrite (kill_masked _ _ Hm Hs) in Hk. injection Hk as <-.
  apply stop_signals in Hs.
  destruct Hm as [? Hp]. split; cbn; [done|set_solver].
Qed.

Lemma spawn_keeps i k : masked_everywhere k -> masked_everywhere (spawn i k).
Proof.
  intros [Hm Hp]. split; [|done]. cbn. apply Forall_app. split; [done|].
  destruct (masks k !! i) as [m|] eqn:Hi; cbn; [|done].
  constructor; [by eapply Forall_lookup_1|done].
Qed.

Lemma take_keeps s k : masked_everywhere k -> masked_everywhere (take_signal s k).
Proof. intros [Hm Hp]. split; cbn; [done|set_solver]. Qed.

Lemma block_masks mask : masked_everywhere (block 0 signals (MkKernel [mask] ∅)).
Proof. split; cbn; [|set_solver]. constructor; [set_solver|done]. Qed.

(** ** The threads of [Run] *)

(** The main thread, by what it does next: make the signal thread;
    [server->Wait()]; queue the final close; [future.get()] of it, with the queue
    as it was found; [worker.Drain()]; its [join]; [unlink]; [kill]; the join of
    the signal thread. *)
Inductive main_pc :=
| Listening
| InWait
| Closing
| CloseWaits (found : EngineWorker unit)
| Closed (exit_code : Z)
| Draining (exit_code : Z)
| Drained (exit_code : Z)
| Unlinked (exit_code : Z)
| Joining (exit_code : Z).

(** The signal thread: not made yet; in [sigwait]; about to call
    [server->Shutdown()]; inside it; returned. *)
Inductive signal_pc := NotMade | AtSigwait | Woken | InShutdown | Done.

Section process.
Context `{SessionEnv} `{Versions} `{SqliteEnvOk} `{GrpcEnv} `{ProtoOk Outcome}.
Context `{ProtoOk Account} `{ProtoOk ReconcileInfo} `{ProtoOk Transaction}
  `{ProtoOk Price} `{ProtoOk Empty}.
Context `{ProtoOk CreateAccountRequest} `{ProtoOk UpdateAccountRequest}
  `{ProtoOk DeleteAccountRequest} `{ProtoOk SetReconcileInfoRequest}
  `{ProtoOk PostTransactionRequest} `{ProtoOk UpdateTransactionRequest}
  `{ProtoOk DeleteTransactionRequest} `{ProtoOk AddPriceRequest}.
Context (requests : string -> Request).

(** The options, what the process finds, and its fail point. *)
Context (o : Options) (m0 : Machine) (fail_at : option string).

(** [shut] says that [server->Shutdown()] has been called: gRPC takes no more
    calls, and [Wait] returns once the handlers have. *)
Record Daemon := MkDaemon {
  server : Server;
  machine : Machine;
  main_at : main_pc;
  signal_at : signal_pc;
  shut : bool;
  kernel : Kernel;
}.
Implicit Types (x y : Server) (p q : Daemon).

Definition set_server x p : Daemon :=
  MkDaemon x (machine p) (main_at p) (signal_at p) (shut p) (kernel p).
Definition set_machine m p : Daemon :=
  MkDaemon (server p) m (main_at p) (signal_at p) (shut p) (kernel p).
Definition set_main pc p : Daemon :=
  MkDaemon (server p) (machine p) pc (signal_at p) (shut p) (kernel p).
Definition set_signal pc p : Daemon :=
  MkDaemon (server p) (machine p) (main_at p) pc (shut p) (kernel p).
Definition set_kernel k p : Daemon :=
  MkDaemon (server p) (machine p) (main_at p) (signal_at p) (shut p) k.
Definition shut_down p : Daemon :=
  MkDaemon (server p) (machine p) (main_at p) (signal_at p) true (kernel p).

(** A process: in startup, its signals masked or not yet; with its server up;
    ended without having served; ended by [return exit_code], with the world
    the destructors leave; ended by a signal's default action. *)
Inductive process :=
| Booting (masked : bool) (k : Kernel)
| Alive (p : Daemon)
| Unserved (m : Machine)
| Finished (exit_code : Z) (m : Machine) (w : World Session)
| Terminated (s : nat).

Definition begin (mask : sigset) : process := Booting false (MkKernel [mask] ∅).

(** The closure of the final close, and its place in the queue. *)
Definition final_close : Prog (World Session) unit := on_session (Close fail_at).
Definition close_task x : Task := (calls_made x, Manage (ManageClose fail_at)).

(** What the process does by itself. *)
Inductive own : process -> process -> Prop :=
| own_mask k : own (Booting false k) (Booting true (block 0 signals k))
| own_start k m w n :
    startup o m0 = (m, Ret (w, n)) ->
    own (Booting true k)
      (Alive (MkDaemon (serving w 0) m Listening NotMade false (spawn 0 k)))
| own_unserved k m r :
    startup o m0 = (m, r) -> (forall a, r <> Ret a) ->
    own (Booting true k) (Unserved m)
| own_signal_thread p :
    main_at p = Listening ->
    own (Alive p)
      (Alive (set_main InWait (set_signal AtSigwait (set_kernel (spawn 0 (kernel p)) p))))
| own_serve p x : own_step requests (server p) x -> own (Alive p) (Alive (set_server x p))
| own_sigwait p s :
    signal_at p = AtSigwait -> s ∈ signals -> s ∈ pending (kernel p) ->
    own (Alive p) (Alive (set_signal Woken (set_kernel (take_signal s (kernel p)) p)))
| own_shutdown p :
    signal_at p = Woken -> own (Alive p) (Alive (set_signal InShutdown (shut_down p)))
| own_shutdown_returns p :
    signal_at p = InShutdown -> callers (server p) = ∅ ->
    own (Alive p) (Alive (set_signal Done p))
| own_wait p :
    main_at p = InWait -> shut p = true -> callers (server p) = ∅ ->
    own (Alive p) (Alive (set_main Closing p))
| own_close p w :
    main_at p = Closing ->
    Enqueue (close_task (server p)) (worker (threads (server p))) = inr w ->
    own (Alive p)
      (Alive (set_main (CloseWaits (found_now (server p)))
         (set_server
            (set_threads (enqueued (close_task (server p)) w (threads (server p))) (server p))
            p)))
| own_close_refused p e :
    main_at p = Closing ->
    Enqueue (close_task (server p)) (worker (threads (server p))) = inl e ->
    own (Alive p) (Alive (set_main (Closed 1) p))
| own_close_runs p found now cp w r :
    main_at p = CloseWaits found ->
    loop (threads (server p)) = Running (close_task (server p)) ->
    final_close (world_of (server p) found now cp) = (w, r) -> r <> Died ->
    own (Alive p)
      (Alive (set_main (Closed (match r with Ret _ => 0 | _ => 1 end))
         (set_server
            (MkServer (ran (close_task (server p)) (threads (server p))) (engine w) (journal w)
               (callers (server p)) (calls_made (server p))) p)))
| own_drain p exit_code w :
    main_at p = Closed exit_code ->
    Drain_lock (negb (joined (threads (server p)))) (worker (threads (server p))) = Some w ->
    own (Alive p)
      (Alive (set_main (Draining exit_code)
         (set_server
            (set_threads
               (MkSys w (loop (threads (server p))) (S (notifies (threads (server p))))
                  (joined (threads (server p))) (accepted (threads (server p)))
                  (executed (threads (server p)))) (server p)) p)))
| own_drain_returns p exit_code :
    main_at p = Closed exit_code ->
    Drain_lock (negb (joined (threads (server p)))) (worker (threads (server p))) = None ->
    own (Alive p) (Alive (set_main (Drained exit_code) p))
| own_drained p exit_code :
    main_at p = Draining exit_code -> joined (threads (server p)) = true ->
    own (Alive p) (Alive (set_main (Drained exit_code) p))
| own_unlink p exit_code :
    main_at p = Drained exit_code ->
    own (Alive p)
      (Alive (set_main (Unlinked exit_code)
         (set_machine (unlink_socket o (machine p)).1 p)))
| own_kill p exit_code :
    main_at p = Unlinked exit_code ->
    own (Alive p)
      match kill SIGTERM (kernel p) with
      | Some k => Alive (set_main (Joining exit_code) (set_kernel k p))
      | None => Terminated SIGTERM
      end
| own_return p exit_code now cp :
    main_at p = Joining exit_code -> signal_at p = Done ->
    own (Alive p)
      (Finished exit_code (machine p)
         (on_session (Session_destructor fail_at)
            (world_of (server p) (found_now (server p)) now cp)).1).

(** What happens to it: signals, threads of the gRPC runtime, calls, spurious
    wake-ups of the engine thread, a server shut down by something else. *)
Inductive outside : process -> process -> Prop :=
| outside_signal_booting b k s k' :
    stop_signal s -> kill s k = Some k' -> outside (Booting b k) (Booting b k')
| outside_ends_booting b k s :
    stop_signal s -> kill s k = None -> outside (Booting b k) (Terminated s)
| outside_signal p s k :
    stop_signal s -> kill s (kernel p) = Some k -> outside (Alive p) (Alive (set_kernel k p))
| outside_ends p s :
    stop_signal s -> kill s (kernel p) = None -> outside (Alive p) (Terminated s)
| outside_thread p i : outside (Alive p) (Alive (set_kernel (spawn i (kernel p)) p))
| outside_call p n c x :
    shut p = false -> server_step requests (server p) (Called n c) x ->
    outside (Alive p) (Alive (set_server x p))
| outside_spurious p x :
    server_step requests (server p) Spurious x -> outside (Alive p) (Alive (set_server x p))
| outside_shutdown p : outside (Alive p) (Alive (shut_down p)).

Definition any_step (a b : process) : Prop := own a b \/ outside a b.

(** ** Termination *)
Definition main_weight (pc : main_pc) : nat :=
  match pc with
  | Listening => 17 | InWait => 13 | Closing => 12 | CloseWaits _ => 6 | Closed _ => 6
  | Draining _ => 3 | Drained _ => 2 | Unlinked _ => 1 | Joining _ => 0
  end.
Definition signal_weight (pc : signal_pc) : nat :=
  match pc with NotMade | AtSigwait => 3 | Woken => 2 | InShutdown => 1 | Done => 0 end.

Definition to_do (a : process) : nat :=
  match a with
  | Booting masked _ => if masked then 24 else 25
  | Alive p => S (load (server p) + main_weight (main_at p) + signal_weight (signal_at p))
  | Unserved _ | Finished _ _ _ | Terminated _ => 0
  end.

Lemma own_decreases a b : own a b -> to_do b < to_do a.
Proof.
  destruct 1 as [k|k m w n Hs|k m r Hs Hr|p Hm|p x Hs|p s Hsg Hin Hp|p Hsg|p Hsg Hc|p Hm Hsh Hc
    |p w Hm He|p e Hm He|p found now cp w r Hm Hl Hw Hr|p code w Hm Hd|p code Hm Hd
    |p code Hm Hj|p code Hm|p code Hm|p code now cp Hm Hsg];
    cbn [to_do server main_at signal_at set_main set_signal set_kernel set_server
      set_machine shut_down]; try lia; try (rewrite ?Hm, ?Hsg; cbn; lia).
  - unfold load, weigh. cbn [callers serving]. rewrite map_to_list_empty. cbn. lia.
  - pose proof (own_step_decreases _ _ _ Hs). lia.
  - pose proof (enqueued_load _ _ _ He). rewrite Hm. unfold load.
    cbn [threads callers set_threads main_weight]. unfold Task in *. lia.
  - pose proof (ran_load _ _ Hl). rewrite Hm. unfold load.
    cbn [threads callers set_threads main_weight]. unfold Task in *. lia.
  - unfold Drain_lock in Hd. destruct (_ && _); [done|]. injection Hd as <-.
    rewrite Hm. unfold load, engine_load. cbn. lia.
  - destruct (kill _ _); cbn [to_do server main_at signal_at set_main set_kernel];
      rewrite ?Hm; cbn; lia.
Qed.

Lemma own_Acc a : Acc (fun b a => own a b) a.
Proof.
  apply (measured_Acc _ (fun _ => True) to_do); [|done]. intros x y Hs _.
  split; [done|by apply own_decreases].
Qed.

(** ** The invariant *)
(** A server without callers, whose worker has these tasks left. *)
Record quiet (depth : nat) (stopping : bool) (ts : list Task) y : Prop := {
  q_callers : callers y = ∅;
  q_inv : inv depth (threads y);
  q_stopping : stopping_ (worker (threads y)) = stopping;
  q_tasks : waiting_tasks y = ts;
}.

Definition same_state x y : Prop :=
  book_session y = book_session x /\ sidecar y = sidecar x /\ calls_made y = calls_made x.

(** Then only the engine thread and its wake-ups move. *)
Lemma quiet_step depth stopping ts x a y :
  server_step requests x a y -> (forall n c, a <> Called n c) -> quiet depth stopping ts x ->
  quiet depth stopping ts y /\ same_state x y.
Proof.
  intros Hstep Ha [Hc Hi Hst Ht].
  destruct Hstep as [x c|x n c m w Hn Hm He|x n c m e Hn Hm He
    |x n c now cp w' reply Hn Hm Hp|x t Hs He|x Hl
    |x n c found m now cp w' r reply Hl Hn Hm Hw Har|x n c reply Hn];
    try (by rewrite Hc, lookup_empty in Hn); [by destruct (Ha (calls_made x) c)|..].
  - pose proof (internal_tasks _ _ _ Hs He Hi) as Htasks.
    destruct (internal_keeps _ _ Hs) as [_ Hst'].
    split; [split; cbn; try done; [by eapply inv_internal|congruence|]|done].
    unfold waiting_tasks in *. cbn. congruence.
  - split; [split; cbn; try done|done].
    + eapply inv_external; [by apply step_spurious|done].
    + unfold waiting_tasks, in_hand in *. rewrite Hl in Ht. done.
Qed.

Lemma no_callers_quiet depth x :
  server_inv requests depth x -> callers x = ∅ -> quiet depth false [] x.
Proof.
  intros Hi Hc. split; [done|apply Hi|apply Hi|].
  destruct (waiting_tasks x) as [|[n c] ts] eqn:Ht; [done|].
  destruct (si_waited _ _ _ Hi n c) as (found & m & q & Hn & _); [rewrite Ht; by left|].
  by rewrite Hc, lookup_empty in Hn.
Qed.

(** How the final close went: the exit code, from the server [x] that
    [server->Wait()] left. *)
Definition closed x (exit_code : Z) y : Prop :=
  exists r, Close fail_at (book_session x) = (book_session y, r) /\ r <> Died /\
    sidecar y = sidecar x /\ exit_code = match r with Ret _ => 0%Z | _ => 1%Z end.

(** The main thread at [pc], its server [y] and what it holds, [mach]; [m] is
    what [startup] took and [x] the server while it serves. *)
Definition main_inv (depth : nat) (m : Machine) x (pc : main_pc) y (mach : Machine) : Prop :=
  match pc with
  | Listening | InWait => y = x /\ mach = m
  | Closing => y = x /\ mach = m /\ callers x = ∅
  | CloseWaits found =>
      mach = m /\ callers x = ∅ /\ found = found_now x /\ same_state x y /\
      quiet depth false [close_task y] y
  | Closed code => mach = m /\ callers x = ∅ /\ closed x code y /\ quiet depth false [] y
  | Draining code => mach = m /\ callers x = ∅ /\ closed x code y /\ quiet depth true [] y
  | Drained code => mach = m /\ callers x = ∅ /\ closed x code y /\ quiet depth true [] y
  | Unlinked code | Joining code =>
      mach = (unlink_socket o m).1 /\ callers x = ∅ /\ closed x code y /\ quiet depth true [] y
  end.

Definition served (m : Machine) w x : Prop :=
  exists n acts, startup o m0 = (m, Ret (w, n)) /\
    lstar (server_step requests) (serving w 0) acts x.

Lemma served_inv m w x :
  served m w x -> server_inv requests (max_depth_ (queue w)) x /\ 0 < max_depth_ (queue w).
Proof.
  intros (n & acts & Hs & Hrun). split; [by apply server_run_inv in Hrun|].
  apply startup_locked in Hs as (_ & _ & _ & _ & _ & _ & _ & _ & _ & _ & [q Hq] & _).
  pose proof (Enqueue_cases tt (queue w)) as HE. rewrite Hq in HE. lia.
Qed.

Lemma served_step m w x a y : served m w x -> server_step requests x a y -> served m w y.
Proof.
  intros (n & acts & Hs & Hrun) Hstep. exists n, (acts ++ [a]). split; [done|].
  eapply lstar_app; [exact Hrun|]. eapply lstar_cons; [done|constructor].
Qed.

Lemma closed_same x code y y' : closed x code y -> same_state y y' -> closed x code y'.
Proof. intros (r & ? & ? & ? & ?) (Hb & Hs & _). exists r. by rewrite Hb, Hs. Qed.

(** The server moves below the main thread. *)
Lemma main_inv_server m w x pc y mach a y' :
  served m w x -> main_inv (max_depth_ (queue w)) m x pc y mach ->
  server_step requests y a y' ->
  (forall n c, a = Called n c -> pc = Listening \/ pc = InWait) ->
  exists x', served m w x' /\ main_inv (max_depth_ (queue w)) m x' pc y' mach.
Proof.
  intros Hx Hpc Hstep Ha. pose proof (served_inv _ _ _ Hx) as [Hi _].
  assert (forall n c, pc <> Listening -> pc <> InWait -> a <> Called n c) as Hno.
  { intros n c ? ? ->. by destruct (Ha n c eq_refl). }
  destruct pc as [| | |found|code|code|code|code|code]; cbn [main_inv] in *.
  1,2: destruct Hpc as [-> ->]; exists y'; split; [by eapply served_step|done].
  3-7: destruct Hpc as (-> & Hc & Hcl & Hq); exists x; split; [done|].
  3-7: destruct (quiet_step _ _ _ _ _ _ Hstep (fun n c => Hno n c ltac:(done) ltac:(done)) Hq).
  3-7: split_and!; try done; by eapply closed_same.
  - destruct Hpc as (-> & -> & Hc). exists y'. split; [by eapply served_step|].
    destruct (quiet_step _ _ _ _ _ _ Hstep (fun n c => Hno n c ltac:(done) ltac:(done))
      (no_callers_quiet _ _ Hi Hc)) as [[] _]. done.
  - destruct Hpc as (-> & Hc & -> & (Hb & Hs & Hm) & Hq). exists x. split; [done|].
    destruct (quiet_step _ _ _ _ _ _ Hstep (fun n c => Hno n c ltac:(done) ltac:(done)) Hq)
      as [Hq' (Hb' & Hs' & Hm')].
    assert (close_task y' = close_task y) as -> by (unfold close_task; by rewrite Hm').
    split_and!; try done; split_and!; congruence.
Qed.

Lemma quiet_found depth stopping y :
  quiet depth stopping [] y -> found_now y = MkEngineWorker [] depth stopping.
Proof.
  intros [_ Hi Hst Ht]. unfold waiting_tasks in Ht. apply app_eq_nil in Ht as [_ Hq].
  unfold found_now, depths. by rewrite Hq, Hst, (inv_max _ _ Hi).
Qed.

Lemma quiet_enqueue depth t y :
  quiet depth false [] y -> 0 < depth ->
  Enqueue t (worker (threads y)) = inr (MkEngineWorker [t] depth false) /\
  waiting_tasks (set_threads (enqueued t (MkEngineWorker [t] depth false) (threads y)) y) = [t].
Proof.
  intros [_ Hi Hst Ht] Hd. unfold waiting_tasks, in_hand in *.
  apply app_eq_nil in Ht as [Hl Hq]. cbn. unfold Enqueue.
  rewrite Hst, Hq, (inv_max _ _ Hi). unfold Task in *. cbn.
  destruct (Nat.leb_spec depth 0); [lia|]. split; [done|].
  by rewrite Hl.
Qed.

(** The threads together did what [run_daemon] does. *)
Lemma finish_refines m w x code y mach now cp :
  served m w x -> main_inv (max_depth_ (queue w)) m x (Joining code) y mach ->
  run_daemon o (fun _ => world_of x (found_now x) now cp) fail_at m0 =
    (mach, Ret ((on_session (Session_destructor fail_at)
                   (world_of y (found_now y) now cp)).1, code)).
Proof.
  intros Hx (-> & Hc & (r & Hclose & Hr & Hj & ->) & Hq).
  destruct (served_inv _ _ _ Hx) as [Hi Hd]. destruct Hx as (n & acts & Hs & _).
  pose proof (no_callers_quiet _ _ Hi Hc) as Hqx.
  unfold run_daemon. rewrite (bind_ret_eq _ _ _ _ _ Hs). cbn [fst].
  assert (shutdown fail_at (world_of x (found_now x) now cp) =
    (world_of y (found_now y) now cp, Ret match r with Ret _ => 0%Z | _ => 1%Z end)) as ->.
  { rewrite (quiet_found _ _ _ Hqx), (quiet_found _ _ _ Hq).
    unfold shutdown, bind, catch, Run, on_session, zoom, modify, ret, world_of, Enqueue.
    cbn [queue engine stopping_ queue_ max_depth_ length].
    destruct (Nat.leb_spec (max_depth_ (queue w)) 0); [lia|].
    rewrite Hclose, Hj. by destruct r. }
  done.
Qed.

Record daemon_inv p : Prop := {
  di_masked : masked_everywhere (kernel p);
  di_signal :
    match signal_at p with
    | NotMade => main_at p = Listening
    | AtSigwait =>
        main_at p <> Listening /\
        forall code, main_at p = Joining code -> SIGTERM ∈ pending (kernel p)
    | Woken => main_at p <> Listening
    | InShutdown | Done => main_at p <> Listening /\ shut p = true
    end;
  di_shut : shut p = true \/ main_at p = Listening \/ main_at p = InWait;
  di_main : exists m w x, served m w x /\
    main_inv (max_depth_ (queue w)) m x (main_at p) (server p) (machine p);
}.

Definition process_inv (a : process) : Prop :=
  match a with
  | Booting false k => (exists mask, masks k = [mask]) /\ pending k ⊆ signals
  | Booting true k => masked_everywhere k
  | Alive p => daemon_inv p
  | Finished code m2 w2 => exists m w x now cp, served m w x /\ callers x = ∅ /\
      run_daemon o (fun _ => world_of x (found_now x) now cp) fail_at m0 =
        (m2, Ret (w2, code))
  | Unserved _ | Terminated _ => True
  end.

Lemma begin_inv mask : process_inv (begin mask).
Proof. split; [by exists mask|set_solver]. Qed.

(** The steps of the main thread that end the close. *)
Lemma close_runs_inv m w x found y now cp v r :
  served m w x -> main_inv (max_depth_ (queue w)) m x (CloseWaits found) y m ->
  loop (threads y) = Running (close_task y) ->
  final_close (world_of y found now cp) = (v, r) -> r <> Died ->
  main_inv (max_depth_ (queue w)) m x (Closed match r with Ret _ => 0%Z | _ => 1%Z end)
    (MkServer (ran (close_task y) (threads y)) (engine v) (journal v)
       (callers y) (calls_made y)) m.
Proof.
  intros Hx (_ & Hc & -> & (Hb & Hs & _) & [Hyc Hyi Hyst Hyt]) Hl Hrun Hr.
  apply on_session_inv in Hrun as (s & Hclose & ->). cbn [engine world_of] in Hclose.
  split_and!; [done|done| |].
  - exists r. cbn. rewrite <- Hb, Hs. done.
  - unfold waiting_tasks, in_hand in Hyt. rewrite Hl in Hyt. injection Hyt as Hq.
    split; cbn; [done| |done|exact Hq].
    eapply inv_internal; [by apply step_run|done].
Qed.

Lemma drain_inv depth y code m x w :
  main_inv depth m x (Closed code) y m ->
  Drain_lock (negb (joined (threads y))) (worker (threads y)) = Some w ->
  main_inv depth m x (Draining code)
    (set_threads
       (MkSys w (loop (threads y)) (S (notifies (threads y))) (joined (threads y))
          (accepted (threads y)) (executed (threads y))) y) m.
Proof.
  intros (_ & Hc & Hcl & [Hyc Hyi Hyst Hyt]) Hd. split_and!; [done|done| |].
  - by eapply closed_same.
  - split; cbn; [done| | |].
    + eapply inv_external; [by apply step_drain|done].
    + unfold Drain_lock in Hd. destruct (_ && _); [done|]. by injection Hd as <-.
    + unfold Drain_lock in Hd. destruct (_ && _); [done|]. by injection Hd as <-.
Qed.

(** What a step of the signal thread or of the kernel leaves of the invariant. *)
Lemma daemon_inv_signal p sg k sh :
  daemon_inv p -> masked_everywhere k -> (shut p = true -> sh = true) ->
  match sg with
  | NotMade => main_at p = Listening
  | AtSigwait =>
      main_at p <> Listening /\ forall code, main_at p = Joining code -> SIGTERM ∈ pending k
  | Woken => main_at p <> Listening
  | InShutdown | Done => main_at p <> Listening /\ sh = true
  end ->
  daemon_inv (MkDaemon (server p) (machine p) (main_at p) sg sh k).
Proof. intros [_ _ Hsh Hmain] Hk Hmono Hsg. split; cbn; [done|done|tauto|done]. Qed.

(** And a step of the main thread. *)
Lemma daemon_inv_main p pc y mach :
  daemon_inv p -> main_at p <> Listening -> pc <> Listening ->
  (forall code, pc <> Joining code) -> (shut p = true \/ pc = InWait) ->
  (exists m w x, served m w x /\ main_inv (max_depth_ (queue w)) m x pc y mach) ->
  daemon_inv (MkDaemon y mach pc (signal_at p) (shut p) (kernel p)).
Proof.
  intros [Hk Hsg _ _] Hold Hpc Hj Hsh Hmain. split; cbn; [done| |tauto|done].
  destruct (signal_at p); [by destruct Hold| |done|by destruct Hsg|by destruct Hsg].
  split; [done|]. intros code Hcode. by destruct (Hj code).
Qed.

Lemma daemon_inv_server p a y :
  daemon_inv p -> server_step requests (server p) a y ->
  (forall n c, a = Called n c -> shut p = false) -> daemon_inv (set_server y p).
Proof.
  intros [Hk Hsg Hsh (m & w & x & Hx & Hm)] Hstep Ha. split; [done|done|done|].
  destruct (main_inv_server _ _ _ _ _ _ _ _ Hx Hm Hstep) as (x' & Hx' & Hm').
  { intros n c ->. specialize (Ha n c eq_refl). by destruct Hsh; [congruence|]. }
  by exists m, w, x'.
Qed.


(** The steps of the main thread between [server->Wait()] and [kill]. *)
Lemma closing_inv m w x pc y mach :
  served m w x -> main_inv (max_depth_ (queue w)) m x pc y mach ->
  match pc with
  | InWait => callers y = ∅ -> main_inv (max_depth_ (queue w)) m x Closing y mach
  | Closing =>
      exists v, Enqueue (close_task y) (worker (threads y)) = inr v /\
        main_inv (max_depth_ (queue w)) m x (CloseWaits (found_now y))
          (set_threads (enqueued (close_task y) v (threads y)) y) mach
  | Closed code =>
      exists v, Drain_lock (negb (joined (threads y))) (worker (threads y)) = Some v
  | Draining code => main_inv (max_depth_ (queue w)) m x (Drained code) y mach
  | Drained code =>
      main_inv (max_depth_ (queue w)) m x (Unlinked code) y (unlink_socket o mach).1
  | Unlinked code => main_inv (max_depth_ (queue w)) m x (Joining code) y mach
  | Listening | CloseWaits _ | Joining _ => True
  end.
Proof.
  intros Hx Hpc. destruct (served_inv _ _ _ Hx) as [Hi Hd].
  destruct pc as [| | |found|code|code|code|code|code]; cbn [main_inv] in *; try done.
  - by destruct Hpc as [-> ->].
  - destruct Hpc as (-> & -> & Hc). pose proof (no_callers_quiet _ _ Hi Hc) as Hq.
    destruct (quiet_enqueue _ (close_task x) _ Hq Hd) as [He Ht].
    eexists. split; [exact He|]. split_and!; try done. split; [done| |done|exact Ht].
    eapply inv_external; [by apply step_enqueue|apply Hq].
  - destruct Hpc as (_ & _ & _ & [_ _ Hst _]). unfold Drain_lock. rewrite Hst. by eexists.
  - by destruct Hpc as (-> & ? & ? & ?).
Qed.

(** A step of the main thread, once its server can be said. *)
Ltac main_step :=
  match goal with
  | Hp : daemon_inv _ |- _ =>
      apply (daemon_inv_main _ _ _ _ Hp); [congruence|done|done| |by eauto 8]
  end.

Lemma own_inv a b : own a b -> process_inv a -> process_inv b.
Proof.
  destruct 1 as [k|k m w n Hs|k m r Hs Hr|p Hm|p x Hs|p s Hsg Hin Hp|p Hsg|p Hsg Hc|p Hm Hsh Hc
    |p w Hm He|p e Hm He|p found now cp w r Hm Hl Hw Hr|p code w Hm Hd|p code Hm Hd
    |p code Hm Hj|p code Hm|p code Hm|p code now cp Hm Hsg]; cbn [process_inv]; intros Hp0;
    try (pose proof (di_main _ Hp0) as (m & v & y & Hy & Hmain);
         pose proof (closing_inv _ _ _ _ _ _ Hy Hmain) as Hnext;
         pose proof (di_shut _ Hp0) as Hshut; rewrite Hm in Hmain, Hnext, Hshut).
  - destruct Hp0 as [[mask Hk] Hpd]. destruct k as [ms pd]. cbn in *. subst ms.
    split; cbn; [|done]. constructor; [set_solver|done].
  - split; cbn; [by apply spawn_keeps|done|by auto|]. exists m, w, (serving w 0).
    split; [|done]. exists n, []. split; [done|constructor].
  - done.
  - destruct (di_masked _ Hp0). split; cbn; [by apply spawn_keeps|done|by auto|by eauto].
  - destruct Hs as (a & Hs & Ha). apply (daemon_inv_server _ a); [done..|].
    by intros n c ->.
  - apply (daemon_inv_signal p); [done|apply take_keeps, Hp0|done|].
    pose proof (di_signal _ Hp0) as Hi. rewrite Hsg in Hi. apply Hi.
  - apply (daemon_inv_signal p); [done|apply Hp0|done|].
    pose proof (di_signal _ Hp0) as Hi. rewrite Hsg in Hi. done.
  - apply (daemon_inv_signal p); [done|apply Hp0|done|].
    pose proof (di_signal _ Hp0) as Hi. by rewrite Hsg in Hi.
  - main_step. by left.
  - destruct Hnext as (v' & Hv & Hnext). rewrite He in Hv. injection Hv as <-.
    main_step. left. by destruct Hshut as [?|[?|?]].
  - destruct Hnext as (v' & Hv & _). congruence.
  - assert (machine p = m) as Hmach by apply Hmain.
    rewrite Hmach in Hmain. pose proof (close_runs_inv _ _ _ _ _ _ _ _ _ Hy Hmain Hl Hw Hr).
    rewrite <- Hmach in *. main_step. left. by destruct Hshut as [?|[?|?]].
  - assert (machine p = m) as Hmach by apply Hmain.
    rewrite Hmach in Hmain. pose proof (drain_inv _ _ _ _ _ _ Hmain Hd).
    rewrite <- Hmach in *. main_step. left. by destruct Hshut as [?|[?|?]].
  - destruct Hnext. congruence.
  - main_step. left. by destruct Hshut as [?|[?|?]].
  - main_step. left. by destruct Hshut as [?|[?|?]].
  - rewrite (kill_masked SIGTERM) by (apply Hp0 || by left). cbn [process_inv].
    split; cbn; [| |left; by destruct Hshut as [?|[?|?]]|by eauto].
    + destruct (di_masked _ Hp0). split; [done|set_solver].
    + pose proof (di_signal _ Hp0) as Hi. destruct (signal_at p); [congruence| |done|by destruct Hi..].
      split; [done|]. intros _ _. set_solver.
  - exists m, v, y, now, cp. split; [done|]. split; [apply Hmain|].
    by eapply finish_refines.
Qed.

Lemma outside_inv a b : outside a b -> process_inv a -> process_inv b.
Proof.
  destruct 1 as [b k s k' Hs Hk|b k s Hs Hk|p s k Hs Hk|p s Hs Hk|p i|p n c x Hsh Hstep
    |p x Hstep|p]; cbn [process_inv]; intros Hp0; try done.
  - destruct b; [by eapply kill_keeps|]. destruct Hp0 as [Hm Hpd].
    unfold kill in Hk. destruct (forallb _ _); [|done]. injection Hk as <-.
    apply stop_signals in Hs. split; cbn; [done|set_solver].
  - apply (daemon_inv_signal p); [done|by eapply kill_keeps, Hp0|done|].
    pose proof (di_signal _ Hp0) as Hi. rewrite (kill_masked _ _ (di_masked _ Hp0) Hs) in Hk.
    injection Hk as <-. destruct (signal_at p); try done. destruct Hi as [? Hj].
    split; [done|]. intros code Hcode. pose proof (Hj _ Hcode). cbn. set_solver.
  - apply (daemon_inv_signal p); [done|apply spawn_keeps, Hp0|done|].
    exact (di_signal _ Hp0).
  - by eapply (daemon_inv_server p).
  - by apply (daemon_inv_server p Spurious).
  - apply (daemon_inv_signal p); [done|apply Hp0|done|].
    pose proof (di_signal _ Hp0) as Hi. destruct (signal_at p); try done; by destruct Hi.
Qed.

Lemma any_inv mask a : star any_step (begin mask) a -> process_inv a.
Proof.
  intros Hs. eapply star_invariant; [|exact Hs|apply begin_inv].
  intros x y [Hxy|Hxy]; [by apply own_inv|by apply outside_inv].
Qed.

(** ** Progress *)

(** The process has been told to stop, with its signals masked: one is pending,
    or the signal thread has taken one, or the server is shut down anyhow. *)
Definition asked (a : process) : Prop :=
  match a with
  | Booting masked k => masked = true /\ pending k <> ∅
  | Alive p =>
      pending (kernel p) <> ∅ \/ shut p = true \/
      match signal_at p with NotMade | AtSigwait => False | _ => True end
  | Unserved _ | Finished _ _ _ => True
  | Terminated _ => False
  end.

Lemma own_asked a b : own a b -> process_inv a -> asked a -> asked b.
Proof.
  destruct 1 as [k|k m w n Hs|k m r Hs Hr|p Hm|p x Hs|p s Hsg Hin Hp|p Hsg|p Hsg Hc|p Hm Hsh Hc
    |p w Hm He|p e Hm He|p found now cp w r Hm Hl Hw Hr|p code w Hm Hd|p code Hm Hd
    |p code Hm Hj|p code Hm|p code Hm|p code now cp Hm Hsg]; cbn; intros Hi; try tauto.
  - pose proof (di_signal _ Hi) as Hsg. destruct (signal_at p); [tauto|..]; by destruct Hsg.
  - rewrite (kill_masked SIGTERM _ (di_masked _ Hi)) by (by left). intros _. left. cbn. set_solver.
Qed.

(** The signal thread gets as far as it is let. *)
Lemma signal_progress p :
  daemon_inv p -> asked (Alive p) -> main_at p <> Listening -> callers (server p) = ∅ ->
  (exists b, own (Alive p) b) \/
  shut p = true /\ (signal_at p = Done \/ forall code, main_at p <> Joining code).
Proof.
  intros Hp Ha Hm Hc. pose proof (di_signal _ Hp) as Hi. destruct (signal_at p) eqn:Hsg.
  - done.
  - cbn in Ha. rewrite Hsg in Ha. destruct (decide (pending (kernel p) = ∅)) as [He|Hne].
    + right. split; [tauto|]. right. intros code Hcode.
      pose proof (proj2 Hi _ Hcode). set_solver.
    + left. apply set_choose_L in Hne as [s Hin]. eexists. apply (own_sigwait _ s); [done| |done].
      by apply (proj2 (di_masked _ Hp)).
  - left. eexists. by apply own_shutdown.
  - left. eexists. by apply own_shutdown_returns.
  - right. split; [apply Hi|by left].
Qed.

(** An engine thread without a task in hand. *)
Lemma idle_progress p t :
  internal (threads (server p)) t -> (forall u, loop (threads (server p)) <> Running u) ->
  exists b, own (Alive p) b.
Proof.
  intros Hs Hl. eexists. apply own_serve. exists Silent. split; [|done].
  apply (server_thread _ _ t Hs). destruct Hs; cbn; try done. by destruct (Hl t).
Qed.

Lemma Close_alive s : (Close fail_at s).2 <> Died.
Proof.
  destruct (session_ s) as [c|] eqn:Hs.
  - by destruct (Close_open fail_at s c Hs) as (r & -> & Hr).
  - unfold Close, bind, gets, id. by rewrite Hs.
Qed.

(** The worker gets to the final close, and to the end of the drain. *)
Lemma close_progress depth p found :
  quiet depth false [close_task (server p)] (server p) -> main_at p = CloseWaits found ->
  exists b, own (Alive p) b.
Proof.
  intros [Hc Hi Hst Ht] Hm. destruct (loop (threads (server p))) as [| |t|] eqn:Hl.
  3:{ unfold waiting_tasks, in_hand in Ht. rewrite Hl in Ht. injection Ht as -> _.
      destruct (final_close (world_of (server p) found 0 None)) as [w r] eqn:Hw.
      eexists. eapply own_close_runs; [done..|]. intros ->.
      apply on_session_inv in Hw as (s & Hclose & _).
      exact (Close_alive _ (f_equal snd Hclose)). }
  3:{ destruct (inv_returned _ _ Hi Hl). congruence. }
  all: unfold waiting_tasks, in_hand in Ht; rewrite Hl in Ht.
  all: destruct (inv_progress _ _ Hi) as [[t Hs]|[Hr _]]; [right| |congruence].
  all: try (intros Hq; by rewrite Hq in Ht).
  all: eapply idle_progress; [exact Hs|congruence].
Qed.

Lemma drain_progress depth p code :
  quiet depth true [] (server p) -> main_at p = Draining code -> exists b, own (Alive p) b.
Proof.
  intros [Hc Hi Hst Ht] Hm. destruct (inv_progress _ _ Hi) as [[t Hs]|(Hl & Hj & _)]; [by left| |].
  - eapply idle_progress; [exact Hs|]. intros u Hl.
    unfold waiting_tasks, in_hand in Ht. by rewrite Hl in Ht.
  - eexists. by apply (own_drained _ code).
Qed.

(** A process that was asked to stop goes on until it has ended. *)
Lemma alive_progress p :
  daemon_inv p -> asked (Alive p) ->
  (exists b, own (Alive p) b) \/ exists w, server_dies requests (server p) w.
Proof.
  intros Hp Ha. pose proof Hp as [_ _ Hsh (m & w & x & Hx & Hmain)].
  pose proof (closing_inv _ _ _ _ _ _ Hx Hmain) as Hnext.
  destruct (served_inv _ _ _ Hx) as [Hi _].
  destruct (main_at p) as [| | |found|code|code|code|code|code] eqn:Hm; cbn in Hmain.
  - left. eexists. by apply own_signal_thread.
  - destruct Hmain as [Hy _]. rewrite <- Hy in Hi.
    destruct (server_progress _ _ _ Hi) as [Hc|[[z Hz]|?]]; [left|left|by right].
    + destruct (signal_progress p) as [?|[Hs _]]; [done|done|congruence|done|done|].
      eexists. by apply own_wait.
    + eexists. by apply own_serve.
  - left. destruct Hnext as (v & He & _). eexists. by apply own_close.
  - left. destruct Hmain as (_ & _ & _ & _ & Hq). by eapply close_progress.
  - left. destruct Hnext as (v & Hd). eexists. by eapply own_drain.
  - left. destruct Hmain as (_ & _ & _ & Hq). by eapply drain_progress.
  - left. eexists. by apply own_unlink.
  - left. eexists. by apply (own_kill _ code).
  - left. destruct Hmain as (_ & _ & _ & [Hc _ _ _]).
    destruct (signal_progress p) as [?|[_ [Hsg|Hno]]]; [done|done|congruence|done|done|..].
    + eexists. by apply (own_return _ code 0%Z None).
    + by destruct (Hno code).
Qed.

Lemma ended_cases a :
  process_inv a -> asked a -> ~ (exists b, own a b) ->
  match a with
  | Alive p => exists w, server_dies requests (server p) w
  | Unserved _ | Finished _ _ _ => True
  | Booting _ _ | Terminated _ => False
  end.
Proof.
  intros Hi Ha Hend. destruct a as [masked k|p|m|code m w|s]; try done.
  - destruct Ha as [-> _]. apply Hend. destruct (startup o m0) as [m [[w n]|e|]] eqn:Hs.
    + eexists. by eapply own_start.
    + eexists. by eapply own_unserved.
    + eexists. by eapply own_unserved.
  - by destruct (alive_progress _ Hi Ha).
Qed.

(** Without callers it does end with [return exit_code]. *)
Definition idle (a : process) : Prop :=
  match a with
  | Alive p => daemon_inv p /\ asked a /\ callers (server p) = ∅
  | Finished _ _ _ => True
  | _ => False
  end.

Lemma own_step_no_callers x y : own_step requests x y -> callers x = ∅ -> callers y = ∅.
Proof.
  intros (a & Hs & Ha) Hc. destruct Hs as [|x n c m w Hn|x n c m e Hn|x n c now cp w' r Hn| | |
    x n c found m now cp w' r reply Hl Hn|x n c reply Hn]; try done;
    by rewrite Hc, lookup_empty in Hn.
Qed.

Lemma own_idle p b : own (Alive p) b -> idle (Alive p) -> idle b.
Proof.
  intros Hs (Hp & Ha & Hc). pose proof (own_inv _ _ Hs Hp) as Hi.
  pose proof (own_asked _ _ Hs Hp Ha) as Hb.
  inversion Hs as [| | |q|q x Hx| | | | | | | | | | | |q code Hm|]; subst; try done.
  - split_and!; [done|done|]. by apply (own_step_no_callers _ _ Hx).
  - rewrite (kill_masked SIGTERM _ (di_masked _ Hp)) in * by (by left). done.
Qed.

Lemma idle_finishes p :
  idle (Alive p) -> exists exit_code m w, star own (Alive p) (Finished exit_code m w).
Proof.
  intros Hp.
  destruct (star_measure own idle (fun a => exists code m w, a = Finished code m w) to_do)
    with (a := Alive p) as (b & Hs & _ & code & m & w & ->); [|done|by eauto].
  intros [|q| |code m w|] Hq; try done; [right|left; by eauto].
  destruct (alive_progress q) as [[b Hb]|[w Hw]]; [apply Hq..| |].
  - exists b. split; [exact Hb|]. split; [by eapply own_idle|by apply own_decreases].
  - destruct Hq as (_ & _ & Hc). destruct Hw as [x n c found m now cp w' _ Hn].
    by rewrite Hc, lookup_empty in Hn.
Qed.

(** A process whose signals are masked is not ended by them. *)
Definition survives (a : process) : Prop :=
  match a with Booting false _ | Terminated _ => False | _ => True end.

Lemma any_survives a b : any_step a b -> process_inv a -> survives a -> survives b.
Proof.
  intros [Hs|Hs] Hi Ha.
  - destruct Hs; try done. cbn in *. rewrite (kill_masked SIGTERM _ (di_masked _ Hi)) by (by left). done.
  - destruct Hs as [masked k s k' Hs Hk|masked k s Hs Hk|p s k Hs Hk|p s Hs Hk|p i|p n c x Hsh Hx
      |p x Hx|p]; try done.
    + destruct masked; [|done]. by rewrite (kill_masked _ _ Hi Hs) in Hk.
    + by rewrite (kill_masked _ _ (di_masked _ Hi) Hs) in Hk.
Qed.

Lemma star_survives a b :
  star any_step a b -> process_inv a -> survives a -> process_inv b /\ survives b.
Proof.
  intros Hs Hi Ha. eapply (star_invariant _ (fun c => process_inv c /\ survives c)); [|exact Hs|done].
  intros x y Hxy [Hx Hsx]. split; [|by eapply any_survives].
  destruct Hxy; [by eapply own_inv|by eapply outside_inv].
Qed.

Lemma star_own_any a b : star own a b -> star any_step a b.
Proof. induction 1; [constructor|]. eapply star_step; [by left|done]. Qed.

Lemma asked_survives a : asked a -> survives a.
Proof. destruct a as [[]| | | |]; cbn; naive_solver. Qed.

Lemma star_asked a b : star own a b -> process_inv a -> asked a -> process_inv b /\ asked b.
Proof.
  intros Hs Hi Ha. eapply (star_invariant _ (fun c => process_inv c /\ asked c)); [|exact Hs|done].
  intros x y Hxy [Hx Hax]. split; [by eapply own_inv|by eapply own_asked].
Qed.

(** C13: Whoever sends SIGTERM or SIGINT, and whenever, once they are masked: the
    signals do not end the process; under every schedule what it does by itself
    comes to an end; and that end is [return exit_code], or the failure of the
    startup, or a death in a task. *)
Theorem graceful_shutdown mask a :
  star any_step (begin mask) a -> asked a ->
  (forall b s, star any_step a b -> b <> Terminated s) /\
  Acc (fun c b => own b c) a /\
  forall b, star own a b -> ~ (exists c, own b c) ->
    match b with
    | Finished _ _ _ | Unserved _ => True
    | Alive p => exists w, server_dies requests (server p) w
    | Booting _ _ | Terminated _ => False
    end.
Proof.
  intros Hrun Ha. apply any_inv in Hrun as Hi. pose proof (asked_survives _ Ha) as Hsv.
  split_and!; [|apply own_Acc|].
  - intros b s Hab ->. by destruct (star_survives _ _ Hab Hi Hsv).
  - intros b Hab Hend. destruct (star_asked _ _ Hab Hi Ha) as [Hib Hb].
    by apply ended_cases.
Qed.

(** *** What is left at the end *)
Definition all_told (hist : list action) x : Prop :=
  forall k, k < calls_made x ->
    is_Some (callers x !! k) \/ exists c reply, Got k c reply ∈ hist.

Lemma all_told_step hist x a y :
  server_step requests x a y -> all_told hist x -> all_told (hist ++ [a]) y.
Proof.
  intros Hstep Hx k Hk.
  assert (k < calls_made x ->
    is_Some (callers x !! k) \/ exists c r, Got k c r ∈ hist ++ [a]) as Hold.
  { intros [?|(d & r & ?)]%Hx; [by left|right]. exists d, r. apply elem_of_app. by left. }
  assert (forall n c, k < calls_made x -> is_Some (<[n := c]> (callers x) !! k) \/
    exists d r, Got k d r ∈ hist ++ [a]) as Hmove.
  { intros n c Hlt. rewrite lookup_insert. case_decide; [by left|auto]. }
  destruct Hstep as [x c|x n c m w Hn Hm He|x n c m e Hn Hm He
    |x n c now cp w' reply Hn Hm Hp|x t Hs He|x Hl
    |x n c found m now cp w' r reply Hl Hn Hm Hw Har|x n c reply Hn]; cbn in *; auto.
  - rewrite lookup_insert. case_decide; [by left|]. apply Hold. lia.
  - destruct (decide (k = n)) as [->|Hne].
    + right. exists c, reply. apply elem_of_app. right. by apply list_elem_of_singleton.
    + rewrite lookup_delete_ne by done. by apply Hold.
Qed.

Lemma run_told hist x acts y :
  lstar (server_step requests) x acts y -> all_told hist x -> all_told (hist ++ acts) y.
Proof.
  intros Hrun. revert hist. induction Hrun as [x|x a x1 acts y Hs _ IH]; intros hist Hx.
  - by rewrite app_nil_r.
  - rewrite cons_middle, app_assoc. apply IH. by eapply all_told_step.
Qed.

(** C14: The threads refine [run_daemon]: a process that ended with [return exit_code],
    whatever its schedule and its signals, served the calls of a run of
    [Concurrent.v], told each caller its reply, executed every task it had
    accepted, and then did to the machine, the book and the journal what
    [run_daemon] does in one go; and its exit code says whether the book was saved
    and closed. *)
Theorem process_refines_run_daemon mask exit_code m2 w2 :
  star any_step (begin mask) (Finished exit_code m2 w2) ->
  exists m w n acts x now cp,
    startup o m0 = (m, Ret (w, n)) /\
    lstar (server_step requests) (serving w 0) acts x /\
    (forall k, k < calls_made x -> exists c reply, Got k c reply ∈ acts) /\
    executed (threads x) = accepted (threads x) /\
    run_daemon o (fun _ => world_of x (found_now x) now cp) fail_at m0 =
      (m2, Ret (w2, exit_code)) /\
    (exit_code = 0%Z <-> (Close fail_at (book_session x)).2 = Ret tt).
Proof.
  intros (m & w & x & now & cp & Hx & Hc & Hrun)%any_inv.
  destruct (served_inv _ _ _ Hx) as [Hi Hd]. pose proof (no_callers_quiet _ _ Hi Hc) as Hq.
  destruct Hx as (n & acts & Hs & Hacts). exists m, w, n, acts, x, now, cp.
  split_and!; [done|done| | |done|].
  - intros k Hk. destruct (run_told [] _ _ _ Hacts) with (k := k) as [Hk'|?]; [|done| |done].
    + intros i Hlt. cbn in Hlt. lia.
    + rewrite Hc, lookup_empty in Hk'. by destruct Hk'.
  - pose proof (inv_fifo _ _ (si_worker _ _ _ Hi)) as Hf. pose proof (q_tasks _ _ _ _ Hq) as Ht.
    unfold waiting_tasks in Ht. by rewrite Ht, app_nil_r in Hf.
  - destruct (shutdown_ends fail_at (world_of x (found_now x) now cp)
      (MkEngineWorker [tt] (max_depth_ (queue w)) false))
      as (w' & code & Hsd & _ & _ & _ & _ & _ & Hcode & _).
    { cbn [queue world_of]. rewrite (quiet_found _ _ _ Hq). unfold Enqueue. cbn.
      by destruct (Nat.leb_spec (max_depth_ (queue w)) 0); [lia|]. }
    enough (exit_code = code) as -> by done.
    unfold run_daemon in Hrun. rewrite (bind_ret_eq _ _ _ _ _ Hs), Hsd in Hrun.
    apply bind_inv_ret in Hrun as ([] & m' & _ & Hrun). by injection Hrun.
Qed.
End process.
