(* ===== verification/Mkbook.v ===== *)
(** * Making a book: [tools/mkbook/mkbook.cpp]

    The program that ships beside the daemon and makes the book the daemon then
    opens: [main] is [mkbook]. What it leaves is where [Lifecycle.v] begins. *)
From S2P Require Import Prelude.
From S2P Require Import Messages.
From S2P Require Import Engine.
From S2P Require Import Errors.
From S2P Require Import Map.
From S2P Require Import Journal.
From S2P Require Import Session.
From S2P Require Import Mutation.
From S2P Require Import Protocol.
From S2P Require Import Contract.
From S2P Require Import Lifecycle.
Local Open Scope prog_scope.

(** The process: libgnucash and the two output streams. *)
Record Tool `{Gnc} := MkTool {
  lib : Book;
  stdout : string;
  stderr : string;
}.

Definition newline : string := String "010"%char "".

(** [%s] of a C string; glibc prints a null pointer so. *)
Definition percent_s (message : option string) : string := default "(null)" message.

Section mkbook.
Context `{SessionEnv}.

Definition with_lib {A} (f : Book -> A * Book) : Prog Tool A :=
  fun t => let '(a, b) := f (lib t) in (MkTool _ _ b (stdout t) (stderr t), Ret a).
Definition do_lib (f : Book -> Book) : Prog Tool unit := with_lib (fun b => (tt, f b)).
Definition ask_lib {A} (f : Book -> A) : Prog Tool A := gets (fun t => f (lib t)).
Definition print_out (text : string) : Prog Tool unit :=
  modify (fun t => MkTool _ _ (lib t) (stdout t +:+ text) (stderr t)).
Definition print_err (text : string) : Prog Tool unit :=
  modify (fun t => MkTool _ _ (lib t) (stdout t) (stderr t +:+ text)).

(** [main(argc, argv)]: the exit code. *)
Definition mkbook (argv : list string) : Prog Tool Z :=
  match argv with
  | [_; uri] =>
      session <~ with_lib qof_session_new ;;
      do_lib (qof_session_begin session (c_str uri) SESSION_NEW_STORE) ;;;
      error <~ ask_lib (qof_session_get_error session) ;;
      if negb (bool_decide (error = ERR_BACKEND_NO_ERR)) then
        message <~ ask_lib (qof_session_get_error_message session) ;;
        print_err ("begin failed: " +:+ percent_s message +:+ newline) ;;;
        ret 1%Z
      else
        root <~ ask_lib gnc_book_get_root_account ;;
        do_lib (qof_session_save session) ;;;
        error <~ ask_lib (qof_session_get_error session) ;;
        if negb (bool_decide (error = ERR_BACKEND_NO_ERR)) then
          message <~ ask_lib (qof_session_get_error_message session) ;;
          print_err ("save failed: " +:+ percent_s message +:+ newline) ;;;
          ret 1%Z
        else
          guid <~ ask_lib (fun b => GuidToString (account_guid b root)) ;;
          print_out (guid +:+ newline) ;;;
          do_lib (qof_session_end session) ;;;
          do_lib (qof_session_destroy session) ;;;
          ret 0%Z
  | _ =>
      print_err ("usage: daichod-mkbook <sqlite3:///abs/path>" +:+ newline) ;;;
      ret 1%Z
  end.

(** ** What it does *)

(** The stages of a run on [uri]. *)
Definition begun_new (uri : string) (p : QofSessionPtr) (b0 : Book) : Book :=
  qof_session_begin p (c_str uri) SESSION_NEW_STORE b0.

Lemma mkbook_stages name uri t p b0 :
  qof_session_new (lib t) = (p, b0) ->
  let b1 := begun_new uri p b0 in
  let b2 := qof_session_save p b1 in
  mkbook [name; uri] t =
    if bool_decide (qof_session_get_error p b1 = ERR_BACKEND_NO_ERR) then
      if bool_decide (qof_session_get_error p b2 = ERR_BACKEND_NO_ERR) then
        (MkTool _ _ (qof_session_destroy p (qof_session_end p b2))
           (stdout t +:+ GuidToString (account_guid b2 (gnc_book_get_root_account b1)) +:+
            newline)
           (stderr t), Ret 0%Z)
      else
        (MkTool _ _ b2 (stdout t)
           (stderr t +:+ "save failed: " +:+ percent_s (qof_session_get_error_message p b2) +:+
            newline), Ret 1%Z)
    else
      (MkTool _ _ b1 (stdout t)
         (stderr t +:+ "begin failed: " +:+ percent_s (qof_session_get_error_message p b1) +:+
          newline), Ret 1%Z).
Proof.
  intros Hnew. cbv zeta. unfold begun_new, mkbook, with_lib, do_lib, bind, ask_lib, gets, print_out,
    print_err, modify, ret. rewrite Hnew. cbn.
  case_bool_decide; cbn; [|done]. by case_bool_decide.
Qed.

(** The exit code is 0 exactly when one argument is given and neither beginning
    nor saving reports an error. Then, and only then, a line is on stdout, and
    the session is closed; otherwise the reason is on stderr. *)
Theorem mkbook_exit_code argv t :
  exists t' code,
    mkbook argv t = (t', Ret code) /\ (code = 0 \/ code = 1)%Z /\
    (code = 0%Z <-> stdout t' <> stdout t) /\ (code = 1%Z <-> stderr t' <> stderr t) /\
    (code = 0%Z <-> exists name uri p b0,
       argv = [name; uri] /\ qof_session_new (lib t) = (p, b0) /\
       qof_session_get_error p (begun_new uri p b0) = ERR_BACKEND_NO_ERR /\
       qof_session_get_error p (qof_session_save p (begun_new uri p b0)) =
         ERR_BACKEND_NO_ERR).
Proof.
  assert (forall s a u : string, s +:+ (a +:+ (u +:+ newline)) <> s) as Hgrow.
  { intros s a u Hs. apply (f_equal String.length) in Hs.
    rewrite !length_append in Hs. cbn in Hs. lia. }
  assert (forall s u : string, s +:+ (u +:+ newline) <> s) as Hgrow'.
  { intros s u. apply (Hgrow s ""). }
  destruct argv as [|name [|uri [|more rest]]].
  1, 2, 4: eexists _, 1%Z; split; [reflexivity|]; cbn [stdout stderr]; split_and!;
    [by right|by split|split; [intros _; apply Hgrow'|done]|];
    by split; [|intros (? & ? & ? & ? & ? & _)].
  destruct (qof_session_new (lib t)) as [p b0] eqn:Hnew.
  rewrite (mkbook_stages name uri t p b0 Hnew). cbv zeta.
  case_bool_decide as He1; [case_bool_decide as He2|];
    eexists _, _; (split; [reflexivity|]); cbn [stdout stderr].
  - split_and!; [by left|split; [intros _; apply Hgrow'|done]|by split|].
    split; [|done]. intros _. by exists name, uri, p, b0.
  - split_and!; [by right|by split|split; [intros _; apply Hgrow|done]|].
    split; [done|]. intros (? & ? & ? & ? & [= <- <-] & [= <- <-] & _ & ?). congruence.
  - split_and!; [by right|by split|split; [intros _; apply Hgrow|done]|].
    split; [done|]. intros (? & ? & ? & ? & [= <- <-] & [= <- <-] & ? & _). congruence.
Qed.
End mkbook.

(** ** What it makes *)
Section makes.
Context `{SessionEnv} `{!GncStore} `{!GncStoreOk} `{!GncSessionStoreOk} `{!GncValuesOk}.

(** A new store that was begun and saved without an error is a whole book with
    the root account that was in memory, and without splits. *)
Class GncNewStoreOk : Prop := {
  new_store_saved : forall b p b0,
    qof_session_new b = (p, b0) ->
    let b1 := begun_new stored_at p b0 in
    qof_session_get_error p b1 = ERR_BACKEND_NO_ERR ->
    let b2 := qof_session_save p b1 in
    qof_session_get_error p b2 = ERR_BACKEND_NO_ERR ->
    let b' := book_load (book_store b2) in
    whole (book_store b2) /\ qof_query_run b' all_splits = [] /\
    account_guid b' (gnc_book_get_root_account b') =
      account_guid b2 (gnc_book_get_root_account b1);
}.
Context `{!GncNewStoreOk}.

(** A book without splits passes the gate. *)
Lemma no_splits_pass s :
  session_ s <> None -> qof_query_run (qof s) all_splits = [] ->
  RunStartupChecks s = (s, Ret tt).
Proof.
  intros Hs Hq. unfold RunStartupChecks, book, ask, bind, gets, id.
  destruct (session_ s); [|done].
  assert (startup_scan (qof s) = MkStartupScan "" ∅) as Hscan.
  { unfold startup_scan. by rewrite Hq. }
  cbn. rewrite Hscan. cbn. apply check_sums_eq. by intros [k v] Hkv%elem_of_map_items.
Qed.

(** C38: The book that [mkbook] makes is one the daemon serves: it is a whole book on
    which a deployment can start, its startup checks pass, and the line printed
    is the GUID of the root account that is found in it. *)
Theorem mkbook_makes_servable_book name t t' j :
  mkbook [name; stored_at] t = (t', Ret 0%Z) ->
  intents j = ∅ -> applied j = ∅ -> faults j = [] ->
  let d := book_store (lib t') in
  first_site d j /\
  forall s, session_ s <> None -> qof s = book_load d ->
    RunStartupChecks s = (s, Ret tt) /\
    stdout t' = stdout t +:+
      GuidToString (account_guid (qof s) (gnc_book_get_root_account (qof s))) +:+ newline.
Proof.
  intros Hrun Hi Ha Hf. destruct (qof_session_new (lib t)) as [p b0] eqn:Hnew.
  rewrite (mkbook_stages _ _ _ _ _ Hnew) in Hrun. cbv zeta in Hrun.
  case_bool_decide as He1; [case_bool_decide as He2|]; [|done..].
  injection Hrun as <-. destruct (new_store_saved _ _ _ Hnew He1 He2) as (Hw & Hq & Hg).
  cbn [lib stdout]. rewrite session_destroy_keeps, session_end_keeps.
  split; [by split_and!|]. intros s Hs Hb.
  split; [apply no_splits_pass; [done|by rewrite Hb]|]. by rewrite Hb, Hg.
Qed.
End makes.
