(* ===== verification/Edits.v ===== *)
(** * What an edit shows: the request, field by field

    The setters of libgnucash as laws on the objects they write ([GncTransEditsOk], [GncAccountEditsOk],
    [GncPriceEditsOk]),
    and with them what the handlers leave in an open edit: the account, the
    transaction with its splits or the price that the request describes. *)
From S2P Require Import Prelude.
From S2P Require Import Messages.
From S2P Require Import Engine.
From S2P Require Import Errors.
From S2P Require Import Map.
From S2P Require Import Session.
From S2P Require Import Rpc.
From S2P Require Import Accounts.
From S2P Require Import Transactions.
From S2P Require Import Commodities.
From S2P Require Import Contract.
From Stdlib Require Import QArith.
Local Close Scope Q_scope.
Local Open Scope prog_scope.

(** ** Images of engine objects *)
Section images.
Context `{Gnc}.

Record split_image := MkSplitImage {
  si_guid : GncGUID;
  si_parent : TransactionPtr;
  si_account : AccountPtr;
  si_memo : string;
  si_action : string;
  si_reconcile : ascii;
  si_destroying : bool;
}.

(** All of a split but its value and amount, which the engine rounds. *)
Definition see_split (b : Book) (x : SplitPtr) : split_image :=
  MkSplitImage (split_guid b x) (xaccSplitGetParent b x) (xaccSplitGetAccount b x)
    (safe (xaccSplitGetMemo b x)) (safe (xaccSplitGetAction b x))
    (xaccSplitGetReconcile b x) (split_destroying b x).

Record trans_image := MkTransImage {
  ti_guid : GncGUID;
  ti_currency : option CommodityPtr;
  ti_posted : GDate;
  ti_entered : Z;
  ti_num : string;
  ti_description : string;
  ti_splits : list SplitPtr;
}.

Definition see_trans (b : Book) (t : TransactionPtr) : trans_image :=
  MkTransImage (transaction_guid b t) (xaccTransGetCurrency b t)
    (xaccTransGetDatePostedGDate b t) (xaccTransGetDateEntered b t)
    (safe (xaccTransGetNum b t)) (safe (xaccTransGetDescription b t))
    (xaccTransGetSplitList b t).

Record account_image := MkAccountImage {
  ai_guid : GncGUID;
  ai_parent : option AccountPtr;
  ai_name : string;
  ai_type : GNCAccountType;
  ai_commodity : option CommodityPtr;
  ai_code : string;
  ai_description : string;
  ai_placeholder : bool;
  ai_hidden : bool;
}.

Definition see_acct (b : Book) (a : AccountPtr) : account_image :=
  MkAccountImage (account_guid b a) (gnc_account_get_parent b a)
    (safe (xaccAccountGetName b a)) (xaccAccountGetType b a)
    (xaccAccountGetCommodity b a) (safe (xaccAccountGetCode b a))
    (safe (xaccAccountGetDescription b a)) (xaccAccountGetPlaceholder b a)
    (xaccAccountGetHidden b a).

Record price_image := MkPriceImage {
  pi_guid : GncGUID;
  pi_commodity : CommodityPtr;
  pi_currency : CommodityPtr;
  pi_time : Z;
  pi_value : gnc_numeric;
  pi_source : string;
}.

Definition see_pr (b : Book) (p : PricePtr) : price_image :=
  MkPriceImage (gnc_price_get_guid b p) (gnc_price_get_commodity b p)
    (gnc_price_get_currency b p) (gnc_price_get_time64 b p)
    (gnc_price_get_value b p) (safe (gnc_price_get_source_string b p)).
End images.

(** [account_unit b a]: the fraction the amounts of the splits of [a] are kept
    in; the values of the splits of a transaction are kept in the fraction of
    its currency. [known_source s]: the engine has a price source of that name. *)
Class GncUnits `{Gnc} := {
  account_unit : Book -> AccountPtr -> Z;
  known_source : string -> Prop;
}.

(** [v] is a whole number of units of 1/[unit], in 64 bits. *)
Definition representable (unit : Z) (v : gnc_numeric) : Prop :=
  (0 < unit)%Z /\
  exists k, (- 2 ^ 63 <= k < 2 ^ 63)%Z /\ (gnc_value v == k # Z.to_pos unit)%Q.

(** The flags [xaccSplitSetReconcile] takes. *)
Definition reconcile_flags `{GncValues} : list ascii := [NREC; CREC; YREC; FREC; VREC].

Section frames.
Context `{GncUnits}.

(** Names and units do not change. *)
Record scenery (b b' : Book) : Prop := {
  sc_account : forall a, account_guid b' a = account_guid b a;
  sc_commodity : forall c, CommodityIdToProto b' c = CommodityIdToProto b c;
  sc_fraction : forall c, gnc_commodity_get_fraction b' c = gnc_commodity_get_fraction b c;
  sc_unit : forall a, account_unit b' a = account_unit b a;
}.

#[export] Instance scenery_preorder : PreOrder scenery.
Proof.
  split; [by split|]. intros b1 b2 b3 [] []. split; intros; congruence.
Qed.

(** The split [x] is left alone. *)
Record quiet (x : SplitPtr) (b b' : Book) : Prop := {
  qu_image : see_split b' x = see_split b x;
  qu_value : xaccSplitGetValue b' x = xaccSplitGetValue b x;
  qu_amount : xaccSplitGetAmount b' x = xaccSplitGetAmount b x;
}.

#[export] Instance quiet_preorder x : PreOrder (quiet x).
Proof.
  split; [by split|]. intros b1 b2 b3 [] []. split; congruence.
Qed.
End frames.

(** The setters: each sets its field of the object, the rest of the object and
    the other objects stay. A value that is a whole number of units is kept as
    it is. Dates before 1400 and after 9999 are outside the engine's calendar. *)
Definition in_calendar `{GncValues} (d : GDate) : Prop :=
  g_date_valid d = true /\ (1400 <= g_date_get_year d <= 9999)%Z.

Class GncCalendarOk `{GncValues} : Prop := {
  neutral_day : forall d, in_calendar d ->
    time64_to_gdate (gnc_dmy2time64_neutral (g_date_get_day d) (g_date_get_month d)
      (g_date_get_year d)) = d;
}.

Class GncTransEditsOk `{GncUnits} : Prop := {
  begin_trans_frame : forall t b, let b' := xaccTransBeginEdit t b in
    scenery b b' /\ (forall x, quiet x b b') /\
    (forall u, see_trans b' u = see_trans b u);
  transaction_call_frame : forall t b b', transaction_call t b b' ->
    scenery b b' /\ (forall x, see_split b' x = see_split b x);
  set_currency : forall t c b, let i := see_trans b t in
    see_trans (xaccTransSetCurrency t c b) t =
      MkTransImage (ti_guid i) (Some c) (ti_posted i) (ti_entered i) (ti_num i)
        (ti_description i) (ti_splits i);
  set_posted : forall t d b, in_calendar d -> let i := see_trans b t in
    see_trans (xaccTransSetDatePostedGDate t d b) t =
      MkTransImage (ti_guid i) (ti_currency i) d (ti_entered i) (ti_num i)
        (ti_description i) (ti_splits i);
  set_entered : forall t e b, let i := see_trans b t in
    see_trans (xaccTransSetDateEnteredSecs t e b) t =
      MkTransImage (ti_guid i) (ti_currency i) (ti_posted i) e (ti_num i)
        (ti_description i) (ti_splits i);
  set_num : forall t n b, let i := see_trans b t in
    see_trans (xaccTransSetNum t n b) t =
      MkTransImage (ti_guid i) (ti_currency i) (ti_posted i) (ti_entered i) n
        (ti_description i) (ti_splits i);
  set_text : forall t d b, let i := see_trans b t in
    see_trans (xaccTransSetDescription t d b) t =
      MkTransImage (ti_guid i) (ti_currency i) (ti_posted i) (ti_entered i) (ti_num i)
        d (ti_splits i);
  malloc_trans : forall b t b', xaccMallocTransaction b = (t, b') ->
    scenery b b' /\ (forall x, quiet x b b') /\ xaccTransGetSplitList b' t = [];

  split_call_frame : forall x b b', split_call x b b' ->
    scenery b b' /\ (forall y, y <> x -> quiet y b b') /\
    (forall t, see_trans b' t = see_trans b t);
  new_split : forall b x b1 t, xaccMallocSplit b = (x, b1) ->
    let b' := xaccSplitSetParent x t b1 in let i := see_trans b t in
    (x ∉ xaccTransGetSplitList b t) /\
    scenery b b' /\ (forall y, y <> x -> quiet y b b') /\
    see_trans b' t =
      MkTransImage (ti_guid i) (ti_currency i) (ti_posted i) (ti_entered i) (ti_num i)
        (ti_description i) (ti_splits i ++ [x]) /\
    xaccSplitGetParent b' x = t /\ split_destroying b' x = false;
  destroy_split : forall x b, split_destroying (xaccSplitDestroy x b) x = true;
  set_account : forall x a b, let b' := xaccSplitSetAccount x a b in
    let j := see_split b x in
    see_split b' x =
      MkSplitImage (si_guid j) (si_parent j) a (si_memo j) (si_action j)
        (si_reconcile j) (si_destroying j);
  set_value : forall x v b, let b' := xaccSplitSetValue x v b in
    see_split b' x = see_split b x /\
    (forall c, xaccTransGetCurrency b (xaccSplitGetParent b x) = Some c ->
       representable (gnc_commodity_get_fraction b c) v -> (0 < denom v)%Z ->
       (gnc_value (xaccSplitGetValue b' x) == gnc_value v)%Q /\
       denom (xaccSplitGetValue b' x) = gnc_commodity_get_fraction b c);
  set_amount : forall x v b, let b' := xaccSplitSetAmount x v b in
    see_split b' x = see_split b x /\
    xaccSplitGetValue b' x = xaccSplitGetValue b x /\
    (representable (account_unit b (xaccSplitGetAccount b x)) v -> (0 < denom v)%Z ->
       (gnc_value (xaccSplitGetAmount b' x) == gnc_value v)%Q /\
       (0 < denom (xaccSplitGetAmount b' x))%Z);
  set_memo : forall x m b, let b' := xaccSplitSetMemo x m b in
    let j := see_split b x in
    see_split b' x =
      MkSplitImage (si_guid j) (si_parent j) (si_account j) m (si_action j)
        (si_reconcile j) (si_destroying j) /\
    xaccSplitGetValue b' x = xaccSplitGetValue b x /\
    xaccSplitGetAmount b' x = xaccSplitGetAmount b x;
  set_action : forall x m b, let b' := xaccSplitSetAction x m b in
    let j := see_split b x in
    see_split b' x =
      MkSplitImage (si_guid j) (si_parent j) (si_account j) (si_memo j) m
        (si_reconcile j) (si_destroying j) /\
    xaccSplitGetValue b' x = xaccSplitGetValue b x /\
    xaccSplitGetAmount b' x = xaccSplitGetAmount b x;
  set_reconcile : forall x f b, f ∈ reconcile_flags -> let b' := xaccSplitSetReconcile x f b in
    let j := see_split b x in
    see_split b' x =
      MkSplitImage (si_guid j) (si_parent j) (si_account j) (si_memo j) (si_action j)
        f (si_destroying j) /\
    xaccSplitGetValue b' x = xaccSplitGetValue b x /\
    xaccSplitGetAmount b' x = xaccSplitGetAmount b x;
}.

Class GncAccountEditsOk `{GncUnits} : Prop := {
  begin_account_frame : forall a b, scenery b (xaccAccountBeginEdit a b) /\
    see_acct (xaccAccountBeginEdit a b) a = see_acct b a;
  malloc_account_frame : forall b a b', xaccMallocAccount b = (a, b') ->
    (forall x, x <> a -> account_guid b' x = account_guid b x) /\
    (forall c, CommodityIdToProto b' c = CommodityIdToProto b c) /\
    (forall g, xaccAccountLookup b g <> Some a);
  account_call_frame : forall a may b b', account_call a may b b' -> scenery b b';
  set_acct_name : forall a n b, let i := see_acct b a in
    see_acct (xaccAccountSetName a n b) a =
      MkAccountImage (ai_guid i) (ai_parent i) n (ai_type i) (ai_commodity i)
        (ai_code i) (ai_description i) (ai_placeholder i) (ai_hidden i);
  set_acct_type : forall a t b, let i := see_acct b a in
    see_acct (xaccAccountSetType a t b) a =
      MkAccountImage (ai_guid i) (ai_parent i) (ai_name i) t (ai_commodity i)
        (ai_code i) (ai_description i) (ai_placeholder i) (ai_hidden i);
  set_acct_commodity : forall a c b, let i := see_acct b a in
    see_acct (xaccAccountSetCommodity a c b) a =
      MkAccountImage (ai_guid i) (ai_parent i) (ai_name i) (ai_type i) (Some c)
        (ai_code i) (ai_description i) (ai_placeholder i) (ai_hidden i);
  set_acct_code : forall a c b, let i := see_acct b a in
    see_acct (xaccAccountSetCode a c b) a =
      MkAccountImage (ai_guid i) (ai_parent i) (ai_name i) (ai_type i)
        (ai_commodity i) c (ai_description i) (ai_placeholder i) (ai_hidden i);
  set_acct_description : forall a d b, let i := see_acct b a in
    see_acct (xaccAccountSetDescription a d b) a =
      MkAccountImage (ai_guid i) (ai_parent i) (ai_name i) (ai_type i)
        (ai_commodity i) (ai_code i) d (ai_placeholder i) (ai_hidden i);
  set_acct_placeholder : forall a p b, let i := see_acct b a in
    see_acct (xaccAccountSetPlaceholder a p b) a =
      MkAccountImage (ai_guid i) (ai_parent i) (ai_name i) (ai_type i)
        (ai_commodity i) (ai_code i) (ai_description i) p (ai_hidden i);
  set_acct_hidden : forall a h b, let i := see_acct b a in
    see_acct (xaccAccountSetHidden a h b) a =
      MkAccountImage (ai_guid i) (ai_parent i) (ai_name i) (ai_type i)
        (ai_commodity i) (ai_code i) (ai_description i) (ai_placeholder i) h;
  set_acct_parent : forall a p b, let i := see_acct b a in
    see_acct (gnc_account_append_child p a b) a =
      MkAccountImage (ai_guid i) (Some p) (ai_name i) (ai_type i)
        (ai_commodity i) (ai_code i) (ai_description i) (ai_placeholder i)
        (ai_hidden i);
  set_reconcile_date : forall a s b,
    xaccAccountGetReconcileLastDate (xaccAccountSetReconcileLastDate a s b) a = Some s;
}.

Class GncPriceEditsOk `{GncUnits} : Prop := {
  price_frame : forall p b b',
    price_call p b b' \/ b' = gnc_price_begin_edit p b \/ gnc_price_create b = (p, b') ->
    scenery b b';
  set_price_commodity : forall p c b, let i := see_pr b p in
    see_pr (gnc_price_set_commodity p c b) p =
      MkPriceImage (pi_guid i) c (pi_currency i) (pi_time i) (pi_value i) (pi_source i);
  set_price_currency : forall p c b, let i := see_pr b p in
    see_pr (gnc_price_set_currency p c b) p =
      MkPriceImage (pi_guid i) (pi_commodity i) c (pi_time i) (pi_value i) (pi_source i);
  set_price_time : forall p t b, let i := see_pr b p in
    see_pr (gnc_price_set_time64 p t b) p =
      MkPriceImage (pi_guid i) (pi_commodity i) (pi_currency i) t (pi_value i) (pi_source i);
  set_price_value : forall p v b, let i := see_pr b p in
    see_pr (gnc_price_set_value p v b) p =
      MkPriceImage (pi_guid i) (pi_commodity i) (pi_currency i) (pi_time i) v (pi_source i);
  set_price_source : forall p s b, known_source s -> let i := see_pr b p in
    see_pr (gnc_price_set_source_string p s b) p =
      MkPriceImage (pi_guid i) (pi_commodity i) (pi_currency i) (pi_time i) (pi_value i) s;
}.

(** ** One split *)
Section splits.
Context `{SessionEnv} `{!GncUnits} `{!GncTransEditsOk}.
Implicit Types (s : Session).

(** The split [x] of [t] is what the plan [p] says; its value is kept in units
    of 1/[u]. *)
Record split_applied (t : TransactionPtr) (u : Z) (p : SplitPlan) (b : Book)
    (x : SplitPtr) : Prop := {
  sa_parent : xaccSplitGetParent b x = t;
  sa_account : xaccSplitGetAccount b x = account p;
  sa_value : (gnc_value (xaccSplitGetValue b x) == gnc_value (value p))%Q;
  sa_unit : denom (xaccSplitGetValue b x) = u /\ (0 < u)%Z;
  sa_amount : (gnc_value (xaccSplitGetAmount b x) == gnc_value (quantity p))%Q /\
    (0 < denom (xaccSplitGetAmount b x))%Z;
  sa_memo : safe (xaccSplitGetMemo b x) = c_str (memo p);
  sa_action : safe (xaccSplitGetAction b x) = c_str (action p);
  sa_reconcile : xaccSplitGetReconcile b x = reconcile p;
  sa_alive : split_destroying b x = false;
}.

Lemma split_applied_quiet t u p b b' x :
  quiet x b b' -> split_applied t u p b x -> split_applied t u p b' x.
Proof.
  intros [Hi Hv Ha] []. injection Hi as _ Hp Hacc Hm Hac Hr Hd. split; congruence.
Qed.

(** Its numbers survive the engine's rounding. *)
Definition plan_representable (b : Book) (c : CommodityPtr) (p : SplitPlan) : Prop :=
  representable (gnc_commodity_get_fraction b c) (value p) /\
  representable (account_unit b (account p)) (quantity p).

(** And its flag is one the engine takes. *)
Definition plan_fillable (b : Book) (c : CommodityPtr) (p : SplitPlan) : Prop :=
  plan_representable b c p /\ (0 < denom (value p))%Z /\ (0 < denom (quantity p))%Z /\
  reconcile p ∈ reconcile_flags.

Lemma plan_fillable_scenery b b' c p :
  scenery b b' -> plan_fillable b c p -> plan_fillable b' c p.
Proof.
  intros [_ _ Hf Hu] [[] ?]. split; [|done]. split; [by rewrite Hf|by rewrite Hu].
Qed.

(** The six setters of a split plan, on a split that is already there. *)
Definition fill_split (x : SplitPtr) (p : SplitPlan) (b : Book) : Book :=
  xaccSplitSetReconcile x (reconcile p)
    (xaccSplitSetAction x (c_str (action p))
       (xaccSplitSetMemo x (c_str (memo p))
          (xaccSplitSetAmount x (quantity p)
             (xaccSplitSetValue x (value p)
                (xaccSplitSetAccount x (account p) b))))).

Lemma fill_split_frame x p b :
  let b' := fill_split x p b in
  scenery b b' /\ (forall y, y <> x -> quiet y b b') /\
  (forall t, see_trans b' t = see_trans b t).
Proof.
  set (R := fun b b' => scenery b b' /\ (forall y, y <> x -> quiet y b b') /\
    (forall t, see_trans b' t = see_trans b t)).
  assert (forall b0 b1 b2, R b0 b1 -> split_call x b1 b2 -> R b0 b2) as Hstep.
  { intros b0 b1 b2 (Hs & Hq & Ht) Hcall.
    destruct (split_call_frame x b1 b2 Hcall) as (Hs' & Hq' & Ht').
    split_and!; [by etransitivity| |intros t; by rewrite Ht'].
    intros y Hy. etransitivity; [by apply Hq|by apply Hq']. }
  change (R b (fill_split x p b)). unfold fill_split.
  do 6 (eapply Hstep; [|constructor]). by split_and!.
Qed.

Lemma fill_split_applied x t c p b :
  xaccSplitGetParent b x = t -> xaccTransGetCurrency b t = Some c ->
  plan_fillable b c p -> split_destroying b x = false ->
  let b' := fill_split x p b in
  split_applied t (gnc_commodity_get_fraction b c) p b' x /\
  split_guid b' x = split_guid b x.
Proof.
  intros Hp Hc [[Hv Hq] (Hpos & Hposq & Hf)] Hd. unfold fill_split.
  set (b1 := xaccSplitSetAccount x (account p) b).
  set (b2 := xaccSplitSetValue x (value p) b1).
  set (b3 := xaccSplitSetAmount x (quantity p) b2).
  set (b4 := xaccSplitSetMemo x (c_str (memo p)) b3).
  set (b5 := xaccSplitSetAction x (c_str (action p)) b4).
  set (b6 := xaccSplitSetReconcile x (reconcile p) b5).
  destruct (split_call_frame x b b1 ltac:(constructor)) as (Hs1 & _ & Ht1).
  destruct (split_call_frame x b1 b2 ltac:(constructor)) as (Hs2 & _ & _).
  pose proof (set_account x (account p) b) as I1.
  destruct (set_value x (value p) b1) as [I2 V2].
  destruct (set_amount x (quantity p) b2) as (I3 & V3 & A3).
  destruct (set_memo x (c_str (memo p)) b3) as (I4 & V4 & A4).
  destruct (set_action x (c_str (action p)) b4) as (I5 & V5 & A5).
  destruct (set_reconcile x (reconcile p) b5 Hf) as (I6 & V6 & A6).
  cbn zeta in *. fold b1 b2 b3 b4 b5 b6 in I1, I2, I3, I4, I5, I6, V2, V3, V4, V5, V6,
    A3, A4, A5, A6 |- *.
  assert (see_split b6 x =
    MkSplitImage (split_guid b x) t (account p) (c_str (memo p)) (c_str (action p))
      (reconcile p) false) as I.
  { rewrite I6, I5, I4, I3, I2, I1. cbn. by rewrite Hp, Hd. }
  assert (xaccSplitGetAccount b2 x = account p) as Hacc.
  { rewrite I1 in I2. by injection I2. }
  assert (xaccSplitGetParent b1 x = t) as Hp1 by (injection I1; congruence).
  injection I as Hg Hpar Ha Hm Hac Hr Hdd.
  assert (xaccTransGetCurrency b1 (xaccSplitGetParent b1 x) = Some c) as Hc1.
  { rewrite Hp1. pose proof (Ht1 t) as Hi. injection Hi. congruence. }
  rewrite <- (sc_fraction _ _ Hs1) in Hv. split; [|done]. split; try done.
  - rewrite V6, V5, V4, V3. by apply (V2 c).
  - rewrite V6, V5, V4, V3. destruct (V2 c) as [_ ->]; [done..|].
    rewrite <- (sc_fraction _ _ Hs1). split; [done|apply Hv].
  - rewrite A6, A5, A4. apply A3; [|done]. rewrite Hacc.
    by rewrite (sc_unit _ _ Hs2), (sc_unit _ _ Hs1).
Qed.

(** What one plan leaves: the split [x] filled, at the end of the transaction's
    when it is new. *)
Record applied_one (t : TransactionPtr) (u : Z) (p : SplitPlan) (b b' : Book)
    (x : SplitPtr) (news : list SplitPtr) : Prop := {
  one_applied : split_applied t u p b' x;
  one_quiet : forall y, y <> x -> quiet y b b';
  one_scenery : scenery b b';
  one_trans : let i := see_trans b t in
    see_trans b' t =
      MkTransImage (ti_guid i) (ti_currency i) (ti_posted i) (ti_entered i) (ti_num i)
        (ti_description i) (ti_splits i ++ news);
  one_origin : match existing p with
    | Some x' => x = x' /\ news = [] /\ split_guid b' x = split_guid b x
    | None => news = [x] /\ (x ∉ xaccTransGetSplitList b t)
    end;
}.

(** [apply_split] on a plan: the split it fills, new or the one it claims. *)
Lemma apply_split_applied t c p s s' u :
  apply_split t p s = (s', Ret u) ->
  xaccTransGetCurrency (qof s) t = Some c -> plan_fillable (qof s) c p ->
  (forall x, existing p = Some x ->
     xaccSplitGetParent (qof s) x = t /\ split_destroying (qof s) x = false) ->
  session_ s' = session_ s /\
  exists x news,
    applied_one t (gnc_commodity_get_fraction (qof s) c) p (qof s) (qof s') x news.
Proof.
  unfold apply_split. intros Hrun Hc Hr Hex. destruct (existing p) as [x|] eqn:He.
  - run_inv Hrun. destruct (Hex x eq_refl) as [Hp Hd]. split; [done|]. exists x, [].
    match goal with |- applied_one _ _ _ _ ?b' _ _ =>
      change b' with (fill_split x p (qof s)) end.
    destruct (fill_split_frame x p (qof s)) as (Hs & Hq & Ht).
    destruct (fill_split_applied x t c p (qof s) Hp Hc Hr Hd) as [Ha Hg].
    split; [done..| |by rewrite He]. cbn. by rewrite Ht, app_nil_r.
  - run_inv Hrun.
    match goal with Hm : xaccMallocSplit _ = (?y, ?b) |- _ =>
      rename Hm into Hmalloc; rename y into x; rename b into b1 end.
    split; [done|]. exists x, [x].
    destruct (new_split _ _ _ t Hmalloc) as (Hnew & Hs0 & Hq0 & Ht0 & Hp & Hd).
    match goal with |- applied_one _ _ _ _ ?b' _ _ =>
      change b' with (fill_split x p (xaccSplitSetParent x t b1)) end.
    set (b2 := xaccSplitSetParent x t b1) in *.
    destruct (fill_split_frame x p b2) as (Hs & Hq & Ht).
    assert (xaccTransGetCurrency b2 t = Some c) as Hc2 by (injection Ht0; congruence).
    destruct (fill_split_applied x t c p b2 Hp Hc2) as [Ha _];
      [by eapply plan_fillable_scenery|done|].
    rewrite (sc_fraction _ _ Hs0) in Ha. split; [done| | | |by rewrite He].
    + intros y Hy. etransitivity; [by apply Hq0|by apply Hq].
    + by etransitivity.
    + by rewrite Ht, Ht0.
Qed.

(** The loop over the plans: the splits it fills are those it claims and new
    ones, which the transaction gets at its end. *)
Record splits_applied (t : TransactionPtr) (u : Z) (plans : list SplitPlan) (b b' : Book)
    (xs news : list SplitPtr) : Prop := {
  ap_applied : Forall2 (fun p x => split_applied t u p b' x /\
    forall x', existing p = Some x' -> x = x') plans xs;
  ap_guid : forall x, x ∈ omap existing plans -> split_guid b' x = split_guid b x;
  ap_claims : xs ≡ₚ omap existing plans ++ news;
  ap_create : omap existing plans = [] -> xs = news;
  ap_new : forall x, x ∈ news -> x ∉ xaccTransGetSplitList b t;
  ap_trans : let i := see_trans b t in
    see_trans b' t =
      MkTransImage (ti_guid i) (ti_currency i) (ti_posted i) (ti_entered i) (ti_num i)
        (ti_description i) (ti_splits i ++ news);
  ap_quiet : forall y, y ∉ xs -> quiet y b b';
  ap_scenery : scenery b b';
}.

(** The splits a plan claims are live splits of the transaction. *)
Definition claims_live (t : TransactionPtr) (plans : list SplitPlan) (b : Book) : Prop :=
  forall x, x ∈ omap existing plans ->
    x ∈ xaccTransGetSplitList b t /\ xaccSplitGetParent b x = t /\
    split_destroying b x = false.

Lemma claims_live_step t p plans b b' x news :
  NoDup (omap existing (p :: plans)) ->
  claims_live t (p :: plans) b ->
  xaccTransGetSplitList b' t = xaccTransGetSplitList b t ++ news ->
  (forall y, y <> x -> quiet y b b') ->
  match existing p with
  | Some x' => x = x'
  | None => x ∉ xaccTransGetSplitList b t
  end ->
  NoDup (omap existing plans) /\ claims_live t plans b' /\ (x ∉ omap existing plans).
Proof.
  intros Hnd Hlive Hl Hq Hx. unfold claims_live in *. cbn in Hnd, Hlive.
  assert (NoDup (omap existing plans) /\ (x ∉ omap existing plans) /\
    forall y, y ∈ omap existing plans -> y ∈ xaccTransGetSplitList b t /\
      xaccSplitGetParent b y = t /\ split_destroying b y = false) as (Hnd' & Hnx & Hlive').
  { destruct (existing p) as [x'|] eqn:He.
    - subst x'. apply NoDup_cons in Hnd as [Hn Hnd].
      split_and!; [done|done|]. intros y Hy. apply Hlive. by apply list_elem_of_further.
    - split_and!; [done| |done]. intros Hin. by destruct (Hlive x Hin). }
  split_and!; [done| |done]. intros y Hy.
  destruct (Hlive' y Hy) as (Hin & Hp & Hd).
  destruct (Hq y ltac:(by intros ->)) as [Hi _ _]. injection Hi as _ Hp' _ _ _ _ Hd'.
  rewrite Hl, Hp', Hd', elem_of_app. auto.
Qed.

Lemma splits_applied_cons t u p plans b b1 b' x new xs news :
  claims_live t (p :: plans) b -> (x ∉ omap existing plans) ->
  applied_one t u p b b1 x new -> splits_applied t u plans b1 b' xs news ->
  splits_applied t u (p :: plans) b b' (x :: xs) (new ++ news).
Proof.
  intros Hlive Hx [Ha Hq Hs Ht Ho] [Ha' Hg' Hc Hcr Hn Ht' Hq' Hs'].
  assert (xaccTransGetSplitList b1 t = xaccTransGetSplitList b t ++ new) as Hl
    by by injection Ht.
  assert (x ∈ xaccTransGetSplitList b1 t) as Hin.
  { rewrite Hl. destruct (existing p) as [x'|] eqn:He.
    - destruct Ho as (-> & _). apply elem_of_app. left. apply Hlive. cbn. rewrite He.
      apply list_elem_of_here.
    - destruct Ho as [-> _]. apply elem_of_app. right. apply list_elem_of_here. }
  assert (x ∉ xs) as Hxs.
  { rewrite Hc, elem_of_app. intros [?|Hnx]; [done|]. by apply Hn in Hnx. }
  assert (forall y, y ∈ omap existing plans -> y <> x) as Hne by by intros y Hy ->.
  split.
  - constructor.
    + split; [by eapply split_applied_quiet; [apply Hq'|]|]. intros x' He. rewrite He in Ho.
      by destruct Ho.
    + done.
  - assert (forall y, y ∈ omap existing plans -> split_guid b' y = split_guid b y) as Hg.
    { intros y Hy. rewrite Hg' by done. destruct (Hq y (Hne y Hy)) as [Hi _ _]. by injection Hi. }
    intros y. cbn. destruct (existing p) as [x'|]; [|apply Hg].
    intros [->|Hy]%elem_of_cons; [|by apply Hg]. destruct Ho as (-> & _ & <-).
    destruct (Hq' x' Hxs) as [Hi _ _]. by injection Hi.
  - cbn. rewrite Hc. destruct (existing p) as [x'|].
    + by destruct Ho as (-> & -> & _).
    + destruct Ho as [-> _]. by rewrite Permutation_middle.
  - cbn. destruct (existing p) as [x'|]; [done|]. intros Hno.
    destruct Ho as [-> _]. by rewrite (Hcr Hno).
  - intros y [Hy|Hy%Hn]%elem_of_app Hyb.
    + destruct (existing p); [destruct Ho as (_ & -> & _); by apply not_elem_of_nil in Hy|].
      destruct Ho as [-> Hno]. by apply list_elem_of_singleton in Hy as ->.
    + apply Hy. rewrite Hl, elem_of_app. by left.
  - cbn zeta. rewrite Ht', Ht. cbn. by rewrite <- app_assoc.
  - intros y [Hy Hys]%not_elem_of_cons. etransitivity; [by apply Hq|by apply Hq'].
  - by etransitivity.
Qed.

Lemma apply_splits_applied t c plans s s' u :
  for_each plans (apply_split t) s = (s', Ret u) ->
  xaccTransGetCurrency (qof s) t = Some c ->
  Forall (plan_fillable (qof s) c) plans ->
  NoDup (omap existing plans) -> claims_live t plans (qof s) ->
  session_ s' = session_ s /\
  exists xs news,
    splits_applied t (gnc_commodity_get_fraction (qof s) c) plans (qof s) (qof s') xs news.
Proof.
  revert s. induction plans as [|p plans IH]; intros s Hrun Hc Hr Hnd Hlive.
  { cbn in Hrun. run_inv Hrun. split; [done|]. exists [], [].
    split; try done;
      first [by constructor|by intros x ?%not_elem_of_nil|by cbn; rewrite app_nil_r]. }
  cbn [for_each] in Hrun. apply bind_inv_ret in Hrun as (u1 & s1 & Hone & Hrest).
  apply Forall_cons in Hr as [Hrp Hr].
  apply (apply_split_applied t c) in Hone as (Hses & x & new & Hone); [|done..|].
  2:{ intros x Hx. destruct (Hlive x) as (_ & ? & ?); [|done].
      cbn. rewrite Hx. apply list_elem_of_here. }
  destruct (claims_live_step t p plans (qof s) (qof s1) x new) as (Hnd1 & Hlive1 & Hx);
    [done|done| |apply Hone| |].
  { pose proof (one_trans _ _ _ _ _ _ _ Hone) as Ht. by injection Ht. }
  { pose proof (one_origin _ _ _ _ _ _ _ Hone) as Ho. by destruct (existing p), Ho. }
  apply IH in Hrest as (Hses' & xs & news & Hap); [|..|done|done].
  2:{ pose proof (one_trans _ _ _ _ _ _ _ Hone) as Ht. by injection Ht; congruence. }
  2:{ eapply Forall_impl; [exact Hr|]. intros p'. apply plan_fillable_scenery.
      apply Hone. }
  split; [congruence|]. exists (x :: xs), (new ++ news).
  rewrite (sc_fraction _ _ (one_scenery _ _ _ _ _ _ _ Hone)) in Hap.
  by apply (splits_applied_cons t _ p plans (qof s) (qof s1)).
Qed.

(** ** A whole transaction *)
Definition fill_header (t : TransactionPtr) (plan : TransactionPlan) (b : Book) : Book :=
  xaccTransSetDescription t (c_str (description plan))
    (xaccTransSetNum t (c_str (num_ plan))
       (xaccTransSetDateEnteredSecs t (enter_time plan)
          (xaccTransSetDatePostedGDate t (post_date plan)
             (xaccTransSetCurrency t (currency plan) b)))).

Lemma fill_header_applied t plan b :
  in_calendar (post_date plan) ->
  let b' := fill_header t plan b in
  scenery b b' /\ (forall x, see_split b' x = see_split b x) /\
  see_trans b' t =
    MkTransImage (transaction_guid b t) (Some (currency plan)) (post_date plan)
      (enter_time plan) (c_str (num_ plan)) (c_str (description plan))
      (xaccTransGetSplitList b t).
Proof.
  intros Hd b'.
  assert (scenery b b' /\ forall x, see_split b' x = see_split b x) as [Hs Hx].
  { assert (forall b0 b1 b2, scenery b0 b1 /\ (forall x, see_split b1 x = see_split b0 x) ->
      transaction_call t b1 b2 ->
      scenery b0 b2 /\ (forall x, see_split b2 x = see_split b0 x)) as Hstep.
    { intros b0 b1 b2 [Hs Hx] Hcall.
      destruct (transaction_call_frame t b1 b2 Hcall) as [Hs' Hx'].
      split; [by etransitivity|]. intros x. by rewrite Hx'. }
    unfold b', fill_header. do 5 (eapply Hstep; [|constructor]). by split. }
  split_and!; [done|done|]. unfold b', fill_header.
  by rewrite set_text, set_num, set_entered, set_posted, set_currency.
Qed.

(** The splits the transaction has after the commit. *)
Definition kept_splits (b : Book) (t : TransactionPtr) : list SplitPtr :=
  filter (fun x => split_destroying b x = false) (xaccTransGetSplitList b t).

Lemma doom_splits l s s' u :
  for_each l (fun x => call (xaccSplitDestroy x)) s = (s', Ret u) ->
  session_ s' = session_ s /\ scenery (qof s) (qof s') /\
  (forall x, x ∈ l -> split_destroying (qof s') x = true) /\
  (forall y, y ∉ l -> quiet y (qof s) (qof s')) /\
  (forall t, see_trans (qof s') t = see_trans (qof s) t).
Proof.
  revert s. induction l as [|x l IH]; intros s Hrun.
  { cbn in Hrun. run_inv Hrun. split_and!; try done. by intros y ?%not_elem_of_nil. }
  cbn [for_each] in Hrun. apply bind_inv_ret in Hrun as (u1 & s1 & Hone & Hrest).
  apply call_ret in Hone as ->. apply IH in Hrest as (Hses & Hs & Hd & Hq & Ht).
  destruct (split_call_frame x (qof s) _ (call_destroy x (qof s))) as (Hs0 & Hq0 & Ht0).
  cbn [qof set_qof session_] in *. split_and!; [done|by etransitivity| | |].
  - intros y Hy. destruct (decide (y ∈ l)) as [Hl|Hl]; [by apply Hd|].
    apply elem_of_cons in Hy as [->|Hy]; [|done].
    destruct (Hq x Hl) as [Hi _ _]. injection Hi as _ _ _ _ _ _ ->. apply destroy_split.
  - intros y [Hy Hl]%not_elem_of_cons. etransitivity; [by apply Hq0|by apply Hq].
  - intros t. by rewrite Ht, Ht0.
Qed.

(** The splits a transaction has before an edit. *)
Record tidy (b : Book) (t : TransactionPtr) : Prop := {
  tidy_guids : NoDup (GuidToString ∘ split_guid b <$> xaccTransGetSplitList b t);
  tidy_own : forall x, x ∈ xaccTransGetSplitList b t ->
    xaccSplitGetParent b x = t /\ split_destroying b x = false;
}.

Lemma tidy_NoDup b t : tidy b t -> NoDup (xaccTransGetSplitList b t).
Proof. intros [Hg _]. by eapply NoDup_fmap_1. Qed.

(** An applied plan: the splits kept are those it filled, each as planned. *)
Record plan_applied (t : TransactionPtr) (plan : TransactionPlan) (b b' : Book) :
    Prop := {
  pa_scenery : scenery b b';
  pa_header : exists l, see_trans b' t =
    MkTransImage (transaction_guid b t) (Some (currency plan)) (post_date plan)
      (enter_time plan) (c_str (num_ plan)) (c_str (description plan)) l;
  pa_splits : exists xs,
    Forall2 (fun p x =>
        split_applied t (gnc_commodity_get_fraction b (currency plan)) p b' x /\
      forall x', existing p = Some x' -> x = x') (splits plan) xs /\
    (forall x, x ∈ omap existing (splits plan) -> split_guid b' x = split_guid b x) /\
    kept_splits b' t ≡ₚ xs /\
    (xaccTransGetSplitList b t = [] -> kept_splits b' t = xs);
}.

Lemma ApplyPlan_inv t plan s s' u :
  ApplyPlan t plan s = (s', Ret u) ->
  exists sd v,
    for_each (doomed plan) (fun x => call (xaccSplitDestroy x))
      (set_qof (fill_header t plan (qof s)) s) = (sd, Ret v) /\
    for_each (splits plan) (apply_split t) sd = (s', Ret u).
Proof. unfold ApplyPlan. intros Hrun. run_inv Hrun. eauto. Qed.

(** The splits kept are those filled: the doomed ones are marked. *)
Lemma kept_splits_filled t u plans doom b b' xs news :
  splits_applied t u plans b b' xs news ->
  let own := xaccTransGetSplitList b t in
  NoDup own -> omap existing plans ++ doom ≡ₚ own ->
  (forall x, x ∈ doom -> split_destroying b x = true) ->
  kept_splits b' t ≡ₚ xs /\ (own = [] -> kept_splits b' t = xs).
Proof.
  intros [Ha _ Hc Hcr Hn Ht Hq _] own Hnd Hperm Hdead.
  rewrite <- Hperm in Hnd. apply NoDup_app in Hnd as (_ & Hdisj & _).
  assert (xaccTransGetSplitList b' t = own ++ news) as Hl by by injection Ht.
  assert (forall x, x ∈ xs -> split_destroying b' x = false) as Halive.
  { intros x (i & Hx)%list_elem_of_lookup_1.
    destruct (Forall2_lookup_r _ _ _ _ _ Ha Hx) as (p & _ & [] & _). done. }
  assert (forall x, x ∈ doom -> split_destroying b' x = true) as Hdead'.
  { intros x Hx. assert (x ∉ xs) as Hnx.
    { rewrite Hc, elem_of_app. intros [Hin|Hin]; [by apply (Hdisj x)|].
      apply (Hn x Hin). fold own. rewrite <- Hperm, elem_of_app. by right. }
    destruct (Hq x Hnx) as [Hi _ _]. injection Hi as _ _ _ _ _ _ ->. by apply Hdead. }
  unfold kept_splits. rewrite Hl. split.
  - rewrite <- Hperm, !filter_app.
    rewrite (filter_none _ doom) by (intros x Hx; by rewrite Hdead').
    rewrite (filter_all _ (omap existing plans)), (filter_all _ news), app_nil_r.
    + done.
    + intros x Hx. apply Halive. rewrite Hc, elem_of_app. by right.
    + intros x Hx. apply Halive. rewrite Hc, elem_of_app. by left.
  - intros Hown. rewrite Hown in Hperm |- *.
    apply Permutation_nil_r, app_eq_nil in Hperm as [Hno _].
    cbn. rewrite (Hcr Hno) in Halive |- *. by apply filter_all.
Qed.

Lemma ApplyPlan_applied t plan s s' u :
  ApplyPlan t plan s = (s', Ret u) ->
  in_calendar (post_date plan) ->
  Forall (plan_fillable (qof s) (currency plan)) (splits plan) ->
  tidy (qof s) t ->
  omap existing (splits plan) ++ doomed plan ≡ₚ xaccTransGetSplitList (qof s) t ->
  session_ s' = session_ s /\ plan_applied t plan (qof s) (qof s').
Proof.
  intros (sd & v & Hdoom & Hfill)%ApplyPlan_inv Hd Hr Htidy Hperm.
  destruct (fill_header_applied t plan (qof s) Hd) as (Hs1 & Hx1 & Ht1).
  apply doom_splits in Hdoom as (Hses2 & Hs2 & Hdead & Hq2 & Ht2).
  cbn [qof set_qof session_] in *. set (b1 := fill_header t plan (qof s)) in *.
  assert (see_trans (qof sd) t = see_trans b1 t) as Htd by apply Ht2. rewrite Ht1 in Htd.
  assert (xaccTransGetSplitList (qof sd) t = xaccTransGetSplitList (qof s) t) as Hl
    by by injection Htd.
  pose proof (tidy_NoDup _ _ Htidy) as Hnd. rewrite <- Hperm in Hnd.
  apply NoDup_app in Hnd as (Hnde & Hdisj & _).
  assert (forall x, x ∈ omap existing (splits plan) ->
    see_split (qof sd) x = see_split (qof s) x) as Hclaims.
  { intros x Hx. rewrite <- Hx1. apply Hq2. by apply Hdisj. }
  apply (apply_splits_applied t (currency plan)) in Hfill as (Hses3 & xs & news & Hap).
  - split; [congruence|].
    destruct (kept_splits_filled t _ _ (doomed plan) _ _ _ _ Hap) as [Hk Hk0];
      [rewrite Hl; by apply tidy_NoDup|by rewrite Hl|done|].
    destruct Hap as [Ha Hg _ _ _ Ht _ Hs3].
    rewrite (sc_fraction _ _ Hs2), (sc_fraction _ _ Hs1) in Ha. split.
    + by etransitivity; [etransitivity|].
    + rewrite Ht, Htd. by eexists.
    + exists xs. rewrite <- Hl. split_and!; [done| |done|done].
      intros x Hx. rewrite Hg by done. specialize (Hclaims x Hx) as Hi. by injection Hi.
  - by injection Htd.
  - eapply Forall_impl; [exact Hr|]. intros p. apply plan_fillable_scenery.
    by etransitivity.
  - done.
  - intros x Hx. specialize (Hclaims x Hx) as Hi. injection Hi as _ -> _ _ _ _ ->.
    rewrite Hl.
    assert (x ∈ xaccTransGetSplitList (qof s) t) as Hin
      by (rewrite <- Hperm, elem_of_app; by left).
    split; [done|by apply Htidy].
Qed.

(** ** The response shows the request *)

(** The quantity a request gives a split. *)
Definition spec_quantity (s : Split) : Q :=
  let v := or_default Numeric_default (Split_quantity s) in
  Numeric_num v # Z.to_pos (Numeric_denom v).

(** A split of a response is the split of the request: the same account, exact
    value and quantity, texts up to the first NUL, the state not reconciled
    when none is given, and the GUID when one is. *)
Record split_shows (spec out : Split) : Prop := {
  ss_account : string_to_guid (c_str (Split_account_guid spec)) =
    string_to_guid (Split_account_guid out);
  ss_value : (spec_value out == spec_value spec)%Q;
  ss_quantity : (spec_quantity out == spec_quantity spec)%Q;
  ss_memo : Split_memo out = c_str (Split_memo spec);
  ss_action : Split_action out = c_str (Split_action spec);
  ss_reconcile : Split_reconcile_state out =
    (if decide (Split_reconcile_state spec = RECONCILE_STATE_UNSPECIFIED)
     then RECONCILE_STATE_NOT_RECONCILED else Split_reconcile_state spec);
  ss_guid : Split_guid spec <> "" -> Split_guid out = Split_guid spec;
}.

(** The fields of a transaction but its splits. *)
Record header_shows (b : Book) (now : Z) (spec out : Transaction) : Prop := {
  hs_currency : exists id c, Transaction_currency spec = Some id /\
    FindCommodity b id "transaction.currency" = inr c /\
    Transaction_currency out = Some (CommodityIdToProto b c);
  hs_post_date : Transaction_post_date out = Transaction_post_date spec;
  hs_enter_time : Transaction_enter_time_utc out =
    (if decide (Transaction_enter_time_utc spec <> 0%Z)
     then Transaction_enter_time_utc spec else now);
  hs_num : Transaction_num out = c_str (Transaction_num spec);
  hs_description : Transaction_description out = c_str (Transaction_description spec);
}.

(** The engine can hold the transaction: its day is in the engine's calendar,
    its numbers are whole numbers of the units of the currency and the accounts. *)
Definition holds_exactly (b : Book) (now : Z) (spec : Transaction)
    (ex : option TransactionPtr) : Prop :=
  (forall d, Transaction_post_date spec = Some d -> (1400 <= Date_year d <= 9999)%Z) /\
  (forall plan, PlanTransaction b now spec ex = inr plan ->
     Forall (plan_representable b (currency plan)) (splits plan)).

Context `{!GncValuesOk} `{!GncLookupOk}.

Lemma ReconcileState_shows spec p b :
  plan_matches b spec p ->
  ReconcileStateToProto (reconcile p) =
    (if decide (Split_reconcile_state spec = RECONCILE_STATE_UNSPECIFIED)
     then RECONCILE_STATE_NOT_RECONCILED else Split_reconcile_state spec).
Proof.
  intros [_ _ _ _ _ _ _ Hr _].
  pose proof (reconcile_state_roundtrip RECONCILE_STATE_NOT_RECONCILED "") as Hn.
  pose proof (reconcile_state_roundtrip (Split_reconcile_state spec) "") as Hs.
  destruct (decide _) as [E|Hne]; [rewrite E in Hr; by rewrite Hr|].
  destruct (Split_reconcile_state spec); try done; rewrite Hr in Hs; done.
Qed.

Lemma split_applied_shows t u spec p b b' x :
  plan_matches b spec p -> split_applied t u p b' x -> scenery b b' ->
  (Split_guid spec <> "" -> GuidToString (split_guid b' x) = Split_guid spec) ->
  split_shows spec (SplitToProto b' x).
Proof.
  intros Hpm Ha Hs Hg. pose proof (ReconcileState_shows _ _ _ Hpm) as Hrec.
  destruct Hpm as [[context Hacc] Hv Hq Hvp Hqp Hm Hac _ _], Ha.
  apply FindAccount_inr in Hacc as (g & Hparse & Hl).
  apply account_lookup_guid in Hl.
  split; cbn.
  - rewrite sa_account0, (sc_account _ _ Hs), Hl, Hparse. symmetry.
    apply string_to_guid_to_string.
  - unfold spec_value. rewrite Hv. cbn. destruct sa_unit0 as [Hu ?].
    rewrite !gnc_value_pos in sa_value0; [exact sa_value0|done|by rewrite Hu].
  - unfold spec_quantity. rewrite Hq. cbn. destruct sa_amount0 as [Hamount ?].
    by rewrite !gnc_value_pos in Hamount.
  - rewrite <- Hm. exact sa_memo0.
  - rewrite <- Hac. exact sa_action0.
  - by rewrite sa_reconcile0.
  - exact Hg.
Qed.

(** What a plan claims has the GUID that the request gives. *)
Lemma plan_splits_claims b updating es i specs st st' :
  plan_splits b updating es i specs st = inr st' ->
  exists ps, planned st' = planned st ++ ps /\
    Forall2 (fun spec p => plan_matches b spec p /\ forall x, existing p = Some x ->
      es !! Split_guid spec = Some x) specs ps.
Proof.
  revert i st. induction specs as [|spec specs IH]; intros i st; cbn.
  - intros [= <-]. exists []. by rewrite app_nil_r.
  - intros ((p & cl') & Hp & Hk)%sbind_inr. cbn in Hk.
    destruct (gnc_numeric_ok _); [|done]. cbn in Hk.
    apply IH in Hk as (ps & Hps & Hall). exists (p :: ps). cbn in Hps.
    rewrite Hps, <- app_assoc. split; [done|]. constructor; [|done].
    apply plan_split_inr in Hp as [Hpm Hc]. split; [done|]. intros x Hx.
    apply claim_split_inr in Hc as [(_ & Hno & _)|(_ & _ & _ & _ & y & Hy & Hex)];
      congruence.
Qed.

Lemma engine_splits_key b ex k x :
  engine_splits_of b ex !! k = Some x -> k = GuidToString (split_guid b x).
Proof.
  destruct ex as [t|]; cbn; [|by rewrite lookup_empty].
  generalize (xaccTransGetSplitList b t). intros l.
  induction l as [|y l IH] using rev_ind; cbn; [by rewrite lookup_empty|].
  rewrite foldl_app. cbn. rewrite lookup_insert. case_decide; [congruence|apply IH].
Qed.

Lemma PlanTransaction_shows b now spec ex plan :
  PlanTransaction b now spec ex = inr plan ->
  Forall2 (fun spec p => plan_matches b spec p /\ forall x, existing p = Some x ->
    GuidToString (split_guid b x) = Split_guid spec) (Transaction_splits spec) (splits plan).
Proof.
  intros (cid & d & st & _ & _ & _ & _ & _ & _ & Hst & _ & ->)%PlanTransaction_inr. cbn.
  apply plan_splits_claims in Hst as (ps & -> & Hall). cbn.
  eapply Forall2_impl; [exact Hall|]. intros sp p [Hpm Hx]. split; [done|].
  intros x He. symmetry. by eapply engine_splits_key, Hx.
Qed.

(** The response of an applied plan. *)
Lemma plan_applied_shows t now spec ex plan b0 b b' :
  PlanTransaction b0 now spec ex = inr plan -> scenery b0 b ->
  (forall x, x ∈ omap existing (splits plan) ->
     split_guid b x = split_guid b0 x) ->
  (forall d, Transaction_post_date spec = Some d -> (1400 <= Date_year d <= 9999)%Z) ->
  plan_applied t plan b b' ->
  let out := TransactionToProto b' t in
  Transaction_guid out = GuidToString (transaction_guid b t) /\
  header_shows b0 now spec out /\
  exists l, l ≡ₚ Transaction_splits out /\ Forall2 split_shows (Transaction_splits spec) l /\
    (xaccTransGetSplitList b t = [] -> l = Transaction_splits out).
Proof.
  intros Hplan Hs0 Hg0 Hyear [Hs [l Ht] (xs & Hall & Hg & Hk & Hk0)] out.
  apply PlanTransaction_shows in Hplan as Hsp.
  apply PlanTransaction_inr in Hplan as
    (cid & d & st & Hcur & Hfind & _ & Hdate & Hd & _ & _ & _ & Hp).
  injection Ht as Htg Htc Htp Hte Htn Htd _.
  assert (scenery b0 b') as Hs' by by etransitivity.
  apply DateFromProto_inr in Hd as (_ & Hd & _).
  split_and!.
  - cbn. by rewrite Htg.
  - split; cbn.
    + exists cid, (currency plan). rewrite Htc. cbn. by rewrite (sc_commodity _ _ Hs').
    + by rewrite Htp, Hdate.
    + by rewrite Hte, Hp.
    + by rewrite Htn, Hp.
    + by rewrite Htd, Hp.
  - exists (SplitToProto b' <$> xs). split_and!.
    + cbn. fold (kept_splits b' t). by rewrite Hk.
    + rewrite Forall2_fmap_r. eapply Forall2_trans; [|exact Hsp|].
      2:{ eapply Forall2_impl_elem; [exact Hall|]. intros p x Hin [Ha Hx].
          assert (forall x', existing p = Some x' ->
            x' = x /\ split_guid b' x = split_guid b0 x) as Hx'.
          { intros x' He. split; [by symmetry; apply Hx|].
            assert (x ∈ omap existing (splits plan)) as Hom.
            { apply list_elem_of_omap. exists p. split; [done|].
              by rewrite He, (Hx x'). }
            by rewrite Hg, Hg0. }
          exact (conj Ha Hx'). }
      cbn beta. intros sp p x [Hpm Hkey] [Ha Hx].
      eapply split_applied_shows; [exact Hpm|exact Ha|done|]. intros Hne.
      destruct (existing p) as [x'|] eqn:He; [|by apply (pm_existing _ _ _ Hpm) in He].
      destruct (Hx x' eq_refl) as [-> ->]. by apply Hkey.
    + intros Hno. cbn. fold (kept_splits b' t). by rewrite Hk0.
Qed.

Lemma reconcile_known spec p b : plan_matches b spec p -> reconcile p ∈ reconcile_flags.
Proof.
  intros [_ _ _ _ _ _ _ Hr _]. unfold reconcile_flags.
  assert (forall f, f = NREC \/ f = CREC \/ f = YREC \/ f = FREC \/ f = VREC ->
    f ∈ [NREC; CREC; YREC; FREC; VREC]) as Hin.
  { intros f Hf. rewrite !elem_of_cons. tauto. }
  apply Hin. destruct (Split_reconcile_state spec); try done; cbn in Hr; intuition congruence.
Qed.

Lemma holds_exactly_plan b now spec ex plan :
  holds_exactly b now spec ex -> PlanTransaction b now spec ex = inr plan ->
  in_calendar (post_date plan) /\
  Forall (plan_fillable b (currency plan)) (splits plan).
Proof.
  intros [Hyear Hrep] Hplan. split.
  - apply PlanTransaction_inr in Hplan as (_ & d & _ & _ & _ & _ & Hdate & Hd & _).
    apply DateFromProto_inr in Hd as (Hv & _ & Hy).
    split; [done|]. rewrite Hy. by apply Hyear.
  - specialize (Hrep plan Hplan). apply PlanTransaction_shows in Hplan.
    rewrite Forall_forall in Hrep |- *. intros p Hp. split; [by apply Hrep|].
    apply list_elem_of_lookup in Hp as [i Hp].
    destruct (Forall2_lookup_r _ _ _ _ _ Hplan Hp) as (sp & _ & Hpm & _).
    split_and!; [by eapply pm_value_pos|by eapply pm_quantity_pos|by eapply reconcile_known].
Qed.

Lemma plan_of_nothing b now spec plan :
  PlanTransaction b now spec None = inr plan ->
  omap existing (splits plan) = [] /\ doomed plan = [].
Proof.
  intros Hplan.
  split; apply elem_of_nil_inv; intros x Hx;
    destruct (plan_speaks_of_own _ _ _ _ _ x Hplan) as (t & ? & _); auto; done.
Qed.

(** What a post leaves: the plan of the request, applied to a new transaction. *)
Lemma post_applied request now s so p :
  let spec := or_default Transaction_default (PostTransactionRequest_transaction request) in
  PostTransaction_edit request now s = (so, Ret p) ->
  holds_exactly (qof s) now spec None ->
  exists plan b,
    PlanTransaction (qof s) now spec None = inr plan /\ scenery (qof s) b /\
    xaccTransGetSplitList b p.1 = [] /\ plan_applied p.1 plan b (qof so) /\
    p.2 = TransactionToProto (qof so) p.1.
Proof.
  cbv zeta. unfold PostTransaction_edit. intros Hrun Hexact. run_inv Hrun. cbn [fst snd].
  match goal with
  | Hp : PlanTransaction _ _ _ _ = inr ?pl, Hm : xaccMallocTransaction _ = (?u, ?b),
    Ha : ApplyPlan _ _ _ = _ |- _ =>
      rename Hp into Hplan, Hm into Hmalloc, Ha into Happly, pl into plan, u into t, b into b1
  end.
  cbn [qof set_qof session_] in *.
  destruct (malloc_trans _ _ _ Hmalloc) as (Hs0 & _ & Hnone).
  destruct (begin_trans_frame t b1) as (Hs1 & _ & Ht1).
  set (b := xaccTransBeginEdit t b1) in *.
  assert (xaccTransGetSplitList b t = []) as Hb.
  { specialize (Ht1 t). injection Ht1 as _ _ _ _ _ _ ->. done. }
  assert (scenery (qof s) b) as Hs by by etransitivity.
  destruct (holds_exactly_plan _ _ _ _ _ Hexact Hplan) as [Hd Hr].
  destruct (plan_of_nothing _ _ _ _ Hplan) as [Hno Hdoom].
  apply ApplyPlan_applied in Happly as [_ Hap]; cbn [qof set_qof] in *; [|done|..].
  - by exists plan, b.
  - eapply Forall_impl; [exact Hr|]. intros q. by apply plan_fillable_scenery.
  - split; rewrite Hb; [constructor|by intros x ?%not_elem_of_nil].
  - by rewrite Hno, Hdoom, Hb.
Qed.

(** What an update leaves: the plan of the request, applied to the transaction it
    names. *)
Lemma update_applied request now s so p :
  let spec := or_default Transaction_default (UpdateTransactionRequest_transaction request) in
  UpdateTransaction_edit request now s = (so, Ret p) ->
  tidy (qof s) p.1 -> holds_exactly (qof s) now spec (Some p.1) ->
  exists plan b,
    PlanTransaction (qof s) now spec (Some p.1) = inr plan /\ scenery (qof s) b /\
    (forall x, see_split b x = see_split (qof s) x) /\
    transaction_guid b p.1 = transaction_guid (qof s) p.1 /\
    plan_applied p.1 plan b (qof so) /\
    p.2 = TransactionToProto (qof so) p.1 /\
    exists context, FindTransaction (qof s) (Transaction_guid spec) context = inr p.1.
Proof.
  cbv zeta. unfold UpdateTransaction_edit. intros Hrun Htidy Hexact. run_inv Hrun.
  cbn [fst snd] in *.
  match goal with
  | Hp : PlanTransaction _ _ _ (Some ?u) = inr ?pl, Hf : FindTransaction _ _ _ = _,
    Ha : ApplyPlan _ _ _ = _ |- _ =>
      rename Hp into Hplan, Hf into Hfind, Ha into Happly, pl into plan, u into t
  end.
  cbn [qof set_qof session_] in *.
  destruct (begin_trans_frame t (qof s)) as (Hs & Hq & Ht).
  set (b := xaccTransBeginEdit t (qof s)) in *.
  assert (see_trans b t = see_trans (qof s) t) as Hbt by apply Ht.
  injection Hbt as Hbg _ _ _ _ _ Hbl.
  destruct (holds_exactly_plan _ _ _ _ _ Hexact Hplan) as [Hd Hr].
  pose proof (plan_partition _ _ _ _ _ (tidy_guids _ _ Htidy) Hplan) as Hperm.
  assert (forall x, see_split b x = see_split (qof s) x) as Hx by (intros x; apply Hq).
  assert (forall x, split_guid b x = split_guid (qof s) x) as Hg.
  { intros x. specialize (Hx x). by injection Hx. }
  apply ApplyPlan_applied in Happly as [_ Hap]; cbn [qof set_qof] in *; [|done|..].
  - exists plan, b. split_and!; try done. by eexists.
  - eapply Forall_impl; [exact Hr|]. intros q. by apply plan_fillable_scenery.
  - split.
    + rewrite Hbl. erewrite list_fmap_ext; [apply Htidy|].
      intros i x _. cbn. by rewrite Hg.
    + intros x Hin. rewrite Hbl in Hin. specialize (Hx x). injection Hx as _ -> _ _ _ _ ->.
      by apply Htidy.
  - by rewrite Hbl.
Qed.

(** A post that the engine can hold shows the request: the response has the
    currency, date, times and texts of the request and its splits in order, every
    one with the account, the exact value and quantity, the texts and the reconcile
    state that were asked for. *)
Lemma post_shows request now s so p :
  let spec := or_default Transaction_default (PostTransactionRequest_transaction request) in
  PostTransaction_edit request now s = (so, Ret p) ->
  holds_exactly (qof s) now spec None ->
  header_shows (qof s) now spec p.2 /\
  Forall2 split_shows (Transaction_splits spec) (Transaction_splits p.2).
Proof.
  intros spec Hrun Hexact.
  destruct (post_applied _ _ _ _ _ Hrun Hexact) as (plan & b & Hplan & Hs & Hnone & Hap & ->).
  destruct (plan_of_nothing _ _ _ _ Hplan) as [Hno _].
  eapply plan_applied_shows in Hap as (_ & Hh & l & _ & Hall & Hl);
    [|exact Hplan|done|rewrite Hno; by intros x ?%not_elem_of_nil|apply Hexact].
  split; [done|]. by rewrite <- Hl.
Qed.

(** An update that the engine can hold replaces the transaction by the request:
    same GUID, the fields of the request, and - once the doomed splits are gone -
    exactly its splits; a split sent with a GUID keeps it. *)
Lemma update_shows request now s so p :
  let spec := or_default Transaction_default (UpdateTransactionRequest_transaction request) in
  UpdateTransaction_edit request now s = (so, Ret p) ->
  tidy (qof s) p.1 -> holds_exactly (qof s) now spec (Some p.1) ->
  string_to_guid (c_str (Transaction_guid spec)) = string_to_guid (Transaction_guid p.2) /\
  header_shows (qof s) now spec p.2 /\
  exists l, l ≡ₚ Transaction_splits p.2 /\
    Forall2 split_shows (Transaction_splits spec) l.
Proof.
  intros spec Hrun Htidy Hexact.
  destruct (update_applied _ _ _ _ _ Hrun Htidy Hexact)
    as (plan & b & Hplan & Hs & Hx & Hbg & Hap & -> & context & Hfind).
  eapply plan_applied_shows in Hap as (Htg & Hh & l & Hl & Hall & _);
    [|exact Hplan|done| |apply Hexact].
  - subst spec. split_and!; [|done|by exists l].
    rewrite Htg, Hbg. apply FindTransaction_inr in Hfind as (g & -> & Hg').
    apply trans_lookup_guid in Hg' as ->. symmetry. apply string_to_guid_to_string.
  - intros x _. specialize (Hx x). by injection Hx.
Qed.
End splits.

(** ** Accounts *)
Section accounts.
Context `{SessionEnv} `{!GncUnits} `{!GncAccountEditsOk} `{!GncCalendarOk}.
Context `{!GncValuesOk} `{!GncLookupOk}.
Implicit Types (s : Session).

(** An account of a response is the account of the request. *)
Record account_shows (b : Book) (spec out : Account) : Prop := {
  as_parent : string_to_guid (c_str (Account_parent_guid spec)) =
    string_to_guid (Account_parent_guid out);
  as_name : Account_name out = c_str (Account_name spec);
  as_type : Account_type out = Account_type spec;
  as_commodity : exists c,
    FindCommodity b (or_default CommodityId_default (Account_commodity spec))
      "account.commodity" = inr c /\
    Account_commodity out = Some (CommodityIdToProto b c);
  as_code : Account_code out = c_str (Account_code spec);
  as_description : Account_description out = c_str (Account_description spec);
  as_placeholder : Account_placeholder out = Account_placeholder spec;
  as_hidden : Account_hidden out = Account_hidden spec;
}.

(** The setters of a request. *)
Definition fill_account (a : AccountPtr) (type : GNCAccountType) (c : CommodityPtr)
    (spec : Account) (b : Book) : Book :=
  xaccAccountSetHidden a (Account_hidden spec)
    (xaccAccountSetPlaceholder a (Account_placeholder spec)
       (xaccAccountSetDescription a (c_str (Account_description spec))
          (xaccAccountSetCode a (c_str (Account_code spec))
             (xaccAccountSetCommodity a c
                (xaccAccountSetType a type
                   (xaccAccountSetName a (c_str (Account_name spec)) b)))))).

Lemma fill_account_applied a type c spec b :
  let b' := fill_account a type c spec b in
  scenery b b' /\
  see_acct b' a =
    MkAccountImage (account_guid b a) (gnc_account_get_parent b a)
      (c_str (Account_name spec)) type (Some c) (c_str (Account_code spec))
      (c_str (Account_description spec)) (Account_placeholder spec) (Account_hidden spec).
Proof.
  split.
  - assert (forall b0 b1 b2, scenery b0 b1 -> account_call a (fun _ => True) b1 b2 ->
      scenery b0 b2) as Hstep.
    { intros b0 b1 b2 Hs Hcall. etransitivity; [exact Hs|].
      by apply (account_call_frame a _ _ _ Hcall). }
    unfold fill_account. do 7 (eapply Hstep; [|by constructor]). reflexivity.
  - unfold fill_account.
    by rewrite set_acct_hidden, set_acct_placeholder, set_acct_description,
      set_acct_code, set_acct_commodity, set_acct_type, set_acct_name.
Qed.

(** An account filled from the request and put under its parent. *)
Lemma account_filled_shows a parent type c spec b0 b b' :
  FindAccount b0 (Account_parent_guid spec) "account.parent_guid" = inr parent ->
  AccountTypeFromProto (Account_type spec) "account.type" = inr type ->
  FindCommodity b0 (or_default CommodityId_default (Account_commodity spec))
    "account.commodity" = inr c ->
  account_guid b parent = account_guid b0 parent ->
  (forall c, CommodityIdToProto b c = CommodityIdToProto b0 c) ->
  scenery b b' ->
  see_acct b' a =
    MkAccountImage (account_guid b a) (Some parent) (c_str (Account_name spec)) type
      (Some c) (c_str (Account_code spec)) (c_str (Account_description spec))
      (Account_placeholder spec) (Account_hidden spec) ->
  account_shows b0 spec (AccountToProto b' a).
Proof.
  intros Hparent Htype Hc Hpg Hcid Hs Hi.
  injection Hi as _ Hip Hin Hit Hic Hico Hid Hipl Hih.
  apply FindAccount_inr in Hparent as (g & Hparse & Hl). apply account_lookup_guid in Hl.
  pose proof (account_type_roundtrip (Account_type spec) "account.type") as Hround.
  rewrite Htype in Hround. destruct Hround as [Hround _].
  split; cbn.
  - rewrite Hip, (sc_account _ _ Hs), Hpg, Hl, Hparse. symmetry.
    apply string_to_guid_to_string.
  - exact Hin.
  - by rewrite Hit.
  - exists c. split; [done|]. rewrite Hic. cbn. by rewrite (sc_commodity _ _ Hs), Hcid.
  - exact Hico.
  - exact Hid.
  - exact Hipl.
  - exact Hih.
Qed.

Lemma create_account_shows request now s so p :
  let spec := or_default Account_default (CreateAccountRequest_account request) in
  CreateAccount_edit request now s = (so, Ret p) ->
  account_shows (qof s) spec p.2.
Proof.
  cbv zeta. unfold CreateAccount_edit. intros Hrun. run_inv Hrun. cbn [snd].
  match goal with
  | Hp : FindAccount _ _ _ = inr ?par, Ht : AccountTypeFromProto _ _ = inr ?ty,
    Hco : FindCommodity _ _ _ = inr ?com, Hm : xaccMallocAccount _ = (?a, ?b) |- _ =>
      rename Hp into Hparent, Ht into Htype, Hco into Hc, Hm into Hmalloc,
        par into parent, ty into type, com into c, a into acc, b into b1
  end.
  destruct (malloc_account_frame _ _ _ Hmalloc) as (Hg1 & Hc1 & Hnew).
  destruct (begin_account_frame acc b1) as [Hs2 Hi2].
  set (b2 := xaccAccountBeginEdit acc b1) in *.
  cbn [qof set_qof] in *.
  set (spec := or_default Account_default (CreateAccountRequest_account request)) in *.
  match goal with |- account_shows _ _ (AccountToProto ?b _) =>
    change b with (gnc_account_append_child parent acc (fill_account acc type c spec b2)) end.
  destruct (fill_account_applied acc type c spec b2) as [Hs3 Hi3].
  set (b3 := fill_account acc type c spec b2) in *.
  assert (scenery b3 (gnc_account_append_child parent acc b3)) as Hs4
    by exact (account_call_frame _ (fun _ => True) _ _ (call_append _ _ parent b3)).
  apply (account_filled_shows acc parent type c spec (qof s) b2); try done.
  - rewrite (sc_account _ _ Hs2). apply Hg1. intros ->.
    apply FindAccount_inr in Hparent as (g & _ & Hl). by apply Hnew in Hl.
  - intros c'. by rewrite (sc_commodity _ _ Hs2), Hc1.
  - by etransitivity.
  - by rewrite set_acct_parent, Hi3.
Qed.

(** The account is moved only when its parent changes. *)
Definition put_under (parent a : AccountPtr) (b : Book) : Book :=
  if decide (Some parent = gnc_account_get_parent b a) then b
  else gnc_account_append_child parent a b.

Lemma put_under_applied parent a b :
  let i := see_acct b a in
  scenery b (put_under parent a b) /\
  see_acct (put_under parent a b) a =
    MkAccountImage (ai_guid i) (Some parent) (ai_name i) (ai_type i) (ai_commodity i)
      (ai_code i) (ai_description i) (ai_placeholder i) (ai_hidden i).
Proof.
  unfold put_under. destruct (decide _) as [E|_].
  - split; [done|]. unfold see_acct. cbn. by rewrite E.
  - split; [|apply set_acct_parent].
    exact (account_call_frame _ (fun _ => True) _ _ (call_append _ _ parent b)).
Qed.

Lemma UpdateAccount_book request now s so p :
  let spec := or_default Account_default (UpdateAccountRequest_account request) in
  UpdateAccount_edit request now s = (so, Ret p) ->
  exists parent type c,
    FindAccount (qof s) (Account_guid spec) "account.guid" = inr p.1 /\
    FindAccount (qof s) (Account_parent_guid spec) "account.parent_guid" = inr parent /\
    AccountTypeFromProto (Account_type spec) "account.type" = inr type /\
    FindCommodity (qof s) (or_default CommodityId_default (Account_commodity spec))
      "account.commodity" = inr c /\
    qof so = put_under parent p.1 (fill_account p.1 type c spec
      (xaccAccountBeginEdit p.1 (qof s))) /\
    p.2 = AccountToProto (qof so) p.1.
Proof.
  cbv zeta. unfold UpdateAccount_edit. intros Hrun. run_inv Hrun. cbn [fst snd].
  repeat match goal with
  | Hc : CheckNoCycle _ _ _ _ = _ |- _ => apply CheckNoCycle_here in Hc as ->
  | Hc : CheckIsNotRoot _ _ _ _ = _ |- _ => apply throw_if_ret in Hc as [-> _]
  end.
  cbn [qof set_qof] in *.
  match goal with
  | Hp : (if decide (Some ?par = _) then _ else _) _ = (?s3, _),
    Ht : AccountTypeFromProto _ _ = inr ?ty, Hco : FindCommodity _ _ _ = inr ?com |- _ =>
      exists par, ty, com; unfold put_under; destruct (decide _) as [E|E] in Hp;
      run_inv Hp
  end.
  all: cbn [qof set_qof] in *; split_and!; try done.
  all: by destruct (decide _) as [E'|E']; [|].
Qed.

Lemma update_account_shows request now s so p :
  let spec := or_default Account_default (UpdateAccountRequest_account request) in
  UpdateAccount_edit request now s = (so, Ret p) ->
  string_to_guid (c_str (Account_guid spec)) = string_to_guid (Account_guid p.2) /\
  account_shows (qof s) spec p.2.
Proof.
  cbv zeta. intros (parent & type & c & Hself & Hparent & Htype & Hc & Hso & ->)%UpdateAccount_book.
  set (spec := or_default Account_default (UpdateAccountRequest_account request)) in *.
  destruct p as [acc out]. cbn [fst] in *. rewrite Hso. clear Hso out so.
  destruct (begin_account_frame acc (qof s)) as [Hs2 Hi2].
  set (b2 := xaccAccountBeginEdit acc (qof s)) in *.
  destruct (fill_account_applied acc type c spec b2) as [Hs3 Hi3].
  set (b3 := fill_account acc type c spec b2) in *.
  destruct (put_under_applied parent acc b3) as [Hs4 Hi4].
  rewrite Hi3 in Hi4. cbn in Hi4. split.
  - injection Hi4 as Hg _ _ _ _ _ _ _ _. cbn.
    rewrite Hg, (sc_account _ _ Hs2).
    apply FindAccount_inr in Hself as (g & -> & Hl). apply account_lookup_guid in Hl as ->.
    symmetry. apply string_to_guid_to_string.
  - apply (account_filled_shows acc parent type c spec (qof s) b2); try done.
    + apply Hs2.
    + apply Hs2.
    + by etransitivity.
Qed.

Lemma set_reconcile_info_shows request now s so p :
  SetReconcileInfo_edit request now s = (so, Ret p) ->
  (forall d, SetReconcileInfoRequest_last_date request = Some d ->
     (1400 <= Date_year d <= 9999)%Z) ->
  ReconcileInfo_last_date p.2 = SetReconcileInfoRequest_last_date request.
Proof.
  unfold SetReconcileInfo_edit. intros Hrun Hyear. run_inv Hrun. cbn.
  rewrite set_reconcile_date. cbn.
  match goal with Hdate : DateFromProto _ _ = inr _ |- _ =>
    apply DateFromProto_inr in Hdate as (Hv & Hday & Hy) end.
  destruct (SetReconcileInfoRequest_last_date request) as [d|]; [|done]. cbn in *.
  rewrite neutral_day by (split; [done|]; rewrite Hy; by apply Hyear).
  unfold date_field in Hday. by rewrite Hv in Hday.
Qed.

(** C10: Account requests are shown: a created account is the one requested, under
    the parent it names; an update keeps the GUID, replaces every field and moves
    the account under the parent it names; a reconciliation date in the engine's
    calendar - the years 1400 to 9999 - reads back. *)
Theorem account_shows_request now s so :
  (forall request p,
     CreateAccount_edit request now s = (so, Ret p) ->
     account_shows (qof s)
       (or_default Account_default (CreateAccountRequest_account request)) p.2) /\
  (forall request p,
     let spec := or_default Account_default (UpdateAccountRequest_account request) in
     UpdateAccount_edit request now s = (so, Ret p) ->
     string_to_guid (c_str (Account_guid spec)) = string_to_guid (Account_guid p.2) /\
     account_shows (qof s) spec p.2) /\
  (forall request p,
     SetReconcileInfo_edit request now s = (so, Ret p) ->
     (forall d, SetReconcileInfoRequest_last_date request = Some d ->
        (1400 <= Date_year d <= 9999)%Z) ->
     ReconcileInfo_last_date p.2 = SetReconcileInfoRequest_last_date request).
Proof.
  split_and!; intros request p.
  - apply create_account_shows.
  - apply update_account_shows.
  - apply set_reconcile_info_shows.
Qed.
End accounts.

(** ** Prices *)
Section prices.
Context `{SessionEnv} `{!GncUnits} `{!GncPriceEditsOk} `{!GncCalendarOk} `{!GncValuesOk}.
Implicit Types (s : Session).

(** A price of a response is the price of the request. *)
Record price_shows (b : Book) (spec out : Price) : Prop := {
  ps_commodity : exists c,
    FindCommodity b (or_default CommodityId_default (Price_commodity spec))
      "price.commodity" = inr c /\ Price_commodity out = Some (CommodityIdToProto b c);
  ps_currency : exists c,
    FindCommodity b (or_default CommodityId_default (Price_currency spec))
      "price.currency" = inr c /\ Price_currency out = Some (CommodityIdToProto b c);
  ps_date : Price_date out = Price_date spec;
  ps_value : Price_value out = Price_value spec;
  ps_source : Price_source out =
    (if decide (Price_source spec = "") then "shim:api" else c_str (Price_source spec));
}.

Definition fill_price (p : PricePtr) (commodity currency : CommodityPtr) (time : Z)
    (value : gnc_numeric) (source : string) (b : Book) : Book :=
  gnc_price_set_source_string p source
    (gnc_price_set_value p value
       (gnc_price_set_time64 p time
          (gnc_price_set_currency p currency
             (gnc_price_set_commodity p commodity b)))).

Lemma fill_price_applied p commodity currency time value source b :
  known_source source ->
  let b' := fill_price p commodity currency time value source b in
  scenery b b' /\
  see_pr b' p =
    MkPriceImage (gnc_price_get_guid b p) commodity currency time value source.
Proof.
  intros Hk. split.
  - assert (forall b0 b1 b2, scenery b0 b1 -> price_call p b1 b2 -> scenery b0 b2) as Hstep.
    { intros b0 b1 b2 Hs Hcall. etransitivity; [exact Hs|].
      apply (price_frame p). by left. }
    unfold fill_price. do 5 (eapply Hstep; [|by constructor]). reflexivity.
  - unfold fill_price.
    by rewrite set_price_source, set_price_value, set_price_time, set_price_currency,
      set_price_commodity.
Qed.

(** Adding a price shows the request, when the engine knows its source. *)
Theorem add_price_shows_request request now s so p :
  let spec := or_default Price_default (AddPriceRequest_price request) in
  AddPrice_edit request now s = (so, Ret p) ->
  (forall d, Price_date spec = Some d -> (1400 <= Date_year d <= 9999)%Z) ->
  known_source (if decide (Price_source spec = "") then "shim:api"
                else c_str (Price_source spec)) ->
  price_shows (qof s) spec p.2.
Proof.
  cbv zeta. unfold AddPrice_edit. intros Hrun Hyear Hk. run_inv Hrun. cbn [snd].
  match goal with
  | Hc : FindCommodity _ _ "price.commodity" = inr ?c1,
    Hu : FindCommodity _ _ "price.currency" = inr ?c2, Hd : DateFromProto _ _ = inr ?d1,
    Hv : NumericFromProto _ _ = inr ?v1, Hm : gnc_price_create _ = (?p1, ?b) |- _ =>
      rename Hc into Hcom, Hu into Hcur, Hd into Hdate, Hv into Hval, Hm into Hcreate,
        c1 into com, c2 into cur, d1 into day, v1 into val, p1 into pr, b into b1
  end.
  cbn [qof set_qof] in *. set (b2 := gnc_price_begin_edit pr b1) in *.
  assert (scenery (qof s) b2) as Hs2.
  { etransitivity; apply (price_frame pr); eauto. }
  set (spec := or_default Price_default (AddPriceRequest_price request)) in *.
  apply DateFromProto_inr in Hdate as (Hv & Hday & Hy).
  destruct (Price_date spec) as [d|] eqn:Hpd; [|done]. cbn in Hday, Hy.
  pose proof (neutral_day day) as Hneutral.
  match goal with |- price_shows _ _ (PriceToProto ?b _) =>
    change b with (fill_price pr com cur (gnc_dmy2time64_neutral (g_date_get_day day)
      (g_date_get_month day) (g_date_get_year day)) val
      (if decide (Price_source spec = "") then "shim:api" else c_str (Price_source spec)) b2)
  end.
  match goal with |- price_shows _ _ (PriceToProto (fill_price _ _ _ ?t _ ?so _) _) =>
    destruct (fill_price_applied pr com cur t val so b2 Hk) as [Hs3 Hi];
    set (b3 := fill_price pr com cur t val so b2) in * end.
  injection Hi as _ Hic Hiu Hit Hiv His.
  assert (scenery (qof s) b3) as Hs by by etransitivity.
  apply NumericFromProto_inr in Hval as [Hval Hpos].
  split; cbn.
  - exists com. by rewrite Hic, (sc_commodity _ _ Hs).
  - exists cur. by rewrite Hiu, (sc_commodity _ _ Hs).
  - rewrite Hit, Hneutral, Hpd; [done|]. split; [done|]. rewrite Hy. by apply Hyear.
  - rewrite Hiv. symmetry. by apply or_default_numeric.
  - exact His.
Qed.
End prices.
