(* ===== verification/Balanced.v ===== *)
(** * Requests the engine takes as they are

    [fits] of [Contract.v] asks that a posted or updated transaction is balanced
    for the engine, which rounds values to the units of the currency and adds
    them up in 64 bits. Here that follows from the request: the balance check of
    [PlanTransaction] is exact, and values that are whole numbers of units stay
    what they are. *)
From Stdlib Require Import QArith Qabs.
From S2P Require Import Prelude.
From S2P Require Import Messages.
From S2P Require Import Engine.
From S2P Require Import Errors.
From S2P Require Import Map.
From S2P Require Import Session.
From S2P Require Import Mutation.
From S2P Require Import Rpc.
From S2P Require Import Accounts.
From S2P Require Import Transactions.
From S2P Require Import Contract.
From S2P Require Import Edits.
Local Close Scope Q_scope.

(** ** Sums of whole units *)
Definition zsum (l : list Z) : Z := foldr Z.add 0%Z l.

#[export] Instance zsum_perm : Proper ((≡ₚ) ==> eq) zsum.
Proof.
  intros l l' Hl. unfold zsum. apply foldr_permutation; try apply _; [|done].
  intros. lia.
Qed.

(** The size of a request's values, all counted as positive. *)
Definition spec_size (specs : list Split) : Q :=
  foldr (fun s q => (Qabs (spec_value s) + q)%Q) 0%Q specs.

Section units.
Context `{GncValues}.

(** [v] is the value of [spec] in units of 1/[u]. *)
Definition in_units (u : Z) (spec : Split) (v : gnc_numeric) : Prop :=
  denom v = u /\ (gnc_value v == spec_value spec)%Q.

Lemma unit_value u n : (0 < u)%Z -> ((n # Z.to_pos u) * inject_Z u == inject_Z n)%Q.
Proof.
  intros Hu. unfold Qeq, Qmult, inject_Z. cbn.
  rewrite Pos.mul_1_r, Z2Pos.id by done. ring.
Qed.

Lemma units_sum u specs vs :
  (0 < u)%Z -> Forall2 (in_units u) specs vs ->
  (inject_Z (zsum (num <$> vs)) == spec_sum specs * inject_Z u)%Q /\
  (inject_Z (zsum (Z.abs ∘ num <$> vs)) == spec_size specs * inject_Z u)%Q.
Proof.
  intros Hu. induction 1 as [|spec v specs vs [Hd Hv] _ [IH1 IH2]]; [by split|].
  cbn -[Qabs spec_value]. rewrite !inject_Z_plus. split.
  - rewrite IH1, Qmult_plus_distr_l, <- Hv, gnc_value_pos, Hd by lia.
    by rewrite unit_value.
  - fold (spec_size specs). rewrite IH2, Qmult_plus_distr_l, <- Hv, gnc_value_pos, Hd by lia.
    change (Qabs (num v # Z.to_pos u)) with (Z.abs (num v) # Z.to_pos u)%Q.
    by rewrite unit_value.
Qed.
End units.

(** ** The engine's own balance check

    [xaccTransGetImbalanceValue] adds up the values of the splits that are not
    being destroyed; over one denominator, and within 64 bits, that is exact. *)
Class GncImbalanceOk `{GncUnits} : Prop := {
  imbalance_of_units : forall b t u,
    let vs := xaccSplitGetValue b <$> kept_splits b t in
    (0 < u < 2 ^ 63)%Z -> Forall (fun v => denom v = u) vs ->
    (zsum (Z.abs ∘ num <$> vs) < 2 ^ 63)%Z -> zsum (num <$> vs) = 0%Z ->
    gnc_numeric_zero_p (xaccTransGetImbalanceValue b t) = true;
}.

Section balanced.
Context `{SessionEnv} `{!GncUnits} `{!GncTransEditsOk} `{!GncImbalanceOk}.
Context `{!GncValuesOk} `{!GncLookupOk}.
Implicit Types (s : Session).

(** The values of the request add up within 64 bits of the currency's units. *)
Definition sums_within (b : Book) (c : CommodityPtr) (specs : list Split) : Prop :=
  let u := gnc_commodity_get_fraction b c in
  (0 < u < 2 ^ 63)%Z /\ (spec_size specs * inject_Z u < inject_Z (2 ^ 63))%Q.

(** The engine can hold the transaction exactly, and add it up. *)
Definition exact_request (b : Book) (now : Z) (spec : Transaction)
    (ex : option TransactionPtr) : Prop :=
  holds_exactly b now spec ex /\
  forall plan, PlanTransaction b now spec ex = inr plan ->
    sums_within b (currency plan) (Transaction_splits spec).

(** A plan in the engine is as balanced as the request was found to be. *)
Lemma plan_applied_balanced t now spec ex plan b0 b b' :
  PlanTransaction b0 now spec ex = inr plan -> scenery b0 b ->
  plan_applied t plan b b' ->
  sums_within b0 (currency plan) (Transaction_splits spec) ->
  engine_balanced b' t.
Proof.
  intros Hplan Hs [_ _ (xs & Hall & _ & Hkept & _)] [Hu Hsize].
  pose proof (plan_sums_zero _ _ _ _ _ Hplan) as Hzero.
  apply PlanTransaction_shows in Hplan.
  rewrite (sc_fraction _ _ Hs) in Hall. set (u := gnc_commodity_get_fraction b0 _) in *.
  assert (Forall2 (in_units u) (Transaction_splits spec) (xaccSplitGetValue b' <$> xs))
    as Hvs.
  { rewrite Forall2_fmap_r. eapply Forall2_trans; [|exact Hplan|exact Hall].
    cbn. intros sp p x [Hpm _] [Ha _]. split; [apply Ha|].
    by rewrite (sa_value _ _ _ _ _ Ha), (spec_value_plan _ _ _ Hpm). }
  destruct (units_sum u _ _ (proj1 Hu) Hvs) as [Hsum Habs].
  apply (imbalance_of_units b' t u Hu).
  - rewrite Hkept. eapply Forall2_Forall_r; [exact Hvs|].
    apply Forall_forall. by intros sp _ v [].
  - rewrite Hkept. by rewrite Zlt_Qlt, Habs.
  - rewrite Hkept. rewrite Hzero, Qmult_0_l in Hsum.
    apply inject_Z_injective. exact Hsum.
Qed.

Lemma update_finds request now s so p :
  UpdateTransaction_edit request now s = (so, Ret p) ->
  exists context, FindTransaction (qof s)
    (Transaction_guid
       (or_default Transaction_default (UpdateTransactionRequest_transaction request)))
    context = inr p.1.
Proof.
  unfold UpdateTransaction_edit. intros Hrun. run_inv Hrun. cbn [fst].
  by eexists; eassumption.
Qed.

Lemma post_balanced request now s so p :
  let spec := or_default Transaction_default (PostTransactionRequest_transaction request) in
  PostTransaction_edit request now s = (so, Ret p) -> exact_request (qof s) now spec None ->
  engine_balanced (qof so) p.1.
Proof.
  intros spec Hrun [Hh Hsums].
  destruct (post_applied _ _ _ _ _ Hrun Hh) as (plan & b & Hplan & Hs & _ & Hap & _).
  eapply plan_applied_balanced; [exact Hplan|exact Hs|exact Hap|by apply Hsums].
Qed.

Lemma update_balanced request now s so p :
  let spec := or_default Transaction_default (UpdateTransactionRequest_transaction request) in
  UpdateTransaction_edit request now s = (so, Ret p) ->
  tidy (qof s) p.1 -> exact_request (qof s) now spec (Some p.1) ->
  engine_balanced (qof so) p.1.
Proof.
  intros spec Hrun Htidy [Hh Hsums].
  destruct (update_applied _ _ _ _ _ Hrun Htidy Hh)
    as (plan & b & Hplan & Hs & _ & _ & Hap & _).
  eapply plan_applied_balanced; [exact Hplan|exact Hs|exact Hap|by apply Hsums].
Qed.

Lemma plan_of_ret {P Resp} (prep : Z -> Prog Session (P * Resp)) commit now s so p :
  prep now s = (so, Ret p) ->
  plan_of prep commit now s = Proceed p.2 so (set_qof (commit p.1 (qof so)) so).
Proof. unfold plan_of. by intros ->. Qed.

(** What a commit left in a session at rest is stored. *)
Lemma seen_stored `{!GncStore} `{!GncStoreOk} sc g out :
  at_rest sc -> see_transaction (qof sc) g = Some out ->
  see_transaction (book_load (book_store (qof sc))) g = Some out.
Proof.
  intros Hrest%at_rest_clean <-.
  destruct (clean_looks _ Hrest) as [[_ _ Ht _] _]. apply Ht.
Qed.

(** C9: A request whose numbers the engine can hold fits: when its date is in the
    engine's calendar, its values and quantities are whole numbers of the units of
    the currency and the accounts, its sums stay in 64 bits and - for an update - the
    old transaction is tidy, no posted or updated transaction that passes
    [PlanTransaction] is unbalanced for the engine. What [fits] asks of the engine's
    edit follows from the request and the book before it. *)
Theorem exact_transactions_fit `{!GncStore} s :
  has_room (qof s) ->
  (forall request,
     let spec := or_default Transaction_default
                   (PostTransactionRequest_transaction request) in
     (forall now, exact_request (qof s) now spec None) ->
     fits (RPostTransaction request) s) /\
  (forall request,
     let spec := or_default Transaction_default
                   (UpdateTransactionRequest_transaction request) in
     (forall now t context,
        FindTransaction (qof s) (Transaction_guid spec) context = inr t ->
        tidy (qof s) t /\ exact_request (qof s) now spec (Some t)) ->
     fits (RUpdateTransaction request) s).
Proof.
  intros Hroom. split; intros request spec Hexact _; (split; [done|]); intros now so p Hrun.
  - by eapply post_balanced.
  - destruct (update_finds _ _ _ _ _ Hrun) as [context Hfind].
    destruct (Hexact now _ _ Hfind). by eapply update_balanced.
Qed.

(** C7: A post whose date is in the engine's calendar and whose values and quantities
    are whole numbers of the units of the currency and the accounts
    ([holds_exactly]) is answered with the transaction of the request: its
    currency, date, times and texts, and its splits in order, every one with the
    account, the exact value and quantity, the texts and the reconcile state that
    were asked for. When moreover the session is at rest and the values add up in
    64 bits, what is stored under the new GUID is what was answered. *)
Theorem post_shows_request `{!GncStore} `{!GncStoreOk} request now s so t out :
  let spec := or_default Transaction_default (PostTransactionRequest_transaction request) in
  let committed := xaccTransCommitEdit t (qof so) in
  PostTransaction_edit request now s = (so, Ret (t, out)) ->
  holds_exactly (qof s) now spec None ->
  header_shows (qof s) now spec out /\
  Forall2 split_shows (Transaction_splits spec) (Transaction_splits out) /\
  (at_rest s -> has_room (qof s) -> exact_request (qof s) now spec None ->
   exists g, Transaction_guid out = GuidToString g /\ xaccTransLookup (qof s) g = None /\
     see_transaction (book_load (book_store committed)) g = Some out).
Proof.
  intros spec committed Hrun Hh.
  destruct (post_shows _ _ _ _ _ Hrun Hh) as [Hhead Hsplits]. split_and!; [done..|].
  intros Hs Hroom Hexact.
  pose proof (plan_of_ret _ xaccTransCommitEdit _ _ _ _ Hrun) as Hp.
  apply PostTransaction_commits in Hp as (g & Hg & Hsc & _ & Hn & Hsee & _); [|done..|].
  - exists g. split_and!; [done..|]. by apply (seen_stored (set_qof committed so)).
  - intros so' p Hrun'. rewrite Hrun in Hrun'. injection Hrun' as <- <-.
    by apply (post_balanced _ _ _ _ _ Hrun).
Qed.

(** C8: An update whose date is in the engine's calendar and whose values and
    quantities are whole numbers of the units of the currency and the accounts
    ([holds_exactly]), of a transaction whose splits are its own, alive and of
    different GUIDs ([tidy]), is answered with the transaction of the request under
    the same GUID: the fields of the request, and exactly its splits with nothing
    of the old ones left; a split sent with a GUID keeps it. When moreover the
    session is at rest and the values add up in 64 bits, what is stored is what
    was answered. *)
Theorem update_shows_request `{!GncStore} `{!GncStoreOk} request now s so t out :
  let spec := or_default Transaction_default (UpdateTransactionRequest_transaction request) in
  let committed := xaccTransCommitEdit t (qof so) in
  UpdateTransaction_edit request now s = (so, Ret (t, out)) ->
  tidy (qof s) t -> holds_exactly (qof s) now spec (Some t) ->
  string_to_guid (c_str (Transaction_guid spec)) = string_to_guid (Transaction_guid out) /\
  header_shows (qof s) now spec out /\
  (exists l, l ≡ₚ Transaction_splits out /\ Forall2 split_shows (Transaction_splits spec) l) /\
  (at_rest s -> exact_request (qof s) now spec (Some t) ->
   exists g, Transaction_guid out = GuidToString g /\
     see_transaction (book_load (book_store committed)) g = Some out).
Proof.
  intros spec committed Hrun Htidy Hh.
  destruct (update_shows _ _ _ _ _ Hrun Htidy Hh) as (Hguid & Hhead & Hsplits).
  split_and!; [done..|]. intros Hs Hexact.
  pose proof (plan_of_ret _ xaccTransCommitEdit _ _ _ _ Hrun) as Hp.
  apply UpdateTransaction_commits in Hp as (g & Hg & Hsc & _ & Hsee & _); [|done|].
  - exists g. split; [done|]. by apply (seen_stored (set_qof committed so)).
  - intros so' p Hrun'. rewrite Hrun in Hrun'. injection Hrun' as <- <-.
    by apply (update_balanced _ _ _ _ _ Hrun).
Qed.
End balanced.
