(* ===== verification/MemoryEngine.v ===== *)
(** * An engine in memory

    A concrete instance of every engine class: numbers with 64-bit overflow,
    the proleptic Gregorian calendar, and a book of accounts, splits,
    transactions and prices held in finite maps, with the copy of it that the
    last commit stored. It satisfies the laws, so the theorems stated over them
    apply to it, and it runs, so the handlers can be evaluated on it. *)
From Stdlib Require Import QArith.
From S2P Require Import Prelude.
From S2P Require Import Messages.
From S2P Require Import Engine.
From S2P Require Import Session.
Local Close Scope Q_scope.
Local Open Scope Z_scope.

(** ** Values *)

(** A GUID is a text of 32 characters without a NUL. *)
Definition guid_text (s : string) : Prop := String.length s = 32%nat /\ c_str s = s.
#[local] Instance guid_text_dec s : Decision (guid_text s).
Proof. unfold guid_text. apply _. Defined.
Definition mem_guid : Type := dsig guid_text.

Definition mem_string_to_guid (s : string) : option mem_guid :=
  match decide (guid_text (c_str s)) with
  | left H => Some (dexist _ H)
  | right _ => None
  end.

Lemma c_str_idemp s : c_str (c_str s) = c_str s.
Proof.
  induction s as [|c s IH]; cbn; [done|]. destruct (Ascii.eqb c NUL) eqn:E; [done|].
  cbn. by rewrite E, IH.
Qed.

Lemma mem_guid_roundtrip (g : mem_guid) : mem_string_to_guid (proj1_sig g) = Some g.
Proof.
  unfold mem_string_to_guid. pose proof (proj2_dsig g) as [Hl Hc].
  destruct (decide _) as [H|[]]; [|by rewrite Hc]. f_equal. by apply dsig_eq.
Qed.

Definition zero_guid : mem_guid :=
  dexist "00000000000000000000000000000000" (conj eq_refl eq_refl).

(** The GUID given to the object numbered [n]: its 32 lowest decimal digits, the
    lowest first. *)
Definition digit (n : N) : ascii := ascii_of_N (48 + n mod 10).
Fixpoint digits (w : nat) (n : N) : string :=
  match w with
  | O => ""
  | S w => String (digit n) (digits w (n / 10))
  end.

Lemma digit_not_nul n : Ascii.eqb (digit n) NUL = false.
Proof.
  unfold digit. assert (n mod 10 < 10)%N as Hn by (apply N.mod_lt; lia).
  destruct (n mod 10)%N as [|p]; [done|]. do 4 (destruct p as [p|p|]; try done; try lia).
Qed.

Lemma digit_inj n m : digit n = digit m -> (n mod 10 = m mod 10)%N.
Proof.
  unfold digit. intros E%(f_equal N_of_ascii).
  assert (n mod 10 < 10)%N by (apply N.mod_lt; lia).
  assert (m mod 10 < 10)%N by (apply N.mod_lt; lia).
  rewrite !N_ascii_embedding in E by lia. lia.
Qed.

Lemma digits_text w n : String.length (digits w n) = w /\ c_str (digits w n) = digits w n.
Proof.
  revert n. induction w as [|w IH]; intros n; [done|]. destruct (IH (n / 10)%N) as [Hl Hc].
  cbn. rewrite digit_not_nul, Hl, Hc. done.
Qed.

Lemma digits_inj w n m :
  digits w n = digits w m -> (n < 10 ^ N.of_nat w)%N -> (m < 10 ^ N.of_nat w)%N -> n = m.
Proof.
  revert n m. induction w as [|w IH]; intros n m; [cbn; lia|].
  cbn [digits]. intros [= Hd%digit_inj Ht] Hn Hm.
  rewrite Nat2N.inj_succ, N.pow_succ_r' in Hn, Hm.
  apply IH in Ht; [|apply N.Div0.div_lt_upper_bound; lia..].
  rewrite (N.div_mod n 10), (N.div_mod m 10) by lia. congruence.
Qed.

Definition mint (n : nat) : mem_guid := dexist (digits 32 (N.of_nat n)) (digits_text _ _).

(** The numbers that have a GUID of their own. *)
Definition mintable (n : nat) : Prop := (N.of_nat n < 10 ^ 32)%N.

Lemma mint_inj n m : mint n = mint m -> mintable n -> mintable m -> n = m.
Proof.
  unfold mint. intros E%(f_equal proj1_sig) Hn Hm. cbn [proj1_sig dexist] in E.
  apply digits_inj in E; [|done..]. lia.
Qed.

(** *** Dates *)
Definition leap (y : Z) : bool :=
  (y mod 4 =? 0) && (negb (y mod 100 =? 0) || (y mod 400 =? 0)).
Definition days_in_month (m y : Z) : Z :=
  if m =? 2 then if leap y then 29 else 28
  else if bool_decide (m ∈ [4; 6; 9; 11]) then 30 else 31.
Definition mem_valid_dmy (d m y : Z) : bool :=
  (1 <=? y) && (1 <=? m) && (m <=? 12) && (1 <=? d) && (d <=? days_in_month m y).

(** Midnight of a day, on a calendar whose months all have 31 days. *)
Definition mem_midnight (d m y : Z) : Z := (((y * 12) + (m - 1)) * 31 + (d - 1)) * 86400.
Definition mem_gdate (t : Z) : Z * Z * Z :=
  let days := t / 86400 in
  (days mod 31 + 1, days / 31 mod 12 + 1, days / 372).

(** *** Numbers *)
Definition int64 (z : Z) : bool := (- 2 ^ 63 <=? z) && (z <? 2 ^ 63).
Definition num_ok (a : gnc_numeric) : bool := 0 <? denom a.
Definition num_error : gnc_numeric := gnc_numeric_create (-2) 0.

(** Over the least common denominator; an error when either operand is one or
    the result does not fit. *)
Definition mem_add (a b : gnc_numeric) : gnc_numeric :=
  if num_ok a && num_ok b then
    let d := Z.lcm (denom a) (denom b) in
    let n := num a * (d / denom a) + num b * (d / denom b) in
    if int64 n && int64 d then gnc_numeric_create n d else num_error
  else num_error.

(** [v] in whole units of 1/[unit], halves rounded up; [old] where that fails. *)
Definition mem_round (unit : Z) (v old : gnc_numeric) : gnc_numeric :=
  let n := (2 * (num v * unit) + denom v) / (2 * denom v) in
  if num_ok v && (0 <? unit) && int64 n then gnc_numeric_create n unit else old.

Definition mem_compare (a b : gnc_numeric) : Z :=
  match num a * denom b ?= num b * denom a with
  | Lt => -1 | Eq => 0 | Gt => 1
  end.

#[export] Instance mem_values : GncValues := {|
  GncGUID := mem_guid;
  string_to_guid := mem_string_to_guid;
  guid_to_string := proj1_sig;
  GDate := Z * Z * Z;
  g_date_valid_dmy := mem_valid_dmy;
  g_date_set_dmy d m y := (d, m, y);
  g_date_valid g := mem_valid_dmy g.1.1 g.1.2 g.2;
  g_date_get_day g := g.1.1;
  g_date_get_month g := g.1.2;
  g_date_get_year g := g.2;
  time64_to_gdate := mem_gdate;
  gnc_dmy2time64 := mem_midnight;
  gnc_dmy2time64_end d m y := mem_midnight d m y + 86399;
  gnc_dmy2time64_neutral d m y := mem_midnight d m y + 39540;
  gnc_numeric_add := mem_add;
  gnc_numeric_zero := gnc_numeric_create 0 1;
  gnc_numeric_ok := num_ok;
  gnc_numeric_zero_p a := num_ok a && (num a =? 0);
  gnc_numeric_compare := mem_compare;
  gnc_numeric_to_string a := pretty (num a) +:+ "/" +:+ pretty (denom a);
  GNCAccountType := Z;
  ACCT_TYPE_ASSET := 2; ACCT_TYPE_BANK := 0; ACCT_TYPE_CASH := 1;
  ACCT_TYPE_CREDIT := 3; ACCT_TYPE_LIABILITY := 4; ACCT_TYPE_EQUITY := 10;
  ACCT_TYPE_INCOME := 8; ACCT_TYPE_EXPENSE := 9; ACCT_TYPE_STOCK := 5;
  ACCT_TYPE_MUTUAL := 6; ACCT_TYPE_RECEIVABLE := 11; ACCT_TYPE_PAYABLE := 12;
  ACCT_TYPE_TRADING := 14; ACCT_TYPE_ROOT := 13;
  NREC := "n"%char; CREC := "c"%char; YREC := "y"%char; FREC := "f"%char;
  VREC := "v"%char;
  CLEARED_NO := 1; CLEARED_CLEARED := 2; CLEARED_RECONCILED := 4;
  CLEARED_FROZEN := 8; CLEARED_VOIDED := 16;
|}.

Lemma mem_add_ok a b :
  num_ok (mem_add a b) = true -> num_ok a = true /\ num_ok b = true.
Proof. unfold mem_add. destruct (num_ok a), (num_ok b); by cbn. Qed.

Lemma mem_add_exact a b :
  num_ok (mem_add a b) = true ->
  (gnc_value (mem_add a b) == gnc_value a + gnc_value b)%Q.
Proof.
  intros Hok. destruct (mem_add_ok _ _ Hok) as [Ha Hb]. revert Hok.
  unfold mem_add. rewrite Ha, Hb. cbn [andb]. destruct (_ && _); [|done]. intros _.
  unfold num_ok in Ha, Hb. apply Z.ltb_lt in Ha, Hb.
  destruct (Z.divide_lcm_l (denom a) (denom b)) as [x Hx].
  destruct (Z.divide_lcm_r (denom a) (denom b)) as [y Hy].
  assert (0 < Z.lcm (denom a) (denom b)) as Hd.
  { pose proof (Z.lcm_nonneg (denom a) (denom b)).
    assert (Z.lcm (denom a) (denom b) <> 0); [|lia].
    intros [|]%Z.lcm_eq_0; lia. }
  set (d := Z.lcm _ _) in *.
  assert (d / denom a = x) as -> by (rewrite Hx; apply Z.div_mul; lia).
  assert (d / denom b = y) as -> by (rewrite Hy; apply Z.div_mul; lia).
  rewrite !gnc_value_pos by done. unfold Qeq, Qplus. cbn [num denom Qnum Qden].
  rewrite Pos2Z.inj_mul, !Z2Pos.id by done.
  assert ((num a * x + num b * y) * (denom a * denom b) =
          num a * (x * denom a) * denom b + num b * (y * denom b) * denom a) as ->
    by ring.
  rewrite <- Hx, <- Hy. ring.
Qed.

#[export] Instance mem_values_ok : GncValuesOk.
Proof.
  split; cbn.
  - apply mem_guid_roundtrip.
  - intros g. apply (proj2_dsig g).
  - intros s. unfold mem_string_to_guid. by rewrite c_str_idemp.
  - intros n d Hd. unfold num_ok. by apply Z.ltb_lt.
  - done.
  - done.
  - intros a b _ _. apply mem_add_exact.
  - apply mem_add_ok.
  - intros a. rewrite andb_true_iff, Z.eqb_eq. split; intros [Ha Hz]; split; try done.
    + rewrite gnc_value_pos by by apply Z.ltb_lt. unfold Qeq. cbn. by rewrite Hz.
    + rewrite gnc_value_pos in Hz by by apply Z.ltb_lt. unfold Qeq in Hz. cbn in Hz. lia.
  - intros d m y Hv _ _ _. by rewrite Hv.
  - apply (bool_decide_unpack _). by vm_compute.
  - apply (bool_decide_unpack _). by vm_compute.
Qed.

(** ** The objects of a book *)
Record mem_commodity := MkMemCommodity {
  mc_space : string; mc_mnemonic : string; mc_fraction : Z; mc_currency : bool;
}.

(** The commodity table does not change. *)
Definition mem_commodities : list mem_commodity :=
  [MkMemCommodity "CURRENCY" "USD" 100 true;
   MkMemCommodity "CURRENCY" "JPY" 1 true;
   MkMemCommodity "NASDAQ" "ACME" 10000 false].
Definition nth_commodity (c : nat) : mem_commodity :=
  default (MkMemCommodity "" "" 1 false) (mem_commodities !! c).

Record mem_account := MkMemAccount {
  ma_guid : mem_guid; ma_parent : option nat; ma_name : string; ma_type : Z;
  ma_commodity : option nat; ma_code : string; ma_description : string;
  ma_placeholder : bool; ma_hidden : bool; ma_reconciled : option Z;
}.
Definition no_account : mem_account :=
  MkMemAccount zero_guid None "" 0 None "" "" false false None.

Record mem_split := MkMemSplit {
  ms_guid : mem_guid; ms_account : nat; ms_parent : option nat; ms_value : gnc_numeric;
  ms_amount : gnc_numeric; ms_memo : string; ms_action : string;
  ms_reconcile : ascii; ms_destroying : bool;
}.
Definition no_split : mem_split :=
  MkMemSplit zero_guid 0 None (gnc_numeric_create 0 1) (gnc_numeric_create 0 1) "" ""
    "n"%char false.

(** A split that was never put under a transaction reads as under the first. *)
Definition transaction_of_split (x : mem_split) : nat := default O (ms_parent x).

Record mem_transaction := MkMemTransaction {
  mt_guid : mem_guid; mt_currency : option nat; mt_posted : Z * Z * Z;
  mt_entered : Z; mt_num : string; mt_description : string; mt_destroying : bool;
}.
Definition no_transaction : mem_transaction :=
  MkMemTransaction zero_guid None (0, 0, 0) 0 "" "" false.

Record mem_price := MkMemPrice {
  mp_guid : mem_guid; mp_commodity : nat; mp_currency : nat; mp_time : Z;
  mp_value : gnc_numeric; mp_source : string; mp_listed : bool;
}.
Definition no_price : mem_price :=
  MkMemPrice zero_guid 0 0 0 (gnc_numeric_create 0 1) "" false.

Record contents := MkContents {
  c_root : nat;
  c_accounts : gmap nat mem_account;
  c_splits : gmap nat mem_split;
  c_transactions : gmap nat mem_transaction;
  c_prices : gmap nat mem_price;
}.

(** The objects in memory, what the last commit stored, and the session's
    error. *)
Record mem_book := MkMemBook {
  b_mem : contents;
  b_disk : contents;
  b_locked : bool;  (** by another process *)
  b_error : Z;
}.

Definition on_mem (f : contents -> contents) (b : mem_book) : mem_book :=
  MkMemBook (f (b_mem b)) (b_disk b) (b_locked b) (b_error b).
Definition mem_commit (b : mem_book) : mem_book :=
  MkMemBook (b_mem b) (b_mem b) (b_locked b) (b_error b).
Definition with_error (e : Z) (b : mem_book) : mem_book :=
  MkMemBook (b_mem b) (b_disk b) (b_locked b) e.

Definition on_accounts (f : gmap nat mem_account -> gmap nat mem_account)
    : mem_book -> mem_book :=
  on_mem (fun c => MkContents (c_root c) (f (c_accounts c)) (c_splits c)
                     (c_transactions c) (c_prices c)).
Definition on_splits (f : gmap nat mem_split -> gmap nat mem_split)
    : mem_book -> mem_book :=
  on_mem (fun c => MkContents (c_root c) (c_accounts c) (f (c_splits c))
                     (c_transactions c) (c_prices c)).
Definition on_transactions (f : gmap nat mem_transaction -> gmap nat mem_transaction)
    : mem_book -> mem_book :=
  on_mem (fun c => MkContents (c_root c) (c_accounts c) (c_splits c)
                     (f (c_transactions c)) (c_prices c)).
Definition on_prices (f : gmap nat mem_price -> gmap nat mem_price)
    : mem_book -> mem_book :=
  on_mem (fun c => MkContents (c_root c) (c_accounts c) (c_splits c)
                     (c_transactions c) (f (c_prices c))).

Definition acct (b : mem_book) (a : nat) : mem_account :=
  default no_account (c_accounts (b_mem b) !! a).
Definition spl (b : mem_book) (s : nat) : mem_split :=
  default no_split (c_splits (b_mem b) !! s).
Definition txn (b : mem_book) (t : nat) : mem_transaction :=
  default no_transaction (c_transactions (b_mem b) !! t).
Definition prc (b : mem_book) (p : nat) : mem_price :=
  default no_price (c_prices (b_mem b) !! p).

(** *** Lookups and searches *)
Definition keys_of {A} (P : A -> bool) (m : gmap nat A) : list nat :=
  merge_sort le (filter (fun kv : nat * A => P kv.2 = true) (map_to_list m)).*1.

Definition find_key {A} (P : A -> bool) (m : gmap nat A) : option nat :=
  head (keys_of P m).

(** The object with a GUID, among those that count. *)
Definition by_guid {A} (guid : A -> mem_guid) (ok : A -> bool) (m : gmap nat A)
    (g : mem_guid) : option nat :=
  find_key (fun x => bool_decide (guid x = g) && ok x) m.

Lemma elem_of_keys_of {A} (P : A -> bool) m k :
  k ∈ keys_of P m <-> exists x, m !! k = Some x /\ P x = true.
Proof.
  unfold keys_of. rewrite merge_sort_Permutation, list_elem_of_fmap. split.
  - intros ([k' x] & -> & [Hx Hin%elem_of_map_to_list]%list_elem_of_filter). eauto.
  - intros (x & Hk & Hx). exists (k, x). split; [done|].
    by rewrite list_elem_of_filter, elem_of_map_to_list.
Qed.

(** Increasing lists with the same elements are equal. *)
Lemma increasing_ext (l l' : list nat) :
  StronglySorted le l -> StronglySorted le l' -> NoDup l -> NoDup l' ->
  (forall k, k ∈ l <-> k ∈ l') -> l = l'.
Proof.
  intros Hl Hl' Hnd Hnd' Hk. apply (StronglySorted_unique le); [done..|].
  by apply NoDup_Permutation.
Qed.

Lemma keys_of_sorted {A} (P : A -> bool) m : StronglySorted le (keys_of P m).
Proof. apply StronglySorted_merge_sort; typeclasses eauto. Qed.

Lemma keys_of_NoDup {A} (P : A -> bool) m : NoDup (keys_of P m).
Proof.
  unfold keys_of. rewrite merge_sort_Permutation.
  apply NoDup_fmap_2_strong; [|apply NoDup_filter, NoDup_map_to_list].
  intros [k x] [k' x'] [_ H1%elem_of_map_to_list]%list_elem_of_filter
    [_ H2%elem_of_map_to_list]%list_elem_of_filter E. cbn in E. subst. congruence.
Qed.

Lemma find_key_Some {A} (P : A -> bool) m k :
  find_key P m = Some k -> exists x, m !! k = Some x /\ P x = true.
Proof.
  unfold find_key. intros Hk. apply elem_of_keys_of.
  destruct (keys_of P m); [done|]. injection Hk as ->. apply list_elem_of_here.
Qed.

Lemma find_key_None {A} (P : A -> bool) m :
  find_key P m = None -> forall k x, m !! k = Some x -> P x = false.
Proof.
  unfold find_key. intros Hk k x Hx. apply not_true_iff_false. intros HP.
  assert (k ∈ keys_of P m) as Hin by (apply elem_of_keys_of; eauto).
  destruct (keys_of P m); [by apply not_elem_of_nil in Hin|done].
Qed.

(** A number under which nothing is stored and to which no account refers. *)
Definition above_all (l : list nat) : nat := S (foldr Nat.max O l).

Lemma above_all_fresh l n : n ∈ l -> (n < above_all l)%nat.
Proof.
  unfold above_all. induction l as [|m l IH]; cbn; [by intros ?%not_elem_of_nil|].
  intros [->|Hn%IH]%elem_of_cons; lia.
Qed.

Definition fresh_account (c : contents) : nat :=
  above_all ((map_to_list (c_accounts c)).*1 ++
             omap (fun kv => ma_parent kv.2) (map_to_list (c_accounts c)) ++
             (ms_account ∘ snd <$> map_to_list (c_splits c))).
Definition fresh_key {A} (m : gmap nat A) : nat := above_all (map_to_list m).*1.
Definition fresh_transaction (c : contents) : nat :=
  above_all ((map_to_list (c_transactions c)).*1 ++
             omap (fun kv => ms_parent kv.2) (map_to_list (c_splits c))).

Definition siblings (b : mem_book) (a : nat) : list nat :=
  keys_of (fun x => bool_decide (ma_parent x = Some a)) (c_accounts (b_mem b)).

Fixpoint mem_descendants (fuel : nat) (b : mem_book) (a : nat) : list nat :=
  match fuel with
  | O => []
  | S fuel => child ← siblings b a; child :: mem_descendants fuel b child
  end.

Fixpoint mem_depth (fuel : nat) (b : mem_book) (a : nat) : nat :=
  match fuel with
  | O => O
  | S fuel =>
      match ma_parent (acct b a) with
      | None => O
      | Some p => S (mem_depth fuel b p)
      end
  end.

Definition splits_of_account (b : mem_book) (a : nat) : list nat :=
  keys_of (fun s => bool_decide (ms_account s = a)) (c_splits (b_mem b)).
Definition splits_of_transaction (b : mem_book) (t : nat) : list nat :=
  keys_of (fun s => bool_decide (ms_parent s = Some t)) (c_splits (b_mem b)).

Definition sum_values (b : mem_book) (l : list nat) : gnc_numeric :=
  foldl (fun n s => mem_add n (ms_value (spl b s))) (gnc_numeric_create 0 1) l.

(** The unit of the values of a split: that of its transaction's currency. *)
Definition value_unit (b : mem_book) (s : nat) : option Z :=
  c ← mt_currency (txn b (transaction_of_split (spl b s)));
  Some (mc_fraction (nth_commodity c)).

Definition midnight_of (g : Z * Z * Z) : Z := mem_midnight g.1.1 g.1.2 g.2.

Definition mask_bit (flag : ascii) : Z :=
  if decide (flag = "n"%char) then 1 else if decide (flag = "c"%char) then 2
  else if decide (flag = "y"%char) then 4 else if decide (flag = "f"%char) then 8
  else 16.

Definition contains (needle haystack : string) : bool :=
  bool_decide (is_Some (str_find needle 0 haystack)).

Definition mem_matches (b : mem_book) (q : SplitQuery nat) (s : nat) : bool :=
  let x := spl b s in
  let t := txn b (transaction_of_split x) in
  let posted := midnight_of (mt_posted t) in
  (bool_decide (q_accounts q = []) || bool_decide (ms_account x ∈ q_accounts q)) &&
  match q_date q with
  | None => true
  | Some (has_from, from, has_to, to) =>
      (negb has_from || (from <=? posted)) && (negb has_to || (posted <=? to))
  end &&
  match q_description q with None => true | Some d => contains d (mt_description t) end &&
  match q_memo q with None => true | Some d => contains d (ms_memo x) end &&
  match q_cleared q with
  | None => true
  | Some mask => negb (Z.land mask (mask_bit (ms_reconcile x)) =? 0)
  end.

Definition mem_query (b : mem_book) (q : SplitQuery nat) : list nat :=
  filter (fun s => mem_matches b q s = true) (map_to_list (c_splits (b_mem b))).*1.

Definition mem_balance (b : mem_book) (a : nat) (stamp : Z) (children : bool) :
    gnc_numeric :=
  let accounts :=
    if children then a :: mem_descendants (size (c_accounts (b_mem b))) b a else [a] in
  sum_values b
    (filter (fun s => midnight_of (mt_posted (txn b (transaction_of_split (spl b s)))) <= stamp)
       (x ← accounts; splits_of_account b x)).

(** *** Edits *)
Definition edit_at {A} (no : A) (k : nat) (f : A -> A) (m : gmap nat A) : gmap nat A :=
  <[k := f (default no (m !! k))]> m.

Lemma lookup_edit_at {A} (no : A) k f m j :
  edit_at no k f m !! j = if decide (k = j) then Some (f (default no (m !! k))) else m !! j.
Proof. apply lookup_insert. Qed.

Definition edit_account (a : nat) (f : mem_account -> mem_account) : mem_book -> mem_book :=
  on_accounts (edit_at no_account a f).
Definition edit_split (s : nat) (f : mem_split -> mem_split) : mem_book -> mem_book :=
  on_splits (edit_at no_split s f).
Definition edit_transaction (t : nat) (f : mem_transaction -> mem_transaction) :
    mem_book -> mem_book :=
  on_transactions (edit_at no_transaction t f).
Definition edit_price (p : nat) (f : mem_price -> mem_price) : mem_book -> mem_book :=
  on_prices (edit_at no_price p f).

Definition set_parent (p : option nat) (x : mem_account) : mem_account :=
  MkMemAccount (ma_guid x) p (ma_name x) (ma_type x) (ma_commodity x) (ma_code x)
    (ma_description x) (ma_placeholder x) (ma_hidden x) (ma_reconciled x).
Definition set_split_account (a : nat) (x : mem_split) : mem_split :=
  MkMemSplit (ms_guid x) a (ms_parent x) (ms_value x) (ms_amount x) (ms_memo x)
    (ms_action x) (ms_reconcile x) (ms_destroying x).
Definition set_split_parent (t : nat) (x : mem_split) : mem_split :=
  MkMemSplit (ms_guid x) (ms_account x) (Some t) (ms_value x) (ms_amount x) (ms_memo x)
    (ms_action x) (ms_reconcile x) (ms_destroying x).

(** Committing a transaction drops what was destroyed under it. *)
Definition purge (b : mem_book) : mem_book :=
  let dead t := mt_destroying (txn b t) in
  on_transactions
    (filter (fun kv : nat * mem_transaction => mt_destroying kv.2 = false))
    (on_splits
       (filter (fun kv : nat * mem_split =>
          ms_destroying kv.2 || dead (transaction_of_split kv.2) = false)) b).

#[export] Instance mem_gnc : Gnc := {|
  Book := mem_book;
  AccountPtr := nat; SplitPtr := nat; TransactionPtr := nat; CommodityPtr := nat;
  PricePtr := nat;
  Store := contents;
  book_store := b_disk;
  book_load c := MkMemBook c c false 0;

  gnc_commodity_table_lookup _ s n :=
    find_key (fun c => bool_decide (mc_space c = s /\ mc_mnemonic c = n))
      (map_seq O mem_commodities);
  gnc_commodity_table_get_namespaces _ := ["CURRENCY"; "NASDAQ"];
  gnc_commodity_table_get_commodities _ s :=
    keys_of (fun c => bool_decide (mc_space c = s)) (map_seq O mem_commodities);
  gnc_commodity_get_namespace _ c := mc_space (nth_commodity c);
  gnc_commodity_get_mnemonic _ c := mc_mnemonic (nth_commodity c);
  gnc_commodity_get_fullname _ _ := None;
  gnc_commodity_get_fraction _ c := mc_fraction (nth_commodity c);
  gnc_commodity_is_currency _ c := mc_currency (nth_commodity c);

  account_guid b a := ma_guid (acct b a);
  xaccAccountLookup b g :=
    by_guid ma_guid (fun _ => true) (c_accounts (b_mem b)) g;
  gnc_book_get_root_account b := c_root (b_mem b);
  gnc_account_get_parent b a := ma_parent (acct b a);
  gnc_account_get_descendants_sorted b a :=
    mem_descendants (size (c_accounts (b_mem b))) b a;
  gnc_account_get_current_depth b a := mem_depth (size (c_accounts (b_mem b))) b a;
  gnc_account_n_children b a := Z.of_nat (length (siblings b a));
  xaccAccountGetName b a := Some (ma_name (acct b a));
  xaccAccountGetType b a := ma_type (acct b a);
  xaccAccountGetCommodity b a := ma_commodity (acct b a);
  xaccAccountGetCode b a := Some (ma_code (acct b a));
  xaccAccountGetDescription b a := Some (ma_description (acct b a));
  xaccAccountGetPlaceholder b a := ma_placeholder (acct b a);
  xaccAccountGetHidden b a := ma_hidden (acct b a);
  xaccAccountGetSplitList := splits_of_account;
  xaccAccountGetReconcileLastDate b a := ma_reconciled (acct b a);
  xaccAccountGetReconciledBalance b a :=
    sum_values b (filter (fun s => ms_reconcile (spl b s) = "y"%char)
                    (splits_of_account b a));
  xaccAccountGetBalanceAsOfDateInCurrency b a stamp _ children :=
    mem_balance b a stamp children;
  xaccMallocAccount b :=
    let a := fresh_account (b_mem b) in
    (a, on_accounts <[a := MkMemAccount (mint a) None "" 0 None "" "" false false None]> b);
  xaccAccountBeginEdit _ b := b;
  xaccAccountCommitEdit _ b := mem_commit b;
  xaccAccountDestroy a b := mem_commit (on_accounts (delete a) b);
  xaccAccountSetName a n := edit_account a (fun x =>
    MkMemAccount (ma_guid x) (ma_parent x) n (ma_type x) (ma_commodity x) (ma_code x)
      (ma_description x) (ma_placeholder x) (ma_hidden x) (ma_reconciled x));
  xaccAccountSetType a t := edit_account a (fun x =>
    MkMemAccount (ma_guid x) (ma_parent x) (ma_name x) t (ma_commodity x) (ma_code x)
      (ma_description x) (ma_placeholder x) (ma_hidden x) (ma_reconciled x));
  xaccAccountSetCommodity a c := edit_account a (fun x =>
    MkMemAccount (ma_guid x) (ma_parent x) (ma_name x) (ma_type x) (Some c) (ma_code x)
      (ma_description x) (ma_placeholder x) (ma_hidden x) (ma_reconciled x));
  xaccAccountSetCode a c := edit_account a (fun x =>
    MkMemAccount (ma_guid x) (ma_parent x) (ma_name x) (ma_type x) (ma_commodity x) c
      (ma_description x) (ma_placeholder x) (ma_hidden x) (ma_reconciled x));
  xaccAccountSetDescription a d := edit_account a (fun x =>
    MkMemAccount (ma_guid x) (ma_parent x) (ma_name x) (ma_type x) (ma_commodity x)
      (ma_code x) d (ma_placeholder x) (ma_hidden x) (ma_reconciled x));
  xaccAccountSetPlaceholder a p := edit_account a (fun x =>
    MkMemAccount (ma_guid x) (ma_parent x) (ma_name x) (ma_type x) (ma_commodity x)
      (ma_code x) (ma_description x) p (ma_hidden x) (ma_reconciled x));
  xaccAccountSetHidden a h := edit_account a (fun x =>
    MkMemAccount (ma_guid x) (ma_parent x) (ma_name x) (ma_type x) (ma_commodity x)
      (ma_code x) (ma_description x) (ma_placeholder x) h (ma_reconciled x));
  xaccAccountSetReconcileLastDate a t := edit_account a (fun x =>
    MkMemAccount (ma_guid x) (ma_parent x) (ma_name x) (ma_type x) (ma_commodity x)
      (ma_code x) (ma_description x) (ma_placeholder x) (ma_hidden x) (Some t));
  gnc_account_append_child p a := on_accounts (fun m =>
    <[a := set_parent (Some p) (default no_account (m !! a))]> m);

  split_guid b s := ms_guid (spl b s);
  xaccSplitGetAccount b s := ms_account (spl b s);
  xaccSplitGetParent b s := transaction_of_split (spl b s);
  xaccSplitGetValue b s := ms_value (spl b s);
  xaccSplitGetAmount b s := ms_amount (spl b s);
  xaccSplitGetMemo b s := Some (ms_memo (spl b s));
  xaccSplitGetAction b s := Some (ms_action (spl b s));
  xaccSplitGetReconcile b s := ms_reconcile (spl b s);
  split_destroying b s := ms_destroying (spl b s);
  xaccMallocSplit b :=
    let s := fresh_key (c_splits (b_mem b)) in
    (s, on_splits <[s := MkMemSplit (mint s) O None (gnc_numeric_create 0 1)
                          (gnc_numeric_create 0 1) "" "" "n"%char false]> b);
  xaccSplitDestroy s := edit_split s (fun x =>
    MkMemSplit (ms_guid x) (ms_account x) (ms_parent x) (ms_value x) (ms_amount x)
      (ms_memo x) (ms_action x) (ms_reconcile x) true);
  xaccSplitSetParent s t := edit_split s (set_split_parent t);
  xaccSplitSetAccount s a := edit_split s (set_split_account a);
  xaccSplitSetValue s v b := edit_split s (fun x =>
    MkMemSplit (ms_guid x) (ms_account x) (ms_parent x)
      (match value_unit b s with Some u => mem_round u v (ms_value x) | None => v end)
      (ms_amount x) (ms_memo x) (ms_action x) (ms_reconcile x) (ms_destroying x)) b;
  xaccSplitSetAmount s v := edit_split s (fun x =>
    MkMemSplit (ms_guid x) (ms_account x) (ms_parent x) (ms_value x) v
      (ms_memo x) (ms_action x) (ms_reconcile x) (ms_destroying x));
  xaccSplitSetMemo s m := edit_split s (fun x =>
    MkMemSplit (ms_guid x) (ms_account x) (ms_parent x) (ms_value x) (ms_amount x)
      m (ms_action x) (ms_reconcile x) (ms_destroying x));
  xaccSplitSetAction s m := edit_split s (fun x =>
    MkMemSplit (ms_guid x) (ms_account x) (ms_parent x) (ms_value x) (ms_amount x)
      (ms_memo x) m (ms_reconcile x) (ms_destroying x));
  xaccSplitSetReconcile s f := edit_split s (fun x =>
    MkMemSplit (ms_guid x) (ms_account x) (ms_parent x) (ms_value x) (ms_amount x)
      (ms_memo x) (ms_action x) f (ms_destroying x));
  qof_query_run := mem_query;

  transaction_guid b t := mt_guid (txn b t);
  xaccTransLookup b g :=
    by_guid mt_guid (fun _ => true) (c_transactions (b_mem b)) g;
  xaccTransGetCurrency b t := mt_currency (txn b t);
  xaccTransGetDatePostedGDate b t := mt_posted (txn b t);
  xaccTransGetDateEntered b t := mt_entered (txn b t);
  xaccTransGetNum b t := Some (mt_num (txn b t));
  xaccTransGetDescription b t := Some (mt_description (txn b t));
  xaccTransGetSplitList := splits_of_transaction;
  xaccTransGetImbalanceValue b t :=
    sum_values b
      (filter (fun s => ms_destroying (spl b s) = false) (splits_of_transaction b t));
  xaccMallocTransaction b :=
    let t := fresh_transaction (b_mem b) in
    (t, on_transactions <[t := MkMemTransaction (mint t) None (0, 0, 0) 0 "" "" false]> b);
  xaccTransBeginEdit _ b := b;
  xaccTransCommitEdit _ b := mem_commit (purge b);
  xaccTransDestroy t := edit_transaction t (fun x =>
    MkMemTransaction (mt_guid x) (mt_currency x) (mt_posted x) (mt_entered x)
      (mt_num x) (mt_description x) true);
  xaccTransSetCurrency t c := edit_transaction t (fun x =>
    MkMemTransaction (mt_guid x) (Some c) (mt_posted x) (mt_entered x)
      (mt_num x) (mt_description x) (mt_destroying x));
  xaccTransSetDatePostedGDate t d := edit_transaction t (fun x =>
    MkMemTransaction (mt_guid x) (mt_currency x) d (mt_entered x)
      (mt_num x) (mt_description x) (mt_destroying x));
  xaccTransSetDateEnteredSecs t e := edit_transaction t (fun x =>
    MkMemTransaction (mt_guid x) (mt_currency x) (mt_posted x) e
      (mt_num x) (mt_description x) (mt_destroying x));
  xaccTransSetNum t n := edit_transaction t (fun x =>
    MkMemTransaction (mt_guid x) (mt_currency x) (mt_posted x) (mt_entered x)
      n (mt_description x) (mt_destroying x));
  xaccTransSetDescription t d := edit_transaction t (fun x =>
    MkMemTransaction (mt_guid x) (mt_currency x) (mt_posted x) (mt_entered x)
      (mt_num x) d (mt_destroying x));

  gnc_price_get_guid b p := mp_guid (prc b p);
  gnc_price_lookup b g :=
    by_guid mp_guid mp_listed (c_prices (b_mem b)) g;
  gnc_price_get_commodity b p := mp_commodity (prc b p);
  gnc_price_get_currency b p := mp_currency (prc b p);
  gnc_price_get_time64 b p := mp_time (prc b p);
  gnc_price_get_value b p := mp_value (prc b p);
  gnc_price_get_source_string b p := Some (mp_source (prc b p));
  gnc_pricedb_get_prices b c cur :=
    keys_of (fun x => mp_listed x && bool_decide (mp_commodity x = c) &&
       match cur with None => true | Some u => bool_decide (mp_currency x = u) end)
      (c_prices (b_mem b));
  gnc_price_create b :=
    let p := fresh_key (c_prices (b_mem b)) in
    (p, on_prices <[p := MkMemPrice (mint p) O O 0 (gnc_numeric_create 0 1) "" false]> b);
  gnc_price_begin_edit _ b := b;
  gnc_price_commit_edit _ b := b;
  gnc_price_set_commodity p c := edit_price p (fun x =>
    MkMemPrice (mp_guid x) c (mp_currency x) (mp_time x) (mp_value x) (mp_source x)
      (mp_listed x));
  gnc_price_set_currency p c := edit_price p (fun x =>
    MkMemPrice (mp_guid x) (mp_commodity x) c (mp_time x) (mp_value x) (mp_source x)
      (mp_listed x));
  gnc_price_set_time64 p t := edit_price p (fun x =>
    MkMemPrice (mp_guid x) (mp_commodity x) (mp_currency x) t (mp_value x) (mp_source x)
      (mp_listed x));
  gnc_price_set_value p v := edit_price p (fun x =>
    MkMemPrice (mp_guid x) (mp_commodity x) (mp_currency x) (mp_time x) v (mp_source x)
      (mp_listed x));
  gnc_price_set_source_string p s := edit_price p (fun x =>
    MkMemPrice (mp_guid x) (mp_commodity x) (mp_currency x) (mp_time x) (mp_value x) s
      (mp_listed x));
  gnc_pricedb_add_price p b := mem_commit (edit_price p (fun x =>
    MkMemPrice (mp_guid x) (mp_commodity x) (mp_currency x) (mp_time x) (mp_value x)
      (mp_source x) true) b);
  gnc_price_unref _ b := b;
|}.

(** ** The laws *)
Lemma fresh_transaction_unused c : c_transactions c !! fresh_transaction c = None.
Proof.
  apply eq_None_not_Some. intros [x Hx].
  assert (fresh_transaction c ∈ (map_to_list (c_transactions c)).*1 ++
            omap (fun kv => ms_parent kv.2) (map_to_list (c_splits c))) as Hin.
  { apply elem_of_app. left. apply list_elem_of_fmap. exists (fresh_transaction c, x).
    by rewrite elem_of_map_to_list. }
  apply above_all_fresh in Hin. unfold fresh_transaction in *. lia.
Qed.

Lemma fresh_transaction_no_split c s x :
  c_splits c !! s = Some x -> ms_parent x <> Some (fresh_transaction c).
Proof.
  intros Hx Hp.
  assert (fresh_transaction c ∈ (map_to_list (c_transactions c)).*1 ++
            omap (fun kv => ms_parent kv.2) (map_to_list (c_splits c))) as Hin.
  { apply elem_of_app. right. apply list_elem_of_omap. exists (s, x).
    by rewrite elem_of_map_to_list. }
  apply above_all_fresh in Hin. unfold fresh_transaction in *. lia.
Qed.

(** A fresh account is new, nobody's parent, and has no splits. *)
Lemma fresh_account_above c n :
  n ∈ (map_to_list (c_accounts c)).*1 ++
      omap (fun kv => ma_parent kv.2) (map_to_list (c_accounts c)) ++
      (ms_account ∘ snd <$> map_to_list (c_splits c)) ->
  n <> fresh_account c.
Proof. intros Hin%above_all_fresh ->. unfold fresh_account in Hin. lia. Qed.

Lemma fresh_account_unused c : c_accounts c !! fresh_account c = None.
Proof.
  apply eq_None_not_Some. intros [x Hx]. eapply fresh_account_above; [|done].
  apply elem_of_app. left. apply list_elem_of_fmap. exists (fresh_account c, x).
  by rewrite elem_of_map_to_list.
Qed.

Lemma fresh_account_no_child c a x :
  c_accounts c !! a = Some x -> ma_parent x <> Some (fresh_account c).
Proof.
  intros Hx Hp. eapply fresh_account_above; [|done].
  apply elem_of_app. right. apply elem_of_app. left. apply list_elem_of_omap.
  exists (a, x). by rewrite elem_of_map_to_list.
Qed.

Lemma fresh_account_no_split c s x :
  c_splits c !! s = Some x -> ms_account x <> fresh_account c.
Proof.
  intros Hx. apply fresh_account_above. apply elem_of_app. right. apply elem_of_app. right.
  apply list_elem_of_fmap. exists (s, x). by rewrite elem_of_map_to_list.
Qed.

Lemma acct_edit a f b x :
  (forall y, ma_parent (f y) = ma_parent y) ->
  ma_parent (acct (edit_account a f b) x) = ma_parent (acct b x).
Proof.
  intros Hf. unfold acct, edit_account, on_accounts, on_mem. cbn.
  rewrite lookup_edit_at. case_decide as Hx; [|done]. subst x. apply Hf.
Qed.

#[export] Instance mem_tree_ok : GncTreeOk.
Proof.
  split.
  - intros f b x []; cbn; try done; by apply acct_edit.
  - intros p a x b. cbn. unfold acct, on_accounts, on_mem. cbn.
    rewrite lookup_insert. repeat case_decide; naive_solver.
  - intros b a b'. cbn. intros [= <- <-]. unfold acct, on_accounts, on_mem. cbn.
    split_and!.
    + intros x. rewrite lookup_insert. repeat case_decide; naive_solver.
    + intros x Hp. destruct (c_accounts (b_mem b) !! x) as [y|] eqn:Hx; [|done].
      by apply fresh_account_no_child in Hx.
    + intros g (x & Hx & _)%find_key_Some. by rewrite fresh_account_unused in Hx.
  - intros a b x p. cbn. unfold acct, on_accounts, on_mem. cbn.
    rewrite lookup_delete. by case_decide.
Qed.

(** The book that [qof_book_new] makes: its root account. *)
Definition new_book : contents :=
  MkContents 1
    {[1%nat := MkMemAccount (mint 1) None "Root Account" 13 None "" "" false false None]}
    ∅ ∅ ∅.

(** ** Sessions

    One backend: a book that another process holds answers a normal open with
    "locked"; breaking the lock takes it. *)
Definition mem_lock_table (path : string) : LockTable :=
  if decide (path = "/books/stale.gnucash") then LockRows [(Some "here", 4242)] true
  else if decide (path = "/books/live.gnucash") then LockRows [(Some "here", 1)] true
  else Unreadable.

#[export] Instance mem_session : SessionEnv := {|
  QofSessionPtr := unit;
  QofBackendError := Z;
  QofBackendError_int e := e;
  ERR_BACKEND_NO_ERR := 0;
  ERR_BACKEND_LOCKED := 4;
  ERR_BACKEND_READONLY := 17;
  ERR_BACKEND_PERM := 12;
  qof_session_new b := (tt, with_error 0 b);
  qof_session_begin _ _ mode b :=
    match mode with
    | SESSION_NORMAL_OPEN => with_error (if b_locked b then 4 else 0) b
    | SESSION_NEW_STORE =>
        if decide (c_accounts (b_disk b) = ∅) then MkMemBook new_book (b_disk b) false 0
        else with_error 10 b
    | SESSION_READ_ONLY => with_error 0 b
    | SESSION_BREAK_LOCK => MkMemBook (b_mem b) (b_disk b) false 0
    end;
  qof_session_load _ b := MkMemBook (b_disk b) (b_disk b) (b_locked b) 0;
  qof_session_save _ b := MkMemBook (b_mem b) (b_mem b) (b_locked b) 0;
  qof_session_end _ b := with_error 0 b;
  qof_session_destroy _ b := b;
  qof_session_get_error _ b := b_error b;
  qof_session_get_error_message _ b := if decide (b_error b = 0) then None else Some "locked";
  qof_book_is_readonly _ := false;
  read_gnclock := mem_lock_table;
  g_get_host_name := "here";
  no_such_process pid := pid =? 4242;
|}.

#[export] Instance mem_session_ok : SessionEnvOk.
Proof. split. apply (bool_decide_unpack _). by vm_compute. Qed.
