(* ===== verification/MemoryStore.v ===== *)
(** * The in-memory engine keeps its books

    [MemoryEngine.v]'s engine satisfies the laws of [Contract.v]: nothing is
    stored before a commit, and what is committed is stored as it was. *)
From S2P Require Import Prelude.
From S2P Require Import Messages.
From S2P Require Import Engine.
From S2P Require Import Map.
From S2P Require Import Commodities.
From S2P Require Import Contract.
From S2P Require Import MemoryEngine.

(** ** Well-formed contents

    Every object carries the GUID of its number, and nothing waits to be
    destroyed. *)
Record wf (c : contents) : Prop := {
  wf_account : forall k x, c_accounts c !! k = Some x ->
    ma_guid x = mint k /\ mintable k;
  wf_transaction : forall k x, c_transactions c !! k = Some x ->
    mt_guid x = mint k /\ mintable k;
  wf_price : forall k x, c_prices c !! k = Some x ->
    mp_guid x = mint k /\ mintable k;
  wf_split_alive : forall k x, c_splits c !! k = Some x -> ms_destroying x = false;
  wf_transaction_alive : forall k x, c_transactions c !! k = Some x ->
    mt_destroying x = false;
}.

Definition mem_clean (b : mem_book) : Prop := b_disk b = b_mem b /\ wf (b_mem b).

Definition mem_room (b : mem_book) : Prop :=
  mintable (fresh_account (b_mem b)) /\
  mintable (fresh_transaction (b_mem b)) /\
  mintable (fresh_key (c_prices (b_mem b))).

#[export] Instance mem_store : GncStore := {|
  clean := mem_clean;
  has_room := mem_room;
  stored_at := "sqlite3:///books/home.gnucash";
|}.

(** ** Lookups by GUID *)
Section lookup.
Context {A : Type} (guid : A -> mem_guid) (ok : A -> bool) (m : gmap nat A).
Context (Hguid : forall k x, m !! k = Some x -> guid x = mint k /\ mintable k).

Lemma by_guid_Some g k :
  by_guid guid ok m g = Some k <-> exists x, m !! k = Some x /\ guid x = g /\ ok x = true.
Proof.
  unfold by_guid. split.
  - intros (x & Hx & [Hg%bool_decide_eq_true Hok]%andb_true_iff)%find_key_Some. eauto.
  - intros (x & Hx & Hg & Hok).
    destruct (find_key _ m) as [k'|] eqn:Hf.
    + apply find_key_Some in Hf as (x' & Hx' & [Hg'%bool_decide_eq_true _]%andb_true_iff).
      destruct (Hguid _ _ Hx) as [E Hm], (Hguid _ _ Hx') as [E' Hm'].
      f_equal. apply mint_inj; [congruence|done|done].
    + apply find_key_None with (k := k) (x := x) in Hf; [|done].
      by rewrite bool_decide_eq_true_2, Hok in Hf.
Qed.

Lemma by_guid_None g :
  by_guid guid ok m g = None <-> forall k x, m !! k = Some x -> guid x = g -> ok x = false.
Proof.
  split.
  - intros Hf k x Hx Hg. apply find_key_None with (k := k) (x := x) in Hf; [|done].
    by rewrite bool_decide_eq_true_2 in Hf.
  - intros Hno. destruct (by_guid guid ok m g) as [k|] eqn:Hf; [|done].
    apply by_guid_Some in Hf as (x & Hx & Hg & Hok). rewrite (Hno k x) in Hok; done.
Qed.
End lookup.

Lemma by_guid_ext {A B} (guid : A -> mem_guid) (guid' : B -> mem_guid) ok ok' m m' g :
  (forall k x, m !! k = Some x -> guid x = mint k /\ mintable k) ->
  (forall k x, m' !! k = Some x -> guid' x = mint k /\ mintable k) ->
  (forall k, (exists x, m !! k = Some x /\ ok x = true) <->
             (exists x, m' !! k = Some x /\ ok' x = true)) ->
  by_guid guid ok m g = by_guid guid' ok' m' g.
Proof.
  intros Hm Hm' Hk. apply option_eq. intros k. rewrite !by_guid_Some by done.
  split; intros (x & Hx & Hg & Hok).
  - destruct (proj1 (Hk k)) as (x' & Hx' & Hok'); [eauto|]. exists x'.
    split_and!; [done| |done]. destruct (Hm _ _ Hx), (Hm' _ _ Hx'). congruence.
  - destruct (proj2 (Hk k)) as (x' & Hx' & Hok'); [eauto|]. exists x'.
    split_and!; [done| |done]. destruct (Hm _ _ Hx'), (Hm' _ _ Hx). congruence.
Qed.

(** ** What the views read *)
Lemma same_mem_looks_same (b b' : mem_book) :
  b_mem b = b_mem b' ->
  same_book b b' /\ forall g, see_reconcile b g = see_reconcile b' g.
Proof. destruct b, b'; cbn. intros ->. split; [by split|done]. Qed.

(** The lookups, by name. *)
Definition account_of (b : mem_book) (g : mem_guid) : option nat := xaccAccountLookup b g.
Definition transaction_of (b : mem_book) (g : mem_guid) : option nat := xaccTransLookup b g.
Definition price_of (b : mem_book) (g : mem_guid) : option nat := gnc_price_lookup b g.

Lemma account_of_iff b g k :
  wf (b_mem b) ->
  account_of b g = Some k <->
  exists x, c_accounts (b_mem b) !! k = Some x /\ ma_guid x = g.
Proof.
  intros Hwf. unfold account_of. cbn. rewrite by_guid_Some by apply Hwf.
  split; [intros (x & Hx & Hg & _)|intros (x & Hx & Hg)]; eauto.
Qed.

Lemma transaction_of_iff b g k :
  wf (b_mem b) ->
  transaction_of b g = Some k <->
  exists x, c_transactions (b_mem b) !! k = Some x /\ mt_guid x = g.
Proof.
  intros Hwf. unfold transaction_of. cbn. rewrite by_guid_Some by apply Hwf.
  split; [intros (x & Hx & Hg & _)|intros (x & Hx & Hg)]; eauto.
Qed.

Lemma price_of_iff b g k :
  wf (b_mem b) ->
  price_of b g = Some k <->
  exists x, c_prices (b_mem b) !! k = Some x /\ mp_guid x = g /\ mp_listed x = true.
Proof. intros Hwf. unfold price_of. cbn. by rewrite by_guid_Some by apply Hwf. Qed.

(** *** What one object shows *)
Lemma StronglySorted_filter {A} (R : A -> A -> Prop) (P : A -> Prop)
    `{!forall x, Decision (P x)} l :
  StronglySorted R l -> StronglySorted R (filter P l).
Proof.
  induction 1 as [|x l Hl IH Hx]; [constructor|]. rewrite filter_cons.
  case_decide; [|done]. constructor; [done|].
  rewrite Forall_forall in Hx |- *. intros y [_ Hy]%list_elem_of_filter. auto.
Qed.

(** The splits a transaction shows. *)
Definition alive_splits (b : mem_book) (t : nat) : list nat :=
  filter (fun s => ms_destroying (spl b s) = false) (splits_of_transaction b t).

Lemma elem_of_alive b t s :
  s ∈ alive_splits b t <->
  exists x, c_splits (b_mem b) !! s = Some x /\ ms_parent x = Some t /\
    ms_destroying x = false.
Proof.
  unfold alive_splits, splits_of_transaction. rewrite list_elem_of_filter, elem_of_keys_of.
  unfold spl. split.
  - intros (Hd & x & Hx & Hp%bool_decide_eq_true). rewrite Hx in Hd. eauto.
  - intros (x & Hx & Hp & Hd). rewrite Hx. split; [done|]. exists x.
    by rewrite bool_decide_eq_true_2.
Qed.

Lemma TransactionToProto_ext (b b' : mem_book) t :
  txn b' t = txn b t ->
  (forall s x, c_splits (b_mem b) !! s = Some x ->
     ma_guid (acct b' (ms_account x)) = ma_guid (acct b (ms_account x))) ->
  (forall s x, ms_parent x = Some t -> ms_destroying x = false ->
     c_splits (b_mem b') !! s = Some x <-> c_splits (b_mem b) !! s = Some x) ->
  TransactionToProto (H0 := mem_gnc) b' t = TransactionToProto (H0 := mem_gnc) b t.
Proof.
  intros Ht Hg Hs.
  assert (alive_splits b' t = alive_splits b t) as Hal.
  { apply increasing_ext; try (apply StronglySorted_filter, keys_of_sorted);
      try (apply NoDup_filter, keys_of_NoDup).
    intros s. rewrite !elem_of_alive.
    split; intros (x & Hx & Hp & Hd); exists x; split; try done; by apply Hs. }
  unfold TransactionToProto. cbn. rewrite Ht. f_equal.
  change (SplitToProto (H0 := mem_gnc) b' <$> alive_splits b' t =
    SplitToProto (H0 := mem_gnc) b <$> alive_splits b t).
  rewrite Hal. apply list_fmap_ext. intros i s Hi%list_elem_of_lookup_2.
  apply elem_of_alive in Hi as (x & Hx & Hp & Hd).
  assert (spl b s = x /\ spl b' s = x) as [E E'].
  { unfold spl. rewrite Hx. by rewrite (proj2 (Hs s x Hp Hd) Hx). }
  unfold SplitToProto. cbn. by rewrite E, E', (Hg s).
Qed.

(** An account without its reconciliation date. *)
Definition unreconciled (x : mem_account) : mem_account :=
  MkMemAccount (ma_guid x) (ma_parent x) (ma_name x) (ma_type x) (ma_commodity x)
    (ma_code x) (ma_description x) (ma_placeholder x) (ma_hidden x) None.

Lemma AccountToProto_ext (b b' : mem_book) a :
  unreconciled (acct b' a) = unreconciled (acct b a) ->
  (forall p, ma_parent (acct b a) = Some p -> ma_guid (acct b' p) = ma_guid (acct b p)) ->
  AccountToProto (H0 := mem_gnc) b' a = AccountToProto (H0 := mem_gnc) b a.
Proof.
  intros E Hp. unfold AccountToProto. cbn.
  injection E as -> -> -> -> -> -> -> -> ->. f_equal.
  destruct (ma_parent (acct b a)); [by rewrite Hp|done].
Qed.

(** *** Books that differ in one object *)
Section one_object.
Context (b b' : mem_book) (Hwf : wf (b_mem b)) (Hwf' : wf (b_mem b')).

Lemma same_accounts_look_same :
  c_accounts (b_mem b') = c_accounts (b_mem b) ->
  (forall g, see_account (H0 := mem_gnc) b' g = see_account (H0 := mem_gnc) b g) /\
  (forall g, ReconcileInfo_last_date <$> see_reconcile (H0 := mem_gnc) b' g =
             ReconcileInfo_last_date <$> see_reconcile (H0 := mem_gnc) b g).
Proof.
  intros Ha. split; intros g.
  - unfold see_account, AccountToProto. cbn. unfold acct. by rewrite Ha.
  - unfold see_reconcile. cbn. rewrite Ha. destruct (by_guid _ _ _ g); [|done].
    cbn. unfold acct. by rewrite Ha.
Qed.

Lemma same_prices_look_same :
  c_prices (b_mem b') = c_prices (b_mem b) ->
  forall g, see_price (H0 := mem_gnc) b' g = see_price (H0 := mem_gnc) b g.
Proof.
  intros Hp g. unfold see_price, PriceToProto. cbn. unfold prc. by rewrite Hp.
Qed.

(** A price. *)
Lemma prices_same_but p :
  c_accounts (b_mem b') = c_accounts (b_mem b) ->
  c_splits (b_mem b') = c_splits (b_mem b) ->
  c_transactions (b_mem b') = c_transactions (b_mem b) ->
  (forall k, k <> p -> c_prices (b_mem b') !! k = c_prices (b_mem b) !! k) ->
  same_but (H0 := mem_gnc) [AtPrice (mint p)] b' b.
Proof.
  intros Ha Hs Ht Ho. destruct (same_accounts_look_same Ha) as [Hacc Hdate].
  split; intros g Hg; [apply Hacc|apply Hdate| |].
  - unfold see_transaction. cbn. rewrite Ht. destruct (by_guid _ _ _ g) as [t|]; [|done].
    cbn. f_equal. apply TransactionToProto_ext.
    + unfold txn. by rewrite Ht.
    + intros. unfold acct. by rewrite Ha.
    + intros. by rewrite Hs.
  - assert (g <> mint p) as Hne by (intros ->; apply Hg, list_elem_of_here).
    assert (price_of b' g = price_of b g) as Hl.
    { apply option_eq. intros k. rewrite !price_of_iff by done.
      destruct (decide (k = p)) as [->|Hk]; [|by rewrite Ho].
      split; intros (x & Hx & Hgx & _); destruct Hne;
        [destruct (wf_price _ Hwf' _ _ Hx)|destruct (wf_price _ Hwf _ _ Hx)]; congruence. }
    unfold see_price. fold (price_of b' g) (price_of b g). rewrite Hl.
    destruct (price_of b g) as [k|] eqn:Hk; [|done]. cbn. f_equal.
    apply price_of_iff in Hk as (x & Hx & Hgx & _); [|done].
    assert (k <> p) as Hkp by (intros ->; destruct (wf_price _ Hwf _ _ Hx); congruence).
    unfold PriceToProto, prc. cbn. unfold prc. by rewrite Ho.
Qed.

(** A transaction and its splits. *)
Lemma transactions_same_but t :
  c_accounts (b_mem b') = c_accounts (b_mem b) ->
  c_prices (b_mem b') = c_prices (b_mem b) ->
  (forall k, k <> t -> c_transactions (b_mem b') !! k = c_transactions (b_mem b) !! k) ->
  (forall k, k <> t -> TransactionToProto (H0 := mem_gnc) b' k =
     TransactionToProto (H0 := mem_gnc) b k) ->
  same_but (H0 := mem_gnc) [AtTransaction (mint t)] b' b.
Proof.
  intros Ha Hp Ho Himage. destruct (same_accounts_look_same Ha) as [Hacc Hdate].
  split; intros g Hg; [apply Hacc|apply Hdate| |by apply same_prices_look_same].
  assert (g <> mint t) as Hne by (intros ->; apply Hg, list_elem_of_here).
  assert (transaction_of b' g = transaction_of b g) as Hl.
  { apply option_eq. intros k. rewrite !transaction_of_iff by done.
    destruct (decide (k = t)) as [->|Hk]; [|by rewrite Ho].
    split; intros (x & Hx & Hgx); destruct Hne;
      [destruct (wf_transaction _ Hwf' _ _ Hx)|destruct (wf_transaction _ Hwf _ _ Hx)];
      congruence. }
  unfold see_transaction. fold (transaction_of b' g) (transaction_of b g). rewrite Hl.
  destruct (transaction_of b g) as [k|] eqn:Hk; [|done]. cbn. f_equal. apply Himage.
  apply transaction_of_iff in Hk as (x & Hx & Hgx); [|done].
  intros ->. destruct (wf_transaction _ Hwf _ _ Hx). congruence.
Qed.

(** An account; what the others show of it, as a parent or under a split, is its
    GUID. *)
Definition refers (k : nat) : Prop :=
  (exists a x, c_accounts (b_mem b) !! a = Some x /\ ma_parent x = Some k) \/
  (exists s x, c_splits (b_mem b) !! s = Some x /\ ms_account x = k).

Lemma accounts_same_but a places :
  c_splits (b_mem b') = c_splits (b_mem b) ->
  c_transactions (b_mem b') = c_transactions (b_mem b) ->
  c_prices (b_mem b') = c_prices (b_mem b) ->
  (forall k, k <> a -> c_accounts (b_mem b') !! k = c_accounts (b_mem b) !! k) ->
  (forall k, refers k -> ma_guid (acct b' k) = ma_guid (acct b k)) ->
  (AtAccount (mint a) ∉ places ->
     see_account (H0 := mem_gnc) b' (mint a) = see_account (H0 := mem_gnc) b (mint a)) ->
  (AtDate (mint a) ∉ places ->
     ReconcileInfo_last_date <$> see_reconcile (H0 := mem_gnc) b' (mint a) =
     ReconcileInfo_last_date <$> see_reconcile (H0 := mem_gnc) b (mint a)) ->
  same_but (H0 := mem_gnc) places b' b.
Proof.
  intros Hs Ht Hp Ho Hg Hacc Hdate.
  assert (forall g, g <> mint a -> account_of b' g = account_of b g) as Hl.
  { intros g Hne. apply option_eq. intros k. rewrite !account_of_iff by done.
    destruct (decide (k = a)) as [->|Hk]; [|by rewrite Ho].
    split; intros (x & Hx & Hgx); destruct Hne;
      [destruct (wf_account _ Hwf' _ _ Hx)|destruct (wf_account _ Hwf _ _ Hx)]; congruence. }
  assert (forall g k, g <> mint a -> account_of b g = Some k ->
    k <> a /\ c_accounts (b_mem b) !! k = Some (acct b k) /\ acct b' k = acct b k) as Hother.
  { intros g k Hne (x & Hx & Hgx)%account_of_iff; [|done].
    assert (k <> a) as Hk by (intros ->; destruct (wf_account _ Hwf _ _ Hx); congruence).
    unfold acct. by rewrite Ho, Hx. }
  split; intros g Hout.
  - destruct (decide (g = mint a)) as [->|Hne]; [by apply Hacc|]. unfold see_account.
    fold (account_of b' g) (account_of b g). rewrite Hl by done.
    destruct (account_of b g) as [k|] eqn:Hk; [|done]. cbn. f_equal.
    destruct (Hother _ _ Hne Hk) as (_ & Hx & E). apply AccountToProto_ext; [by rewrite E|].
    intros p Hpar. apply Hg. left. eauto.
  - destruct (decide (g = mint a)) as [->|Hne]; [by apply Hdate|]. unfold see_reconcile.
    fold (account_of b' g) (account_of b g). rewrite Hl by done.
    destruct (account_of b g) as [k|] eqn:Hk; [|done]. cbn.
    by destruct (Hother _ _ Hne Hk) as (_ & _ & ->).
  - unfold see_transaction. cbn. rewrite Ht. destruct (by_guid _ _ _ g) as [t|]; [|done].
    cbn. f_equal. apply TransactionToProto_ext.
    + unfold txn. by rewrite Ht.
    + intros s x Hx. apply Hg. right. eauto.
    + intros. by rewrite Hs.
  - by apply same_prices_look_same.
Qed.
End one_object.

Lemma account_of_self b a :
  wf (b_mem b) -> is_Some (c_accounts (b_mem b) !! a) ->
  account_of b (ma_guid (acct b a)) = Some a.
Proof.
  intros Hwf [x Hx]. apply account_of_iff; [done|]. exists x. unfold acct. by rewrite Hx.
Qed.

Lemma account_of_mint b a :
  wf (b_mem b) -> is_Some (c_accounts (b_mem b) !! a) -> account_of b (mint a) = Some a.
Proof.
  intros Hwf [x Hx]. apply account_of_iff; [done|]. exists x. by destruct (wf_account _ Hwf _ _ Hx).
Qed.

Lemma acct_mint b a :
  wf (b_mem b) -> is_Some (c_accounts (b_mem b) !! a) -> ma_guid (acct b a) = mint a.
Proof. intros Hwf [x Hx]. unfold acct. rewrite Hx. by destruct (wf_account _ Hwf _ _ Hx). Qed.

(** *** Edits of one account *)

(** [b'] differs from [b] in what it holds in memory of the account [a], which
    keeps its GUID. *)
Record account_touched (a : nat) (b b' : mem_book) : Prop := {
  touched_disk : b_disk b' = b_disk b;
  touched_splits : c_splits (b_mem b') = c_splits (b_mem b);
  touched_transactions : c_transactions (b_mem b') = c_transactions (b_mem b);
  touched_prices : c_prices (b_mem b') = c_prices (b_mem b);
  touched_other : forall k, k <> a ->
    c_accounts (b_mem b') !! k = c_accounts (b_mem b) !! k;
  touched_guid : ma_guid <$> c_accounts (b_mem b') !! a =
    ma_guid <$> c_accounts (b_mem b) !! a;
}.

Section account_touched.
Context (a : nat) (b b' : mem_book) (Ht : account_touched a b b').

Lemma touched_guids k :
  ma_guid <$> c_accounts (b_mem b') !! k = ma_guid <$> c_accounts (b_mem b) !! k.
Proof.
  destruct (decide (k = a)) as [->|Hk]; [apply Ht|].
  by rewrite (touched_other _ _ _ Ht).
Qed.

Lemma touched_account_guid k : ma_guid (acct b' k) = ma_guid (acct b k).
Proof.
  pose proof (touched_guids k) as Hg. unfold acct.
  destruct (c_accounts (b_mem b') !! k), (c_accounts (b_mem b) !! k);
    cbn in *; congruence.
Qed.

Lemma touched_wf : wf (b_mem b) -> wf (b_mem b').
Proof.
  intros []. split.
  - intros k x Hx. pose proof (touched_guids k) as Hg. rewrite Hx in Hg.
    cbn in Hg. symmetry in Hg. apply fmap_Some in Hg as (x' & Hx' & Hg).
    rewrite Hg. eauto.
  - rewrite (touched_transactions _ _ _ Ht). done.
  - rewrite (touched_prices _ _ _ Ht). done.
  - rewrite (touched_splits _ _ _ Ht). done.
  - rewrite (touched_transactions _ _ _ Ht). done.
Qed.

Lemma touched_lookup g :
  wf (b_mem b) -> account_of b' g = account_of b g.
Proof.
  intros Hwf. apply by_guid_ext; [by apply touched_wf|by apply Hwf|].
  intros k. pose proof (touched_guids k) as Hg.
  destruct (c_accounts (b_mem b') !! k), (c_accounts (b_mem b) !! k);
    cbn in Hg; try done; split; intros (? & ? & _); eauto.
Qed.

Lemma touched_spl s : spl b' s = spl b s.
Proof. unfold spl. by rewrite (touched_splits _ _ _ Ht). Qed.
Lemma touched_txn t : txn b' t = txn b t.
Proof. unfold txn. by rewrite (touched_transactions _ _ _ Ht). Qed.

(** The rest of the book looks the same. *)
Lemma touched_same_but places :
  wf (b_mem b) -> is_Some (c_accounts (b_mem b) !! a) ->
  (AtAccount (mint a) ∉ places ->
     AccountToProto (H0 := mem_gnc) b' a = AccountToProto (H0 := mem_gnc) b a) ->
  (AtDate (mint a) ∉ places ->
     ma_reconciled (acct b' a) = ma_reconciled (acct b a)) ->
  same_but (H0 := mem_gnc) places b' b.
Proof.
  intros Hwf Ha Hacc Hdate. pose proof (touched_wf Hwf) as Hwf'.
  pose proof (account_of_mint _ _ Hwf Ha) as Hl.
  apply (accounts_same_but b b' Hwf Hwf' a); try apply Ht.
  - intros k _. apply touched_account_guid.
  - intros Hout. unfold see_account. fold (account_of b' (mint a)) (account_of b (mint a)).
    rewrite touched_lookup, Hl by done. cbn. by rewrite Hacc.
  - intros Hout. unfold see_reconcile. fold (account_of b' (mint a)) (account_of b (mint a)).
    rewrite touched_lookup, Hl by done. cbn. by rewrite Hdate.
Qed.
End account_touched.

Lemma account_touched_refl a b : account_touched a b b.
Proof. by split. Qed.

Lemma account_touched_trans a b1 b2 b3 :
  account_touched a b1 b2 -> account_touched a b2 b3 -> account_touched a b1 b3.
Proof.
  intros [] []. split; try congruence. intros k Hk.
  rewrite touched_other1, touched_other0; done.
Qed.

Lemma edit_account_touched a f b :
  (forall x, ma_guid (f x) = ma_guid x) -> is_Some (c_accounts (b_mem b) !! a) ->
  account_touched a b (edit_account a f b).
Proof.
  intros Hf [x Hx]. split; cbn; try done.
  - intros k Hk. by rewrite lookup_edit_at, decide_False.
  - rewrite lookup_edit_at, decide_True, Hx by done. cbn. by rewrite Hf.
Qed.

Lemma edit_account_reconciled a f b k :
  (forall x, ma_reconciled (f x) = ma_reconciled x) ->
  ma_reconciled (acct (edit_account a f b) k) = ma_reconciled (acct b k).
Proof.
  intros Hf. unfold acct. cbn. rewrite lookup_edit_at. case_decide as Hk; [|done].
  subst k. apply Hf.
Qed.

(** What a run of account calls leaves. *)
Definition account_kept (a : nat) (b b' : mem_book) : Prop :=
  account_touched a b b' /\ is_Some (c_accounts (b_mem b') !! a) /\
  ma_reconciled (acct b' a) = ma_reconciled (acct b a).

Lemma account_call_kept a may b b0 b' :
  account_call (H0 := mem_gnc) a may b0 b' -> account_kept a b b0 -> account_kept a b b'.
Proof.
  intros Hcall (Ht & [x Hx] & Hr).
  assert (account_kept a b0 b') as (Ht' & Hs' & Hr').
  { destruct Hcall; split_and!;
      try (apply edit_account_touched; [done|by exists x]);
      try (by apply edit_account_reconciled);
      cbn; try (rewrite lookup_edit_at, decide_True by done); eauto.
    rewrite lookup_insert_eq. eauto. }
  split_and!; [by eapply account_touched_trans|done|congruence].
Qed.

Lemma account_calls_kept a may b b' :
  star (account_call (H0 := mem_gnc) a may) b b' ->
  is_Some (c_accounts (b_mem b) !! a) -> account_kept a b b'.
Proof.
  intros Hstar Ha. eapply (star_invariant _ (account_kept a b)); [|exact Hstar|].
  - intros x y. apply account_call_kept.
  - split_and!; [apply account_touched_refl|done|done].
Qed.

(** Committing after an account edit. *)
Lemma commit_clean (b : mem_book) : wf (b_mem b) -> mem_clean (mem_commit b).
Proof. by split. Qed.

Lemma mem_account_lookup_guid (b : mem_book) g a :
  account_of b g = Some a -> ma_guid (acct b a) = g.
Proof.
  intros (x & Hx & [Hg%bool_decide_eq_true _]%andb_true_iff)%find_key_Some.
  unfold acct. by rewrite Hx.
Qed.

Lemma mem_account_created (b : mem_book) (a : nat) b' :
  mem_clean b -> mem_room b -> account_created (H0 := mem_gnc) a b b' ->
  let bc := mem_commit b' in
  account_of b (ma_guid (acct b' a)) = None /\ b_disk b' = b_disk b /\
  mem_clean bc /\
  see_account (H0 := mem_gnc) bc (ma_guid (acct b' a)) =
    Some (AccountToProto (H0 := mem_gnc) b' a) /\
  same_but (H0 := mem_gnc) [AtAccount (ma_guid (acct b' a)); AtDate (ma_guid (acct b' a))] bc b.
Proof.
  intros [Hd Hwf] (Hroom & _) (b1 & Hm & Hstar). injection Hm as Ha Hb1.
  set (x := MkMemAccount (mint a) None "" 0 None "" "" false false None).
  assert (c_accounts (b_mem b1) = <[a := x]> (c_accounts (b_mem b))) as Hacc.
  { subst a b1. done. }
  assert (c_accounts (b_mem b) !! a = None) as Hnew.
  { subst a. apply fresh_account_unused. }
  assert (wf (b_mem b1)) as Hwf1.
  { destruct Hwf. split; rewrite ?Hacc; try (subst b1; done).
    intros k y. rewrite lookup_insert. case_decide as Hk; [|apply wf_account0].
    intros [= <-]. subst k x a. done. }
  apply account_calls_kept in Hstar as (Ht & Hs & _).
  2:{ cbn. rewrite Hacc, lookup_insert_eq. eauto. }
  cbn [xaccAccountBeginEdit mem_gnc] in Ht.
  assert (ma_guid (acct b' a) = mint a) as Hguid.
  { rewrite (touched_account_guid _ _ _ Ht). unfold acct.
    by rewrite Hacc, lookup_insert_eq. }
  assert (wf (b_mem b')) as Hwf' by by eapply touched_wf.
  split_and!.
  - rewrite Hguid. apply eq_None_not_Some. intros [k (y & Hy & Hg)%account_of_iff]; [|done].
    destruct (wf_account _ Hwf _ _ Hy) as [E Hk]. rewrite E in Hg.
    apply mint_inj in Hg; [congruence|done|by subst a].
  - rewrite (touched_disk _ _ _ Ht). by subst b1.
  - by apply commit_clean.
  - unfold see_account. change (AccountToProto (H0 := mem_gnc) (mem_commit b') <$>
      account_of b' (ma_guid (acct b' a)) = Some (AccountToProto (H0 := mem_gnc) b' a)).
    by rewrite account_of_self.
  - destruct (same_mem_looks_same (mem_commit b') b' eq_refl) as [Ec _].
    rewrite Ec, Hguid.
    apply (accounts_same_but b b' Hwf Hwf' a);
      rewrite ?(touched_splits _ _ _ Ht), ?(touched_transactions _ _ _ Ht),
        ?(touched_prices _ _ _ Ht); try by subst b1.
    + intros k Hk. by rewrite (touched_other _ _ _ Ht), Hacc, lookup_insert_ne.
    + intros k Hk. assert (k <> a) as Hne.
      { subst a. destruct Hk as [(k' & y & Hy & Hp)|(s & y & Hy & <-)].
        - intros ->. by eapply fresh_account_no_child.
        - by eapply fresh_account_no_split. }
      unfold acct. by rewrite (touched_other _ _ _ Ht), Hacc, lookup_insert_ne.
    + intros Hout. destruct Hout. apply list_elem_of_here.
    + intros Hout. destruct Hout. apply list_elem_of_further, list_elem_of_here.
Qed.

(** An edit of one account that stays in the book. *)
Lemma mem_account_touched_stored (b : mem_book) a b' :
  mem_clean b -> account_touched a b b' -> is_Some (c_accounts (b_mem b) !! a) ->
  b_disk b' = b_disk b /\ mem_clean (mem_commit b') /\
  account_of b (ma_guid (acct b' a)) = Some a /\
  account_of b' (ma_guid (acct b' a)) = Some a.
Proof.
  intros [Hd Hwf] Ht Ha. split_and!.
  - apply Ht.
  - apply commit_clean. by eapply touched_wf.
  - rewrite (touched_account_guid _ _ _ Ht). by apply account_of_self.
  - rewrite (touched_lookup _ _ _ Ht), (touched_account_guid _ _ _ Ht) by done.
    by apply account_of_self.
Qed.

Lemma looked_up_account (b : mem_book) g a :
  account_of b g = Some a -> is_Some (c_accounts (b_mem b) !! a).
Proof. intros (x & Hx & _)%find_key_Some. eauto. Qed.

Lemma mem_account_edited (b : mem_book) a b' :
  mem_clean b -> account_edited (H0 := mem_gnc) a b b' ->
  let bc := mem_commit b' in
  let g := ma_guid (acct b' a) in
  b_disk b' = b_disk b /\ mem_clean bc /\
  see_account (H0 := mem_gnc) bc g = Some (AccountToProto (H0 := mem_gnc) b' a) /\
  same_but (H0 := mem_gnc) [AtAccount g] bc b.
Proof.
  intros Hc [[g0 Hg0%looked_up_account] Hstar].
  apply account_calls_kept in Hstar as (Ht & _ & Hr); [|exact Hg0].
  destruct (mem_account_touched_stored _ _ _ Hc Ht Hg0) as (Hd & Hcc & Hl & Hl').
  cbv zeta. split_and!; [done|done| |].
  - unfold see_account. change (AccountToProto (H0 := mem_gnc) (mem_commit b') <$>
      account_of b' (ma_guid (acct b' a)) = Some (AccountToProto (H0 := mem_gnc) b' a)).
    by rewrite Hl'.
  - destruct (same_mem_looks_same (mem_commit b') b' eq_refl) as [Ec _]. rewrite Ec.
    rewrite (touched_account_guid _ _ _ Ht), acct_mint by (done || apply Hc).
    apply (touched_same_but a); [done|apply Hc|done| |done].
    intros Hout. by destruct Hout; apply list_elem_of_here.
Qed.

Lemma mem_account_reconciled (b : mem_book) a b' :
  mem_clean b -> account_reconciled (H0 := mem_gnc) a b b' ->
  let bc := mem_commit b' in
  let g := ma_guid (acct b' a) in
  b_disk b' = b_disk b /\ mem_clean bc /\
  see_reconcile (H0 := mem_gnc) bc g = Some (ReconcileInfoToProto (H0 := mem_gnc) b' a) /\
  same_but (H0 := mem_gnc) [AtDate g] bc b.
Proof.
  intros Hc [[g0 Hg0%looked_up_account] [t ->]].
  cbn [xaccAccountBeginEdit xaccAccountSetReconcileLastDate mem_gnc].
  match goal with |- context [edit_account a ?f b] =>
    pose proof (edit_account_touched a f b (fun _ => eq_refl) Hg0) as Ht;
    set (b' := edit_account a f b) in * end.
  destruct (mem_account_touched_stored _ _ _ Hc Ht Hg0) as (Hd & Hcc & Hl & Hl').
  cbv zeta. split_and!; [done|done| |].
  - unfold see_reconcile.
    change (ReconcileInfoToProto (H0 := mem_gnc) (mem_commit b') <$>
      account_of b' (ma_guid (acct b' a)) =
      Some (ReconcileInfoToProto (H0 := mem_gnc) b' a)).
    by rewrite Hl'.
  - destruct (same_mem_looks_same (mem_commit b') b' eq_refl) as [Ec _]. rewrite Ec.
    rewrite (touched_account_guid _ _ _ Ht), acct_mint by (done || apply Hc).
    apply (touched_same_but a); [done|apply Hc|done| |].
    + intros _. apply AccountToProto_ext;
        [|intros p _; by apply touched_account_guid with (a := a)].
      destruct Hg0 as [x Hx]. unfold b', acct. cbn. by rewrite lookup_edit_at, decide_True, Hx.
    + intros Hout. by destruct Hout; apply list_elem_of_here.
Qed.

Lemma mem_account_destroyed (b : mem_book) g a :
  mem_clean b -> account_of b g = Some a ->
  splits_of_account b a = [] -> siblings b a = [] ->
  let bc := mem_commit (on_accounts (delete a) b) in
  mem_clean bc /\ account_of bc g = None /\
  same_but (H0 := mem_gnc) [AtAccount g; AtDate g] bc b.
Proof.
  intros [Hd Hwf] Hg Hsplits Hchildren.
  apply account_of_iff in Hg as (x & Hx & Hg); [|done].
  assert (wf (b_mem (on_accounts (delete a) b))) as Hwf'.
  { destruct Hwf. split; try done. cbn. intros k y [_ Hy]%lookup_delete_Some. eauto. }
  destruct (wf_account _ Hwf _ _ Hx) as [E ?]. split_and!; [by apply commit_clean| |].
  { apply eq_None_not_Some. intros [k (y & Hy & Hgy)%account_of_iff]; [|done].
    cbn in Hy. apply lookup_delete_Some in Hy as [Hne Hy]. apply Hne.
    destruct (wf_account _ Hwf _ _ Hy) as [E' ?]. apply mint_inj; [congruence|done|done]. }
  rewrite <- Hg, E.
  apply (accounts_same_but b (mem_commit (on_accounts (delete a) b)) Hwf Hwf' a); try done.
  - intros k Hk. cbn. by rewrite lookup_delete_ne.
  - intros k Hk. unfold acct. cbn. rewrite lookup_delete_ne; [done|]. intros <-.
    destruct Hk as [(k & y & Hy & Hp)|(k & y & Hy & Hp)].
    + assert (k ∈ siblings b a) as Hin;
        [|rewrite Hchildren in Hin; by apply not_elem_of_nil in Hin].
      apply elem_of_keys_of. exists y. by rewrite bool_decide_eq_true_2.
    + assert (k ∈ splits_of_account b a) as Hin;
        [|rewrite Hsplits in Hin; by apply not_elem_of_nil in Hin].
      apply elem_of_keys_of. exists y. by rewrite bool_decide_eq_true_2.
  - intros Hout. destruct Hout. apply list_elem_of_here.
  - intros Hout. destruct Hout. apply list_elem_of_further, list_elem_of_here.
Qed.

(** *** Edits of one transaction *)
Lemma purge_transaction b k x :
  c_transactions (b_mem (purge b)) !! k = Some x <->
  c_transactions (b_mem b) !! k = Some x /\ mt_destroying x = false.
Proof. cbn. by rewrite map_lookup_filter_Some. Qed.

Lemma purge_split b k x :
  c_splits (b_mem (purge b)) !! k = Some x <->
  c_splits (b_mem b) !! k = Some x /\ ms_destroying x = false /\
  mt_destroying (txn b (transaction_of_split x)) = false.
Proof. cbn. by rewrite map_lookup_filter_Some, orb_false_iff. Qed.

(** What a run of calls on the transaction [t] leaves, [own] being its splits. *)
Record transaction_kept (t : nat) (own0 own : list nat) (b b' : mem_book) : Prop := {
  kept_disk : b_disk b' = b_disk b;
  kept_accounts : c_accounts (b_mem b') = c_accounts (b_mem b);
  kept_prices : c_prices (b_mem b') = c_prices (b_mem b);
  kept_other : forall k, k <> t ->
    c_transactions (b_mem b') !! k = c_transactions (b_mem b) !! k;
  kept_self : exists x x', c_transactions (b_mem b) !! t = Some x /\
    c_transactions (b_mem b') !! t = Some x' /\ mt_guid x' = mt_guid x /\
    mt_destroying x' = mt_destroying x;
  kept_grows : own0 ⊆ own;
  kept_foreign : forall k, k ∉ own ->
    c_splits (b_mem b') !! k = c_splits (b_mem b) !! k;
  kept_own : forall k, k ∈ own -> exists x,
    c_splits (b_mem b') !! k = Some x /\ ms_parent x = Some t;
  kept_origin : forall k x, k ∈ own -> c_splits (b_mem b) !! k = Some x ->
    ms_parent x = Some t;
}.

Lemma fresh_key_unused {A} (m : gmap nat A) : m !! fresh_key m = None.
Proof.
  apply eq_None_not_Some. intros [x Hx].
  assert (fresh_key m ∈ (map_to_list m).*1) as Hin.
  { apply list_elem_of_fmap. exists (fresh_key m, x). by rewrite elem_of_map_to_list. }
  apply above_all_fresh in Hin. unfold fresh_key in *. lia.
Qed.

Lemma kept_edit_transaction t own0 own b b0 f :
  (forall x, mt_guid (f x) = mt_guid x /\ mt_destroying (f x) = mt_destroying x) ->
  transaction_kept t own0 own b b0 ->
  transaction_kept t own0 own b (edit_transaction t f b0).
Proof.
  intros Hf []. destruct kept_self0 as (x & x' & Hx & Hx' & Hg & Hd).
  split; cbn; try done.
  - intros k Hk. rewrite lookup_edit_at, decide_False by done. auto.
  - exists x, (f x'). rewrite lookup_edit_at, decide_True, Hx' by done.
    by destruct (Hf x') as [-> ->].
Qed.

Lemma kept_edit_split t own0 own b b0 s f :
  (forall x, ms_parent (f x) = ms_parent x) -> s ∈ own ->
  transaction_kept t own0 own b b0 ->
  transaction_kept t own0 own b (edit_split s f b0).
Proof.
  intros Hf Hs []. split; cbn; try done.
  - intros k Hk. rewrite lookup_edit_at, decide_False by (intros ->; done). auto.
  - intros k Hk. destruct (kept_own0 k Hk) as (x & Hx & Hp). rewrite lookup_edit_at.
    case_decide as Hks; [subst k|by eauto]. rewrite Hx. exists (f x). cbn. by rewrite Hf.
Qed.

Lemma kept_new_split t own0 own b b0 s b1 :
  xaccMallocSplit (Gnc := mem_gnc) b0 = (s, b1) ->
  transaction_kept t own0 own b b0 ->
  transaction_kept t own0 (s :: own) b (xaccSplitSetParent (Gnc := mem_gnc) s t b1).
Proof.
  intros [<- <-]%pair_equal_spec []. set (s := fresh_key (c_splits (b_mem b0))) in *.
  split; cbn -[edit_at fresh_key]; try done.
  - intros k Hk. apply list_elem_of_further. by apply kept_grows0.
  - intros k [Hne Hk]%not_elem_of_cons.
    rewrite lookup_edit_at, decide_False, lookup_insert_ne by congruence. auto.
  - intros k Hk. rewrite lookup_edit_at. case_decide as Hks.
    + subst k. rewrite lookup_insert_eq. cbn. eauto.
    + rewrite lookup_insert_ne by congruence. apply elem_of_cons in Hk as [->|Hk]; [done|auto].
  - intros k x [->|Hk]%elem_of_cons Hx; [|eauto].
    pose proof (fresh_key_unused (c_splits (b_mem b0))) as Hnew. fold s in Hnew.
    destruct (decide (s ∈ own)) as [Hin|Hout].
    + destruct (kept_own0 _ Hin) as (x' & Hx' & _). congruence.
    + rewrite kept_foreign0 in Hnew by done. congruence.
Qed.

Lemma transaction_steps_kept t own0 own1 b b1 own b' :
  star (transaction_step (H0 := mem_gnc) t) (own1, b1) (own, b') ->
  transaction_kept t own0 own1 b b1 -> transaction_kept t own0 own b b'.
Proof.
  intros Hstar Hk.
  apply (star_invariant _ (fun s => transaction_kept t own0 s.1 b s.2)) in Hstar;
    [done| |done].
  clear. intros _ _ [own b0 b1 []|own s b0 b1 Hm|own s b0 b1 Hs []]; cbn [fst snd].
  all: try (apply kept_edit_transaction; by split).
  all: try by apply kept_edit_split.
  by apply kept_new_split.
Qed.

(** The book after the transaction is committed. *)
Definition committed (b : mem_book) : mem_book := mem_commit (purge b).

Section kept.
Context (t : nat) (own0 own : list nat) (b b' : mem_book).
Context (Hk : transaction_kept t own0 own b b') (Hwf : wf (b_mem b)).

Lemma kept_transaction k x' :
  c_transactions (b_mem b') !! k = Some x' ->
  exists x, c_transactions (b_mem b) !! k = Some x /\ mt_guid x' = mt_guid x /\
    mt_destroying x' = false.
Proof.
  intros Hx'. destruct (decide (k = t)) as [->|Hne].
  - destruct (kept_self _ _ _ _ _ Hk) as (x & y & Hx & Hy & Hg & Hd).
    rewrite Hx' in Hy. injection Hy as <-. exists x. split_and!; [done..|].
    rewrite Hd. by eapply wf_transaction_alive.
  - rewrite (kept_other _ _ _ _ _ Hk) in Hx' by done. exists x'.
    split_and!; [done..|]. by eapply wf_transaction_alive.
Qed.

Lemma kept_domain k :
  (exists x, c_transactions (b_mem b') !! k = Some x /\ true = true) <->
  (exists x, c_transactions (b_mem b) !! k = Some x /\ true = true).
Proof.
  split; intros (x & Hx & _).
  - apply kept_transaction in Hx as (y & Hy & _). eauto.
  - destruct (decide (k = t)) as [->|Hne].
    + destruct (kept_self _ _ _ _ _ Hk) as (_ & y & _ & Hy & _). eauto.
    + rewrite <- (kept_other _ _ _ _ _ Hk) in Hx by done. eauto.
Qed.

Lemma kept_txn_alive k : mt_destroying (txn b' k) = false.
Proof.
  unfold txn. destruct (c_transactions (b_mem b') !! k) eqn:Hx; [|done].
  by apply kept_transaction in Hx as (? & _ & _ & ?).
Qed.

Lemma purged_transaction k :
  c_transactions (b_mem (committed b')) !! k = c_transactions (b_mem b') !! k.
Proof.
  apply option_eq. intros x. rewrite (purge_transaction b' k x).
  split; [by intros []|]. intros Hx. split; [done|].
  by apply kept_transaction in Hx as (? & _ & _ & ?).
Qed.

Lemma purged_txn k : txn (committed b') k = txn b' k.
Proof. unfold txn. by rewrite purged_transaction. Qed.

Lemma purged_split k x :
  c_splits (b_mem (committed b')) !! k = Some x <->
  c_splits (b_mem b') !! k = Some x /\ ms_destroying x = false.
Proof. rewrite (purge_split b' k x), kept_txn_alive. tauto. Qed.

Lemma purged_account_guid k : ma_guid (acct (committed b') k) = ma_guid (acct b k).
Proof. unfold acct. cbn. by rewrite (kept_accounts _ _ _ _ _ Hk). Qed.

Lemma purged_wf : wf (b_mem (committed b')).
Proof.
  split.
  - intros k x. cbn. rewrite (kept_accounts _ _ _ _ _ Hk). apply Hwf.
  - intros k x. rewrite purged_transaction. intros (y & Hy & -> & _)%kept_transaction.
    by eapply wf_transaction.
  - intros k x. cbn. rewrite (kept_prices _ _ _ _ _ Hk). apply Hwf.
  - by intros k x [_ Hx]%purged_split.
  - intros k x. rewrite purged_transaction. by intros (y & _ & _ & ?)%kept_transaction.
Qed.

Lemma purged_found : transaction_of (committed b') (mt_guid (txn b' t)) = Some t.
Proof.
  apply transaction_of_iff; [apply purged_wf|].
  destruct (kept_self _ _ _ _ _ Hk) as (x & x' & _ & Hx' & _).
  exists x'. rewrite purged_transaction. split; [done|]. unfold txn. by rewrite Hx'.
Qed.

Lemma purged_image :
  TransactionToProto (H0 := mem_gnc) (committed b') t = TransactionToProto (H0 := mem_gnc) b' t.
Proof.
  apply TransactionToProto_ext; [apply purged_txn|done|].
  intros s x _ Hd. rewrite purged_split. tauto.
Qed.

Lemma kept_seen :
  see_transaction (H0 := mem_gnc) (committed b') (mt_guid (txn b' t)) =
    Some (TransactionToProto (H0 := mem_gnc) b' t).
Proof.
  unfold see_transaction.
  change (TransactionToProto (H0 := mem_gnc) (committed b') <$>
    transaction_of (committed b') (mt_guid (txn b' t)) =
    Some (TransactionToProto (H0 := mem_gnc) b' t)).
  rewrite purged_found. cbn [fmap option_fmap option_map]. by rewrite purged_image.
Qed.

(** The other transactions keep theirs. *)
Lemma purged_other_image k :
  k <> t ->
  TransactionToProto (H0 := mem_gnc) (committed b') k = TransactionToProto (H0 := mem_gnc) b k.
Proof.
  intros Hne. apply TransactionToProto_ext.
  - rewrite purged_txn. unfold txn. by rewrite (kept_other _ _ _ _ _ Hk).
  - intros. apply purged_account_guid.
  - intros s x Hp Hd. rewrite purged_split.
    destruct (decide (s ∈ own)) as [Hin|Hout].
    + destruct (kept_own _ _ _ _ _ Hk _ Hin) as (y & Hy & Hpy). split.
      * intros [Hx _]. congruence.
      * intros Hx. pose proof (kept_origin _ _ _ _ _ Hk _ _ Hin Hx). congruence.
    + rewrite (kept_foreign _ _ _ _ _ Hk) by done. tauto.
Qed.
End kept.

Lemma kept_start t own b :
  is_Some (c_transactions (b_mem b) !! t) ->
  (forall k, k ∈ own -> exists x, c_splits (b_mem b) !! k = Some x /\ ms_parent x = Some t) ->
  transaction_kept t own own b b.
Proof.
  intros [x Hx] Hown. split; try done.
  - by exists x, x.
  - intros k y Hk Hy. destruct (Hown k Hk) as (z & Hz & Hp). congruence.
Qed.

Lemma looked_up_transaction (b : mem_book) g t :
  transaction_of b g = Some t -> is_Some (c_transactions (b_mem b) !! t).
Proof. intros (x & Hx & _)%find_key_Some. eauto. Qed.

Lemma mem_transaction_created (b : mem_book) (t : nat) b' :
  mem_clean b -> mem_room b -> transaction_created (H0 := mem_gnc) t b b' ->
  transaction_of b (mt_guid (txn b' t)) = None /\ b_disk b' = b_disk b /\
  mem_clean (committed b') /\
  see_transaction (H0 := mem_gnc) (committed b') (mt_guid (txn b' t)) =
    Some (TransactionToProto (H0 := mem_gnc) b' t) /\
  same_but (H0 := mem_gnc) [AtTransaction (mt_guid (txn b' t))] (committed b') b.
Proof.
  intros [Hd Hwf] (_ & Hroom & _) (b1 & own & Hm & Hstar). injection Hm as Ht Hb1.
  set (x := MkMemTransaction (mint t) None (0, 0, 0)%Z 0 "" "" false).
  assert (c_transactions (b_mem b1) = <[t := x]> (c_transactions (b_mem b))) as Htx.
  { by subst t b1. }
  assert (c_transactions (b_mem b) !! t = None) as Hnew.
  { subst t. apply fresh_transaction_unused. }
  assert (wf (b_mem b1)) as Hwf1.
  { destruct Hwf. split; rewrite ?Htx; try (by subst b1).
    - intros k y. rewrite lookup_insert. case_decide as Hk; [|apply wf_transaction0].
      intros [= <-]. subst k x t. done.
    - intros k y. rewrite lookup_insert. case_decide as Hk; [|apply wf_transaction_alive0].
      by intros [= <-]. }
  apply (transaction_steps_kept t [] [] b1 b1) in Hstar.
  2:{ apply kept_start; [|by intros k ?%not_elem_of_nil].
      exists x. rewrite Htx. apply lookup_insert_eq. }
  assert (mt_guid (txn b' t) = mint t) as Hg.
  { destruct (kept_self _ _ _ _ _ Hstar) as (y & y' & Hy & Hy' & Hg & _).
    unfold txn. rewrite Hy'. cbn. rewrite Hg.
    rewrite Htx, lookup_insert_eq in Hy. by injection Hy as <-. }
  split_and!.
  - apply eq_None_not_Some. intros [k (y & Hy & Hgy)%transaction_of_iff]; [|done].
    destruct (wf_transaction _ Hwf _ _ Hy) as [E Hk]. rewrite E, Hg in Hgy.
    apply mint_inj in Hgy; [congruence|done|by subst t].
  - rewrite (kept_disk _ _ _ _ _ Hstar). by subst b1.
  - split; [done|]. by eapply purged_wf.
  - by eapply kept_seen.
  - rewrite Hg. eapply transactions_same_but; [done|by eapply purged_wf|..].
    + cbn. rewrite (kept_accounts _ _ _ _ _ Hstar). by subst b1.
    + cbn. rewrite (kept_prices _ _ _ _ _ Hstar). by subst b1.
    + intros k Hk. rewrite (purged_transaction _ _ _ _ _ Hstar Hwf1).
      by rewrite (kept_other _ _ _ _ _ Hstar), Htx, lookup_insert_ne.
    + intros k Hk. rewrite (purged_other_image _ _ _ _ _ Hstar Hwf1) by done.
      apply TransactionToProto_ext; subst b1; try done.
      unfold txn. by rewrite Htx, lookup_insert_ne.
Qed.

Lemma splits_of_own b t k :
  k ∈ splits_of_transaction b t ->
  exists x, c_splits (b_mem b) !! k = Some x /\ ms_parent x = Some t.
Proof.
  intros (x & Hx & Hp%bool_decide_eq_true)%elem_of_keys_of. eauto.
Qed.

Lemma mem_transaction_edited (b : mem_book) t b' :
  mem_clean b -> transaction_edited (H0 := mem_gnc) t b b' ->
  let bc := committed b' in
  let g := mt_guid (txn b' t) in
  b_disk b' = b_disk b /\ mem_clean bc /\
  see_transaction (H0 := mem_gnc) bc g =
    Some (TransactionToProto (H0 := mem_gnc) b' t) /\
  same_but (H0 := mem_gnc) [AtTransaction g] bc b.
Proof.
  intros [Hd Hwf] [[g0 Hg0%looked_up_transaction] [own Hstar]]. cbv zeta.
  apply (transaction_steps_kept t (splits_of_transaction b t) _ b) in Hstar
    as Hk; [|by apply kept_start, splits_of_own].
  pose proof (purged_wf _ _ _ _ _ Hk Hwf) as Hwfc.
  split_and!; [apply Hk|by split|by apply (kept_seen _ _ _ _ _ Hk)|].
  assert (mt_guid (txn b' t) = mint t) as ->.
  { destruct (kept_self _ _ _ _ _ Hk) as (x & x' & Hx & Hx' & Hg & _).
    unfold txn. rewrite Hx'. cbn. rewrite Hg. by destruct (wf_transaction _ Hwf _ _ Hx). }
  apply transactions_same_but; try done.
  - apply (kept_accounts _ _ _ _ _ Hk).
  - apply (kept_prices _ _ _ _ _ Hk).
  - intros k Hne. rewrite (purged_transaction _ _ _ _ _ Hk Hwf).
    by apply (kept_other _ _ _ _ _ Hk).
  - intros k. by apply (purged_other_image _ _ _ _ _ Hk).
Qed.

Lemma txn_alive b k : wf (b_mem b) -> mt_destroying (txn b k) = false.
Proof.
  intros Hwf. unfold txn. destruct (c_transactions (b_mem b) !! k) eqn:Hx; [|done].
  by eapply wf_transaction_alive.
Qed.

Lemma mem_transaction_destroyed (b : mem_book) g t :
  mem_clean b -> transaction_of b g = Some t ->
  let bc := committed (xaccTransDestroy (Gnc := mem_gnc) t b) in
  mem_clean bc /\ transaction_of bc g = None /\
  same_but (H0 := mem_gnc) [AtTransaction g] bc b.
Proof.
  intros [Hd Hwf] Hg. cbv zeta. set (b' := xaccTransDestroy (Gnc := mem_gnc) t b).
  apply transaction_of_iff in Hg as (x & Hx & Hg); [|done].
  assert (forall k y, c_transactions (b_mem (committed b')) !! k = Some y ->
            c_transactions (b_mem b) !! k = Some y /\ k <> t) as Htx.
  { intros k y [Hy Hdead]%(purge_transaction b'). cbn in Hy.
    rewrite lookup_edit_at in Hy. case_decide as Hk; [|done].
    subst k. rewrite Hx in Hy. injection Hy as <-. done. }
  assert (wf (b_mem (committed b'))) as Hwf'.
  { split.
    - apply Hwf.
    - intros k y [Hy _]%Htx. by eapply wf_transaction.
    - apply Hwf.
    - by intros k y (_ & Hy & _)%(purge_split b').
    - intros k y [Hy _]%Htx. by eapply wf_transaction_alive. }
  destruct (wf_transaction _ Hwf _ _ Hx) as [E ?].
  assert (forall k, k <> t ->
    c_transactions (b_mem (committed b')) !! k = c_transactions (b_mem b) !! k) as Hother.
  { intros k Hk. apply option_eq. intros y. split; [by intros []%Htx|].
    intros Hy. apply (purge_transaction b'). cbn. rewrite lookup_edit_at, decide_False by done.
    split; [done|]. by apply (wf_transaction_alive _ Hwf k). }
  split; [by split|split].
  { apply eq_None_not_Some. intros [k (y & [Hy Hne]%Htx & Hgy)%transaction_of_iff]; [|done].
    apply Hne. destruct (wf_transaction _ Hwf _ _ Hy) as [E' ?].
    apply mint_inj; [congruence|done|done]. }
  rewrite <- Hg, E. apply transactions_same_but; try done. intros k Hk.
  apply TransactionToProto_ext; [unfold txn; by rewrite Hother|done|].
  intros s y Hp Hdead. rewrite (purge_split b').
  assert (mt_destroying (txn b' (transaction_of_split y)) = false) as ->; [|tauto].
  unfold transaction_of_split. rewrite Hp. unfold txn. cbn.
  rewrite lookup_edit_at, decide_False by done. apply (txn_alive b k Hwf).
Qed.

(** *** Prices *)
Definition price_kept (p : nat) (b b' : mem_book) : Prop :=
  b_disk b' = b_disk b /\ c_accounts (b_mem b') = c_accounts (b_mem b) /\
  c_splits (b_mem b') = c_splits (b_mem b) /\
  c_transactions (b_mem b') = c_transactions (b_mem b) /\
  (forall k, k <> p -> c_prices (b_mem b') !! k = c_prices (b_mem b) !! k) /\
  mp_guid <$> c_prices (b_mem b') !! p = mp_guid <$> c_prices (b_mem b) !! p.

Lemma edit_price_kept p f b b0 :
  (forall x, mp_guid (f x) = mp_guid x) -> is_Some (c_prices (b_mem b) !! p) ->
  price_kept p b b0 -> price_kept p b (edit_price p f b0).
Proof.
  intros Hf [x Hx] (Hd & Ha & Hs & Ht & Ho & Hg). split_and!; try done; cbn.
  - intros k Hk. rewrite lookup_edit_at, decide_False by done. auto.
  - rewrite lookup_edit_at, decide_True, <- Hg by done. rewrite Hx in Hg. cbn in Hg.
    apply fmap_Some in Hg as (y & Hy & _). rewrite Hy. cbn. by rewrite Hf.
Qed.

Lemma price_calls_kept p b b' :
  star (price_call (H0 := mem_gnc) p) b b' -> is_Some (c_prices (b_mem b) !! p) ->
  price_kept p b b'.
Proof.
  intros Hstar Hp. eapply (star_invariant _ (price_kept p b)); [|exact Hstar|by split_and!].
  clear - Hp. intros _ _ [] Hk; by apply edit_price_kept.
Qed.

Lemma mem_price_created (b : mem_book) (p : nat) b' :
  mem_clean b -> mem_room b -> price_created (H0 := mem_gnc) p b b' ->
  let bc := AddPrice_commit (H0 := mem_gnc) p b' in
  price_of b (mp_guid (prc b' p)) = None /\ b_disk b' = b_disk b /\
  mem_clean bc /\ is_Some (price_of bc (mp_guid (prc b' p))) /\
  same_but (H0 := mem_gnc) [AtPrice (mp_guid (prc b' p))] bc b.
Proof.
  intros [Hd Hwf] (_ & _ & Hroom) (b1 & Hm & Hstar) bc. injection Hm as Hp Hb1.
  set (x := MkMemPrice (mint p) O O 0 (gnc_numeric_create 0 1) "" false).
  assert (c_prices (b_mem b1) = <[p := x]> (c_prices (b_mem b))) as Hpx by by subst p b1.
  assert (c_prices (b_mem b) !! p = None) as Hnew by (subst p; apply fresh_key_unused).
  apply price_calls_kept in Hstar as (Hd' & Ha & Hs & Ht & Ho & Hg);
    [|exists x; cbn; rewrite Hpx; apply lookup_insert_eq].
  change (gnc_price_begin_edit (Gnc := mem_gnc) p b1) with b1 in *.
  rewrite Hpx, lookup_insert_eq in Hg. cbn in Hg.
  apply fmap_Some in Hg as (y & Hy & Hg).
  assert (mp_guid (prc b' p) = mint p) as -> by (unfold prc; by rewrite Hy).
  set (z := MkMemPrice (mp_guid y) (mp_commodity y) (mp_currency y) (mp_time y)
              (mp_value y) (mp_source y) true).
  assert (forall k, c_prices (b_mem bc) !! k =
            if decide (k = p) then Some z else c_prices (b_mem b) !! k) as Hpc.
  { intros k. subst bc. cbn. rewrite lookup_edit_at. repeat case_decide; try congruence.
    - by rewrite Hy.
    - rewrite Ho by done. by rewrite Hpx, lookup_insert_ne by congruence. }
  assert (wf (b_mem bc)) as Hwfc.
  { split.
    - intros k v. subst bc. cbn. rewrite Ha. subst b1. apply Hwf.
    - intros k v. subst bc. cbn. rewrite Ht. subst b1. apply Hwf.
    - intros k v. rewrite Hpc. case_decide as Hk; [|apply Hwf].
      intros [= <-]. subst k. split; [done|]. by subst p.
    - intros k v. subst bc. cbn. rewrite Hs. subst b1. apply Hwf.
    - intros k v. subst bc. cbn. rewrite Ht. subst b1. apply Hwf. }
  split_and!.
  - apply eq_None_not_Some. intros [k (v & Hv & Hgv & _)%price_of_iff]; [|done].
    destruct (wf_price _ Hwf _ _ Hv) as [E Hk]. rewrite E in Hgv.
    apply mint_inj in Hgv; [congruence|done|by subst p].
  - rewrite Hd'. by subst b1.
  - by split.
  - exists p. apply price_of_iff; [done|]. exists z. rewrite Hpc, decide_True by done.
    by split_and!.
  - apply prices_same_but; try done; subst bc; cbn; rewrite ?Ha, ?Hs, ?Ht; try by subst b1.
    intros k Hk. specialize (Hpc k). by rewrite decide_False in Hpc.
Qed.

(** ** The instances *)
#[export] Instance mem_lookup_ok : GncLookupOk.
Proof.
  split.
  - exact mem_account_lookup_guid.
  - intros b g t (x & Hx & [Hg%bool_decide_eq_true _]%andb_true_iff)%find_key_Some.
    cbn. unfold txn. by rewrite Hx.
Qed.

#[export] Instance mem_store_ok : GncStoreOk.
Proof.
  split.
  - intros b [Hd Hwf]. cbn zeta.
    destruct (same_mem_looks_same (MkMemBook (b_disk b) (b_disk b) false 0) b Hd)
      as [Hsame Hr].
    split_and!; [|done|done|done]. split; [done|]. cbn. by rewrite Hd.
  - intros b a b' Hc Hroom Ha. by apply mem_account_created.
  - intros b a b' Hc Ha. by apply mem_account_edited.
  - intros b a b' Hc Ha. by apply mem_account_reconciled.
  - intros b g a Hc Hg Hsplits Hchildren. apply mem_account_destroyed; [done..|].
    apply nil_length_inv. cbn in Hchildren. lia.
  - intros b t b' Hc Hroom Ht _. by apply mem_transaction_created.
  - intros b t b' Hc Ht _. by apply mem_transaction_edited.
  - intros b g t Hc Hg. by apply mem_transaction_destroyed.
  - intros b p b' Hc Hroom Hp _. by apply mem_price_created.
Qed.
