(* ===== verification/MemoryEdits.v ===== *)
(** * The in-memory engine's setters

    [MemoryEngine.v]'s engine satisfies the laws of [Edits.v]. *)
From Stdlib Require Import QArith.
From S2P Require Import Prelude.
From S2P Require Import Messages.
From S2P Require Import Engine.
From S2P Require Import Map.
From S2P Require Import Contract.
From S2P Require Import Edits.
From S2P Require Import Balanced.
From S2P Require Import MemoryEngine.
Local Close Scope Q_scope.

(** Every account keeps its amounts in hundredths; the engine rounds nothing. *)
#[export] Instance mem_units : GncUnits := {|
  account_unit _ _ := 100%Z;
  known_source _ := True;
|}.

(** ** One edit *)
Lemma acct_at a f b x :
  acct (edit_account a f b) x = if decide (a = x) then f (acct b a) else acct b x.
Proof. unfold acct. cbn -[edit_at]. rewrite lookup_edit_at. by case_decide. Qed.

Lemma spl_at s f b x :
  spl (edit_split s f b) x = if decide (s = x) then f (spl b s) else spl b x.
Proof. unfold spl. cbn -[edit_at]. rewrite lookup_edit_at. by case_decide. Qed.

Lemma txn_at t f b x :
  txn (edit_transaction t f b) x = if decide (t = x) then f (txn b t) else txn b x.
Proof. unfold txn. cbn -[edit_at]. rewrite lookup_edit_at. by case_decide. Qed.

Lemma prc_at p f b x :
  prc (edit_price p f b) x = if decide (p = x) then f (prc b p) else prc b x.
Proof. unfold prc. cbn -[edit_at]. rewrite lookup_edit_at. by case_decide. Qed.

Lemma keys_of_ext {A} (P P' : A -> bool) (m m' : gmap nat A) :
  (forall k, (exists x, m !! k = Some x /\ P x = true) <->
             (exists x, m' !! k = Some x /\ P' x = true)) ->
  keys_of P m = keys_of P' m'.
Proof.
  intros Hk. apply increasing_ext;
    try apply keys_of_sorted; try apply keys_of_NoDup.
  intros k. rewrite !elem_of_keys_of. apply Hk.
Qed.

(** An edit that leaves the criterion leaves the listing. *)
Lemma keys_of_edit {A} (P : A -> bool) (no : A) k f m :
  (forall x, P (f x) = P x) -> P no = false ->
  keys_of P (edit_at no k f m) = keys_of P m.
Proof.
  intros Hf Hno. apply keys_of_ext. intros j. rewrite lookup_edit_at.
  case_decide as Hj; [subst j|done]. split.
  - intros (x & [= <-] & Hx). rewrite Hf in Hx.
    destruct (m !! k) as [y|]; cbn in Hx; [eauto|congruence].
  - intros (x & Hx & HP). rewrite Hx. cbn. eexists. split; [done|]. by rewrite Hf.
Qed.

(** *** Calls on transactions and splits *)
Definition keeps_parent (f : mem_split -> mem_split) : Prop :=
  forall x, ms_parent (f x) = ms_parent x.

Lemma splits_at s f b t :
  keeps_parent f -> splits_of_transaction (edit_split s f b) t = splits_of_transaction b t.
Proof.
  intros Hf. apply (keys_of_edit _ no_split); [|done]. intros x. by rewrite Hf.
Qed.

Lemma scenery_refl (b b' : mem_book) :
  (forall a, ma_guid (acct b' a) = ma_guid (acct b a)) -> scenery (H0 := mem_gnc) b b'.
Proof. by split. Qed.

Lemma split_edit_frame s f (b : mem_book) :
  keeps_parent f -> let b' := edit_split s f b in
  scenery (H0 := mem_gnc) b b' /\
  (forall y, y <> s -> quiet (H0 := mem_gnc) y b b') /\
  (forall t, see_trans (H0 := mem_gnc) b' t = see_trans (H0 := mem_gnc) b t).
Proof.
  intros Hf b'. split_and!.
  - by apply scenery_refl.
  - intros y Hy. assert (spl b' y = spl b y) as E
      by (unfold b'; by rewrite spl_at, decide_False by congruence).
    split; [unfold see_split|..]; cbn; by rewrite E.
  - intros t. unfold see_trans. cbn -[edit_at]. unfold b'. by rewrite splits_at.
Qed.

Lemma trans_edit_frame t f (b : mem_book) :
  let b' := edit_transaction t f b in
  scenery (H0 := mem_gnc) b b' /\
  (forall x, see_split (H0 := mem_gnc) b' x = see_split (H0 := mem_gnc) b x).
Proof. split; [by apply scenery_refl|done]. Qed.

Lemma keys_of_fresh {A} (P : A -> bool) (m : gmap nat A) x :
  keys_of P (<[fresh_key m := x]> m) =
  keys_of P m ++ (if P x then [fresh_key m] else []).
Proof.
  set (s := fresh_key m).
  assert (forall k, k ∈ keys_of P m -> (k < s)%nat) as Hlt.
  { intros k (y & Hy & _)%elem_of_keys_of. apply above_all_fresh.
    apply list_elem_of_fmap. exists (k, y). by rewrite elem_of_map_to_list. }
  apply increasing_ext.
  - apply keys_of_sorted.
  - destruct (P x); [|rewrite app_nil_r; apply keys_of_sorted].
    apply StronglySorted_app_2; [|apply keys_of_sorted|by repeat constructor].
    intros k y Hk%Hlt ->%list_elem_of_singleton. lia.
  - apply keys_of_NoDup.
  - apply NoDup_app. split_and!; [apply keys_of_NoDup| |].
    + intros k Hk%Hlt. destruct (P x); [|by apply not_elem_of_nil].
      intros ->%list_elem_of_singleton. lia.
    + destruct (P x); [apply NoDup_singleton|constructor].
  - intros k. rewrite elem_of_app, !elem_of_keys_of. setoid_rewrite lookup_insert.
    split.
    + case_decide as Hk; [|by left]. intros (y & [= <-] & ->). right.
      subst k. apply list_elem_of_here.
    + intros [Hk|Hk].
      * assert (k < s)%nat as Hks by (apply Hlt; by apply elem_of_keys_of).
        rewrite decide_False by lia. done.
      * destruct (P x) eqn:HP; [|by apply not_elem_of_nil in Hk].
        apply list_elem_of_singleton in Hk as ->. rewrite decide_True by done. eauto.
Qed.

Lemma mem_new_split (b : mem_book) (x : nat) b1 (t : nat) :
  xaccMallocSplit (Gnc := mem_gnc) b = (x, b1) ->
  let b' := edit_split x (set_split_parent t) b1 in
  (x ∉ splits_of_transaction b t) /\
  (forall y, y <> x -> spl b' y = spl b y) /\
  splits_of_transaction b' t = splits_of_transaction b t ++ [x] /\
  transaction_of_split (spl b' x) = t /\ ms_destroying (spl b' x) = false /\
  c_accounts (b_mem b') = c_accounts (b_mem b) /\
  c_transactions (b_mem b') = c_transactions (b_mem b).
Proof.
  intros [<- <-]%pair_equal_spec. cbv zeta.
  set (s := fresh_key (c_splits (b_mem b))).
  set (new := MkMemSplit _ _ _ _ _ _ _ _ _). split_and!; try done.
  - intros (y & Hy & _)%elem_of_keys_of.
    assert (s < s)%nat; [|lia]. apply above_all_fresh.
    apply list_elem_of_fmap. exists (s, y). by rewrite elem_of_map_to_list.
  - intros y Hy. unfold spl. cbn -[edit_at fresh_key].
    by rewrite lookup_edit_at, decide_False, lookup_insert_ne by congruence.
  - unfold splits_of_transaction at 1. cbn -[edit_at fresh_key].
    unfold edit_at. rewrite insert_insert_eq, lookup_insert_eq. fold s.
    rewrite (keys_of_fresh _ (c_splits (b_mem b))). cbn.
    by rewrite bool_decide_eq_true_2 by done.
  - unfold spl. cbn -[edit_at fresh_key].
    by rewrite lookup_edit_at, decide_True, lookup_insert_eq by done.
  - unfold spl. cbn -[edit_at fresh_key].
    by rewrite lookup_edit_at, decide_True, lookup_insert_eq by done.
Qed.

(** A setter, read back. *)
Ltac set_field H :=
  cbv zeta; unfold see_split, see_acct, see_pr;
  cbn -[edit_split edit_account edit_price]; by rewrite !H, !decide_True.

(** *** Rounding to units *)
Lemma mem_round_exact u v old :
  (0 < denom v)%Z -> representable u v ->
  (gnc_value (mem_round u v old) == gnc_value v)%Q /\ denom (mem_round u v old) = u.
Proof.
  intros Hv (Hu & k & Hk & Hval).
  assert (num v * u = k * denom v)%Z as Hn.
  { rewrite gnc_value_pos in Hval by done. unfold Qeq in Hval. cbn [Qnum Qden] in Hval.
    rewrite !Z2Pos.id in Hval; lia. }
  unfold mem_round. rewrite Hn.
  assert ((2 * (k * denom v) + denom v) / (2 * denom v) = k)%Z as ->.
  { symmetry. apply (Z.div_unique_pos _ _ _ (denom v)); lia. }
  assert (num_ok v && (0 <? u)%Z && int64 k = true) as ->.
  { unfold num_ok, int64. rewrite !andb_true_iff, !Z.ltb_lt, Z.leb_le. lia. }
  split; [|done]. by rewrite gnc_value_pos, Hval.
Qed.

(** *** Sums of units *)
Lemma mem_add_units u a b :
  (0 < u < 2 ^ 63)%Z -> denom a = u \/ num a = 0%Z /\ denom a = 1%Z -> denom b = u ->
  (- 2 ^ 63 <= num a + num b < 2 ^ 63)%Z ->
  mem_add a b = gnc_numeric_create (num a + num b) u.
Proof.
  intros Hu Ha Hb Hsum. unfold mem_add, num_ok.
  assert (Z.lcm (denom a) (denom b) = u) as Hl.
  { destruct Ha as [Ha|[_ Ha]]; rewrite Ha, Hb; [rewrite Z.lcm_diag|rewrite Z.lcm_1_l]; lia. }
  rewrite Hl.
  assert ((0 <? denom a)%Z && (0 <? denom b)%Z = true) as ->.
  { rewrite andb_true_iff, !Z.ltb_lt. destruct Ha as [Ha|[_ Ha]]; lia. }
  assert (num a * (u / denom a) + num b * (u / denom b) = num a + num b)%Z as ->.
  { rewrite Hb, Z.div_same by lia. destruct Ha as [Ha|[Ha _]]; rewrite Ha;
      [rewrite Z.div_same by lia|]; lia. }
  assert (int64 (num a + num b) && int64 u = true) as ->; [|done].
  unfold int64. rewrite !andb_true_iff, !Z.leb_le, !Z.ltb_lt. lia.
Qed.

Lemma mem_sum_units u vs a :
  (0 < u < 2 ^ 63)%Z -> denom a = u \/ num a = 0%Z /\ denom a = 1%Z ->
  Forall (fun v => denom v = u) vs ->
  (Z.abs (num a) + zsum (Z.abs ∘ num <$> vs) < 2 ^ 63)%Z ->
  let r := foldl mem_add a vs in
  num r = (num a + zsum (num <$> vs))%Z /\ num_ok r = true.
Proof.
  intros Hu. revert a. induction vs as [|v vs IH]; intros a Ha Hvs Hb.
  - cbn in *. split; [lia|]. unfold num_ok. apply Z.ltb_lt.
    destruct Ha as [->|[_ ->]]; lia.
  - apply Forall_cons in Hvs as [Hv Hvs]. cbn in Hb |- *. fold (zsum (num <$> vs)).
    fold (zsum (Z.abs ∘ num <$> vs)) in Hb.
    assert (0 <= zsum (Z.abs ∘ num <$> vs))%Z as Hnn.
    { clear. induction vs; cbn; [lia|]. fold (zsum (Z.abs ∘ num <$> vs)). lia. }
    rewrite (mem_add_units u) by (done || lia).
    destruct (IH (gnc_numeric_create (num a + num v) u)) as [-> ->];
      [by left|done|cbn; lia|]. cbn. split; [lia|done].
Qed.

(** ** The instances *)
#[export] Instance mem_calendar_ok : GncCalendarOk.
Proof.
  split. intros [[d m] y] [Hv Hy]. cbn in *. unfold mem_valid_dmy in Hv.
  rewrite !andb_true_iff, !Z.leb_le in Hv. destruct Hv as [[[[_ Hm1] Hm2] Hd1] Hd2].
  assert (days_in_month m y <= 31)%Z.
  { unfold days_in_month.
    destruct (m =? 2)%Z; [destruct (leap y)|destruct (bool_decide _)]; lia. }
  unfold mem_gdate, mem_midnight.
  assert (((((y * 12) + (m - 1)) * 31 + (d - 1)) * 86400 + 39540) / 86400 =
    ((y * 12) + (m - 1)) * 31 + (d - 1))%Z as ->
    by (Z.div_mod_to_equations; lia).
  f_equal; [f_equal|]; Z.div_mod_to_equations; lia.
Qed.

#[export] Instance mem_trans_edits_ok : GncTransEditsOk.
Proof.
  split.
  - intros t b. by split_and!.
  - intros t b b' []; apply trans_edit_frame.
  - intros t c b. cbn. unfold see_trans. cbn -[edit_at]. by rewrite txn_at, decide_True.
  - intros t d b _. cbn. unfold see_trans. cbn -[edit_at]. by rewrite txn_at, decide_True.
  - intros t e b. cbn. unfold see_trans. cbn -[edit_at]. by rewrite txn_at, decide_True.
  - intros t n b. cbn. unfold see_trans. cbn -[edit_at]. by rewrite txn_at, decide_True.
  - intros t d b. cbn. unfold see_trans. cbn -[edit_at]. by rewrite txn_at, decide_True.
  - intros b t b' [<- <-]%pair_equal_spec. split_and!; [by apply scenery_refl|by split|].
    apply elem_of_nil_inv. intros x (y & Hy & Hp%bool_decide_eq_true)%elem_of_keys_of.
    by destruct (fresh_transaction_no_split (b_mem b) x y Hy).
  - intros x b b' []; by apply split_edit_frame.
  - intros b x b1 t Hm. destruct (mem_new_split b x b1 t Hm)
      as (Hx & Hq & Hl & Hp & Hd & Ha & Ht).
    change (xaccSplitSetParent x t b1) with (edit_split x (set_split_parent t) b1).
    cbv zeta. set (b' := edit_split x (set_split_parent t) b1) in *.
    split_and!; [exact Hx| | | |exact Hp|exact Hd].
    + apply scenery_refl. intros a. unfold acct. by rewrite Ha.
    + intros y Hy. specialize (Hq y Hy).
      split; [unfold see_split|..]; cbn -[b']; by rewrite Hq.
    + unfold see_trans. cbn -[b']. rewrite Hl. unfold txn. by rewrite Ht.
  - intros x b. cbn -[edit_split]. by rewrite spl_at, decide_True.
  - intros x a b. set_field (@spl_at).
  - intros x v b. split; [set_field (@spl_at)|]. intros c Hc Hv Hd.
    cbn -[edit_split] in *. rewrite spl_at, decide_True by done. cbn.
    unfold value_unit. rewrite Hc. cbn. by apply mem_round_exact.
  - intros x v b. split_and!; [set_field (@spl_at)..|]. intros _ Hd.
    cbn -[edit_split]. by rewrite spl_at, decide_True.
  - intros x m b. split_and!; set_field (@spl_at).
  - intros x m b. split_and!; set_field (@spl_at).
  - intros x f b _. split_and!; set_field (@spl_at).
Qed.

#[export] Instance mem_account_edits_ok : GncAccountEditsOk.
Proof.
  split.
  - intros a b. by split; [apply scenery_refl|].
  - intros b a b' [<- <-]%pair_equal_spec. split_and!; [|done|].
    + intros x Hx. cbn. unfold acct. cbn. by rewrite lookup_insert_ne by congruence.
    + intros g (x & Hx & _)%find_key_Some. by rewrite fresh_account_unused in Hx.
  - intros a may b b' Hcall. apply scenery_refl. intros x.
    destruct Hcall; cbn -[edit_account];
      try change (on_accounts _ b) with (edit_account a (set_parent (Some p)) b);
      rewrite acct_at; case_decide; by subst.
  - intros a n b. set_field (@acct_at).
  - intros a n b. set_field (@acct_at).
  - intros a n b. set_field (@acct_at).
  - intros a n b. set_field (@acct_at).
  - intros a n b. set_field (@acct_at).
  - intros a n b. set_field (@acct_at).
  - intros a n b. set_field (@acct_at).
  - intros a p b.
    change (gnc_account_append_child p a b) with (edit_account a (set_parent (Some p)) b).
    set_field (@acct_at).
  - intros a t b. set_field (@acct_at).
Qed.

#[export] Instance mem_price_edits_ok : GncPriceEditsOk.
Proof.
  split.
  - intros p b b' [[]|[->|[_ <-]%pair_equal_spec]]; by apply scenery_refl.
  - intros p c b. set_field (@prc_at).
  - intros p c b. set_field (@prc_at).
  - intros p c b. set_field (@prc_at).
  - intros p c b. set_field (@prc_at).
  - intros p c b _. set_field (@prc_at).
Qed.

#[export] Instance mem_imbalance_ok : GncImbalanceOk.
Proof.
  split. intros b t u vs Hu Hd Hsize Hsum.
  change (xaccTransGetImbalanceValue b t) with
    (sum_values b (kept_splits (H0 := mem_gnc) b t)).
  assert (sum_values b (kept_splits (H0 := mem_gnc) b t) =
    foldl mem_add (gnc_numeric_create 0 1) vs) as ->.
  { clear. unfold vs, sum_values. generalize (gnc_numeric_create 0 1).
    induction (kept_splits (H0 := mem_gnc) b t) as [|x l IH]; intros a; [done|].
    cbn. apply IH. }
  destruct (mem_sum_units u vs (gnc_numeric_create 0 1)) as [Hn Hok];
    [done|by right|done|exact Hsize|].
  change (num_ok (foldl mem_add (gnc_numeric_create 0 1) vs) &&
    (num (foldl mem_add (gnc_numeric_create 0 1) vs) =? 0)%Z = true).
  by rewrite Hok, Hn, Hsum.
Qed.
