(* ===== verification/MemorySession.v ===== *)
(** * The engine in memory satisfies the session laws

    [GncSessionStoreOk] of [Lifecycle.v]: opening and closing store nothing, a
    save of a clean book stores what is stored, a load shows the stored book. *)
From S2P Require Import Prelude.
From S2P Require Import Engine.
From S2P Require Import Map.
From S2P Require Import Session.
From S2P Require Import Contract.
From S2P Require Import Lifecycle.
From S2P Require Import Mkbook.
From S2P Require Import MemoryEngine.
From S2P Require Import MemoryStore.

(** Two books with the same objects in memory look the same. *)
Lemma same_memory_looks (b b' : mem_book) :
  b_mem b = b_mem b' -> looks_same (H0 := mem_gnc) b b'.
Proof.
  destruct b as [c d l e], b' as [c' d' l' e']. cbn. intros ->.
  split; [split|]; reflexivity.
Qed.

#[export] Instance mem_session_store : GncSessionStoreOk.
Proof.
  split; try done.
  - intros p uri mode b Hm. by destruct mode.
  - intros p b [Hd Hwf]. cbn. split; [by split|].
    cbn in Hd. rewrite Hd. reflexivity.
  - intros b p b0 b1 ([c c' l e] & [Hd Hwf] & Hb) Hnew Hatt He b2 He2.
    assert (b_disk b1 = b_disk b) as Hd1.
    { injection Hnew as _ <-. by destruct Hatt as [[] ?|[] ?]. }
    split.
    + split; [done|]. cbn in *. rewrite Hd1. congruence.
    + apply same_memory_looks. cbn. done.
Qed.

(** A new store is saved as the book with its root account alone. *)
#[export] Instance mem_new_store : GncNewStoreOk.
Proof.
  split. intros b p b0 Hnew b1 He1 b2 He2 b'.
  injection Hnew as _ <-.
  assert (c_accounts (b_disk b) = ∅) as Hno.
  { unfold b1, begun_new in He1. cbn in He1. by case_decide. }
  assert (b2 = MkMemBook new_book new_book false 0) as Hb2.
  { unfold b2, b1, begun_new. cbn. by rewrite decide_True. }
  assert (gnc_book_get_root_account b1 = 1%nat) as ->.
  { unfold b1, begun_new. cbn. by rewrite decide_True. }
  unfold b'. rewrite Hb2. split_and!; [|vm_compute; reflexivity..].
  exists (MkMemBook new_book new_book false 0). split; [|done].
  split; [done|]. split; cbn; try (intros k x; by rewrite lookup_empty).
  intros k x [<- <-]%lookup_singleton_Some. split; [done|]. by vm_compute.
Qed.
