(* ===== verification/Codec.v ===== *)
(** * A concrete wire, journal file and gRPC runtime

    An instance of the protobuf codec for every message, of SQLite and of the
    gRPC runtime, with their laws. *)
From S2P Require Import Prelude.
From S2P Require Import Messages.
From S2P Require Import Errors.
From S2P Require Import Journal.

(** ** A self-delimiting wire format

    [put a k] writes [a] in front of [k]; [get] takes it off again. *)
Class Wire (A : Type) := {
  put : A -> string -> string;
  get : string -> option (A * string);
  get_put : forall a k, get (put a k) = Some (a, k);
}.

(** Values of a type that a wire type represents. *)
Definition wire_iso {A B} `{Wire B} (f : A -> B) (g : B -> A)
    (Hgf : forall a, g (f a) = a) : Wire A.
Proof.
  refine {| put a := put (f a); get s := '(b, k) ← get s; Some (g b, k) |}.
  intros a k. rewrite get_put. cbn. by rewrite Hgf.
Defined.

#[export] Instance unit_wire : Wire unit.
Proof. by refine {| put _ k := k; get s := Some (tt, s) |}; intros []. Defined.

#[export] Instance bool_wire : Wire bool.
Proof.
  refine {|
    put (b : bool) k := String (if b then "1" else "0")%char k;
    get s := match s with String c k => Some (Ascii.eqb c "1", k) | "" => None end |}.
  by intros [].
Defined.

#[export] Instance prod_wire {A B} `{Wire A, Wire B} : Wire (A * B).
Proof.
  refine {|
    put x k := put x.1 (put x.2 k);
    get s := '(a, s) ← get s; '(b, s) ← get s; Some ((a, b), s) |}.
  intros [a b] k. cbn. rewrite get_put. cbn. by rewrite get_put.
Defined.

#[export] Instance sum_wire {A B} `{Wire A, Wire B} : Wire (A + B).
Proof.
  refine {|
    put x k := match x with
               | inl a => put true (put a k) | inr b => put false (put b k) end;
    get s := '(first, s) ← get s;
             if first : bool then '(a, s) ← get s; Some (inl a, s)
             else '(b, s) ← get s; Some (inr b, s) |}.
  intros [a|b] k; rewrite get_put; cbn; by rewrite get_put.
Defined.

#[export] Instance option_wire {A} `{Wire A} : Wire (option A).
Proof.
  refine (wire_iso (B := unit + A)
    (fun o => match o with None => inl tt | Some a => inr a end)
    (fun x => match x with inl _ => None | inr a => Some a end) _).
  by intros [].
Defined.

(** Binary digits, the lowest first, up to a dot. *)
Fixpoint put_pos (p : positive) (k : string) : string :=
  match p with
  | xH => String "." k
  | xO p => String "0" (put_pos p k)
  | xI p => String "1" (put_pos p k)
  end.
Fixpoint get_pos (s : string) : option (positive * string) :=
  match s with
  | "" => None
  | String c s =>
      if Ascii.eqb c "." then Some (xH, s)
      else '(p, k) ← get_pos s;
           Some (if Ascii.eqb c "1" then xI p else xO p, k)
  end.

#[export] Instance positive_wire : Wire positive.
Proof.
  refine {| put := put_pos; get := get_pos |}.
  intros p k. induction p as [p IH|p IH|]; cbn; by rewrite ?IH.
Defined.

#[export] Instance Z_wire : Wire Z.
Proof.
  refine (wire_iso (B := unit + (bool * positive))
    (fun z => match z with
              | Z0 => inl tt | Zpos p => inr (true, p) | Zneg p => inr (false, p) end)
    (fun x => match x with
              | inl _ => Z0 | inr (true, p) => Zpos p | inr (false, p) => Zneg p end) _).
  by intros [].
Defined.

(** Characters one by one, each announced by a comma, up to a dot. *)
Fixpoint put_text (t k : string) : string :=
  match t with
  | "" => String "." k
  | String c t => String "," (String c (put_text t k))
  end.
Fixpoint get_text (s : string) : option (string * string) :=
  match s with
  | "" => None
  | String m s =>
      if Ascii.eqb m "." then Some ("", s)
      else match s with
           | "" => None
           | String c s => '(t, k) ← get_text s; Some (String c t, k)
           end
  end.

#[export] Instance string_wire : Wire string.
Proof.
  refine {| put := put_text; get := get_text |}.
  intros t k. induction t as [|c t IH]; cbn; by rewrite ?IH.
Defined.

(** Elements one by one; the input is long enough to count them. *)
Section list.
Context {A : Type} `{Wire A}.

Fixpoint put_list (l : list A) (k : string) : string :=
  match l with
  | [] => put false k
  | a :: l => put true (put a (put_list l k))
  end.
Fixpoint get_list (fuel : nat) (s : string) : option (list A * string) :=
  match fuel with
  | O => None
  | S fuel =>
      '(more, s) ← get s;
      if more : bool then
        '(a, s) ← get s; '(l, s) ← get_list fuel s; Some (a :: l, s)
      else Some ([], s)
  end.

Lemma get_put_list l k n : length l < n -> get_list n (put_list l k) = Some (l, k).
Proof.
  revert n. induction l as [|a l IH]; intros [|n]; cbn [length]; try lia; intros Hn;
    cbn [get_list put_list]; rewrite get_put; cbn; [done|].
  rewrite get_put. cbn. by rewrite IH by lia.
Qed.
End list.

#[export] Instance list_wire {A} `{Wire A} : Wire (list A).
Proof.
  refine {|
    put l k := put (Pos.of_succ_nat (S (length l))) (put_list l k);
    get s := '(n, s) ← get s; get_list (Pos.to_nat n) s |}.
  intros l k. rewrite get_put. cbn. apply get_put_list. lia.
Defined.

(** A message is the whole of its text. *)
Section codec.
Context {A : Type} `{Wire A}.

Definition wire_proto : Proto A := {|
  SerializeAsString m := put m "";
  ParseFromString s :=
    match get s with Some (m, "") => Some m | _ => None end;
|}.

Lemma wire_proto_ok : @ProtoOk A wire_proto.
Proof. intros m. cbn. by rewrite get_put. Qed.
End codec.

(** ** Every message *)
#[export] Instance ErrorCode_wire : Wire ErrorCode.
Proof.
  refine (wire_iso (B := Z + Z)
    (fun c => match c with
     | ERROR_CODE_UNSPECIFIED => inl 0%Z
     | ERROR_CODE_UNBALANCED_TRANSACTION => inl 1%Z
     | ERROR_CODE_ACCOUNT_NOT_FOUND => inl 2%Z
     | ERROR_CODE_TXN_NOT_FOUND => inl 3%Z
     | ERROR_CODE_COMMODITY_NOT_FOUND => inl 4%Z
     | ERROR_CODE_CURRENCY_MISMATCH => inl 5%Z
     | ERROR_CODE_ACCOUNT_NOT_EMPTY => inl 6%Z
     | ERROR_CODE_READ_ONLY_BOOK => inl 7%Z
     | ERROR_CODE_BOOK_LOCKED => inl 8%Z
     | ERROR_CODE_BOOK_NOT_OPEN => inl 9%Z
     | ERROR_CODE_INVALID_ARGUMENT => inl 10%Z
     | ERROR_CODE_INDETERMINATE_MUTATION => inl 11%Z
     | ERROR_CODE_ENGINE_ERROR => inl 12%Z
     | ERROR_CODE_unrecognized n => inr n
     end : Z + Z)
    (fun x => match x with
     | inl 0%Z => ERROR_CODE_UNSPECIFIED
     | inl 1%Z => ERROR_CODE_UNBALANCED_TRANSACTION
     | inl 2%Z => ERROR_CODE_ACCOUNT_NOT_FOUND
     | inl 3%Z => ERROR_CODE_TXN_NOT_FOUND
     | inl 4%Z => ERROR_CODE_COMMODITY_NOT_FOUND
     | inl 5%Z => ERROR_CODE_CURRENCY_MISMATCH
     | inl 6%Z => ERROR_CODE_ACCOUNT_NOT_EMPTY
     | inl 7%Z => ERROR_CODE_READ_ONLY_BOOK
     | inl 8%Z => ERROR_CODE_BOOK_LOCKED
     | inl 9%Z => ERROR_CODE_BOOK_NOT_OPEN
     | inl 10%Z => ERROR_CODE_INVALID_ARGUMENT
     | inl 11%Z => ERROR_CODE_INDETERMINATE_MUTATION
     | inl _ => ERROR_CODE_ENGINE_ERROR
     | inr n => ERROR_CODE_unrecognized n
     end) _).
  by intros [].
Defined.

#[export] Instance ReconcileState_wire : Wire ReconcileState.
Proof.
  refine (wire_iso (B := Z + Z)
    (fun s => match s with
     | RECONCILE_STATE_UNSPECIFIED => inl 0%Z
     | RECONCILE_STATE_NOT_RECONCILED => inl 1%Z
     | RECONCILE_STATE_CLEARED => inl 2%Z
     | RECONCILE_STATE_RECONCILED => inl 3%Z
     | RECONCILE_STATE_FROZEN => inl 4%Z
     | RECONCILE_STATE_VOIDED => inl 5%Z
     | RECONCILE_STATE_unrecognized n => inr n
     end : Z + Z)
    (fun x => match x with
     | inl 0%Z => RECONCILE_STATE_UNSPECIFIED
     | inl 1%Z => RECONCILE_STATE_NOT_RECONCILED
     | inl 2%Z => RECONCILE_STATE_CLEARED
     | inl 3%Z => RECONCILE_STATE_RECONCILED
     | inl 4%Z => RECONCILE_STATE_FROZEN
     | inl _ => RECONCILE_STATE_VOIDED
     | inr n => RECONCILE_STATE_unrecognized n
     end) _).
  by intros [].
Defined.

#[export] Instance AccountType_wire : Wire AccountType.
Proof.
  refine (wire_iso (B := Z + Z)
    (fun t => match t with
     | ACCOUNT_TYPE_UNSPECIFIED => inl 0%Z
     | ACCOUNT_TYPE_ASSET => inl 1%Z
     | ACCOUNT_TYPE_BANK => inl 2%Z
     | ACCOUNT_TYPE_CASH => inl 3%Z
     | ACCOUNT_TYPE_CREDIT => inl 4%Z
     | ACCOUNT_TYPE_LIABILITY => inl 5%Z
     | ACCOUNT_TYPE_EQUITY => inl 6%Z
     | ACCOUNT_TYPE_INCOME => inl 7%Z
     | ACCOUNT_TYPE_EXPENSE => inl 8%Z
     | ACCOUNT_TYPE_STOCK => inl 9%Z
     | ACCOUNT_TYPE_MUTUAL => inl 10%Z
     | ACCOUNT_TYPE_RECEIVABLE => inl 11%Z
     | ACCOUNT_TYPE_PAYABLE => inl 12%Z
     | ACCOUNT_TYPE_TRADING => inl 13%Z
     | ACCOUNT_TYPE_ROOT => inl 14%Z
     | ACCOUNT_TYPE_unrecognized n => inr n
     end : Z + Z)
    (fun x => match x with
     | inl 0%Z => ACCOUNT_TYPE_UNSPECIFIED
     | inl 1%Z => ACCOUNT_TYPE_ASSET
     | inl 2%Z => ACCOUNT_TYPE_BANK
     | inl 3%Z => ACCOUNT_TYPE_CASH
     | inl 4%Z => ACCOUNT_TYPE_CREDIT
     | inl 5%Z => ACCOUNT_TYPE_LIABILITY
     | inl 6%Z => ACCOUNT_TYPE_EQUITY
     | inl 7%Z => ACCOUNT_TYPE_INCOME
     | inl 8%Z => ACCOUNT_TYPE_EXPENSE
     | inl 9%Z => ACCOUNT_TYPE_STOCK
     | inl 10%Z => ACCOUNT_TYPE_MUTUAL
     | inl 11%Z => ACCOUNT_TYPE_RECEIVABLE
     | inl 12%Z => ACCOUNT_TYPE_PAYABLE
     | inl 13%Z => ACCOUNT_TYPE_TRADING
     | inl _ => ACCOUNT_TYPE_ROOT
     | inr n => ACCOUNT_TYPE_unrecognized n
     end) _).
  by intros [].
Defined.

#[export] Instance Numeric_wire : Wire Numeric.
Proof.
  refine (wire_iso
    (fun r => (Numeric_num r, Numeric_denom r))
    (fun '(a, b) => MkNumeric a b) _).
  by intros [].
Defined.

#[export] Instance Date_wire : Wire Date.
Proof.
  refine (wire_iso
    (fun r => (Date_year r, Date_month r, Date_day r))
    (fun '(a, b, c) => MkDate a b c) _).
  by intros [].
Defined.

#[export] Instance CommodityId_wire : Wire CommodityId.
Proof.
  refine (wire_iso
    (fun r => (CommodityId_space r, CommodityId_mnemonic r))
    (fun '(a, b) => MkCommodityId a b) _).
  by intros [].
Defined.

#[export] Instance ErrorDetail_wire : Wire ErrorDetail.
Proof.
  refine (wire_iso
    (fun r => (ErrorDetail_code r, ErrorDetail_engine_message r, ErrorDetail_context r))
    (fun '(a, b, c) => MkErrorDetail a b c) _).
  by intros [].
Defined.

#[export] Instance Outcome_wire : Wire Outcome.
Proof.
  refine (wire_iso
    (fun r => (Outcome_rpc_name r, Outcome_ok r, Outcome_response r, Outcome_error r))
    (fun '(a, b, c, d) => MkOutcome a b c d) _).
  by intros [].
Defined.

#[export] Instance Any_wire : Wire Any.
Proof.
  refine (wire_iso
    (fun r => (Any_type_url r, Any_value r))
    (fun '(a, b) => MkAny a b) _).
  by intros [].
Defined.

#[export] Instance RpcStatus_wire : Wire RpcStatus.
Proof.
  refine (wire_iso
    (fun r => (RpcStatus_code r, RpcStatus_message r, RpcStatus_details r))
    (fun '(a, b, c) => MkRpcStatus a b c) _).
  by intros [].
Defined.

#[export] Instance Account_wire : Wire Account.
Proof.
  refine (wire_iso
    (fun r => (Account_guid r, Account_parent_guid r, Account_name r, Account_type r,
               Account_commodity r, Account_code r, Account_description r,
               Account_placeholder r, Account_hidden r))
    (fun '(x0, x1, x2, x3, x4, x5, x6, x7, x8) => MkAccount x0 x1 x2 x3 x4 x5 x6 x7 x8) _).
  by intros [].
Defined.

#[export] Instance Split_wire : Wire Split.
Proof.
  refine (wire_iso
    (fun r => (Split_guid r, Split_account_guid r, Split_value r, Split_quantity r,
               Split_memo r, Split_action r, Split_reconcile_state r))
    (fun '(a, b, c, d, e, f, g) => MkSplit a b c d e f g) _).
  by intros [].
Defined.

#[export] Instance Transaction_wire : Wire Transaction.
Proof.
  refine (wire_iso
    (fun r => (Transaction_guid r, Transaction_currency r, Transaction_post_date r,
               Transaction_enter_time_utc r, Transaction_num r,
               Transaction_description r, Transaction_splits r))
    (fun '(a, b, c, d, e, f, g) => MkTransaction a b c d e f g) _).
  by intros [].
Defined.

#[export] Instance Price_wire : Wire Price.
Proof.
  refine (wire_iso
    (fun r => (Price_guid r, Price_commodity r, Price_currency r, Price_date r,
               Price_value r, Price_source r))
    (fun '(a, b, c, d, e, f) => MkPrice a b c d e f) _).
  by intros [].
Defined.

#[export] Instance ReconcileInfo_wire : Wire ReconcileInfo.
Proof.
  refine (wire_iso
    (fun r => (ReconcileInfo_account_guid r, ReconcileInfo_last_date r,
               ReconcileInfo_reconciled_balance r))
    (fun '(a, b, c) => MkReconcileInfo a b c) _).
  by intros [].
Defined.

#[export] Instance MutationMeta_wire : Wire MutationMeta.
Proof.
  refine (wire_iso
    (fun r => (MutationMeta_mutation_id r))
    (fun a => MkMutationMeta a) _).
  by intros [].
Defined.

#[export] Instance CreateAccountRequest_wire : Wire CreateAccountRequest.
Proof.
  refine (wire_iso
    (fun r => (CreateAccountRequest_meta r, CreateAccountRequest_account r))
    (fun '(a, b) => MkCreateAccountRequest a b) _).
  by intros [].
Defined.

#[export] Instance UpdateAccountRequest_wire : Wire UpdateAccountRequest.
Proof.
  refine (wire_iso
    (fun r => (UpdateAccountRequest_meta r, UpdateAccountRequest_account r))
    (fun '(a, b) => MkUpdateAccountRequest a b) _).
  by intros [].
Defined.

#[export] Instance DeleteAccountRequest_wire : Wire DeleteAccountRequest.
Proof.
  refine (wire_iso
    (fun r => (DeleteAccountRequest_meta r, DeleteAccountRequest_guid r))
    (fun '(a, b) => MkDeleteAccountRequest a b) _).
  by intros [].
Defined.

#[export] Instance SetReconcileInfoRequest_wire : Wire SetReconcileInfoRequest.
Proof.
  refine (wire_iso
    (fun r => (SetReconcileInfoRequest_meta r, SetReconcileInfoRequest_account_guid r,
               SetReconcileInfoRequest_last_date r))
    (fun '(a, b, c) => MkSetReconcileInfoRequest a b c) _).
  by intros [].
Defined.

#[export] Instance PostTransactionRequest_wire : Wire PostTransactionRequest.
Proof.
  refine (wire_iso
    (fun r => (PostTransactionRequest_meta r, PostTransactionRequest_transaction r))
    (fun '(a, b) => MkPostTransactionRequest a b) _).
  by intros [].
Defined.

#[export] Instance UpdateTransactionRequest_wire : Wire UpdateTransactionRequest.
Proof.
  refine (wire_iso
    (fun r => (UpdateTransactionRequest_meta r, UpdateTransactionRequest_transaction r))
    (fun '(a, b) => MkUpdateTransactionRequest a b) _).
  by intros [].
Defined.

#[export] Instance DeleteTransactionRequest_wire : Wire DeleteTransactionRequest.
Proof.
  refine (wire_iso
    (fun r => (DeleteTransactionRequest_meta r, DeleteTransactionRequest_guid r))
    (fun '(a, b) => MkDeleteTransactionRequest a b) _).
  by intros [].
Defined.

#[export] Instance AddPriceRequest_wire : Wire AddPriceRequest.
Proof.
  refine (wire_iso
    (fun r => (AddPriceRequest_meta r, AddPriceRequest_price r))
    (fun '(a, b) => MkAddPriceRequest a b) _).
  by intros [].
Defined.

#[export] Instance Empty_wire : Wire Empty.
Proof. refine (wire_iso (fun _ => tt) (fun _ => MkEmpty) _). by intros []. Defined.

#[export] Instance Outcome_proto : Proto Outcome := wire_proto.
#[export] Instance Outcome_proto_ok : ProtoOk Outcome := wire_proto_ok.
#[export] Instance Account_proto : Proto Account := wire_proto.
#[export] Instance Account_proto_ok : ProtoOk Account := wire_proto_ok.
#[export] Instance Transaction_proto : Proto Transaction := wire_proto.
#[export] Instance Transaction_proto_ok : ProtoOk Transaction := wire_proto_ok.
#[export] Instance Price_proto : Proto Price := wire_proto.
#[export] Instance Price_proto_ok : ProtoOk Price := wire_proto_ok.
#[export] Instance ReconcileInfo_proto : Proto ReconcileInfo := wire_proto.
#[export] Instance ReconcileInfo_proto_ok : ProtoOk ReconcileInfo := wire_proto_ok.
#[export] Instance Empty_proto : Proto Empty := wire_proto.
#[export] Instance Empty_proto_ok : ProtoOk Empty := wire_proto_ok.
#[export] Instance CreateAccountRequest_proto : Proto CreateAccountRequest := wire_proto.
#[export] Instance CreateAccountRequest_proto_ok : ProtoOk CreateAccountRequest := wire_proto_ok.
#[export] Instance UpdateAccountRequest_proto : Proto UpdateAccountRequest := wire_proto.
#[export] Instance UpdateAccountRequest_proto_ok : ProtoOk UpdateAccountRequest := wire_proto_ok.
#[export] Instance DeleteAccountRequest_proto : Proto DeleteAccountRequest := wire_proto.
#[export] Instance DeleteAccountRequest_proto_ok : ProtoOk DeleteAccountRequest := wire_proto_ok.
#[export] Instance SetReconcileInfoRequest_proto : Proto SetReconcileInfoRequest := wire_proto.
#[export] Instance SetReconcileInfoRequest_proto_ok : ProtoOk SetReconcileInfoRequest := wire_proto_ok.
#[export] Instance PostTransactionRequest_proto : Proto PostTransactionRequest := wire_proto.
#[export] Instance PostTransactionRequest_proto_ok : ProtoOk PostTransactionRequest := wire_proto_ok.
#[export] Instance UpdateTransactionRequest_proto : Proto UpdateTransactionRequest := wire_proto.
#[export] Instance UpdateTransactionRequest_proto_ok : ProtoOk UpdateTransactionRequest := wire_proto_ok.
#[export] Instance DeleteTransactionRequest_proto : Proto DeleteTransactionRequest := wire_proto.
#[export] Instance DeleteTransactionRequest_proto_ok : ProtoOk DeleteTransactionRequest := wire_proto_ok.
#[export] Instance AddPriceRequest_proto : Proto AddPriceRequest := wire_proto.
#[export] Instance AddPriceRequest_proto_ok : ProtoOk AddPriceRequest := wire_proto_ok.

(** A response type whose encoding is itself. *)
#[export] Instance string_proto : Proto string := {|
  SerializeAsString s := s;
  ParseFromString s := Some s;
|}.
#[export] Instance string_proto_ok : ProtoOk string.
Proof. done. Qed.

(** ** SQLite and the gRPC runtime *)
Definition by_time (a b : string * Intent) : Prop :=
  (journaled_at_utc a.2 <= journaled_at_utc b.2)%Z.

#[export] Instance by_time_dec : RelDecision by_time.
Proof. intros a b. unfold by_time. apply _. Defined.
#[export] Instance by_time_total : Total by_time.
Proof. intros a b. unfold by_time. lia. Qed.
#[export] Instance by_time_trans : Transitive by_time.
Proof. intros a b c. unfold by_time. lia. Qed.

#[export] Instance toy_sqlite : SqliteEnv := {|
  order_by_time := merge_sort by_time;
  unique_message := "UNIQUE constraint failed: applied.mutation_id";
  foreign_key_message := "FOREIGN KEY constraint failed";
  g_checksum_sha256 s := "#" +:+ s;
|}.

#[export] Instance toy_sqlite_ok : SqliteEnvOk.
Proof.
  split.
  - intros l. apply merge_sort_Permutation.
  - intros l. apply (StronglySorted_merge_sort by_time).
Qed.

#[export] Instance toy_grpc : GrpcEnv := {|
  grpc_int c :=
    match c with
    | OK => 0 | INVALID_ARGUMENT => 3 | NOT_FOUND => 5
    | RESOURCE_EXHAUSTED => 8 | FAILED_PRECONDITION => 9
    | INTERNAL => 13 | UNAVAILABLE => 14
    end%Z;
  any_pack d :=
    Some (MkAny "type.googleapis.com/ErrorDetail" (SerializeAsString (Proto := wire_proto) d));
  any_unpack a := ParseFromString (Proto := wire_proto) (Any_value a);
  RpcStatus_proto := wire_proto;
|}.

#[export] Instance toy_grpc_ok : GrpcEnvOk.
Proof.
  split; [|exact wire_proto_ok].
  intros d a Ha. apply (inj Some) in Ha as <-. apply wire_proto_ok.
Qed.
