(* ===== verification/Witnesses.v ===== *)
(** * The theorems of the protocol at concrete inputs

    The theorems of the worker, the journal, the mutation protocol and the
    reconciliation loop, which are stated over any engine, applied to a toy
    one. *)
From S2P Require Import Prelude.
From S2P Require Import Messages.
From S2P Require Import Errors.
From S2P Require Import Worker.
From S2P Require Import Journal.
From S2P Require Import Mutation.
From S2P Require Import Recovery.
From S2P Require Import Codec.

(** ** A toy engine: the list of the mutations applied to it, and whether an edit
    is open *)
Definition ToyBook : Type := list string * bool.

Definition toy_plan (id : string) : Plan ToyBook string := fun now e =>
  if bool_decide (id ∈ e.1) then
    Refuse (MkShimError ERROR_CODE_INVALID_ARGUMENT "already there" id)
  else if bool_decide (now < 0)%Z then
    Refuse (MkShimError ERROR_CODE_BOOK_NOT_OPEN "no book is open" "")
  else Proceed ("made " +:+ id) (e.1, true) (id :: e.1, false).

Definition toy_found (e : ToyBook) (entry : PendingEntry) : option bool :=
  Some (bool_decide (pe_mutation_id entry ∈ e.1)).

Lemma toy_plan_inv id now e out eo ec :
  toy_plan id now e = Proceed out eo ec ->
  (id ∉ e.1) /\ eo = (e.1, true) /\ ec = (id :: e.1, false).
Proof.
  unfold toy_plan. case_bool_decide; [done|]. case_bool_decide; [done|].
  intros [= <- <- <-]. done.
Qed.

Definition id1 : string := "01234567-89ab-cdef-0123-456789ABCDEF".
Definition id2 : string := "11111111-2222-3333-4444-555555555555".

Definition journal0 : Journal := MkJournal ∅ ∅ true [].
Definition queue0 : EngineWorker unit := new_EngineWorker 4.
Definition world0 : World ToyBook := MkWorld ([], false) journal0 queue0 7 None.

Lemma world0_ready : ready world0.
Proof. split; [done..|]. apply (bool_decide_unpack _). by vm_compute. Qed.

Lemma toy_conforms id : conforms (handler_of (toy_plan id)) (toy_plan id).
Proof. done. Qed.

Definition run0 : World ToyBook * res exn (Status * option string) :=
  RunMutation id1 "payload" "toy.Service/Make" "" (handler_of (toy_plan id1)) world0.
Definition world1 : World ToyBook := run0.1.

Lemma run0_eq : run0 = (world1, Ret (Status_OK, Some ("made " +:+ id1))).
Proof. vm_compute. reflexivity. Qed.

(** ** The theorems at concrete inputs *)
Lemma worker_fifo_bounded_witness :
  reachable 2 (MkSys (MkEngineWorker [7] 2 false) AtLock 1 false [7] []) /\
  queue_depth (MkEngineWorker [7] 2 false) <= 2.
Proof.
  assert (reachable 2 (MkSys (MkEngineWorker [7] 2 false) AtLock 1 false [7] []))
    as Hr.
  { apply star_one. right. by apply (step_enqueue (init 2) 7 (MkEngineWorker [7] 2 false)). }
  split; [exact Hr|]. apply (worker_fifo_bounded 2 _ Hr).
Defined.

Lemma worker_no_lost_wakeup_witness :
  let s := MkSys (MkEngineWorker [7] 2 false) AtLock 1 false [7] [] in
  (exists s', internal s s') \/ (joined s = true /\ executed s = accepted s).
Proof.
  intros s. apply (worker_no_lost_wakeup 2 s); [|by right].
  apply star_one. right. by apply (step_enqueue (init 2) 7 (MkEngineWorker [7] 2 false)).
Defined.

Lemma worker_drain_terminates_witness :
  Enqueue 7 (MkEngineWorker [] 2 true) = inl WorkerStoppedError /\
  Acc (fun y x => internal x y)
    (MkSys (MkEngineWorker (T := nat) [] 2 true) AtLock 1 false [] []).
Proof.
  assert (reachable 2 (MkSys (MkEngineWorker (T := nat) [] 2 true) AtLock 1 false [] []))
    as Hr.
  { apply star_one. right. by apply (step_drain (init 2) (MkEngineWorker [] 2 true)). }
  destruct (worker_drain_terminates 2 _ Hr) as (Hacc & _ & Henq); [done|].
  split; [apply Henq|exact Hacc].
Defined.

Definition intent1 : Intent := MkIntent "toy.Service/Make" "p" (Sha256 "p") 5 None.
Definition journal1 : Journal := MkJournal {[ id1 := intent1 ]} ∅ true [].
Definition outcome1 : Outcome := ok_outcome "toy.Service/Make" "made".

Lemma journal1_lookup id i :
  intents journal1 !! id = Some i -> id1 = id /\ intent1 = i.
Proof.
  unfold journal1. change (intents _) with ({[id1 := intent1]} : gmap string Intent).
  by rewrite lookup_singleton_Some.
Qed.

Lemma journal1_wf : journal_wf journal1.
Proof.
  split; [done|by intros id [? ?]|]. by intros id i [_ <-]%journal1_lookup.
Qed.

Lemma journal1_printable : ids_printable journal1.
Proof. by intros id i [<- _]%journal1_lookup. Qed.

Lemma journal_history_immutable_witness :
  let j := (RecordOutcome id1 outcome1 6 journal1).1 in
  applied (run_calls [CallClearPending id1; CallRecordOutcome id1 outcome1 9] j)
    !! id1 = Some (MkApplied (SerializeAsString outcome1) 6).
Proof.
  intros j. apply journal_history_immutable. vm_compute. reflexivity.
Defined.

Lemma journal_wf_invariant_witness :
  journal_wf (run_calls [CallRecordIntent id2 "r" "q" 8;
                         CallRecordOutcome id2 outcome1 9] journal1).
Proof. apply journal_wf_invariant. exact journal1_wf. Defined.

Lemma record_outcome_once_witness :
  let j := (RecordOutcome id1 outcome1 6 journal1).1 in
  GetOutcome id1 j = (j, Ret (Some outcome1)).
Proof.
  intros j.
  apply (record_outcome_once id1 outcome1 6 journal1 j); vm_compute; reflexivity.
Defined.

Lemma list_indeterminate_exact_witness :
  exists es, ListIndeterminate journal1 = (journal1, Ret es) /\
             id1 ∈ (ie_mutation_id <$> es).
Proof.
  destruct (list_indeterminate_exact journal1) as (es & Hes & _ & Hids & _);
    [reflexivity|exact journal1_printable|].
  exists es. split; [exact Hes|]. apply Hids. vm_compute. eauto.
Defined.

Lemma validate_mutation_id_exact_witness :
  valid_mutation_id id1 = true /\ c_str id1 = id1 /\
  ValidateMutationId "not-a-uuid" tt =
    (tt, Throw (ShimErr (bad_mutation_id "not-a-uuid"))).
Proof.
  split; [reflexivity|split].
  - apply (validate_mutation_id_exact id1 tt). reflexivity.
  - apply (validate_mutation_id_exact "not-a-uuid" tt).
Defined.

Lemma invalid_id_never_journaled_witness :
  exists e,
    RunMutation "oops" "payload" "toy.Service/Make" ""
      (handler_of (toy_plan "oops")) world0 =
      (world0, Ret (StatusFromException e, None)) /\
    (ready world0 -> e = ShimErr (bad_mutation_id "oops")).
Proof. apply invalid_id_never_journaled. reflexivity. Defined.

Lemma resend_identical_witness :
  RunMutation id1 "another payload" "toy.Service/Make" ""
    (handler_of (toy_plan id2)) world1 =
    (world1, Ret (Status_OK, Some ("made " +:+ id1))).
Proof.
  apply (resend_identical id1 "payload" "toy.Service/Make" ""
    (handler_of (toy_plan id1)) (toy_plan id1) world0 world1 _
    (toy_conforms id1) world0_ready) with (plan' := toy_plan id2).
  - reflexivity.
  - exact run0_eq.
  - vm_compute. eauto.
  - apply toy_conforms.
Defined.

Lemma only_verdicts_recorded_witness :
  engine world1 = ([id1], false) /\ is_Some (applied (journal world1) !! id1).
Proof.
  apply (only_verdicts_recorded id1 "payload" "toy.Service/Make" ""
    (handler_of (toy_plan id1)) (toy_plan id1) world0 world1 _
    (toy_conforms id1) world0_ready eq_refl eq_refl run0_eq).
Defined.

Lemma run_mutation_journal_safe_witness :
  journal_wf (journal world1) /\ journal_le journal0 (journal world1).
Proof.
  destruct (run_mutation_journal_safe id1 "payload" "toy.Service/Make" ""
    (handler_of (toy_plan id1)) (toy_plan id1) world0 world1 _
    (toy_conforms id1) run0_eq) as (Hwf & Hle & _).
  split; [apply Hwf|exact Hle].
  split; [reflexivity|by intros id [? ?]|by intros id i].
Defined.

Definition journal_pending : Journal :=
  (RecordPending id1 "made" journal1).1.

Lemma journal_pending_printable : ids_printable journal_pending.
Proof.
  intros id i Hi.
  assert (is_Some (intents journal1 !! id)) as [i0 Hi0];
    [|by eapply journal1_printable].
  apply (with_pending_has id1 id "made"). by exists i.
Qed.

Lemma reconcile_exact_witness :
  exists k j',
    ReconcilePendingMutations toy_found
      (MkWorld ([id1], false) journal_pending queue0 9 None) =
      (MkWorld ([id1], false) j' queue0 9 None, Ret k) /\
    GetOutcome id1 j' =
      (j', Ret (Some (MkOutcome "toy.Service/Make" true "made" None))).
Proof.
  destruct (reconcile_exact toy_found
    (MkWorld ([id1], false) journal_pending queue0 9 None))
    as (k & j' & Hrun & _ & _ & Hpend & _).
  - reflexivity.
  - exact journal_pending_printable.
  - exists k, j'. split; [exact Hrun|].
    apply (Hpend id1 (set_pending (Some "made") intent1) "made");
      vm_compute; reflexivity.
Defined.
