(* ===== verification/DaemonWitnesses.v ===== *)
(** * The guarantee at a concrete run

    A client posts a transaction; the daemon dies after the engine commit, and
    again before the pending record; it is restarted and asked again. *)
From S2P Require Import Prelude.
From S2P Require Import Messages.
From S2P Require Import Engine.
From S2P Require Import Errors.
From S2P Require Import Map.
From S2P Require Import Session.
From S2P Require Import Worker.
From S2P Require Import Journal.
From S2P Require Import Mutation.
From S2P Require Import Rpc.
From S2P Require Import Transactions.
From S2P Require Import Recovery.
From S2P Require Import Protocol.
From S2P Require Import Contract.
From S2P Require Import MemoryEngine.
From S2P Require Import MemoryStore.
From S2P Require Import Codec.
From S2P Require Import Witnesses.
From S2P Require Import EngineWitnesses.

(** Every id posts the lunch of [EngineWitnesses.v]. *)
Definition lunch (id : string) : Request :=
  RPostTransaction (MkPostTransactionRequest (Some (MkMutationMeta id)) (Some spec0)).

Lemma lunch_keyed id : request_id (lunch id) = id.
Proof. done. Qed.

Definition home_config : Config := MkConfig "sqlite3:///books/home.gnucash" false.

(** The session of a new process that opens what [s] has stored. *)
Definition reopened (s : Session) : Session :=
  MkSession home_config (Some tt) true (book_load (book_store (qof s))).

Definition daemon0 : World Session := MkWorld session0 journal0 queue0 7 None.

(** Well-formedness of concrete contents, decided. *)
Definition wf_b (c : contents) : bool :=
  bool_decide (map_Forall (fun k x => ma_guid x = mint k /\ mintable k) (c_accounts c)) &&
  bool_decide (map_Forall (fun k x => mt_guid x = mint k /\ mintable k)
                 (c_transactions c)) &&
  bool_decide (map_Forall (fun k x => mp_guid x = mint k /\ mintable k) (c_prices c)) &&
  bool_decide (map_Forall (fun _ x => ms_destroying x = false) (c_splits c)) &&
  bool_decide (map_Forall (fun _ x => mt_destroying x = false) (c_transactions c)).

Lemma wf_by c : wf_b c = true -> wf c.
Proof.
  unfold wf_b. rewrite !andb_true_iff, !bool_decide_eq_true.
  intros ((((? & ?) & ?) & ?) & ?). by split.
Qed.

Lemma contents0_wf : wf contents0.
Proof. apply wf_by. vm_compute. reflexivity. Qed.

Lemma reopened_loads s :
  wf_b (b_disk (qof s)) = true -> loads (disk s) (reopened s).
Proof.
  intros Hwf%wf_by. split; [|reflexivity]. split_and!; [done|discriminate|by split].
Qed.

Definition died : World Session :=
  (serve (lunch id1) (at_request queue0 8 (Some "after_apply") daemon0)).1.
Definition recovered : World Session :=
  (ReconcilePendingMutations found_applied (restart (reopened (engine died)) 9 died)).1.
Definition answered : World Session :=
  (serve (lunch id1) (at_request queue0 10 None recovered)).1.

(** Posting the lunch leaves a balanced edit, at any time of day. *)
Definition lunch_balanced (id : string) (now : Z) (s : Session) : bool :=
  match PostTransaction_edit (MkPostTransactionRequest (Some (MkMutationMeta id))
          (Some spec0)) now s with
  | (so, Ret p) => gnc_numeric_zero_p (xaccTransGetImbalanceValue (qof so) p.1)
  | _ => true
  end.

Lemma lunch_fits_at s id :
  (forall now, lunch_balanced id now s = true) -> mem_room (qof s) -> fits (lunch id) s.
Proof.
  intros Hb Hroom. split; [exact Hroom|]. intros now so p Hrun.
  specialize (Hb now). unfold lunch_balanced in Hb. by rewrite Hrun in Hb.
Qed.

Lemma lunch_fits id : fits (lunch id) session0.
Proof.
  apply lunch_fits_at; [intros now; vm_compute; reflexivity|].
  split_and!; vm_compute; reflexivity.
Qed.

Lemma lunch_fits_again id : fits (lunch id) (engine recovered).
Proof.
  apply lunch_fits_at; [intros now; vm_compute; reflexivity|].
  split_and!; vm_compute; reflexivity.
Qed.


Lemma by_result {S A} (m : S * A) r : m.2 = r -> m = (m.1, r).
Proof. intros <-. apply surjective_pairing. Qed.

(** A run to the state [d] names, evaluated for its result only. *)
Ltac by_run d := unfold d; apply by_result; vm_compute; reflexivity.

(** What the client is told in the end. *)
Definition reply_bytes (r : res exn (Status * option string)) : string :=
  match r with Ret (_, Some bytes) => bytes | _ => "" end.
Definition told : string :=
  reply_bytes (serve (lunch id1) (at_request queue0 10 None recovered)).2.

Definition lunch_step := daemon_step lunch.

Lemma dies : serve (lunch id1) (at_request queue0 8 (Some "after_apply") daemon0) =
  (died, Died).
Proof. by_run died. Qed.

Lemma recovers :
  ReconcilePendingMutations found_applied (restart (reopened (engine died)) 9 died) = (recovered, Ret 1).
Proof. by_run recovered. Qed.

Lemma answers : serve (lunch id1) (at_request queue0 10 None recovered) =
  (answered, Ret (Status_OK, Some told)).
Proof. by_run answered. Qed.

Lemma crash_run :
  lstar lunch_step daemon0 [Crashed; Replied id1 Status_OK (Some told)] answered.
Proof.
  eapply lstar_cons with (b := recovered).
  { apply (daemon_crash _ daemon0 id1 queue0 8 (Some "after_apply") died
      (reopened (engine died)) 9 recovered 1).
    - apply lunch_fits.
    - exact dies.
    - apply reopened_loads. vm_compute. reflexivity.
    - exact recovers. }
  eapply lstar_cons with (b := answered); [|constructor].
  apply (daemon_reply _ recovered id1 queue0 10 None answered).
  - apply lunch_fits_again.
  - exact answers.
Qed.

Lemma daemon0_fresh : fresh settled daemon0.
Proof.
  split; [|done]. apply at_rest_settled.
  split_and!; [done|discriminate|]. split; [done|apply contents0_wf].
Qed.

(** A death before the pending record. *)
Definition died_early : World Session :=
  (serve (lunch id1) (at_request queue0 8 (Some "after_intent") daemon0)).1.
Definition restarted : World Session :=
  (ReconcilePendingMutations found_applied (restart (reopened (engine died_early)) 9 died_early)).1.

Lemma early_run : lstar lunch_step daemon0 [Crashed] restarted.
Proof.
  eapply lstar_cons with (b := restarted); [|constructor].
  apply (daemon_crash _ daemon0 id1 queue0 8 (Some "after_intent") died_early
    (reopened (engine died_early)) 9 restarted 0).
  - apply lunch_fits.
  - by_run died_early.
  - apply reopened_loads. vm_compute. reflexivity.
  - by_run restarted.
Qed.

(** The recovered daemon answers from its record and holds one lunch. *)
Example lunch_once :
  size (c_transactions (b_mem (qof (engine answered)))) = 1 /\
  length (xaccTransGetSplitList (qof (engine answered)) 1) = 3.
Proof. vm_compute. done. Qed.

Lemma daemon_refines_atomic_service_witness :
  exists s,
    lstar (daemon_spec lunch) (spec_init (book_of daemon0))
      [Crashed; Replied id1 Status_OK (Some told)] s /\
    same_store (book_of answered) (spec_book s).
Proof.
  destruct (daemon_refines_atomic_service lunch lunch_keyed
    daemon0 _ answered daemon0_fresh crash_run) as (s & Hs & Hb & _).
  exists s. split; [exact Hs|exact Hb].
Defined.

Lemma acknowledged_exactly_once_witness :
  exists s, same_store (book_of answered) (spec_book s) /\ NoDup (log s) /\ id1 ∈ log s.
Proof.
  destruct (acknowledged_exactly_once lunch lunch_keyed
    daemon0 _ answered daemon0_fresh crash_run) as (s & _ & Hb & Hnd & Hok).
  exists s. split; [exact Hb|]. split; [exact Hnd|].
  apply (Hok id1 Status_OK (Some told)); [|reflexivity].
  apply list_elem_of_further, list_elem_of_here.
Defined.

Lemma indeterminate_took_no_effect_witness :
  exists s es,
    ListIndeterminate (journal restarted) = (journal restarted, Ret es) /\
    (id1 ∈ (ie_mutation_id <$> es) -> id1 ∉ log s) /\
    same_store (book_of restarted) (spec_book s).
Proof.
  destruct (indeterminate_took_no_effect lunch lunch_keyed
    daemon0 _ restarted daemon0_fresh early_run) as (s & es & _ & Hb & Hes & Hno).
  exists s, es. split; [exact Hes|]. split; [apply Hno|exact Hb].
Defined.
