(* ===== verification/FaultWitnesses.v ===== *)
(** * A full disk at a concrete run

    The client posts the lunch of [DaemonWitnesses.v] and SQLite reports a full
    disk, once at the pending record and once at the record of the outcome. *)
From S2P Require Import Prelude.
From S2P Require Import Messages.
From S2P Require Import Engine.
From S2P Require Import Errors.
From S2P Require Import Map.
From S2P Require Import Session.
From S2P Require Import Worker.
From S2P Require Import Journal.
From S2P Require Import Mutation.
From S2P Require Import Faults.
From S2P Require Import Rpc.
From S2P Require Import Transactions.
From S2P Require Import Recovery.
From S2P Require Import Protocol.
From S2P Require Import Acknowledged.
From S2P Require Import Contract.
From S2P Require Import MemoryEngine.
From S2P Require Import MemoryStore.
From S2P Require Import Codec.
From S2P Require Import Witnesses.
From S2P Require Import EngineWitnesses.
From S2P Require Import DaemonWitnesses.

Definition disk_full : SqlFault := MkSqlFault "database or disk is full" "step".
Definition post : Call Session := call_of (lunch id1).
Definition send (w : World Session) :=
  RunMutation id1 (call_bytes post) (call_rpc post) (call_resp post) (call_apply post) w.
Definition planned (now : Z) (s : Session) := call_plan post now s.

Lemma daemon0_ready : ready daemon0.
Proof. split; [done..|]. apply (bool_decide_unpack _). by vm_compute. Qed.

(** The splits in memory and the splits stored. *)
Definition splits_held (s : Session) : nat * nat :=
  (length (qof_query_run (qof s) all_splits),
   length (qof_query_run (book_load (book_store (qof s))) all_splits)).

Definition unrecorded (k : nat) : World Session := (send (fails_after k disk_full daemon0)).1.

(** The edit that nobody closes, and the commit that nobody recorded. *)
Example edit_left_open : splits_held (engine (unrecorded 2)) = (3, 0).
Proof. vm_compute. reflexivity. Qed.

Definition retried : World Session := (send (unrecorded 3)).1.

Example posted_twice :
  splits_held (engine (unrecorded 3)) = (3, 3) /\ splits_held (engine retried) = (6, 6).
Proof. vm_compute. done. Qed.

Lemma journal_failure_exact_witness :
  status_code (StatusFromException (journal_error disk_full)) = INTERNAL /\
  send (fails_after 2 disk_full daemon0) =
    (failed_at 2 id1 (call_bytes post) (call_rpc post) (call_plan post) daemon0,
     Ret (StatusFromException (journal_error disk_full), None)).
Proof.
  split; [reflexivity|].
  destruct (journal_failure_exact id1 (call_bytes post) (call_rpc post) (call_resp post)
    (call_apply post) (call_plan post) 2 disk_full daemon0 (call_conforms post) daemon0_ready)
    as [Hrun _].
  - vm_compute. reflexivity.
  - reflexivity.
  - reflexivity.
  - apply (bool_decide_unpack _). vm_compute. exact I.
  - exact Hrun.
Defined.

(** The parts of a plan that goes through. *)
Lemma proceeds_inv {R} (p : PlanResult Session R) :
  proceeds p = true -> exists out eo ec, p = Proceed out eo ec.
Proof. destruct p; [done..|]. eauto. Qed.

Definition committed {R} (s : Session) (p : PlanResult Session R) : Session :=
  match p with Proceed _ _ ec => ec | _ => s end.
Definition first_post : Session := committed session0 (planned 7 session0).

Lemma unrecorded_outcome_reexecutes_witness :
  exists w1 w2 reply,
    engine w1 = first_post /\
    send (MkWorld (engine w1) (journal w1) (queue w1) 9 None) = (w2, Ret reply) /\
    reply.1 = Status_OK.
Proof.
  destruct (proceeds_inv (planned 7 session0)) as (out & eo & ec & Hp).
  { vm_compute. reflexivity. }
  destruct (proceeds_inv (planned 9 first_post)) as (out' & eo' & ec' & Hp').
  { vm_compute. reflexivity. }
  unfold first_post in Hp'. rewrite Hp in Hp'. cbn [committed] in Hp'.
  destruct (unrecorded_outcome_reexecutes id1 (call_bytes post) (call_rpc post)
    (call_resp post) (call_apply post) (call_plan post) disk_full daemon0 out eo ec
    9 out' eo' ec' (call_conforms post) daemon0_ready)
    as (He & _ & w2 & Hrun & _).
  - vm_compute. reflexivity.
  - reflexivity.
  - reflexivity.
  - exact Hp.
  - exact Hp'.
  - exists (unrecorded 3), w2, (Status_OK, Some out').
    split; [|split; [exact Hrun|reflexivity]].
    unfold first_post. rewrite Hp. exact He.
Defined.

(** A request that fails at its outcome's record, the same again, which posts
    and is acknowledged, a restart on the first, empty book whose reconciliation
    fails, and the same request once more. *)
Local Abbreviation rough := (rough_step found_applied (calls lunch)).
Local Abbreviation sending := (submit (calls lunch) id1).

Definition tried : World Session :=
  (sending (at_request queue0 8 None (strained [None; None; None; Some disk_full] daemon0))).1.
Definition served : World Session :=
  (sending (at_request queue0 9 None (strained [] tried))).1.
Definition reply_of (r : res exn (Status * option string)) : Status * option string :=
  match r with Ret x => x | _ => (Status_OK, None) end.
Definition told_ok : option string :=
  (reply_of (sending (at_request queue0 9 None (strained [] tried))).2).2.
Definition told_full : Status * option string :=
  reply_of
    (sending (at_request queue0 8 None
       (strained [None; None; None; Some disk_full] daemon0))).2.
Definition reopened_empty : World Session :=
  (ReconcilePendingMutations found_applied
     (restart session0 10 (strained [Some disk_full] served))).1.

Definition rough_run : list label :=
  [Replied id1 told_full.1 told_full.2; Replied id1 Status_OK told_ok; Crashed].

Lemma roughly : lstar rough daemon0 rough_run reopened_empty.
Proof.
  eapply lstar_cons with (b := tried).
  { eapply (rough_reply _ _ _ _ [None; None; None; Some disk_full] queue0 8 None).
    by_run tried. }
  eapply lstar_cons with (b := served).
  { eapply (rough_reply _ _ _ _ [] queue0 9 None). by_run served. }
  eapply lstar_cons with (b := reopened_empty); [|constructor].
  eapply (rough_restart _ _ _ session0 [Some disk_full] 10). apply surjective_pairing.
Qed.

(** The restarted daemon answers from its record, on a book without the lunch. *)
Example answered_from_record :
  (sending (at_request queue0 11 None (strained [] reopened_empty))).2 =
    Ret (Status_OK, told_ok) /\ told_full.1 <> Status_OK.
Proof. split; [vm_compute; reflexivity|vm_compute; discriminate]. Qed.

Lemma acknowledged_for_good_witness :
  told_ok <> None /\
  forall fs q now cp w' r,
    sending (at_request q now cp (strained fs reopened_empty)) = (w', r) ->
    r = Ret (Status_OK, told_ok) \/ r = Died \/ exists e, r = Ret (StatusFromException e, None).
Proof.
  split; [vm_compute; discriminate|].
  destruct (acknowledged_for_good found_applied (calls lunch) daemon0 rough_run
    reopened_empty id1 Status_OK told_ok roughly) as [_ Hlater].
  - apply list_elem_of_further, list_elem_of_here.
  - reflexivity.
  - intros fs q now cp w' r Hrun. exact (proj2 (Hlater fs q now cp w' r Hrun)).
Defined.
