(* ===== verification/EditsWitnesses.v ===== *)
(** * The requests of [Edits.v] and [Typing.v] at concrete inputs *)
From S2P Require Import Prelude.
From S2P Require Import Messages.
From S2P Require Import Engine.
From S2P Require Import Errors.
From S2P Require Import Map.
From S2P Require Import Session.
From S2P Require Import Worker.
From S2P Require Import Journal.
From S2P Require Import Mutation.
From S2P Require Import Rpc.
From S2P Require Import Accounts.
From S2P Require Import Transactions.
From S2P Require Import Query.
From S2P Require Import Commodities.
From S2P Require Import Recovery.
From S2P Require Import Protocol.
From S2P Require Import Contract.
From S2P Require Import Typing.
From S2P Require Import Edits.
From S2P Require Import Balanced.
From S2P Require Import MemoryEngine.
From S2P Require Import MemoryStore.
From S2P Require Import MemoryEdits.
From S2P Require Import Codec.
From S2P Require Import Witnesses.
From S2P Require Import EngineWitnesses.
From S2P Require Import DaemonWitnesses.
From Stdlib Require Import QArith.
Local Close Scope Q_scope.

(** ** Whole numbers of units, decided *)
Definition whole (unit : Z) (v : gnc_numeric) : bool :=
  ((0 <? Engine.denom v) && (0 <? unit) && (Engine.num v * unit mod Engine.denom v =? 0) &&
   (- 2 ^ 63 <=? Engine.num v * unit / Engine.denom v) && (Engine.num v * unit / Engine.denom v <? 2 ^ 63))%Z.

Lemma whole_representable unit v : whole unit v = true -> representable unit v.
Proof.
  unfold whole. rewrite !andb_true_iff, !Z.ltb_lt, Z.leb_le, Z.eqb_eq.
  intros [[[[Hd Hu] Hm] Hlo] Hhi]. split; [exact Hu|].
  exists (Engine.num v * unit / Engine.denom v)%Z. split; [lia|].
  rewrite gnc_value_pos by done. unfold Qeq. cbn. rewrite !Z2Pos.id by done.
  rewrite (Z.div_mod (Engine.num v * unit) (Engine.denom v)) at 1 by lia. rewrite Hm. lia.
Qed.

Definition plan_whole (b : mem_book) (r : ShimError + TransactionPlan) : bool :=
  match r with
  | inr plan =>
      forallb (fun p => whole (gnc_commodity_get_fraction b (currency plan)) (value p) &&
                        whole 100 (quantity p)) (splits plan)
  | inl _ => true
  end.

Lemma holds_whole (b : mem_book) now spec ex d :
  Transaction_post_date spec = Some d -> (1400 <= Date_year d <= 9999)%Z ->
  plan_whole b (PlanTransaction b now spec ex) = true ->
  holds_exactly b now spec ex.
Proof.
  intros Hd Hy Hw. split.
  - intros d' Hd'. rewrite Hd in Hd'. by injection Hd' as <-.
  - intros plan Hp. rewrite Hp in Hw. cbn in Hw. rewrite forallb_forall in Hw.
    apply Forall_forall. intros p Hin%list_elem_of_In%Hw.
    apply andb_true_iff in Hin as [Hv Hq].
    split; by apply whole_representable.
Qed.

(** Sums within 64 bits of units, decided. *)
Definition sums_small (b : mem_book) (spec : Transaction)
    (r : ShimError + TransactionPlan) : bool :=
  match r with
  | inr plan =>
      let u := gnc_commodity_get_fraction b (currency plan) in
      (0 <? u)%Z && (u <? 2 ^ 63)%Z &&
      negb (Qle_bool (inject_Z (2 ^ 63))
              (spec_size (Transaction_splits spec) * inject_Z u))
  | inl _ => true
  end.

Lemma sums_by (b : mem_book) now spec ex plan :
  sums_small b spec (PlanTransaction b now spec ex) = true ->
  PlanTransaction b now spec ex = inr plan ->
  sums_within b (currency plan) (Transaction_splits spec).
Proof.
  unfold sums_small. intros Hb Hp. rewrite Hp in Hb. cbv beta iota zeta in Hb.
  rewrite !andb_true_iff, !Z.ltb_lt, negb_true_iff in Hb. destruct Hb as [Hu Hs].
  split; [exact Hu|]. apply Qnot_le_lt. intros Hle%Qle_bool_iff. congruence.
Qed.

(** ** Transactions *)
Definition lunch_request : PostTransactionRequest :=
  MkPostTransactionRequest (Some (MkMutationMeta id1)) (Some spec0).

Lemma exact_transactions_fit_witness : fits (RPostTransaction lunch_request) session0.
Proof.
  destruct (exact_transactions_fit session0) as [Hpost _].
  { split_and!; vm_compute; reflexivity. }
  apply Hpost. intros now. split.
  - eapply holds_whole; [reflexivity|cbn; lia|vm_compute; reflexivity].
  - intros plan. apply sums_by. vm_compute. reflexivity.
Defined.

Definition lunch_edit := PostTransaction_edit
  (MkPostTransactionRequest None (Some spec0)) 77%Z session0.

Lemma post_shows_request_witness :
  exists so t out g, lunch_edit = (so, Ret (t, out)) /\
    Forall2 split_shows (Transaction_splits spec0) (Transaction_splits out) /\
    see_transaction (book_load (book_store (xaccTransCommitEdit t (qof so)))) g = Some out.
Proof.
  assert (match lunch_edit.2 with Ret _ => true | _ => false end = true) as Hb
    by (vm_compute; reflexivity).
  destruct lunch_edit as [so [[t out]|e|]] eqn:Hrun; [|discriminate Hb..].
  assert (holds_exactly (qof session0) 77%Z spec0 None) as Hh
    by (eapply holds_whole; [reflexivity|cbn; lia|vm_compute; reflexivity]).
  destruct (post_shows_request (MkPostTransactionRequest None (Some spec0)) 77%Z session0 so
    t out Hrun Hh) as (_ & Hsplits & Hstored).
  destruct Hstored as (g & _ & _ & Hsee).
  - split; [reflexivity|]. split; [discriminate|]. split; [reflexivity|exact contents0_wf].
  - split_and!; vm_compute; reflexivity.
  - split; [exact Hh|]. intros plan. apply sums_by. vm_compute. reflexivity.
  - exists so, t, out, g. split; [reflexivity|]. split; [exact Hsplits|exact Hsee].
Defined.

Definition dinner_edit := UpdateTransaction_edit
  (MkUpdateTransactionRequest None (Some spec1)) 78%Z session1.

Lemma book1_tidy : tidy (qof session1) (1 : TransactionPtr).
Proof.
  split.
  - apply (bool_decide_unpack _). vm_compute. exact I.
  - assert (Forall (fun x => xaccSplitGetParent (qof session1) x = 1 /\
      split_destroying (qof session1) x = false)
      (xaccTransGetSplitList (qof session1) 1)) as Hall
      by (apply (bool_decide_unpack _); vm_compute; exact I).
    by rewrite Forall_forall in Hall.
Qed.

Lemma update_shows_request_witness :
  exists so out g l, dinner_edit = (so, Ret (1 : TransactionPtr, out)) /\
    l ≡ₚ Transaction_splits out /\ Forall2 split_shows (Transaction_splits spec1) l /\
    see_transaction (book_load (book_store (xaccTransCommitEdit (1 : TransactionPtr) (qof so))))
      g = Some out.
Proof.
  assert (match dinner_edit.2 with Ret p => bool_decide (p.1 = 1) | _ => false end = true)
    as Hb by (vm_compute; reflexivity).
  destruct dinner_edit as [so [[t out]|e|]] eqn:Hrun; [|discriminate Hb..].
  apply bool_decide_eq_true in Hb. cbn [fst] in Hb. subst t.
  assert (holds_exactly (qof session1) 78%Z spec1 (Some (1 : TransactionPtr))) as Hh
    by (eapply holds_whole; [reflexivity|cbn; lia|vm_compute; reflexivity]).
  destruct (update_shows_request (MkUpdateTransactionRequest None (Some spec1)) 78%Z session1
    so _ out Hrun book1_tidy Hh) as (_ & _ & (l & Hl & Hall) & Hstored).
  destruct Hstored as (g & _ & Hsee).
  - split; [vm_compute; reflexivity|]. split; [vm_compute; discriminate|].
    split; [vm_compute; reflexivity|]. apply wf_by. vm_compute. reflexivity.
  - split; [exact Hh|]. intros plan. apply sums_by. vm_compute. reflexivity.
  - exists so, out, g, l. split; [reflexivity|]. split; [exact Hl|].
    split; [exact Hall|exact Hsee].
Defined.

(** ** Accounts and prices *)
Definition move_edit := UpdateAccount_edit move_bank 0%Z session0.

Lemma account_shows_request_witness :
  exists so p, move_edit = (so, Ret p) /\
    string_to_guid (guid_of 4) = string_to_guid (Account_parent_guid p.2) /\
    Account_name p.2 = "Bank".
Proof.
  assert (match move_edit.2 with Ret _ => true | _ => false end = true) as Hb
    by (vm_compute; reflexivity).
  destruct move_edit as [so [p|e|]] eqn:Hrun; [|discriminate Hb..].
  exists so, p. split; [reflexivity|].
  destruct (account_shows_request 0%Z session0 so) as (_ & Hupdate & _).
  destruct (Hupdate move_bank p Hrun) as [_ [Hparent Hname _ _ _ _ _ _]].
  split; [|exact Hname]. rewrite <- Hparent. vm_compute. reflexivity.
Defined.

Definition quote_edit := AddPrice_edit quote 0%Z session0.

Lemma add_price_shows_request_witness :
  exists so p, quote_edit = (so, Ret p) /\
    Price_date p.2 = Some (MkDate 2024 2 29) /\
    Price_value p.2 = Some (MkNumeric 4210 100).
Proof.
  assert (match quote_edit.2 with Ret _ => true | _ => false end = true) as Hb
    by (vm_compute; reflexivity).
  destruct quote_edit as [so [p|e|]] eqn:Hrun; [|discriminate Hb..].
  exists so, p. split; [reflexivity|].
  destruct (add_price_shows_request quote 0%Z session0 so p Hrun) as [_ _ Hd Hv _].
  - intros d [= <-]. cbn. lia.
  - exact I.
  - split; [exact Hd|exact Hv].
Defined.

(** ** Pages *)
Lemma query_page_bounds_witness :
  exists s' r, QuerySplits_fn food_query session1 = (s', Ret r) /\
    length (QuerySplitsResponse_splits r) = 1 /\
    QuerySplitsResponse_next_page_token r = last_guid (QuerySplitsResponse_splits r).
Proof.
  assert (match QuerySplits_fn food_query session1 with
    | (_, Ret r) => bool_decide (QuerySplitsResponse_next_page_token r <> "")
    | _ => false end = true) as Hb by (vm_compute; reflexivity).
  destruct (QuerySplits_fn food_query session1) as [s' [r|e|]] eqn:Hrun;
    [|discriminate Hb..].
  apply bool_decide_eq_true in Hb. exists s', r. split; [reflexivity|].
  destruct (query_page_bounds food_query session1 s' r Hrun)
    as (_ & _ & _ & Htok).
  destruct (Htok Hb) as [Hlen Hlast]. split; [|exact Hlast].
  apply (inj Z.of_nat). rewrite Hlen. reflexivity.
Defined.

(** ** The journal of the lunch that crashed *)
Lemma journal_stays_typed_witness :
  journal_typed (calls lunch) (journal answered) /\
  is_Some (applied (journal answered) !! id1).
Proof.
  split; [|apply (bool_decide_unpack _); vm_compute; exact I].
  apply (journal_stays_typed lunch lunch_keyed daemon0 _ answered crash_run).
  split; [reflexivity|..]; intros id x Hx; cbn in Hx; rewrite lookup_empty in Hx;
    discriminate Hx.
Defined.

(** ** A request in thirds

    The check of [PlanTransaction] is exact, the engine's values are in cents: the
    post goes on, the answer is in cents, and the engine's own sum is not zero. *)
Definition thirds (a : nat) (n : Z) : Split :=
  MkSplit "" (guid_of a) (Some (MkNumeric n 3)) (Some (MkNumeric n 3)) "" ""
    RECONCILE_STATE_CLEARED.
Definition thirds_edit := PostTransaction_edit
  (MkPostTransactionRequest None (Some
     (MkTransaction "" (Some (MkCommodityId "CURRENCY" "USD")) (Some (MkDate 2024 2 29)) 0
        "" "Thirds" [thirds 3 (-2); thirds 4 1; thirds 4 1]))) 77%Z session0.

Example thirds_unbalanced_in_cents :
  exists so p, thirds_edit = (so, Ret p) /\
    (Split_value <$> Transaction_splits p.2) =
      [Some (MkNumeric (-67) 100); Some (MkNumeric 33 100); Some (MkNumeric 33 100)] /\
    xaccTransGetImbalanceValue (qof so) p.1 = gnc_numeric_create (-1) 100.
Proof.
  assert (match thirds_edit with
    | (so, Ret p) => bool_decide ((Split_value <$> Transaction_splits p.2) =
        [Some (MkNumeric (-67) 100); Some (MkNumeric 33 100); Some (MkNumeric 33 100)] /\
        xaccTransGetImbalanceValue (qof so) p.1 = gnc_numeric_create (-1) 100)
    | _ => false end = true) as Hb by (vm_compute; reflexivity).
  destruct thirds_edit as [so [p|e|]]; [|discriminate Hb..].
  apply bool_decide_eq_true in Hb. by exists so, p.
Qed.
