(* ===== verification/LifecycleWitnesses.v ===== *)
(** * A deployment at work

    One book and one journal under three processes: the first dies after the
    engine commit of a post, the second finds it applied, answers the client
    from the journal and is shut down; and one that dies before the commit,
    after which the next process reports the mutation as indeterminate. *)
From S2P Require Import Prelude.
From S2P Require Import Messages.
From S2P Require Import Engine.
From S2P Require Import Errors.
From S2P Require Import Map.
From S2P Require Import Worker.
From S2P Require Import Journal.
From S2P Require Import Session.
From S2P Require Import Mutation.
From S2P Require Import Rpc.
From S2P Require Import Startup.
From S2P Require Import Protocol.
From S2P Require Import Contract.
From S2P Require Import Lifecycle.
From S2P Require Import Mkbook.
From S2P Require Import MemoryEngine.
From S2P Require Import MemoryStore.
From S2P Require Import MemorySession.
From S2P Require Import Codec.
From S2P Require Import Witnesses.
From S2P Require Import EngineWitnesses.
From S2P Require Import DaemonWitnesses.

(** The machine on which a process starts. *)
Definition machine_on (d : contents) (j : Journal) : Machine :=
  MkMachine (MkLockState (fun _ => true) (fun _ => true) ∅ [] (fun _ => true) ∅) fs0
    (MkConn (MkDbFile (Some (intents j)) (Some (applied j))) false [])
    (MkMemBook contents0 d false 0) 7%Z (2024, 2, 29)%Z None.

Lemma machine_boots d j : boots d j (machine_on d j).
Proof. done. Qed.

Definition started (m : Machine) : World Session :=
  match (startup options0 m).2 with Ret p => p.1 | _ => daemon0 end.

Definition starts_with (n : nat) (m : Machine) : bool :=
  match (startup options0 m).2 with Ret p => bool_decide (p.2 = n) | _ => false end.

Lemma starts m n :
  starts_with n m = true ->
  startup options0 m = ((startup options0 m).1, Ret (started m, n)).
Proof.
  unfold starts_with, started. destruct (startup options0 m) as [m' [[w k]|e|]]; cbn;
    [|done..]. by intros ->%bool_decide_eq_true.
Qed.

Definition journal_new : Journal := MkJournal ∅ ∅ true [].

Lemma home_first : first_site contents0 journal_new.
Proof.
  split; [|done]. exists (MkMemBook contents0 contents0 false 0).
  split; [split; [done|apply contents0_wf]|done].
Qed.

(** The first process, and its death after the commit. *)
Definition up1 : World Session := started (machine_on contents0 journal_new).
Definition down1 : World Session :=
  (serve (lunch id1) (at_request queue0 8 (Some "after_apply") up1)).1.
(** The second, its answer, and its shutdown. *)
Definition up2 : World Session :=
  started (machine_on (disk (engine down1)) (journal down1)).
Definition done2 : World Session :=
  (serve (lunch id1) (at_request queue0 10 None up2)).1.
Definition told2 : string :=
  reply_bytes (serve (lunch id1) (at_request queue0 10 None up2)).2.
Definition down2 : World Session := (shutdown None (at_request queue0 11 None done2)).1.

Lemma lunch_fits1 : request_fits lunch id1 (engine up1).
Proof.
  apply lunch_fits_at; [intros now; vm_compute; reflexivity|].
  split_and!; vm_compute; reflexivity.
Qed.

Lemma lunch_fits2 : request_fits lunch id1 (engine up2).
Proof.
  apply lunch_fits_at; [intros now; vm_compute; reflexivity|].
  split_and!; vm_compute; reflexivity.
Qed.

Definition site_run : list event :=
  [Started 0; Died_; Started 0; Answered id1 Status_OK (Some told2); Exited 0].

Lemma home_run :
  lstar (site_step lunch (request_fits lunch) sound_disk) (Stopped contents0 journal_new) site_run (leaves down2).
Proof.
  eapply lstar_cons with (b := Serving up1).
  { eapply (site_start _ _ _ _ _ options0); [reflexivity|apply machine_boots|reflexivity|].
    apply starts. vm_compute. reflexivity. }
  eapply lstar_cons with (b := leaves down1).
  { eapply (site_die _ _ _ up1 id1); [apply lunch_fits1|by_run down1]. }
  eapply lstar_cons with (b := Serving up2).
  { eapply (site_start _ _ _ _ _ options0); [reflexivity|apply machine_boots|reflexivity|].
    apply starts. vm_compute. reflexivity. }
  eapply lstar_cons with (b := Serving done2).
  { eapply (site_mutate _ _ _ up2 id1); [apply lunch_fits2|by_run done2]. }
  eapply lstar_cons; [|constructor].
  eapply (site_exit _ _ _ done2 None). by_run down2.
Qed.

(** A death before the pending record, and the next start. *)
Definition lost1 : World Session :=
  (serve (lunch id1) (at_request queue0 8 (Some "after_intent") up1)).1.
Definition up3 : World Session :=
  started (machine_on (disk (engine lost1)) (journal lost1)).

Lemma lost_run :
  lstar (site_step lunch (request_fits lunch) sound_disk) (Stopped contents0 journal_new) [Started 0; Died_; Started 1]
    (Serving up3).
Proof.
  eapply lstar_cons with (b := Serving up1).
  { eapply (site_start _ _ _ _ _ options0); [reflexivity|apply machine_boots|reflexivity|].
    apply starts. vm_compute. reflexivity. }
  eapply lstar_cons with (b := leaves lost1).
  { eapply (site_die _ _ _ up1 id1); [apply lunch_fits1|by_run lost1]. }
  eapply lstar_cons; [|constructor].
  eapply (site_start _ _ _ _ _ options0); [reflexivity|apply machine_boots|reflexivity|].
  apply starts. vm_compute. reflexivity.
Qed.

Lemma site_refines_atomic_service_witness :
  exists s, lstar (daemon_spec lunch) (spec_init (disk session0))
      [Crashed; Crashed; Replied id1 Status_OK (Some told2)] s /\
    shows (leaves down2) s.
Proof.
  destruct (site_refines_atomic_service lunch lunch_keyed _ _ _ _
    home_first home_run) as (s & Hs & Hx).
  exists s. split; [exact Hs|exact Hx].
Defined.

Lemma site_exactly_once_witness :
  exists s, shows (leaves down2) s /\ NoDup (log s) /\ id1 ∈ log s.
Proof.
  destruct (site_exactly_once lunch lunch_keyed _ _ _ _
    home_first home_run) as (s & _ & Hx & Hnd & Hok).
  exists s. split; [exact Hx|]. split; [exact Hnd|].
  apply (Hok id1 Status_OK (Some told2)); [|reflexivity].
  do 3 apply list_elem_of_further. apply list_elem_of_here.
Defined.

Lemma site_indeterminate_witness :
  exists s entries, same_store (book_of up3) (spec_book s) /\
    ListIndeterminate (journal up3) = (journal up3, Ret entries) /\
    (id1 ∈ (ie_mutation_id <$> entries) -> id1 ∉ log s).
Proof.
  destruct (site_indeterminate lunch lunch_keyed _ _ _ up3
    home_first lost_run) as (s & entries & _ & Hb & Hl & Hno).
  exists s, entries. split; [exact Hb|]. split; [exact Hl|apply Hno].
Defined.

(** After the death of the first process the next one serves. *)
Lemma death_run :
  lstar (site_step lunch (request_fits lunch) sound_disk) (Stopped contents0 journal_new) [Started 0; Died_]
    (Stopped (disk (engine down1)) (journal down1)).
Proof.
  eapply lstar_cons with (b := Serving up1).
  { eapply (site_start _ _ _ _ _ options0); [reflexivity|apply machine_boots|reflexivity|].
    apply starts. vm_compute. reflexivity. }
  eapply lstar_cons; [|constructor].
  eapply (site_die _ _ _ up1 id1); [apply lunch_fits1|by_run down1].
Qed.

Definition next_machine : Machine :=
  machine_on (disk (engine down1)) (journal down1).
Definition prepared : World Session :=
  match (prepare options0 next_machine).2 with Ret w => w | _ => daemon0 end.

Lemma prepares :
  prepare options0 next_machine = ((prepare options0 next_machine).1, Ret prepared).
Proof.
  assert (match (prepare options0 next_machine).2 with Ret _ => true | _ => false end = true)
    as Hok by (vm_compute; reflexivity).
  unfold prepared. destruct (prepare options0 next_machine) as [m [w|e|]];
    [reflexivity|discriminate Hok..].
Qed.

Lemma reopened_passes :
  RunStartupChecks (Open (engine prepared)).1 = ((Open (engine prepared)).1, Ret tt).
Proof.
  destruct (RunStartupChecks_reads (Open (engine prepared)).1) as (r & Hr & _).
  assert ((RunStartupChecks (Open (engine prepared)).1).2 = Ret tt) as Hok
    by (vm_compute; reflexivity).
  rewrite Hr in Hok. cbn [snd] in Hok. by rewrite Hr, Hok.
Qed.

Lemma site_restarts_witness :
  exists m w n, startup options0 next_machine = (m, Ret (w, n)).
Proof.
  destruct (site_restarts lunch lunch_keyed _ _ _ _ _ options0 next_machine
    (prepare options0 next_machine).1 prepared (Open (engine prepared)).1
    home_first death_run) as (m & w & n & Hs & _).
  - reflexivity.
  - apply machine_boots.
  - reflexivity.
  - exact prepares.
  - apply by_result. vm_compute. reflexivity.
  - exact reopened_passes.
  - vm_compute. reflexivity.
  - exists m, w, n. exact Hs.
Defined.

(** A process from its command line to its exit code. *)
Definition command_line : list Opt :=
  [OptBackupDir "/backup"; OptQueueDepth "4"; OptSocket "/run/daichod.sock";
   OptBookUri "sqlite3:///books/home.gnucash"; OptBackupKeepDays "2";
   OptJournal home_journal].

Lemma run_exit_code_witness :
  exists m w, main command_line id None (machine_on contents0 journal_new)
      = (m, Ret (w, 0%Z)) /\
    session_ (engine w) = None /\ "/run/daichod.sock" ∉ sockets (locks m).
Proof.
  pose proof (run_exit_code command_line id None (machine_on contents0 journal_new)) as Hrun.
  assert (ParseOptions command_line = inr options0) as Hopts by (vm_compute; reflexivity).
  rewrite Hopts, (starts _ 0) in Hrun by (vm_compute; reflexivity).
  destruct Hrun as (m & w & code & Hr & Hs & _ & _ & _ & Hsock & _ & _ & [_ Hcode] & _).
  { vm_compute. reflexivity. }
  { eexists. vm_compute. reflexivity. }
  exists m, w. split; [|split; [exact Hs|exact Hsock]].
  rewrite Hr, Hcode; [reflexivity|]. vm_compute. reflexivity.
Defined.

(** The book the tool makes, from nothing. *)
Definition blank : contents := MkContents 0 ∅ ∅ ∅ ∅.
Definition tool0 : Tool := MkTool _ _ (MkMemBook blank blank false 0) "" "".
Definition tool1 : Tool := (mkbook ["mkbook"; stored_at] tool0).1.

Lemma makes_book : mkbook ["mkbook"; stored_at] tool0 = (tool1, Ret 0%Z).
Proof. by_run tool1. Qed.

Lemma mkbook_makes_servable_book_witness :
  first_site (book_store (lib tool1)) journal_new /\ stdout tool1 <> "".
Proof.
  destruct (mkbook_makes_servable_book "mkbook" tool0 tool1 journal_new makes_book)
    as [Hf _].
  - reflexivity.
  - reflexivity.
  - reflexivity.
  - split; [exact Hf|]. vm_compute. discriminate.
Defined.
