(* ===== verification/ConcurrentWitnesses.v ===== *)
(** * Two callers at once

    The daemon starts; two callers send the same mutation before either is
    served; the engine thread posts it for the first and answers the second from
    the journal; a third caller asks for the splits in between; then the daemon
    is shut down. *)
From S2P Require Import Prelude.
From S2P Require Import Messages.
From S2P Require Import Engine.
From S2P Require Import Errors.
From S2P Require Import Map.
From S2P Require Import Worker.
From S2P Require Import Journal.
From S2P Require Import Session.
From S2P Require Import Mutation.
From S2P Require Import Rpc.
From S2P Require Import Startup.
From S2P Require Import Protocol.
From S2P Require Import Contract.
From S2P Require Import Requests.
From S2P Require Import Typing.
From S2P Require Import Lifecycle.
From S2P Require Import Concurrent.
From S2P Require Import Linearizable.
From S2P Require Import Readback.
From S2P Require Import SiteTypes.
From S2P Require Import FailingDisk.
From S2P Require Import Signals.
From S2P Require Import MemoryEngine.
From S2P Require Import MemoryStore.
From S2P Require Import MemorySession.
From S2P Require Import Codec.
From S2P Require Import Witnesses.
From S2P Require Import EngineWitnesses.
From S2P Require Import DaemonWitnesses.
From S2P Require Import LifecycleWitnesses.

(** Two callers queue up; the engine thread serves the first, a third caller
    pings meanwhile, the engine thread serves the second; all return. *)
Definition schedule : list move :=
  [NewCall (Mutate id1); NewCall (Mutate id1); NewCall (Inquire (AskPing 0 9));
   Enter 1 8 None; Enter 0 8 None; EngineThread 8 None; Enter 2 8 None;
   EngineThread 8 None; EngineThread 9 None; Return_ 1; EngineThread 9 None;
   Return_ 0; Return_ 2].

Definition opened : Server := serving up1 0.
Definition played : list (action * Server) := play_all lunch opened schedule.
Definition settled_down : Server := final opened played.

(** Room for GUIDs, decided. *)
Definition room_b (b : mem_book) : bool :=
  bool_decide (mem_room b).

(** Whenever the lunch's turn comes it fits. *)
Definition lunch_fits_b (id : string) (now : Z) (s : Session) : bool :=
  lunch_balanced id now s && room_b (qof s).

Lemma lunch_fits_split id now s :
  lunch_fits_b id now s = true -> lunch_balanced id now s = true /\ mem_room (qof s).
Proof.
  unfold lunch_fits_b, room_b. rewrite andb_true_iff, bool_decide_eq_true. done.
Qed.

Lemma lunch_fits_by s :
  (forall id now, lunch_fits_b id now s = true) -> forall c, command_fits (request_fits lunch) c s.
Proof.
  intros Hb [id| |]; [|exact I|exact I]. unfold command_fits, request_fits.
  apply lunch_fits_at.
  - intros now. exact (proj1 (lunch_fits_split _ _ _ (Hb id now))).
  - exact (proj2 (lunch_fits_split _ _ _ (Hb id 0%Z))).
Qed.

Lemma all_fit (l : list Server) :
  (forall id now, forallb (fun y => lunch_fits_b id now (book_session y)) l = true) ->
  Forall (fun y => forall c, command_fits (request_fits lunch) c (book_session y)) l.
Proof.
  intros Hb. apply Forall_forall. intros y Hy. apply lunch_fits_by. intros id now.
  specialize (Hb id now). rewrite forallb_forall in Hb. by apply Hb, list_elem_of_In.
Qed.

(** Mutations that fit, on a journal whose statements succeed. *)
Local Abbreviation fitting_live := (live_step lunch (request_fits lunch) sound_disk).

Lemma schedule_fits :
  Forall (fun y => forall c, command_fits (request_fits lunch) c (book_session y))
    (opened :: played.*2).
Proof. apply all_fit. intros id now. vm_compute. reflexivity. Qed.

(** The deployment: a start, the schedule, an exit. *)
Lemma opens :
  fitting_live (Down contents0 journal_new 0) (Outside (Started 0)) (Up opened).
Proof.
  apply live_start. eapply (site_start _ _ _ _ _ options0);
    [reflexivity|apply machine_boots|reflexivity|].
  apply starts. vm_compute. reflexivity.
Qed.

Definition busy_run : list action := Outside (Started 0) :: played.*1.

Lemma opened_inv : server_inv lunch (max_depth_ (queue up1)) opened.
Proof. exact (serving_inv lunch up1 0). Qed.

Lemma plays : lstar fitting_live (Up opened) played.*1 (Up settled_down).
Proof.
  unfold settled_down, played. apply (play_all_live lunch _ _ _ opened schedule opened_inv).
  exact schedule_fits.
Qed.

Lemma busy : lstar fitting_live (Down contents0 journal_new 0) busy_run (Up settled_down).
Proof.
  unfold busy_run. eapply lstar_cons; [apply opens|apply plays].
Qed.

(** The reply of a call. *)
Definition reply_of (n : nat) (acts : list action) : option Reply :=
  head (omap (fun a => match a with Got m _ r => if decide (m = n) then Some r else None
                                  | _ => None end) acts).
Definition told0 : Reply := default (Status_OK, None) (reply_of 0 busy_run).
Definition told1 : Reply := default (Status_OK, None) (reply_of 1 busy_run).

Lemma both_acknowledged : status_code told0.1 = OK /\ status_code told1.1 = OK.
Proof. vm_compute. done. Qed.

Lemma both_got :
  Got 0 (Mutate id1) told0 ∈ busy_run /\ Got 1 (Mutate id1) told1 ∈ busy_run.
Proof.
  split.
  - apply (list_elem_of_lookup_2 _ 12). vm_compute. reflexivity.
  - apply (list_elem_of_lookup_2 _ 10). vm_compute. reflexivity.
Qed.

Lemma concurrent_calls_linearizable_witness :
  (forall n, in_order n busy_run) /\
  exists s, lstar (daemon_spec lunch) (spec_init (disk session0))
      (concat (heard <$> effects busy_run)) s /\ live_shows (Up settled_down) s.
Proof.
  destruct (concurrent_calls_linearizable lunch lunch_keyed _ _ _ _ _ _ busy)
    as (Ho & _ & Hatomic).
  destruct (Hatomic home_first) as (s & Hs & Hl); [intros id s Hs; exact Hs|done|].
  split; [exact Ho|]. exists s. split; [exact Hs|exact Hl].
Defined.

Lemma concurrent_exactly_once_witness :
  exists s, live_shows (Up settled_down) s /\ NoDup (log s) /\ id1 ∈ log s /\
    shown_bytes told0.2 = shown_bytes told1.2.
Proof.
  destruct (concurrent_exactly_once lunch lunch_keyed _ _ _ _ home_first busy)
    as (s & _ & Hl & Hnd & Hok).
  destruct both_got as [H0 H1], both_acknowledged as [O0 O1].
  destruct (Hok 1 id1 told1 H1 O1) as [Hin Hsame].
  exists s. split; [exact Hl|]. split; [exact Hnd|]. split; [exact Hin|].
  exact (proj2 (Hsame 0 told0 H0 O0)).
Defined.

Lemma final_close_admitted_witness :
  exists w exit_code,
    shutdown None (world_of settled_down (found_now settled_down) 11 None) =
      (w, Ret exit_code) /\ session_ (engine w) = None.
Proof.
  destruct (final_close_admitted lunch _ _ _ _ _ _ None 11 None busy)
    as (_ & w & code & Hs & Hn & _).
  - vm_compute. reflexivity.
  - exists w, code. split; [exact Hs|exact Hn].
Defined.

(** A SIGTERM that comes while the daemon starts: it stays pending, and the
    daemon goes through its startup, its shutdown and its end. *)
Definition masked0 : Kernel := block 0 Signals.signals (MkKernel [∅] ∅).
Definition told0_to_stop : Kernel :=
  MkKernel (masks masked0) ({[ SIGTERM ]} ∪ pending masked0).
Definition boot_machine : Machine := machine_on contents0 journal_new.
Definition listening0 : Daemon :=
  MkDaemon opened (startup options0 boot_machine).1 Listening NotMade false
    (spawn 0 told0_to_stop).

Lemma boots_and_listens :
  star (any_step lunch options0 boot_machine None) (begin ∅) (Alive listening0).
Proof.
  eapply star_step; [left; eapply own_mask|].
  eapply star_step; [right; eapply outside_signal_booting with (s := SIGTERM)|].
  - by left.
  - apply kill_masked; [apply block_masks|by left].
  - apply star_one. left. eapply own_start. apply (starts _ 0). vm_compute. reflexivity.
Qed.

Lemma listening_asked : asked (Alive listening0).
Proof. left. cbn. set_solver. Qed.

Lemma graceful_shutdown_witness :
  Acc (fun c b => own lunch options0 boot_machine None b c) (Alive listening0) /\
  forall s, ~ star (any_step lunch options0 boot_machine None) (Alive listening0)
                (Terminated s).
Proof.
  destruct (graceful_shutdown lunch options0 boot_machine None _ _ boots_and_listens
    listening_asked) as (Hno & Hacc & _).
  split; [exact Hacc|]. intros s Hs. exact (Hno _ s Hs eq_refl).
Defined.

Lemma listening_finishes :
  exists code m w, star (any_step lunch options0 boot_machine None) (begin ∅)
    (Finished code m w).
Proof.
  destruct (idle_finishes lunch options0 boot_machine None listening0) as (code & m & w & Hs).
  { split; [|split; [exact listening_asked|reflexivity]].
    exact (any_inv lunch options0 boot_machine None _ _ boots_and_listens). }
  exists code, m, w. eapply star_trans; [exact boots_and_listens|by apply star_own_any].
Qed.

Lemma process_refines_run_daemon_witness :
  exists code m w x, run_daemon options0 (fun _ => x) None boot_machine = (m, Ret (w, code)) /\
    (code = 0%Z <-> (Close None (engine x)).2 = Ret tt).
Proof.
  destruct listening_finishes as (code & m & w & Hs).
  destruct (process_refines_run_daemon lunch options0 boot_machine None _ _ _ _ Hs)
    as (m1 & w1 & n & acts & x & now & cp & _ & _ & _ & _ & Hrun & Hcode).
  exists code, m, w, (world_of x (found_now x) now cp). split; [exact Hrun|exact Hcode].
Defined.

(** Of all ids the journal has an answer for one. *)
Lemma answers_of_busy : dom (applied (sidecar settled_down)) = {[ id1 ]}.
Proof. apply (bool_decide_unpack _). vm_compute. exact I. Qed.

Lemma no_answer_but id :
  id <> id1 -> (GetOutcome id (sidecar settled_down)).2 = Ret None.
Proof.
  intros Hne. rewrite GetOutcome_calm by (vm_compute; reflexivity).
  assert (applied (sidecar settled_down) !! id = None) as Hn.
  { apply not_elem_of_dom. rewrite answers_of_busy. intros Hin. apply Hne.
    exact (proj1 (elem_of_singleton _ _) Hin). }
  rewrite Hn. reflexivity.
Qed.

Lemma log_of_busy (s : Spec) :
  live_shows (Up settled_down) s -> log_exact s -> forall id, id ∈ log s -> id = id1.
Proof.
  intros [_ Hout] [_ Hlog] id Hin. destruct (decide (id = id1)) as [E|Hne]; [exact E|].
  apply Hlog in Hin as (o & Ho & _). pose proof (no_answer_but id Hne) as Hno.
  rewrite Hout in Hno. cbn [snd] in Hno. rewrite Ho in Hno. discriminate.
Qed.

Lemma only_one {A} (x : A) l l' : NoDup (l ++ x :: l') -> (forall y, y ∈ l ++ x :: l' -> y = x) ->
  l = [].
Proof.
  destruct l as [|y l]; [done|]. intros [Hnot _]%NoDup_cons Hall. exfalso. apply Hnot.
  assert (y = x) as -> by apply Hall, list_elem_of_here.
  apply elem_of_app. right. apply list_elem_of_here.
Qed.

(** The transaction both callers were told of is what a fourth one reads. *)
Lemma read_your_writes_witness :
  exists (out : Transaction),
    shown_bytes told0.2 = Some (SerializeAsString out) /\
    inquire (AskTransaction (Transaction_guid out)) (world_of settled_down queue0 12 None) =
      (world_of settled_down queue0 12 None, Ret (Status_OK, Some (ShownTransaction out))).
Proof.
  destruct (read_your_writes lunch _ _ _ _ lunch_keyed home_first busy)
    as (s & _ & Hshows & Hexact & Hall).
  destruct both_got as [H0 _], both_acknowledged as [O0 _].
  destruct (Hall _ _ _ H0 O0) as (out & later & earlier & _ & Hb & Hl & Hread).
  assert (later = []) as ->.
  { apply (only_one id1 later earlier).
    - rewrite <- Hl. exact (proj1 Hexact).
    - intros id Hin. rewrite <- Hl in Hin. exact (log_of_busy s Hshows Hexact id Hin). }
  change Transaction in out.
  assert (session_ (book_session settled_down) <> None) as Hopen.
  { vm_compute. discriminate. }
  destruct (Hread (fun id' out' Hin => False_ind _ (not_elem_of_nil id' Hin))
    (AskTransaction (Transaction_guid out)) queue0
    (MkEngineWorker [tt] 4 false) 12%Z None eq_refl Hopen eq_refl) as (reply & Hrun & Hreply).
  exists out. split; [exact Hb|]. rewrite Hrun. f_equal. f_equal. exact Hreply.
Defined.

(** The schedule up to where both mutations wait. *)
Definition both_wait : Server := final opened (play_all lunch opened (firstn 7 schedule)).

Lemma waiting_run :
  lstar (server_step lunch) opened (play_all lunch opened (firstn 7 schedule)).*1 both_wait.
Proof. exact (play_all_server lunch _ opened _ opened_inv). Qed.

Lemma every_call_answered_witness :
  Acc (fun y x => own_step lunch x y) both_wait.
Proof. apply (every_call_answered lunch up1 0 _ both_wait waiting_run). Defined.

Lemma deployment_journal_typed_witness :
  journal_typed (calls lunch) (journal_of (Up settled_down)).
Proof.
  apply (deployment_journal_typed lunch lunch_keyed _ _ _ _ _ home_first busy).
Defined.

(** The same schedule while the disk fails at the first outcome's record: the
    first caller is told of the journal, the second, with the same id, of success. *)
Definition struck : Server :=
  set_sidecar (set_faults [None; None; None; Some (MkSqlFault "disk I/O error" "step")]
    (sidecar opened)) opened.
Definition struck_played : list (action * Server) := play_all lunch struck schedule.
Definition recovered_server : Server := final struck struck_played.
Definition rough_acts : list action := Outside (Started 0) :: Silent :: struck_played.*1.

Lemma struck_inv : server_inv lunch (max_depth_ (queue up1)) struck.
Proof. destruct opened_inv. by split. Qed.

Lemma rough_run_of :
  lstar (rough_live lunch) (Down contents0 journal_new 0) rough_acts (Up recovered_server).
Proof.
  unfold rough_acts. eapply lstar_cons.
  { eapply (rough_start lunch _ _ _ options0).
    - exact (proj2 (machine_boots contents0 journal_new)).
    - apply starts. vm_compute. reflexivity. }
  eapply lstar_cons; [apply (rough_disk lunch opened)|].
  apply rough_serves. exact (play_all_server lunch _ struck schedule struck_inv).
Qed.

Definition struck_told (n : nat) : Reply := default (Status_OK, None) (reply_of n rough_acts).

Lemma struck_replies :
  status_code (struck_told 1).1 = INTERNAL /\ status_code (struck_told 0).1 = OK /\
  Got 0 (Mutate id1) (struck_told 0) ∈ rough_acts.
Proof.
  split_and!; [vm_compute; reflexivity..|].
  apply (list_elem_of_lookup_2 _ 13). vm_compute. reflexivity.
Qed.

Lemma deployment_acknowledged_for_good_witness :
  status_code (struck_told 0).1 = OK /\
  forall m reply', Got m (Mutate id1) reply' ∈ rough_acts -> status_code reply'.1 = OK ->
    reply' = struck_told 0.
Proof.
  destruct struck_replies as (_ & Hok & Hgot). split; [exact Hok|].
  exact (proj1 (deployment_acknowledged_for_good lunch lunch_keyed _ _ _ _ 0 id1
    (struck_told 0) rough_run_of Hgot Hok)).
Defined.
